(* ===== verification/_CoqProject ===== *)
-Q . S2P
Prelude.v
Hoare.v
CString.v
Mutex.v
Store.v
Scanner.v
Numbers.v
Printf.v
KeyFile.v
Snapshot.v
Options.v
Handlers.v
Protocol.v
Words.v
Connection.v
Isolation.v
Lifecycle.v
Invariant.v
