(* ===== verification/Prelude.v ===== *)
(** * udb: a verification development for the udb key-value server

    The program (src/udb.c) is a single-process key-value store served over
    a unix stream socket.  A GLib main loop runs every callback of the
    program on one thread: [on_incoming] registers a line reader for each
    accepted connection, [on_line_read] handles one request line
    ([process_command_line] tokenises it with the process-wide [GScanner]
    and dispatches to [udb_handle_get], [udb_handle_set] or
    [udb_handle_del], which call [db_lookup], [db_insert], [db_remove] on
    the process-wide [GHashTable]) and writes the reply; a timer
    ([on_db_save_timeout]) and the idle callback [on_check_sigint] dump
    the table to a key file with [db_save_to_file]; [main] loads it at
    start with [db_load_from_file].

    ** Files, in dependency order

    - [Prelude] (this file): the outcome type ([Ok], or the faults
      [Deadlock] and [Undefined]) and the state monad [ST] every stateful
      operation of the program is written in, its notation (scope
      [udb_scope]), the combinator [zoom] that lifts an operation on a
      component's state to the state of the whole process, the pointer
      type [handle], the tactics [st_simpl] and [case_outcome], the hint
      database [udb], and the laws of the monad.
    - [Hoare]: weakest preconditions for [ST] ([wp], [hoare]) with one
      rule per combinator of the monad, the tactic [wp_step] and the
      hint database [wp]; the invariants of the later files are proved
      with them.
    - [CString]: the C-string operations the source calls ([strlen],
      [g_str_has_suffix], [g_ascii_strcasecmp], the [printf] conversions
      [%d] and [%ld]) on [string], with machine-width integers kept as
      [Z] and their wrap-around written out ([wrap64], [signed64]).
    - [Mutex]: [GMutex] as a three-state value with [g_mutex_init],
      [g_mutex_lock], [g_mutex_unlock] and [g_mutex_clear]; locking a
      held mutex is the fault [Deadlock] (a [GMutex] is not recursive and
      the process has one thread).
    - [Store]: the store of src/udb.c lines 35-55 and 157-187: the
      globals [db_mem] and [db_mutex] as the record [db_state], and
      [db_init], [db_insert], [db_lookup], [db_remove], [db_deinit]; the
      contract of a store as the class [StoreImpl], which [db_store]
      implements.
    - [Scanner]: the scanner of lines 207-243: the globals [udb_scanner]
      and [scanner_mutex], [udb_scanner_init] with the configuration it
      assigns field by field ([udb_scanner_config]), and GLib's token
      reader ([g_scanner_get_token_ll], [g_scanner_get_token_i]) for
      identifiers, quoted strings with their escapes, numbers in the
      four bases, floats and comments.
    - [Numbers]: the decimal numerals ([pretty]) through the token
      reader: the digits, [g_ascii_strtoull] with its saturation, and
      the token [G_TOKEN_INT] they are read as.
    - [Printf]: a model of [%g] on the value of a decimal literal, the
      instance of the class [FloatFormat] the examples run with.
    - [KeyFile]: GLib's [GKeyFile] as [db_save_to_file] and
      [db_load_from_file] use it: the names of groups and keys, the
      escapes of values, [g_key_file_to_data], the line parser of
      [g_key_file_load_from_file] with [G_KEY_FILE_NONE], and UTF-8
      validation.
    - [Snapshot]: lines 57-155: [db_save_to_file] and
      [db_load_from_file] on the table, the path [db_file_path] and a
      disk (what each path names, a regular file with its text or the
      node of a socket, with the errors of the next read and write);
      the critical message that [g_return_if_fail] logs when
      [db_file_path] is NULL ([sn_criticals]).
    - [Options]: lines 11-31: the table [cmd_entries] with every field
      of its two entries, and GLib's [g_option_context_parse] on argv
      ([parse_args]): long names with [=] or with the next argument,
      groups of short names, [--], [--help], and the conversion of a
      string argument from the locale (the class [OptionEnv]); what a
      command line says as a list of settings ([setting],
      [apply_setting]), the specification [cmd_entries] is compared
      with.
    - [Handlers]: lines 245-364 and 384-416: the three handlers, the
      command table [udb_commands] and [process_command_line], on the
      state [udb_state] made of the store and the scanner; the requests
      of the protocol ([request], [parse_request]) as the abstract view
      of a line.
    - [Protocol]: sessions of request lines through
      [process_command_line]: the properties section 8 of the
      specification lists, on lines written with quoted arguments.
    - [Words]: request lines as clients write them, with identifiers
      and decimal numbers as arguments ([is_word], [ends_word],
      [is_blanks]), through [process_command_line].
    - [Connection]: lines 366-382 and 418-481: [on_incoming],
      [on_line_read] and [on_write_done] on the state [server_state]
      (the store and the scanner, the connections by number, what was
      printed); a connection is its reference count, its outstanding
      read, the bytes handed to the socket and the state of its output
      stream; [strip_cr] writes the NUL over a carriage return in the
      buffer of the line, as the code does; [dispatch] and [run_events]
      run the callbacks in the order of the events.
    - [Isolation]: states that are equal but for what the shared
      scanner read last, as an equivalence ([≡]) under which
      [process_command_line] and the callbacks are [Proper]; the
      server with a new scanner for every callback
      ([run_events_renewed]), the reference the shared scanner is
      compared with.
    - [Lifecycle]: lines 11-12, 33-34, 38-43, 189-205 and 483-569:
      [sigint_handler], [on_db_save_timeout], [on_check_sigint] and
      [main] as [main_startup], [g_main_loop_run] over a list of events
      and [main_teardown], on the state [process]; [unlink] and the
      [bind] of the listener ([bind_socket]) act on the disk of the
      snapshot; [main_argv] is [main] from its argv.
    - [Invariant]: what holds between two callbacks ([conn_ok],
      [server_ok], [process_ok]), the turns of the loop as a relation
      ([step], [steps]) and the states the process reaches from
      [main_startup] ([reachable]); the runs of [main] whose events can
      happen when they are delivered ([admissible]).

    ** How the model corresponds to the code

    A global variable of the C file is a field of a state record; a C
    function that reads or writes globals is a computation of [ST] over
    that record, with one monadic step per call of the source that
    changes state, in the source's order, and one branch per [if],
    [switch] case or early [return].  A pointer that may be [NULL] is a
    [handle] ([Null], [Live], [Dangling]), so that the effect of calling
    an operation before [db_init] or after [db_deinit] is visible.
    Strings are [string] values without the terminating NUL, except
    the buffer of a request line, which holds the NUL that
    [on_line_read] writes over a carriage return and the byte behind
    it; a C [int] or [long] is a [Z] with its range written out where
    the code depends on it.  GLib and GIO functions (the hash table, the scanner, the mutex,
    the key file, the streams of a connection, the main loop) and
    [printf] are modelled from their documented behaviour; they are the
    entries of the manifest marked as modelled from the specification.
    config.h is not among the sources: [UDB_MAX_KEY_LENGTH],
    [UDB_DB_SECTION], [UDB_SOCKET_PATH_DEFAULT] and
    [UDB_DATABASE_SAVE_INTERVAL_SECS] are fields of the classes
    [UdbConfig], [SnapshotConfig] and [LifecycleConfig]; the theorems
    hold for every value of them, the examples run with instances.
    What the program cannot decide is an input: the order in which the
    hash table is walked ([HashOrder]), the errors of the disk, the
    bytes a socket takes ([conn_room]), the command line, the results
    of [g_socket_service_new] and [g_socket_listener_add_address]
    ([environment]), and the events of the main loop ([loop_event]).
    The loop has one thread, so a callback runs to its end before the
    next one starts and an interleaving of clients is a list of events.

    The text the scanner reads is the unread bytes of the buffer and
    what follows them ([Scanner.text_end]): the end of the text, the
    terminator of the C string with the number of bytes the scanner was
    told follow, or bytes behind the terminator.  A read behind the
    terminator is the fault [Undefined].  A NUL inside the buffer is a
    byte like any other to [g_scanner_input_text]; the token reader
    treats it as GLib does: it ends a quoted string with an error,
    ends a comment, and ends an identifier of one letter, and the
    value of a token is the C string up to it.

    ** What the theorems show

    - [Store]: any sequence of operations from an initialised, unlocked
      store returns what a finite map returns and leaves the store
      initialised and unlocked ([db_run_refines]); operations before
      [db_init] return false or NULL and change nothing; after
      [db_deinit] they use a destroyed table; a held [db_mutex] makes
      every operation block.
    - [Scanner]: every token's value is the member of the union its type
      names; a text given with its true length is read without a fault;
      the only fault is the read behind the terminator; a string written
      by [quote_dq] is read back as that string
      ([get_next_token_quote_dq]); an identifier of one character that
      ends a text given too long is read behind the terminator.
    - [Handlers]: [process_command_line] returns the reply to the request
      [parse_request] reads from the line and changes the table as the
      finite map says ([process_command_line_refines]); every reply ends
      in CRLF and both locks are free again; with the true length of the
      line every request returns; commands are matched without regard to
      case; an integer of [2^63] or more is stored as a negative number.
    - [Protocol]: a session of quoted requests is served as the finite
      map says ([process_lines_refines]); SET then GET, DEL then GET,
      idempotence of DEL, the refusal of keys over the maximal length;
      the line [GET a] reads behind the line, because the source gives
      [-1] as the length of the text.
    - [Numbers] and [Words]: a command with identifiers as arguments
      is served as the finite map says, in any capitalisation, after
      any blanks and whatever follows the last argument
      ([words_served]), and as the same request between quotes is
      ([words_quoted_agree]); a decimal number as the value of SET is
      stored as [%ld] prints the saturated [gulong]
      ([set_numeral]); an unknown word, a missing key, a missing
      value and a blank line get their replies and leave the table.
    - [KeyFile] and [Snapshot]: a table whose keys are key names and
      whose values are valid UTF-8 without a leading space or tab is
      the table again after [db_save_to_file] and [db_load_from_file],
      for every order of the hash table ([snapshot_roundtrip]); a
      missing file, a file that is not a key file, a file without the
      group and a write that fails are reported as the code reports
      them, a socket at the path included; the entries whose key is
      no key name are passed over by the save and lost, whatever else
      the table holds ([snapshot_drops_keys]); the snapshot of a table
      with a key that holds a line feed is no key file
      ([snapshot_data_key_alone]); without [--db-file] both functions
      log a critical message and return; by evaluation, a key that
      starts with [#] and a value that starts with a form feed.
    - [Connection]: requests of several clients served in any order
      leave the table of the finite map after the requests in that
      order and send each client the replies to its own requests
      ([session_refines]); of writes to one key the last one served
      stays ([racing_sets]); one line whose reply the socket takes;
      the reply that is cut when the socket takes less, the buffer
      that is freed while its write waits for the socket, the write
      that is refused while another is outstanding; the end of the
      input gives the reference back; a callback leaves the other
      connections as they are.
    - [Isolation]: a line is served with no regard to what the scanner
      read before ([process_command_line_isolated]); the server with
      one scanner and the server with a scanner for every callback
      agree on what is printed, sent and stored
      ([run_events_renewed_agree]).
    - [Lifecycle]: a start with the snapshot of a storable table has
      that table ([main_startup_restores]); what was served is there
      after SIGINT and a restart ([served_then_restored]); after a
      crash the next start has the table of the last tick of the timer
      ([restart_after_crash]); a tick of the timer saves under the lock
      and stays installed, and reports a write that fails; SIGINT
      saves once and leaves the loop; the exit code of a failed start
      is the code of the error, which is 0 for some errors, an unknown
      option among them ([main_argv_unknown_option]); a key file
      without the group is taken for a missing file; the start removes
      what has the path of the socket and binds the socket there
      ([main_startup_unlinks]), so with the same path for the socket
      and the snapshot the snapshot is lost and the start fails
      ([main_startup_same_path]); a key with a line feed makes the
      snapshot that a SIGINT writes a file the next start refuses
      ([snapshot_refused]).
    - [Options]: every command line of settings, each in one of its
      three spellings and with operands between them, gives the
      options the settings say, the last one of a path winning
      ([command_line_settings]); the options written with their long
      names are read back ([parse_render_options]); an unknown option, a
      missing value and a socket path the locale cannot read are
      errors, [--help] ends the process.
    - [Invariant]: every callback of the loop takes a state that
      satisfies [process_ok] to one that does, or reads what it must
      not ([loop_step_preserves]); so every state the process reaches
      satisfies it ([reachable_ok]) and no callback ever blocks on a
      lock ([reachable_no_deadlock]); [main] as a whole returns an
      exit code, runs out of events in the loop, or has read what it
      must not, and never blocks ([main_no_deadlock]); the turns of
      the relation are runs of [g_main_loop_run] ([steps_run]); from
      every state reached in the loop a SIGINT and a turn of the idle
      source leave the loop with the snapshot of the table in the
      file, or with the error of the write or the critical message of
      a missing path printed ([reachable_sigint_quits]).

    ** Bounds and fuel

    No definition uses fuel: the scanner recurses structurally on the
    text, the sessions on the list of lines.  [text_len] of
    [g_scanner_input_text] is a [guint]: [-1] is [2^32 - 1], and the
    theorems on request lines assume lines shorter than that
    ([Protocol.fits_guint]).  [v_int] is an unsigned 64-bit value (a
    [gulong] on LP64), saturated at [2^64 - 1] by [strtoull] and printed
    with [%ld]: the model prints the signed reading ([CString.fmt_ld]).
    The examples run with a maximal key length of 64, the group [udb],
    the socket /tmp/udb.sock and sockets that take 100 bytes.  A session
    needs sockets that take all its replies ([session_ready]); with
    less room the replies are cut, as the theorems on short writes say.
    [g_main_loop_run] recurses on the list of events and returns whether
    the loop was left, so [main] has an exit code exactly when an event
    of the list made [on_check_sigint] leave the loop.  The theorems of
    [Invariant] ask that an event of a connection can happen when it is
    delivered ([enabled]: the read it completes is outstanding, the
    write it reports was issued); the loop of GLib delivers no other.
    An identifier of one letter is read without a fault unless it ends
    the line ([Words.ends_word]); a numeral is any natural number, of
    any length that fits the line.

    ** Not modelled

    The creation of the socket and the accepting of connections are
    GLib's and the kernel's: their results are inputs.  Of the option
    parser the text of [--help] is not modelled, and
    [g_locale_to_utf8] is a parameter.
    A critical message is an entry of the log: the abort that GLib
    can be told to make of it is not modelled.
    Floating-point values are kept as the text the scanner read; their
    [%g] rendering is a parameter.  Memory management ([g_strdup],
    [g_free]) is modelled for the pointers to the table and the scanner
    and for the buffer of a write, not for the other strings.  The
    messages of errors are not modelled, only their domain and code.
    Time is not modelled: a tick of the save timer is an event. *)

From stdpp Require Export base tactics option list strings gmap pretty.
From Stdlib Require Export ZArith Ascii.

Declare Scope udb_scope.
Delimit Scope udb_scope with udb.
Open Scope udb_scope.

(** ** Outcomes and the state monad *)

(** What can go wrong in a call that the C code does not report as a value:
    the thread blocks for ever on a mutex it holds, or the call's behaviour
    is undefined (use of a destroyed object). *)
Inductive fault : Type :=
| Deadlock
| Undefined.

Inductive outcome (A : Type) : Type :=
| Ok (a : A)
| Fault (f : fault).

Arguments Ok {A} a.
Arguments Fault {A} f.

#[export] Instance fault_eq_dec : EqDecision fault.
Proof. solve_decision. Defined.

#[export] Instance outcome_eq_dec `{EqDecision A} : EqDecision (outcome A).
Proof. solve_decision. Defined.

Definition is_Ok {A} (o : outcome A) : Prop :=
  match o with Ok _ => True | Fault _ => False end.

#[export] Instance is_Ok_dec {A} (o : outcome A) : Decision (is_Ok o).
Proof. destruct o; simpl; apply _. Defined.

(** Sequencing of outcomes. *)
Definition o_bind {A B} (o : outcome A) (k : A -> outcome B) : outcome B :=
  match o with Ok a => k a | Fault f => Fault f end.

Notation "'olet' x := o 'in' k" := (o_bind o (fun x => k))
  (at level 10, x name, o at level 100, k at level 200, only parsing) : udb_scope.
Notation "'olet' ' p := o 'in' k" := (o_bind o (fun x => match x with p => k end))
  (at level 10, p pattern, o at level 100, k at level 200, only parsing) : udb_scope.

(** A computation over a state [S] that returns an [A]. *)
Definition ST (S A : Type) : Type := S -> outcome (A * S).

Definition st_ret {S A} (a : A) : ST S A := fun s => Ok (a, s).

Definition st_bind {S A B} (c : ST S A) (k : A -> ST S B) : ST S B :=
  fun s => match c s with
           | Ok (a, s') => k a s'
           | Fault f => Fault f
           end.

Definition st_get {S} : ST S S := fun s => Ok (s, s).

Definition st_put {S} (s : S) : ST S unit := fun _ => Ok (tt, s).

Definition st_modify {S} (f : S -> S) : ST S unit := fun s => Ok (tt, f s).

Definition st_fault {S A} (f : fault) : ST S A := fun _ => Fault f.

(** Lift an outcome that does not depend on the state. *)
Definition st_lift {S A} (o : outcome A) : ST S A :=
  fun s => match o with Ok a => Ok (a, s) | Fault f => Fault f end.

(** Run a computation on a component [T] of the state [S], given the
    projection and the update of that component. *)
Definition zoom {S T A} (get : S -> T) (set : T -> S -> S) (c : ST T A) : ST S A :=
  fun s => match c (get s) with
           | Ok (a, t) => Ok (a, set t s)
           | Fault f => Fault f
           end.

Notation "x <- c ;; k" := (st_bind c (fun x => k))
  (at level 20, c at level 99, k at level 200, only parsing) : udb_scope.
Notation "c ;; k" := (st_bind c (fun _ => k))
  (at level 100, k at level 200, right associativity) : udb_scope.

(** The result and the final state of a run that returned. *)
Definition result_of {A S} (o : outcome (A * S)) : option A :=
  match o with Ok (a, _) => Some a | Fault _ => None end.

Definition state_of {A S} (o : outcome (A * S)) : option S :=
  match o with Ok (_, s) => Some s | Fault _ => None end.

(** ** Tactics *)

(** Unfold the monad's operations and compute. *)
Ltac st_simpl :=
  repeat (unfold st_bind, st_ret, st_get, st_put, st_modify, st_fault,
            st_lift, zoom in *; simpl in * ).

(** Case analysis on the first outcome the goal or a hypothesis matches on. *)
Ltac case_outcome :=
  match goal with
  | |- context [match ?o with Ok _ => _ | Fault _ => _ end] =>
      let E := fresh "E" in destruct o as [[? ?]|?] eqn:E
  | H : context [match ?o with Ok _ => _ | Fault _ => _ end] |- _ =>
      let E := fresh "E" in destruct o as [[? ?]|?] eqn:E
  end.

Create HintDb udb discriminated.
Create Rewrite HintDb udb.

Lemma o_bind_Ok {A B} (o : outcome A) (k : A -> outcome B) b :
  o_bind o k = Ok b <-> exists a, o = Ok a /\ k a = Ok b.
Proof.
  destruct o as [a|f]; simpl.
  - split; [eauto|]. by intros (a' & [= ->] & ?).
  - split; [done|]. by intros (a' & ? & ?).
Qed.

Lemma o_bind_Fault {A B} (o : outcome A) (k : A -> outcome B) f :
  o = Fault f -> o_bind o k = Fault f.
Proof. by intros ->. Qed.

(** ** Laws of the monad, stated on runs *)

Section monad_laws.
Context {S A B C : Type}.
Implicit Types (s : S) (c : ST S A) (k : A -> ST S B) (h : B -> ST S C).

Lemma st_bind_ret_l (a : A) k s : st_bind (st_ret a) k s = k a s.
Proof. reflexivity. Qed.

Lemma st_bind_ret_r c s : st_bind c st_ret s = c s.
Proof. unfold st_bind, st_ret. by destruct (c s) as [[??]|]. Qed.

Lemma st_bind_assoc c k h s :
  st_bind (st_bind c k) h s = st_bind c (fun a => st_bind (k a) h) s.
Proof. unfold st_bind. by destruct (c s) as [[??]|]. Qed.

Lemma st_bind_Ok c k s a s' : c s = Ok (a, s') -> st_bind c k s = k a s'.
Proof. unfold st_bind. by intros ->. Qed.

Lemma st_bind_Fault c k s f : c s = Fault f -> st_bind c k s = Fault f.
Proof. unfold st_bind. by intros ->. Qed.

(** A bind returns exactly when both halves do. *)
Lemma st_bind_Ok_inv c k s b s2 :
  st_bind c k s = Ok (b, s2) ->
  exists a s1, c s = Ok (a, s1) /\ k a s1 = Ok (b, s2).
Proof. unfold st_bind. destruct (c s) as [[a s1]|]; [eauto|done]. Qed.

End monad_laws.

Section zoom_laws.
Context {S T A : Type} (get : S -> T) (set : T -> S -> S).

Lemma zoom_Ok (c : ST T A) s a t :
  c (get s) = Ok (a, t) -> zoom get set c s = Ok (a, set t s).
Proof. unfold zoom. by intros ->. Qed.

Lemma zoom_Fault (c : ST T A) s f :
  c (get s) = Fault f -> zoom get set c s = Fault f.
Proof. unfold zoom. by intros ->. Qed.

Lemma zoom_Ok_inv (c : ST T A) s a s' :
  zoom get set c s = Ok (a, s') ->
  exists t, c (get s) = Ok (a, t) /\ s' = set t s.
Proof. unfold zoom. destruct (c (get s)) as [[??]|]; naive_solver. Qed.

End zoom_laws.

#[export] Hint Rewrite @st_bind_ret_l @st_bind_ret_r @st_bind_assoc : udb.
#[export] Hint Resolve zoom_Ok zoom_Fault : udb.

(** ** Pointers *)

(** A C pointer to an object of the heap: [NULL], a live object, or a
    pointer whose object was destroyed. *)
Inductive handle (A : Type) : Type :=
| Null
| Live (a : A)
| Dangling.

Arguments Null {A}.
Arguments Live {A} a.
Arguments Dangling {A}.

Definition is_Live {A} (h : handle A) : Prop :=
  match h with Live _ => True | _ => False end.

#[export] Instance is_Live_dec {A} (h : handle A) : Decision (is_Live h).
Proof. destruct h; simpl; apply _. Defined.

(** The object behind a live pointer. *)
Definition deref {A} (h : handle A) : option A :=
  match h with Live a => Some a | _ => None end.

Lemma is_Live_deref {A} (h : handle A) : is_Live h <-> is_Some (deref h).
Proof. destruct h; simpl; split; try done; by intros [??]. Qed.

Lemma deref_Some {A} (h : handle A) a : deref h = Some a <-> h = Live a.
Proof. destruct h; naive_solver. Qed.

#[export] Hint Rewrite @deref_Some : udb.
