(* ===== verification/Hoare.v ===== *)
(** * Hoare: postconditions of the computations of [ST]

    [wp c Q F s] says what the run of [c] from [s] leads to: a result
    and a state that satisfy [Q], or a fault that satisfies [F].  The
    rules follow the structure of a computation (return, bind, the
    operations on the state, [zoom]), so that an invariant of the state
    is proved operation by operation, in the order of the code.
    [hoare P c Q F] is the triple: from every state of [P]. *)

From S2P Require Import Prelude.

Set Warnings "-clear-no-such-hyp".

Definition wp {S A} (c : ST S A) (Q : A -> S -> Prop) (F : fault -> Prop) (s : S) : Prop :=
  match c s with
  | Ok (a, s') => Q a s'
  | Fault f => F f
  end.

Definition hoare {S A} (P : S -> Prop) (c : ST S A) (Q : A -> S -> Prop)
    (F : fault -> Prop) : Prop :=
  forall s, P s -> wp c Q F s.

(** The faults a computation may end in. *)
Definition no_fault : fault -> Prop := fun _ => False.
Definition no_deadlock : fault -> Prop := fun f => f = Undefined.

#[export] Instance wp_dec {S A} (c : ST S A) Q F s
  `{forall a s', Decision (Q a s')} `{forall f, Decision (F f)} : Decision (wp c Q F s).
Proof. unfold wp. destruct (c s) as [[a s']|f]; apply _. Defined.

Section rules.
Context {S : Type}.
Implicit Types (s : S) (F : fault -> Prop).

Lemma wp_Ok {A} (c : ST S A) Q F s a s' : c s = Ok (a, s') -> Q a s' -> wp c Q F s.
Proof. unfold wp. by intros ->. Qed.

Lemma wp_Ok_inv {A} (c : ST S A) Q F s a s' : wp c Q F s -> c s = Ok (a, s') -> Q a s'.
Proof. unfold wp. intros H E. by rewrite E in H. Qed.

Lemma wp_Fault {A} (c : ST S A) Q F s f : c s = Fault f -> F f -> wp c Q F s.
Proof. unfold wp. by intros ->. Qed.

Lemma wp_Fault_inv {A} (c : ST S A) Q F s f : wp c Q F s -> c s = Fault f -> F f.
Proof. unfold wp. intros H E. by rewrite E in H. Qed.

Lemma wp_mono {A} (c : ST S A) (Q Q' : A -> S -> Prop) F F' s :
  wp c Q F s -> (forall a s', Q a s' -> Q' a s') -> (forall f, F f -> F' f) ->
  wp c Q' F' s.
Proof. unfold wp. destruct (c s) as [[a s']|f]; auto. Qed.

Lemma wp_post {A} (c : ST S A) (Q Q' : A -> S -> Prop) F s :
  wp c Q F s -> (forall a s', Q a s' -> Q' a s') -> wp c Q' F s.
Proof. intros H HQ. by apply (wp_mono _ _ _ _ _ _ H). Qed.

Lemma wp_conj {A} (c : ST S A) (Q Q' : A -> S -> Prop) F s :
  wp c Q F s -> wp c Q' F s -> wp c (fun a s' => Q a s' /\ Q' a s') F s.
Proof. unfold wp. destruct (c s) as [[a s']|f]; auto. Qed.

Lemma wp_ret {A} (a : A) (Q : A -> S -> Prop) F s : Q a s -> wp (st_ret a) Q F s.
Proof. done. Qed.

Lemma wp_bind {A B} (c : ST S A) (k : A -> ST S B) (Q : B -> S -> Prop) F s :
  wp c (fun a s' => wp (k a) Q F s') F s -> wp (st_bind c k) Q F s.
Proof. unfold wp, st_bind. by destruct (c s) as [[a s']|f]. Qed.

Lemma wp_bind_inv {A B} (c : ST S A) (k : A -> ST S B) (Q : B -> S -> Prop) F s :
  wp (st_bind c k) Q F s -> wp c (fun a s' => wp (k a) Q F s') F s.
Proof. unfold wp, st_bind. by destruct (c s) as [[a s']|f]. Qed.

Lemma wp_get (Q : S -> S -> Prop) F s : Q s s -> wp st_get Q F s.
Proof. done. Qed.

Lemma wp_put (s0 : S) (Q : unit -> S -> Prop) F s : Q tt s0 -> wp (st_put s0) Q F s.
Proof. done. Qed.

Lemma wp_modify (f : S -> S) (Q : unit -> S -> Prop) F s :
  Q tt (f s) -> wp (st_modify f) Q F s.
Proof. done. Qed.

Lemma wp_fault {A} (f : fault) (Q : A -> S -> Prop) F s : F f -> wp (st_fault f) Q F s.
Proof. done. Qed.

(** A computation on a part of the state: the postcondition is read on
    the whole state with the part put back. *)
Lemma wp_zoom {T A} (get : S -> T) (set : T -> S -> S) (c : ST T A)
    (Q : A -> S -> Prop) F s :
  wp c (fun a t => Q a (set t s)) F (get s) -> wp (zoom get set c) Q F s.
Proof. unfold wp, zoom. by destruct (c (get s)) as [[a t]|f]. Qed.

Lemma wp_zoom_inv {T A} (get : S -> T) (set : T -> S -> S) (c : ST T A)
    (Q : A -> S -> Prop) F s :
  wp (zoom get set c) Q F s -> wp c (fun a t => Q a (set t s)) F (get s).
Proof. unfold wp, zoom. by destruct (c (get s)) as [[a t]|f]. Qed.

(** Triples. *)
Lemma hoare_conseq {A} (P P' : S -> Prop) (c : ST S A) (Q Q' : A -> S -> Prop) F F' :
  hoare P c Q F -> (forall s, P' s -> P s) -> (forall a s, Q a s -> Q' a s) ->
  (forall f, F f -> F' f) -> hoare P' c Q' F'.
Proof. intros H HP HQ HF s Hs. eapply wp_mono; eauto. Qed.

Lemma hoare_bind {A B} (P : S -> Prop) (c : ST S A) (R : A -> S -> Prop)
    (k : A -> ST S B) (Q : B -> S -> Prop) F :
  hoare P c R F -> (forall a, hoare (R a) (k a) Q F) -> hoare P (st_bind c k) Q F.
Proof.
  intros Hc Hk s Hs. apply wp_bind. eapply wp_post; [by apply Hc|].
  intros a s' Ha. by apply Hk.
Qed.

Lemma hoare_ret {A} (P : S -> Prop) (a : A) (Q : A -> S -> Prop) F :
  (forall s, P s -> Q a s) -> hoare P (st_ret a) Q F.
Proof. intros H s Hs. by apply wp_ret, H. Qed.

End rules.

(** An invariant that a list of computations preserves, one after the
    other. *)
Lemma hoare_invariant_fold {S E} (step : E -> ST S unit) (I : S -> Prop) F
    (run : list E -> ST S unit) :
  (forall s, run [] s = Ok (tt, s)) ->
  (forall e es s, run (e :: es) s = st_bind (step e) (fun _ => run es) s) ->
  (forall e, hoare I (step e) (fun _ => I) F) ->
  forall es, hoare I (run es) (fun _ => I) F.
Proof.
  intros Hnil Hcons Hstep es. induction es as [|e es IH]; intros s Hs.
  - by eapply wp_Ok.
  - unfold wp. rewrite Hcons. apply wp_bind. eapply wp_post; [by apply Hstep|].
    intros [] s' Hs'. by apply IH.
Qed.

(** The rules as hints: [eauto with wp] follows the structure of a
    computation. *)
Create HintDb wp discriminated.
#[export] Hint Resolve wp_ret wp_get wp_put wp_modify wp_fault : wp.
#[export] Hint Resolve wp_bind wp_zoom | 2 : wp.

(** [wp_step] takes one step of the computation in the goal. *)
Ltac wp_step :=
  lazymatch goal with
  | |- wp (st_bind _ _) _ _ _ => apply wp_bind
  | |- wp (st_ret _) _ _ _ => apply wp_ret
  | |- wp st_get _ _ _ => apply wp_get
  | |- wp (st_put _) _ _ _ => apply wp_put
  | |- wp (st_modify _) _ _ _ => apply wp_modify
  | |- wp (st_fault _) _ _ _ => apply wp_fault
  | |- wp (zoom _ _ _) _ _ _ => apply wp_zoom
  end.
