(* ===== verification/CString.v ===== *)
(** * CString: the C-string and formatting functions the source calls

    [strlen], [g_str_has_suffix], [g_ascii_strcasecmp] and the [printf]
    conversions of [g_strdup_printf] that src/udb.c uses ([%s], [%d],
    [%ld]), on [string] values that stand for NUL-terminated C strings
    (the terminator is not part of the value).  [c_str] reads a byte
    buffer as the C string it starts with. *)

From S2P Require Import Prelude.

Open Scope Z_scope.

(** ** Characters *)

(** The code of a character as an [unsigned char]. *)
Definition char_code (c : ascii) : Z := Z.of_N (N_of_ascii c).

Definition char_of_code (z : Z) : ascii := ascii_of_N (Z.to_N z).

(** [g_ascii_tolower]: only the letters [A]..[Z] change. *)
Definition g_ascii_tolower (c : ascii) : ascii :=
  let n := char_code c in
  if bool_decide (65 <= n <= 90) then char_of_code (n + 32) else c.

(** [g_ascii_toupper]: only the letters [a]..[z] change. *)
Definition g_ascii_toupper (c : ascii) : ascii :=
  let n := char_code c in
  if bool_decide (97 <= n <= 122) then char_of_code (n - 32) else c.

Definition is_upper (c : ascii) : bool := bool_decide (65 <= char_code c <= 90).
Definition is_lower (c : ascii) : bool := bool_decide (97 <= char_code c <= 122).
Definition is_digit (c : ascii) : bool := bool_decide (48 <= char_code c <= 57).

(** ** Strings *)

Definition strlen (s : string) : nat := String.length s.

Fixpoint str_drop (n : nat) (s : string) : string :=
  match n, s with
  | O, _ => s
  | S n, String _ s => str_drop n s
  | S _, EmptyString => EmptyString
  end.

Fixpoint str_take (n : nat) (s : string) : string :=
  match n, s with
  | S n, String c s => String c (str_take n s)
  | _, _ => EmptyString
  end.

Fixpoint str_map (f : ascii -> ascii) (s : string) : string :=
  match s with
  | EmptyString => EmptyString
  | String c s => String (f c) (str_map f s)
  end.

(** The C string a byte buffer holds: the bytes before the first NUL. *)
Fixpoint c_str (bytes : string) : string :=
  match bytes with
  | EmptyString => EmptyString
  | String c s => if bool_decide (c = "000"%char) then EmptyString else String c (c_str s)
  end.

(** A value that a C string can hold: no NUL inside. *)
Definition is_c_str (s : string) : Prop := c_str s = s.

#[export] Instance is_c_str_dec s : Decision (is_c_str s).
Proof. unfold is_c_str. apply _. Defined.

(** [g_str_has_suffix str suffix]: compare the last [strlen suffix]
    characters of [str] with [suffix]. *)
Definition g_str_has_suffix (str suffix : string) : bool :=
  let str_len := strlen str in
  let suffix_len := strlen suffix in
  if (str_len <? suffix_len)%nat then false
  else bool_decide (str_drop (str_len - suffix_len) str = suffix).

(** [g_ascii_strcasecmp s1 s2]: the difference of the first characters
    that differ after lower-casing, or of the characters at the end of the
    shorter string. *)
Fixpoint g_ascii_strcasecmp (s1 s2 : string) : Z :=
  match s1, s2 with
  | String a s1', String b s2' =>
      let c1 := char_code (g_ascii_tolower a) in
      let c2 := char_code (g_ascii_tolower b) in
      if bool_decide (c1 = c2) then g_ascii_strcasecmp s1' s2' else c1 - c2
  | String a _, EmptyString => char_code a
  | EmptyString, String b _ => - char_code b
  | EmptyString, EmptyString => 0
  end.

(** ** Machine integers *)

Definition wrap64 (z : Z) : Z := z mod 2 ^ 64.

(** The [long] that has the bits of the unsigned 64-bit value [z]. *)
Definition signed64 (z : Z) : Z :=
  let u := wrap64 z in
  if bool_decide (u < 2 ^ 63) then u else u - 2 ^ 64.

(** ** [printf] conversions *)

(** [%d] on an [int] that is in range. *)
Definition fmt_d (z : Z) : string := pretty z.

(** [%ld] on the bits of an unsigned 64-bit value. *)
Definition fmt_ld (z : Z) : string := pretty (signed64 z).

Definition CRLF : string := String "013" (String "010" EmptyString).

(** ** Lemmas *)

Set Warnings "-clear-no-such-hyp".

(** [String.append] does not reduce under [simpl]: these two equations
    stand for its clauses. *)
Lemma str_app_nil s : "" +:+ s = s.
Proof. reflexivity. Qed.

Lemma str_app_cons c s1 s2 : String c s1 +:+ s2 = String c (s1 +:+ s2).
Proof. reflexivity. Qed.

Lemma str_app_nil_r s : s +:+ "" = s.
Proof. induction s; rewrite ?str_app_cons; [done|congruence]. Qed.

Lemma str_app_assoc s1 s2 s3 : (s1 +:+ s2) +:+ s3 = s1 +:+ (s2 +:+ s3).
Proof. induction s1; rewrite ?str_app_cons, ?str_app_nil; [done|congruence]. Qed.

(** Normalise appends of strings that start with known characters. *)
Ltac str_simpl :=
  repeat (progress (simpl in *; rewrite ?str_app_cons, ?str_app_nil, ?str_app_nil_r in * )).

Lemma char_code_range c : 0 <= char_code c < 256.
Proof.
  unfold char_code. pose proof (N_ascii_bounded c). lia.
Qed.

Lemma char_of_code_code c : char_of_code (char_code c) = c.
Proof. unfold char_of_code, char_code. by rewrite N2Z.id, ascii_N_embedding. Qed.

Lemma char_code_of_code z : 0 <= z < 256 -> char_code (char_of_code z) = z.
Proof.
  intros ?. unfold char_of_code, char_code.
  rewrite N_ascii_embedding by lia. lia.
Qed.

Lemma char_code_inj c1 c2 : char_code c1 = char_code c2 -> c1 = c2.
Proof.
  intros H. by rewrite <-(char_of_code_code c1), <-(char_of_code_code c2), H.
Qed.

Lemma g_ascii_tolower_idemp c : g_ascii_tolower (g_ascii_tolower c) = g_ascii_tolower c.
Proof.
  unfold g_ascii_tolower. pose proof (char_code_range c).
  repeat case_bool_decide; try done.
  rewrite char_code_of_code in * by lia. lia.
Qed.

Lemma g_ascii_tolower_toupper c :
  g_ascii_tolower (g_ascii_toupper c) = g_ascii_tolower c.
Proof.
  unfold g_ascii_tolower, g_ascii_toupper. pose proof (char_code_range c).
  destruct (bool_decide (97 <= char_code c <= 122)) eqn:E1; [|done].
  apply bool_decide_eq_true in E1.
  rewrite char_code_of_code by lia.
  rewrite !bool_decide_eq_true_2 by lia.
  rewrite bool_decide_eq_false_2 by lia.
  replace (char_code c - 32 + 32) with (char_code c) by lia.
  apply char_of_code_code.
Qed.

Lemma char_code_0 c : char_code c = 0 <-> c = "000"%char.
Proof.
  split; [|by intros ->]. intros H. by apply char_code_inj.
Qed.

Lemma g_ascii_tolower_0 c : g_ascii_tolower c = "000"%char <-> c = "000"%char.
Proof.
  unfold g_ascii_tolower. pose proof (char_code_range c).
  case_bool_decide as Hu; [|done]. split.
  - intros Hc%char_code_0. rewrite char_code_of_code in Hc by lia. lia.
  - intros ->. vm_compute in Hu. by destruct Hu as [Hu _].
Qed.

Lemma g_ascii_toupper_0 c : g_ascii_toupper c = "000"%char <-> c = "000"%char.
Proof.
  unfold g_ascii_toupper. pose proof (char_code_range c).
  case_bool_decide as Hu; [|done]. split.
  - intros Hc%char_code_0. rewrite char_code_of_code in Hc by lia. lia.
  - intros ->. vm_compute in Hu. by destruct Hu as [Hu _].
Qed.

Lemma is_c_str_nil : is_c_str "".
Proof. done. Qed.

Lemma is_c_str_cons c s : is_c_str (String c s) <-> c <> "000"%char /\ is_c_str s.
Proof.
  unfold is_c_str. simpl. case_bool_decide; [naive_solver|].
  split; [intros Hs; injection Hs; auto|by intros [_ ->]].
Qed.

Lemma c_str_is_c_str bytes : is_c_str (c_str bytes).
Proof.
  induction bytes as [|c s IH]; [done|]. simpl.
  case_bool_decide; [done|]. by apply is_c_str_cons.
Qed.

(** A C string is no longer than the buffer that holds it, and it is
    the bytes of the buffer that [strlen] counts. *)
Lemma strlen_c_str_le bytes : (strlen (c_str bytes) <= strlen bytes)%nat.
Proof.
  induction bytes as [|c s IH]; [done|]. cbn [c_str]. unfold strlen in *.
  case_bool_decide; cbn [String.length]; lia.
Qed.

Lemma str_take_c_str bytes : str_take (strlen (c_str bytes)) bytes = c_str bytes.
Proof.
  induction bytes as [|c s IH]; [done|]. cbn [c_str]. unfold strlen in *.
  case_bool_decide; cbn [String.length str_take]; [done|]. by rewrite IH.
Qed.

Lemma c_str_idemp bytes : c_str (c_str bytes) = c_str bytes.
Proof. apply c_str_is_c_str. Qed.

Lemma is_c_str_app s1 s2 : is_c_str (s1 +:+ s2) <-> is_c_str s1 /\ is_c_str s2.
Proof.
  induction s1 as [|c s1 IH]; [naive_solver|].
  change (String c s1 +:+ s2) with (String c (s1 +:+ s2)).
  rewrite !is_c_str_cons, IH. naive_solver.
Qed.

Lemma strlen_str_map f s : strlen (str_map f s) = strlen s.
Proof. unfold strlen. induction s; simpl; congruence. Qed.

Lemma str_take_drop n s : str_take n s +:+ str_drop n s = s.
Proof.
  revert s. induction n as [|n IH]; intros [|c s]; str_simpl; try done.
  by rewrite IH.
Qed.

Lemma strlen_app s1 s2 : strlen (s1 +:+ s2) = (strlen s1 + strlen s2)%nat.
Proof. unfold strlen. induction s1; str_simpl; congruence. Qed.

Lemma str_drop_app s1 s2 : str_drop (strlen s1) (s1 +:+ s2) = s2.
Proof. induction s1; str_simpl; auto. Qed.

Lemma str_take_app s1 s2 : str_take (strlen s1) (s1 +:+ s2) = s1.
Proof. induction s1; str_simpl; [by destruct s2|congruence]. Qed.

Lemma strlen_str_drop n s : strlen (str_drop n s) = (strlen s - n)%nat.
Proof. revert s. induction n; intros [|c s]; simpl; auto. Qed.

(** [g_str_has_suffix] decides "ends with". *)
Lemma g_str_has_suffix_spec str suffix :
  g_str_has_suffix str suffix = true <-> exists p, str = p +:+ suffix.
Proof.
  unfold g_str_has_suffix. split.
  - destruct (Nat.ltb_spec (strlen str) (strlen suffix)); [done|].
    intros Hd%bool_decide_eq_true.
    exists (str_take (strlen str - strlen suffix) str).
    rewrite <-Hd at 2. by rewrite str_take_drop.
  - intros [p ->]. rewrite strlen_app.
    destruct (Nat.ltb_spec (strlen p + strlen suffix) (strlen suffix)); [lia|].
    apply bool_decide_eq_true.
    replace (strlen p + strlen suffix - strlen suffix)%nat with (strlen p) by lia.
    apply str_drop_app.
Qed.

(** Comparison without case is equality of the lower-cased strings. *)
Lemma g_ascii_strcasecmp_0 s1 s2 :
  is_c_str s1 -> is_c_str s2 ->
  g_ascii_strcasecmp s1 s2 = 0 <->
  str_map g_ascii_tolower s1 = str_map g_ascii_tolower s2.
Proof.
  revert s2. induction s1 as [|a s1 IH]; intros [|b s2]; simpl; try done.
  - intros _ [Hb _]%is_c_str_cons. rewrite <-char_code_0 in Hb. split; [lia|done].
  - intros [Ha _]%is_c_str_cons _. rewrite <-char_code_0 in Ha. split; [lia|done].
  - intros [_ H1]%is_c_str_cons [_ H2]%is_c_str_cons.
    case_bool_decide as Hc.
    + apply char_code_inj in Hc. rewrite IH, Hc by done.
      split; [by intros ->|by intros [= ->]].
    + split; [lia|]. intros Hs. injection Hs as Hab _. by rewrite Hab in Hc.
Qed.

Lemma g_ascii_strcasecmp_refl s : g_ascii_strcasecmp s s = 0.
Proof. induction s; simpl; [done|]. by rewrite bool_decide_eq_true_2. Qed.

(** Upper-casing an argument does not change the comparison. *)
Lemma g_ascii_strcasecmp_toupper_l s1 s2 :
  g_ascii_strcasecmp (str_map g_ascii_toupper s1) s2 = 0 <->
  g_ascii_strcasecmp s1 s2 = 0.
Proof.
  revert s2. induction s1 as [|a s1 IH]; intros [|b s2]; simpl; try done.
  - by rewrite !char_code_0, g_ascii_toupper_0.
  - rewrite g_ascii_tolower_toupper. case_bool_decide; [apply IH|done].
Qed.

Lemma wrap64_range z : 0 <= wrap64 z < 2 ^ 64.
Proof. unfold wrap64. by apply Z.mod_pos_bound. Qed.

Lemma wrap64_small z : 0 <= z < 2 ^ 64 -> wrap64 z = z.
Proof. unfold wrap64. intros. by apply Z.mod_small. Qed.

(** The signed reading is in the range of a [long] and has the same bits. *)
Lemma signed64_range z : - 2 ^ 63 <= signed64 z < 2 ^ 63.
Proof. unfold signed64. pose proof (wrap64_range z). case_bool_decide; lia. Qed.

Lemma signed64_wrap z : wrap64 (signed64 z) = wrap64 z.
Proof.
  unfold signed64. case_bool_decide.
  - unfold wrap64. by rewrite Z.mod_mod.
  - unfold wrap64. rewrite Zminus_mod, Z_mod_same_full, Z.sub_0_r.
    by rewrite !Z.mod_mod.
Qed.

Lemma signed64_small z : 0 <= z < 2 ^ 63 -> signed64 z = z.
Proof.
  intros. unfold signed64. rewrite wrap64_small by lia.
  by rewrite bool_decide_eq_true_2 by lia.
Qed.

Lemma signed64_large z : 2 ^ 63 <= z < 2 ^ 64 -> signed64 z = z - 2 ^ 64.
Proof.
  intros. unfold signed64. rewrite wrap64_small by lia.
  by rewrite bool_decide_eq_false_2 by lia.
Qed.

(** [%ld] prints values below [2^63] as they are and the others as
    negative numbers. *)
Lemma fmt_ld_small z : 0 <= z < 2 ^ 63 -> fmt_ld z = pretty z.
Proof. intros. unfold fmt_ld. by rewrite signed64_small. Qed.

Lemma fmt_ld_large z : 2 ^ 63 <= z < 2 ^ 64 -> fmt_ld z = pretty (z - 2 ^ 64).
Proof. intros. unfold fmt_ld. by rewrite signed64_large. Qed.

#[export] Hint Rewrite strlen_app str_drop_app str_take_app strlen_str_map
  strlen_str_drop c_str_idemp g_ascii_strcasecmp_refl : udb.
#[export] Hint Resolve c_str_is_c_str is_c_str_nil : udb.
