(* ===== verification/Mutex.v ===== *)
(** * Mutex: GLib's [GMutex] on a single thread

    The process runs every callback on the thread of the main loop, so a
    mutex is a value with three states.  A [GMutex] is not recursive:
    [g_mutex_lock] on a mutex the thread already holds never returns,
    which the model reports as the fault [Deadlock].  Unlocking a mutex
    that is not held, and any use of a cleared mutex, is undefined
    behaviour. *)

From S2P Require Import Prelude.

Inductive GMutex : Type :=
| MUnlocked
| MLocked
| MCleared.

#[export] Instance GMutex_eq_dec : EqDecision GMutex.
Proof. solve_decision. Defined.

(** A statically allocated mutex needs no initialisation. *)
Definition G_MUTEX_STATIC : GMutex := MUnlocked.

Definition g_mutex_init : ST GMutex unit :=
  fun m => match m with
           | MLocked => Fault Undefined
           | MUnlocked | MCleared => Ok (tt, MUnlocked)
           end.

Definition g_mutex_lock : ST GMutex unit :=
  fun m => match m with
           | MUnlocked => Ok (tt, MLocked)
           | MLocked => Fault Deadlock
           | MCleared => Fault Undefined
           end.

Definition g_mutex_unlock : ST GMutex unit :=
  fun m => match m with
           | MLocked => Ok (tt, MUnlocked)
           | MUnlocked | MCleared => Fault Undefined
           end.

Definition g_mutex_clear : ST GMutex unit :=
  fun m => match m with
           | MUnlocked => Ok (tt, MCleared)
           | MLocked | MCleared => Fault Undefined
           end.

(** ** Lemmas *)

Set Warnings "-clear-no-such-hyp".

Lemma g_mutex_lock_Ok m m' : g_mutex_lock m = Ok (tt, m') <-> m = MUnlocked /\ m' = MLocked.
Proof. destruct m; simpl; naive_solver. Qed.

Lemma g_mutex_unlock_Ok m m' : g_mutex_unlock m = Ok (tt, m') <-> m = MLocked /\ m' = MUnlocked.
Proof. destruct m; simpl; naive_solver. Qed.

Lemma g_mutex_lock_held : g_mutex_lock MLocked = Fault Deadlock.
Proof. reflexivity. Qed.

(** A critical section on a free mutex runs its body and frees the mutex. *)
Lemma g_mutex_lock_unlock :
  (g_mutex_lock ;; g_mutex_unlock) MUnlocked = Ok (tt, MUnlocked).
Proof. reflexivity. Qed.

#[export] Hint Rewrite g_mutex_lock_held g_mutex_lock_unlock : udb.
