(* ===== verification/Store.v ===== *)
(** * Store: the in-memory table and its lock

    src/udb.c lines 35-36 (the globals [db_mem] and [db_mutex]), 45-55
    ([db_init]), 157-161 ([db_deinit]) and 163-187 ([db_insert],
    [db_lookup], [db_remove]).  The table is a [GHashTable] from strings
    to strings created with [g_str_hash] and [g_str_equal], so its
    contents are a finite map keyed by string value: a [gmap string
    string].  The functions of GLib are modelled on the pointer [db_mem],
    with their documented behaviour on [NULL]. *)

From S2P Require Import Prelude Mutex.

Set Warnings "-clear-no-such-hyp".

(** ** GLib's hash table, on a pointer to it *)

Abbreviation table := (gmap string string).

(** [g_hash_table_new_full (g_str_hash, g_str_equal, g_free, g_free)] *)
Definition g_hash_table_new_full : table := ∅.

(** [g_hash_table_insert]: [TRUE] when the key did not exist yet. *)
Definition g_hash_table_insert (key value : string) : ST (handle table) bool :=
  fun h => match h with
           | Null => Ok (false, Null)
           | Live m => Ok (bool_decide (m !! key = None), Live (<[key:=value]> m))
           | Dangling => Fault Undefined
           end.

(** [g_hash_table_lookup]: the value, or [NULL]. *)
Definition g_hash_table_lookup (key : string) : ST (handle table) (option string) :=
  fun h => match h with
           | Null => Ok (None, Null)
           | Live m => Ok (m !! key, Live m)
           | Dangling => Fault Undefined
           end.

(** [g_hash_table_remove]: [TRUE] when the key was found and removed. *)
Definition g_hash_table_remove (key : string) : ST (handle table) bool :=
  fun h => match h with
           | Null => Ok (false, Null)
           | Live m => Ok (bool_decide (is_Some (m !! key)), Live (delete key m))
           | Dangling => Fault Undefined
           end.

Definition g_hash_table_remove_all : ST (handle table) unit :=
  fun h => match h with
           | Null => Ok (tt, Null)
           | Live _ => Ok (tt, Live ∅)
           | Dangling => Fault Undefined
           end.

Definition g_hash_table_destroy : ST (handle table) unit :=
  fun h => match h with
           | Null => Ok (tt, Null)
           | Live _ => Ok (tt, Dangling)
           | Dangling => Fault Undefined
           end.

(** ** The globals *)

(** [static GHashTable* db_mem = NULL; static GMutex db_mutex;] *)
Record db_state : Type := mk_db {
  db_mem : handle table;
  db_mutex : GMutex;
}.

Definition db_static : db_state := {| db_mem := Null; db_mutex := G_MUTEX_STATIC |}.

Definition set_db_mem (h : handle table) (s : db_state) : db_state :=
  {| db_mem := h; db_mutex := db_mutex s |}.

Definition set_db_mutex (m : GMutex) (s : db_state) : db_state :=
  {| db_mem := db_mem s; db_mutex := m |}.

(** An operation on [db_mem], and an operation on [&db_mutex]. *)
Definition on_db_mem {A} (c : ST (handle table) A) : ST db_state A :=
  zoom db_mem set_db_mem c.

Definition on_db_mutex {A} (c : ST GMutex A) : ST db_state A :=
  zoom db_mutex set_db_mutex c.

(** ** The operations *)

Definition db_init : ST db_state unit :=
  on_db_mutex g_mutex_init ;;
  st_modify (set_db_mem (Live g_hash_table_new_full)).

Definition db_deinit : ST db_state unit :=
  on_db_mutex g_mutex_clear ;;
  on_db_mem g_hash_table_destroy.

Definition db_insert (key value : string) : ST db_state bool :=
  on_db_mutex g_mutex_lock ;;
  result <- on_db_mem (g_hash_table_insert key value) ;;
  on_db_mutex g_mutex_unlock ;;
  st_ret result.

(** The code returns the pointer to the value that the table holds; the
    handlers print it at once, and every callback runs on the thread of
    the main loop, so what the pointer reads is the value returned
    here. *)
Definition db_lookup (key : string) : ST db_state (option string) :=
  on_db_mutex g_mutex_lock ;;
  result <- on_db_mem (g_hash_table_lookup key) ;;
  on_db_mutex g_mutex_unlock ;;
  st_ret result.

Definition db_remove (key : string) : ST db_state bool :=
  on_db_mutex g_mutex_lock ;;
  result <- on_db_mem (g_hash_table_remove key) ;;
  on_db_mutex g_mutex_unlock ;;
  st_ret result.

(** ** The invariant between calls *)

(** Between two calls the table exists and the lock is free. *)
Definition db_ok (s : db_state) : Prop :=
  is_Live (db_mem s) /\ db_mutex s = MUnlocked.

#[export] Instance db_ok_dec s : Decision (db_ok s).
Proof. unfold db_ok. apply _. Defined.

(** The contents of the table ([∅] when there is no table). *)
Definition db_contents (s : db_state) : table :=
  default ∅ (deref (db_mem s)).

(** The state that holds table [m] with the lock free. *)
Definition db_of (m : table) : db_state := {| db_mem := Live m; db_mutex := MUnlocked |}.

Lemma db_ok_of m : db_ok (db_of m).
Proof. done. Qed.

Lemma db_ok_inv s : db_ok s <-> s = db_of (db_contents s).
Proof.
  destruct s as [[|m|] mu]; unfold db_ok, db_of, db_contents; simpl;
    split; try naive_solver.
Qed.

Lemma db_contents_of m : db_contents (db_of m) = m.
Proof. done. Qed.

(** ** The abstract store *)

(** The requests a client of the store can make and what they return. *)
Inductive store_op : Type :=
| OpInsert (key value : string)
| OpLookup (key : string)
| OpRemove (key : string).

Inductive store_ret : Type :=
| RetBool (b : bool)
| RetValue (v : option string).

#[export] Instance store_ret_eq_dec : EqDecision store_ret.
Proof. solve_decision. Defined.

(** What the store promises: a finite map; insert reports whether the key
    is new, remove whether it was present. *)
Definition spec_step (op : store_op) (m : table) : store_ret * table :=
  match op with
  | OpInsert k v => (RetBool (bool_decide (m !! k = None)), <[k:=v]> m)
  | OpLookup k => (RetValue (m !! k), m)
  | OpRemove k => (RetBool (bool_decide (is_Some (m !! k))), delete k m)
  end.

Fixpoint spec_run (ops : list store_op) (m : table) : list store_ret * table :=
  match ops with
  | [] => ([], m)
  | op :: ops =>
      let '(r, m1) := spec_step op m in
      let '(rs, m2) := spec_run ops m1 in
      (r :: rs, m2)
  end.

(** The same requests on the implementation. *)
Definition db_step (op : store_op) : ST db_state store_ret :=
  match op with
  | OpInsert k v => b <- db_insert k v ;; st_ret (RetBool b)
  | OpLookup k => v <- db_lookup k ;; st_ret (RetValue v)
  | OpRemove k => b <- db_remove k ;; st_ret (RetBool b)
  end.

Fixpoint db_run (ops : list store_op) : ST db_state (list store_ret) :=
  match ops with
  | [] => st_ret []
  | op :: ops =>
      r <- db_step op ;;
      rs <- db_run ops ;;
      st_ret (r :: rs)
  end.

(** An implementation of the store over a state [S]: its invariant, the
    table a state stands for, and the three operations with what each
    returns and does from a state that satisfies the invariant. *)
Class StoreImpl (S : Type) : Type := {
  sto_inv : S -> Prop;
  sto_abs : S -> table;
  sto_insert : string -> string -> ST S bool;
  sto_lookup : string -> ST S (option string);
  sto_remove : string -> ST S bool;
  sto_insert_spec s k v :
    sto_inv s ->
    exists s', sto_insert k v s = Ok (bool_decide (sto_abs s !! k = None), s')
               /\ sto_inv s' /\ sto_abs s' = <[k:=v]> (sto_abs s);
  sto_lookup_spec s k :
    sto_inv s ->
    exists s', sto_lookup k s = Ok (sto_abs s !! k, s')
               /\ sto_inv s' /\ sto_abs s' = sto_abs s;
  sto_remove_spec s k :
    sto_inv s ->
    exists s', sto_remove k s = Ok (bool_decide (is_Some (sto_abs s !! k)), s')
               /\ sto_inv s' /\ sto_abs s' = delete k (sto_abs s);
}.

(** ** Theorems: the store refines a finite map *)

(** C2. The store refines a finite map: from a state that holds table
    [m] with the lock free, any sequence of [db_insert], [db_lookup] and
    [db_remove] calls returns, returns what the same requests return on
    the map [m], and ends in the state that holds the map's final
    contents with the lock free. *)
Theorem db_run_refines (ops : list store_op) (m : table) :
  db_run ops (db_of m)
  = Ok (fst (spec_run ops m), db_of (snd (spec_run ops m))).
Proof.
  revert m. induction ops as [|op ops IH]; intros m; [done|].
  simpl. unfold st_bind.
  replace (db_step op (db_of m))
    with (Ok (fst (spec_step op m), db_of (snd (spec_step op m)))) by (by destruct op).
  destruct (spec_step op m) as [r m1]. simpl.
  rewrite IH. by destruct (spec_run ops m1).
Qed.

(** ** Each operation on a state that holds a table, with the lock free *)

Lemma db_insert_of (m : table) (key value : string) :
  db_insert key value (db_of m)
  = Ok (bool_decide (m !! key = None), db_of (<[key:=value]> m)).
Proof. reflexivity. Qed.

Lemma db_lookup_of (m : table) (key : string) :
  db_lookup key (db_of m) = Ok (m !! key, db_of m).
Proof. reflexivity. Qed.

Lemma db_remove_of (m : table) (key : string) :
  db_remove key (db_of m)
  = Ok (bool_decide (is_Some (m !! key)), db_of (delete key m)).
Proof. reflexivity. Qed.

(** [db_init] on any state whose lock is not held (the static state
    of the process among them) returns, creates an empty table and
    leaves the lock free. *)
Lemma db_init_ok (s : db_state) :
  db_mutex s <> MLocked -> db_init s = Ok (tt, db_of ∅).
Proof. destruct s as [h []]; done. Qed.

Lemma db_init_ok_witness : db_init db_static = Ok (tt, db_of ∅).
Proof. apply db_init_ok. discriminate. Defined.

Lemma db_init_static : db_init db_static = Ok (tt, db_of ∅).
Proof. reflexivity. Qed.

(** The invariant, in the form the callers use: from a state that
    satisfies [db_ok] every operation returns and [db_ok] holds again. *)
Lemma db_step_ok (op : store_op) (s : db_state) :
  db_ok s ->
  db_step op s = Ok (fst (spec_step op (db_contents s)),
                     db_of (snd (spec_step op (db_contents s)))).
Proof. intros ->%db_ok_inv. by destruct op. Qed.

Lemma db_step_preserves (op : store_op) (s s' : db_state) r :
  db_ok s -> db_step op s = Ok (r, s') -> db_ok s'.
Proof. intros Hs. rewrite db_step_ok by done. intros [= _ <-]. apply db_ok_of. Qed.

(** The store of the program implements the interface. *)
#[export] Program Instance db_store : StoreImpl db_state := {|
  sto_inv := db_ok;
  sto_abs := db_contents;
  sto_insert := db_insert;
  sto_lookup := db_lookup;
  sto_remove := db_remove;
|}.
Next Obligation.
  intros s k v ->%db_ok_inv. eexists. rewrite db_insert_of. eauto using db_ok_of.
Qed.
Next Obligation.
  intros s k ->%db_ok_inv. eexists. rewrite db_lookup_of. eauto using db_ok_of.
Qed.
Next Obligation.
  intros s k ->%db_ok_inv. eexists. rewrite db_remove_of. eauto using db_ok_of.
Qed.

(** ** Theorems: the lock *)

(** C4. With [db_mutex] held, [db_insert], [db_lookup] and [db_remove]
    block for ever: the lock is not recursive. *)
Theorem db_step_deadlock (op : store_op) (s : db_state) :
  db_mutex s = MLocked -> db_step op s = Fault Deadlock.
Proof. destruct s as [h mu]; simpl; intros ->. by destruct op. Qed.

Lemma db_step_deadlock_witness :
  db_step (OpLookup "k") {| db_mem := Live ∅; db_mutex := MLocked |} = Fault Deadlock.
Proof. apply db_step_deadlock. reflexivity. Defined.

(** ** Theorems: before [db_init] and after [db_deinit] *)

(** Before [db_init] there is no table: [db_insert] and [db_remove]
    return false, [db_lookup] returns nothing, and the state does not
    change. *)
Lemma db_step_static (op : store_op) :
  db_step op db_static
  = Ok (match op with
        | OpInsert _ _ | OpRemove _ => RetBool false
        | OpLookup _ => RetValue None
        end, db_static).
Proof. by destruct op. Qed.

Theorem db_deinit_ok (m : table) :
  db_deinit (db_of m) = Ok (tt, {| db_mem := Dangling; db_mutex := MCleared |}).
Proof. reflexivity. Qed.

(** After [db_deinit] the table is destroyed and the lock cleared:
    every operation is undefined behaviour. *)
Lemma db_step_after_deinit (op : store_op) (m : table) :
  (db_deinit ;; db_step op) (db_of m) = Fault Undefined.
Proof. by destruct op. Qed.

(** ** Consequences for clients: the laws of the finite map *)

Section store_laws.
Context (m : table) (k k' v v' : string).

Lemma db_insert_lookup :
  (db_insert k v ;; db_lookup k) (db_of m) = Ok (Some v, db_of (<[k:=v]> m)).
Proof. simpl. unfold st_bind. by rewrite db_insert_of, db_lookup_of, lookup_insert_eq. Qed.

Lemma db_insert_lookup_ne :
  k <> k' ->
  (db_insert k v ;; db_lookup k') (db_of m) = Ok (m !! k', db_of (<[k:=v]> m)).
Proof.
  intros. unfold st_bind. by rewrite db_insert_of, db_lookup_of, lookup_insert_ne.
Qed.

Lemma db_remove_lookup :
  (db_remove k ;; db_lookup k) (db_of m) = Ok (None, db_of (delete k m)).
Proof. unfold st_bind. by rewrite db_remove_of, db_lookup_of, lookup_delete_eq. Qed.

Lemma db_insert_insert :
  (db_insert k v ;; db_insert k v') (db_of m) = Ok (false, db_of (<[k:=v']> m)).
Proof.
  unfold st_bind. rewrite !db_insert_of, insert_insert_eq, lookup_insert_eq.
  by rewrite bool_decide_eq_false_2.
Qed.

Lemma db_remove_remove :
  (db_remove k ;; db_remove k) (db_of m) = Ok (false, db_of (delete k m)).
Proof.
  unfold st_bind. rewrite !db_remove_of, lookup_delete_eq, delete_delete_eq.
  rewrite bool_decide_eq_false_2; [done|]. by intros [??].
Qed.

End store_laws.

#[export] Hint Rewrite db_insert_of db_lookup_of db_remove_of db_contents_of : udb.
#[export] Hint Resolve db_ok_of : udb.
