(* ===== verification/Scanner.v ===== *)
(** * Scanner: the process-wide [GScanner] and its configuration

    src/udb.c lines 207-243: the globals [udb_scanner] and
    [scanner_mutex] and [udb_scanner_init], which creates the scanner
    with GLib's default configuration and then sets the fields of
    [scanner->config] one by one.  The configuration is the record
    [GScannerConfig]; [udb_scanner_config] is the default with the
    source's assignments applied.

    The scanner itself is GLib's: [g_scanner_input_text] and
    [g_scanner_get_next_token] are modelled from gscanner.c for the
    features the configuration of [udb_scanner_init] enables
    (identifiers, quoted strings, numbers in four radixes, floats,
    single-line comments, skipped characters); [config_supported] says
    which configurations the model covers.

    The text of the scanner is a C string and a length.  The length is a
    [guint]: the scanner stops at [text + text_len], not at the string's
    terminator, so the model keeps apart the unread characters of the
    string ([sc_text]) and what lies between the terminator and the end
    of the text ([sc_end]).  Reading the terminator yields the character
    NUL; reading a byte after it is a read outside the string the caller
    passed, the fault [Undefined].  The buffer may hold a NUL before its
    end (the caller wrote one into the line): the token reader meets it
    as a character, and the loops of gscanner.c that stop at a NUL
    (quoted strings, comments, the identifier of one letter) stop
    there. *)

From S2P Require Import Prelude CString Mutex.

Set Warnings "-clear-no-such-hyp".

Open Scope Z_scope.

(** ** Characters and character sets *)

Definition NUL : ascii := "000"%char.
Definition char_dq : ascii := "034"%char.
Definition char_sq : ascii := "039"%char.
Definition char_bs : ascii := "092"%char.
Definition char_lf : ascii := "010"%char.

Infix "==c" := Ascii.eqb (at level 70, no associativity) : udb_scope.

Fixpoint str_mem (c : ascii) (s : string) : bool :=
  match s with
  | EmptyString => false
  | String d s => (c ==c d) || str_mem c s
  end.

(** [strchr s c != NULL]: the terminator of [s] counts as part of it, so
    the character NUL is always found. *)
Definition strchr (s : string) (c : ascii) : bool := (c ==c NUL) || str_mem c s.

Definition G_CSET_a_2_z : string := "abcdefghijklmnopqrstuvwxyz".
Definition G_CSET_A_2_Z : string := "ABCDEFGHIJKLMNOPQRSTUVWXYZ".
Definition G_CSET_DIGITS : string := "0123456789".

(** [g_scanner_char_2_num c 36 >= 0]: a digit or a letter. *)
Definition is_alnum (c : ascii) : bool := is_digit c || is_upper c || is_lower c.

(** [g_scanner_char_2_num c base]: the value of the digit [c], or
    nothing when [c] is not a digit of the base. *)
Definition char_2_num (c : ascii) (base : Z) : option Z :=
  let n := char_code c in
  let v := if is_digit c then Some (n - 48)
           else if is_upper c then Some (n - 65 + 10)
           else if is_lower c then Some (n - 97 + 10)
           else None in
  match v with
  | Some d => if bool_decide (d < base) then Some d else None
  | None => None
  end.

(** ** Tokens *)

(** [GTokenType]; [G_TOKEN_LITERAL c] stands for the values 1..255, a
    character used as its own token. *)
Inductive GTokenType : Type :=
| G_TOKEN_EOF
| G_TOKEN_LITERAL (c : ascii)
| G_TOKEN_NONE
| G_TOKEN_ERROR
| G_TOKEN_CHAR
| G_TOKEN_BINARY
| G_TOKEN_OCTAL
| G_TOKEN_INT
| G_TOKEN_HEX
| G_TOKEN_FLOAT
| G_TOKEN_STRING
| G_TOKEN_SYMBOL
| G_TOKEN_IDENTIFIER
| G_TOKEN_IDENTIFIER_NULL
| G_TOKEN_COMMENT_SINGLE
| G_TOKEN_COMMENT_MULTI.

#[export] Instance GTokenType_eq_dec : EqDecision GTokenType.
Proof. solve_decision. Defined.

(** The value of the enumerator, which [%d] prints. *)
Definition token_code (t : GTokenType) : Z :=
  match t with
  | G_TOKEN_EOF => 0
  | G_TOKEN_LITERAL c => char_code c
  | G_TOKEN_NONE => 256
  | G_TOKEN_ERROR => 257
  | G_TOKEN_CHAR => 258
  | G_TOKEN_BINARY => 259
  | G_TOKEN_OCTAL => 260
  | G_TOKEN_INT => 261
  | G_TOKEN_HEX => 262
  | G_TOKEN_FLOAT => 263
  | G_TOKEN_STRING => 264
  | G_TOKEN_SYMBOL => 265
  | G_TOKEN_IDENTIFIER => 266
  | G_TOKEN_IDENTIFIER_NULL => 267
  | G_TOKEN_COMMENT_SINGLE => 268
  | G_TOKEN_COMMENT_MULTI => 269
  end.

Inductive GErrorType : Type :=
| G_ERR_UNKNOWN
| G_ERR_UNEXP_EOF
| G_ERR_UNEXP_EOF_IN_STRING
| G_ERR_UNEXP_EOF_IN_COMMENT
| G_ERR_NON_DIGIT_IN_CONST
| G_ERR_DIGIT_RADIX
| G_ERR_FLOAT_RADIX
| G_ERR_FLOAT_MALFORMED.

#[export] Instance GErrorType_eq_dec : EqDecision GErrorType.
Proof. solve_decision. Defined.

(** [GTokenValue], a union: the member that was written last.
    [v_string], [v_identifier] and [v_comment] are the same member.  A
    float is kept as the text the scanner hands to [g_strtod]. *)
Inductive GTokenValue : Type :=
| V_zero
| V_string (s : string)
| V_int (z : Z)
| V_float (lexeme : string)
| V_char (c : ascii)
| V_error (e : GErrorType).

#[export] Instance GTokenValue_eq_dec : EqDecision GTokenValue.
Proof. solve_decision. Defined.

(** Reading the members the handlers read.  A member that was not the
    one written holds no pointer or number the program can use. *)
Definition v_identifier (v : GTokenValue) : outcome string :=
  match v with V_string s => Ok s | _ => Fault Undefined end.

Definition v_string (v : GTokenValue) : outcome string := v_identifier v.

Definition v_int (v : GTokenValue) : outcome Z :=
  match v with V_int z => Ok z | V_zero => Ok 0 | _ => Fault Undefined end.

Definition v_float (v : GTokenValue) : outcome string :=
  match v with V_float x => Ok x | _ => Fault Undefined end.

(** ** Configuration *)

Record GScannerConfig : Type := mk_config {
  cset_skip_characters : string;
  cset_identifier_first : string;
  cset_identifier_nth : string;
  cpair_comment_single : string;
  case_sensitive : bool;
  skip_comment_multi : bool;
  skip_comment_single : bool;
  scan_comment_multi : bool;
  scan_identifier : bool;
  scan_identifier_1char : bool;
  scan_identifier_NULL : bool;
  scan_symbols : bool;
  scan_binary : bool;
  scan_octal : bool;
  scan_float : bool;
  scan_hex : bool;
  scan_hex_dollar : bool;
  scan_string_sq : bool;
  scan_string_dq : bool;
  numbers_2_int : bool;
  int_2_float : bool;
  identifier_2_string : bool;
  char_2_token : bool;
  symbol_2_token : bool;
  scope_0_fallback : bool;
  store_int64 : bool;
}.

(** The configuration [g_scanner_new (NULL)] starts from.  Its set of
    later identifier characters also holds the Latin-1 letters; the
    source replaces that set, so only its ASCII part is written here. *)
Definition g_scanner_config_template : GScannerConfig := {|
  cset_skip_characters := String " " (String "009" (String "013" (String "010" "")));
  cset_identifier_first := G_CSET_a_2_z +:+ "_" +:+ G_CSET_A_2_Z;
  cset_identifier_nth := G_CSET_a_2_z +:+ "_0123456789" +:+ G_CSET_A_2_Z;
  cpair_comment_single := String "#" (String "010" "");
  case_sensitive := false;
  skip_comment_multi := true;
  skip_comment_single := true;
  scan_comment_multi := true;
  scan_identifier := true;
  scan_identifier_1char := false;
  scan_identifier_NULL := false;
  scan_symbols := true;
  scan_binary := false;
  scan_octal := true;
  scan_float := true;
  scan_hex := true;
  scan_hex_dollar := false;
  scan_string_sq := true;
  scan_string_dq := true;
  numbers_2_int := true;
  int_2_float := false;
  identifier_2_string := false;
  char_2_token := true;
  symbol_2_token := false;
  scope_0_fallback := false;
  store_int64 := false;
|}.

(** The three character sets [udb_scanner_init] assigns. *)
Definition udb_cset_skip_characters : string :=
  String " " (String "009" (String "013" (String "010" ""))).

Definition udb_cset_identifier_first : string :=
  G_CSET_a_2_z +:+ G_CSET_A_2_Z +:+ "_".

Definition udb_cset_identifier_nth : string :=
  G_CSET_a_2_z +:+ G_CSET_A_2_Z +:+ G_CSET_DIGITS +:+ "_".

(** The configuration after the assignments of [udb_scanner_init], in the
    order of the source; a field the source does not assign keeps the
    default. *)
Definition udb_scanner_config : GScannerConfig :=
  let d := g_scanner_config_template in {|
  cset_skip_characters := udb_cset_skip_characters;
  cset_identifier_first := udb_cset_identifier_first;
  cset_identifier_nth := udb_cset_identifier_nth;
  scan_identifier := true;
  scan_identifier_1char := true;
  scan_binary := true;
  scan_octal := true;
  scan_float := true;
  scan_hex := true;
  scan_string_sq := true;
  scan_string_dq := true;
  numbers_2_int := true;
  int_2_float := false;
  scan_comment_multi := false;
  skip_comment_single := false;
  skip_comment_multi := false;
  scan_hex_dollar := false;
  scan_symbols := false;
  symbol_2_token := false;
  char_2_token := false;
  cpair_comment_single := cpair_comment_single d;
  case_sensitive := case_sensitive d;
  scan_identifier_NULL := scan_identifier_NULL d;
  identifier_2_string := identifier_2_string d;
  scope_0_fallback := scope_0_fallback d;
  store_int64 := store_int64 d;
|}.

(** The configurations the model of the scanner covers: the features it
    does not model are off, and a single-line comment ends at a line
    feed. *)
Definition config_supported (cfg : GScannerConfig) : bool :=
  negb (scan_comment_multi cfg) && negb (scan_symbols cfg)
  && negb (scan_hex_dollar cfg) && negb (int_2_float cfg)
  && negb (identifier_2_string cfg) && negb (scan_identifier_NULL cfg)
  && negb (store_int64 cfg) && negb (char_2_token cfg)
  && negb (skip_comment_single cfg)
  && bool_decide (cpair_comment_single cfg = String "#" (String "010" "")).

(** ** The scanner's text *)

(** What follows the unread bytes of the buffer:
    - [AtBound]: the end of the text ([text == text_end]);
    - [AtTerm k]: the buffer's terminator, and [k >= 1] bytes from the
      terminator (included) to the end of the text;
    - [Past k]: the terminator was read; [k] bytes that are not part of
      the buffer remain before the end of the text. *)
Inductive text_end : Type :=
| AtBound
| AtTerm (k : Z)
| Past (k : Z).

#[export] Instance text_end_eq_dec : EqDecision text_end.
Proof. solve_decision. Defined.

(** [g_scanner_get_char] with no unread character of the string left: it
    returns NUL, having read the terminator or nothing at all; after the
    terminator it reads a byte that is not the caller's. *)
Definition get_at_end (e : text_end) : outcome text_end :=
  match e with
  | AtBound => Ok AtBound
  | AtTerm k => Ok (Past (k - 1))
  | Past k => if bool_decide (k <= 0) then Ok (Past k) else Fault Undefined
  end.

(** [g_scanner_peek_next_char] in the same position. *)
Definition peek_at_end (e : text_end) : outcome unit :=
  match e with
  | AtBound | AtTerm _ => Ok tt
  | Past k => if bool_decide (k <= 0) then Ok tt else Fault Undefined
  end.

(** [text >= text_end]: nothing is left to read. *)
Definition at_text_end (text : string) (e : text_end) : bool :=
  match text, e with
  | EmptyString, AtBound => true
  | EmptyString, Past k => bool_decide (k <= 0)
  | _, _ => false
  end.

(** ** Scanning one token *)

(** What one call of the token reader yields: the token, its value, and
    the text that remains. *)
Definition lexed : Type := GTokenType * GTokenValue * string * text_end.

(** The text is the bytes of the caller's buffer, and a NUL among them
    is a character like the others for [g_scanner_get_char]: the loops
    below stop where GLib's stop. *)

(** How the loop of a single-quoted string ends: at the closing quote,
    with the characters before it and the text after it; at a NUL in the
    text, which is read; or at the end of the text. *)
Inductive sq_scan : Type :=
| SqClosed (s rest : string)
| SqNul (rest : string)
| SqEnd.

Definition sq_cons (c : ascii) (r : sq_scan) : sq_scan :=
  match r with
  | SqClosed s rest => SqClosed (String c s) rest
  | _ => r
  end.

Fixpoint string_sq_loop (text : string) : sq_scan :=
  match text with
  | EmptyString => SqEnd
  | String c r =>
      if c ==c NUL then SqNul r
      else if c ==c char_sq then SqClosed EmptyString r
      else sq_cons c (string_sq_loop r)
  end.

Definition is_octal_digit (c : ascii) : bool := bool_decide (48 <= char_code c <= 55).

Definition octal_val (c : ascii) : Z := char_code c - 48.

(** The character an escape letter stands for. *)
Definition escape_char (e : ascii) : ascii :=
  if e ==c "n"%char then "010"%char
  else if e ==c "t"%char then "009"%char
  else if e ==c "r"%char then "013"%char
  else if e ==c "b"%char then "008"%char
  else if e ==c "f"%char then "012"%char
  else e.

(** How the loop of a double-quoted string ends: at the closing quote; at
    a NUL in the text, which is read; at the end of the text; or at the
    end of the text right after a backslash, where the loop reads once
    more.  A backslash before a NUL in the text stands for nothing, and
    the loop goes on behind the NUL. *)
Inductive dq_scan : Type :=
| DqClosed (s rest : string)
| DqNul (rest : string)
| DqEnd
| DqEndEscape.

Definition dq_cons (c : ascii) (r : dq_scan) : dq_scan :=
  match r with
  | DqClosed s rest => DqClosed (String c s) rest
  | _ => r
  end.

Fixpoint string_dq_loop (text : string) : dq_scan :=
  match text with
  | EmptyString => DqEnd
  | String c r =>
      if c ==c NUL then DqNul r
      else if c ==c char_dq then DqClosed EmptyString r
      else if c ==c char_bs then
        match r with
        | EmptyString => DqEndEscape
        | String e r1 =>
            if e ==c NUL then string_dq_loop r1
            else if is_octal_digit e then
              match r1 with
              | String d2 r2 =>
                  if is_octal_digit d2 then
                    match r2 with
                    | String d3 r3 =>
                        if is_octal_digit d3 then
                          dq_cons (char_of_code (((octal_val e * 8 + octal_val d2) * 8
                                                  + octal_val d3) mod 256))
                            (string_dq_loop r3)
                        else dq_cons (char_of_code (octal_val e * 8 + octal_val d2))
                               (string_dq_loop r2)
                    | EmptyString =>
                        dq_cons (char_of_code (octal_val e * 8 + octal_val d2))
                          (string_dq_loop r2)
                    end
                  else dq_cons (char_of_code (octal_val e)) (string_dq_loop r1)
              | EmptyString => dq_cons (char_of_code (octal_val e)) (string_dq_loop r1)
              end
            else dq_cons (escape_char e) (string_dq_loop r1)
        end
      else dq_cons c (string_dq_loop r)
  end.

(** The loop of an identifier: the characters of [cset_identifier_nth]
    at the head of the text, and the text after them. *)
Fixpoint identifier_loop (nth text : string) : string * string :=
  match text with
  | EmptyString => (EmptyString, EmptyString)
  | String c r =>
      if str_mem c nth then
        let '(s, rest) := identifier_loop nth r in (String c s, rest)
      else (EmptyString, text)
  end.

(** The loop of a single-line comment: the characters up to the line
    feed or a NUL, the text after it, and whether one of the two was
    found in the text. *)
Fixpoint comment_single_loop (text : string) : string * string * bool :=
  match text with
  | EmptyString => (EmptyString, EmptyString, false)
  | String c r =>
      if (c ==c char_lf) || (c ==c NUL) then (EmptyString, r, true)
      else let '(s, rest, found) := comment_single_loop r in (String c s, rest, found)
  end.

(** *** Numbers *)

Inductive num_kind : Type := NBinary | NOctal | NInt | NHex | NFloat.

#[export] Instance num_kind_eq_dec : EqDecision num_kind.
Proof. solve_decision. Defined.

Definition is_e (c : ascii) : bool := (c ==c "e"%char) || (c ==c "E"%char).

Definition is_sign (c : ascii) : bool := (c ==c "+"%char) || (c ==c "-"%char).

(** The loop [in_number]: [last] is the character appended last and
    [tok] the kind so far.  It returns the kind or the error, the
    characters appended and the text that remains. *)
Fixpoint number_loop (cfg : GScannerConfig) (text : string) (tok : num_kind)
    (last : ascii) : (GErrorType + num_kind) * string * string :=
  match text with
  | EmptyString => (inr tok, EmptyString, EmptyString)
  | String c r =>
      let is_E := bool_decide (tok = NFloat) && is_e last in
      if is_alnum c || (scan_float cfg && (c ==c "."%char)) || (is_E && is_sign c) then
        let continue (tok' : num_kind) :=
          let '(res, s, rest) := number_loop cfg r tok' c in (res, String c s, rest) in
        if c ==c "."%char then
          if bool_decide (tok = NInt) || bool_decide (tok = NOctal) then continue NFloat
          else (inl (if bool_decide (tok = NFloat) then G_ERR_FLOAT_MALFORMED
                     else G_ERR_FLOAT_RADIX), EmptyString, r)
        else if is_digit c then continue tok
        else if is_sign c then
          if bool_decide (tok = NFloat) then continue tok
          else (inl G_ERR_NON_DIGIT_IN_CONST, EmptyString, r)
        else if is_e c then
          if bool_decide (tok = NHex) then continue tok
          else if negb (scan_float cfg) || bool_decide (tok = NBinary)
          then (inl G_ERR_NON_DIGIT_IN_CONST, EmptyString, r)
          else continue NFloat
        else
          if bool_decide (tok = NHex) then continue tok
          else (inl G_ERR_NON_DIGIT_IN_CONST, EmptyString, r)
      else (inr tok, EmptyString, text)
  end.

(** [g_ascii_strtoull] on digits: the value, saturated at [2^64 - 1], or
    nothing when a character is not a digit of the base. *)
Fixpoint strtoull_digits (base : Z) (s : string) (acc : Z) : option Z :=
  match s with
  | EmptyString => Some (Z.min acc (2 ^ 64 - 1))
  | String c r =>
      match char_2_num c base with
      | Some d => strtoull_digits base r (Z.min (acc * base + d) (2 ^ 64))
      | None => None
      end
  end.

Definition num_base (k : num_kind) : Z :=
  match k with NBinary => 2 | NOctal => 8 | NHex => 16 | NInt | NFloat => 10 end.

Fixpoint all_digits (s : string) : bool :=
  match s with
  | EmptyString => true
  | String c r => is_digit c && all_digits r
  end.

Fixpoint span_digits (s : string) : string * string :=
  match s with
  | String c r =>
      if is_digit c then let '(d, rest) := span_digits r in (String c d, rest)
      else (EmptyString, s)
  | EmptyString => (EmptyString, EmptyString)
  end.

(** Whether [g_strtod] reads all of a decimal floating-point text:
    digits, an optional point and digits with at least one digit in all,
    and an optional exponent with at least one digit. *)
Definition strtod_reads_all (s : string) : bool :=
  let '(int_part, r1) := span_digits s in
  let '(frac_part, r2) :=
    match r1 with
    | String c r => if c ==c "."%char then span_digits r else (EmptyString, r1)
    | EmptyString => (EmptyString, r1)
    end in
  negb (bool_decide (int_part = EmptyString) && bool_decide (frac_part = EmptyString))
  && match r2 with
     | EmptyString => true
     | String c r =>
         is_e c &&
         match r with
         | String sg r' =>
             if is_sign sg then negb (bool_decide (r' = EmptyString)) && all_digits r'
             else all_digits r
         | EmptyString => false
         end
     end.

(** The token for the characters [gstring] the number loop collected. *)
Definition number_token (res : GErrorType + num_kind) (gstring : string)
    : GTokenType * GTokenValue :=
  match res with
  | inl e => (G_TOKEN_ERROR, V_error e)
  | inr NFloat =>
      if strtod_reads_all gstring then (G_TOKEN_FLOAT, V_float gstring)
      else (G_TOKEN_ERROR, V_error G_ERR_NON_DIGIT_IN_CONST)
  | inr k =>
      match strtoull_digits (num_base k) gstring 0 with
      | Some z =>
          (match k with
           | NBinary => G_TOKEN_BINARY
           | NOctal => G_TOKEN_OCTAL
           | NHex => G_TOKEN_HEX
           | _ => G_TOKEN_INT
           end, V_int z)
      | None => (G_TOKEN_ERROR, V_error G_ERR_DIGIT_RADIX)
      end
  end.

(** A number that starts with the character [first] (already read), of
    kind [tok]; [prefix] is what the text handed to the conversion
    starts with, and the conversion reads what was collected as a C
    string.  The loop peeks at the end of the text when it runs to
    it. *)
Definition scan_number_from (cfg : GScannerConfig) (prefix : string) (first : ascii)
    (tok : num_kind) (text : string) (e : text_end) : outcome lexed :=
  let '(res, s, rest) := number_loop cfg text tok first in
  let '(t, v) := number_token res (c_str (prefix +:+ String first s)) in
  olet _ := match res, rest with
            | inr _, EmptyString => peek_at_end e
            | _, _ => Ok tt
            end in
  Ok (t, v, rest, e).

(** *** One token *)

(** An identifier whose first character [ch] was read.  The test for a
    second character asks [strchr] about the character peeked, and
    [strchr] finds a NUL in every string: before a NUL, in the text or
    as its terminator, the loop reads the NUL as a character of the
    identifier, peeks once more, and goes on with the characters of
    [cset_identifier_nth] that follow.  The value is the identifier as
    a C string. *)
Definition lex_identifier (cfg : GScannerConfig) (ch : ascii) (r : string)
    (e : text_end) : outcome lexed :=
  match r with
  | String p r' =>
      if p ==c NUL then
        let '(s, rest) := identifier_loop (cset_identifier_nth cfg) r' in
        olet _ := match rest with EmptyString => peek_at_end e | _ => Ok tt end in
        Ok (G_TOKEN_IDENTIFIER, V_string (String ch EmptyString), rest, e)
      else if str_mem p (cset_identifier_nth cfg) then
        let '(s, rest) := identifier_loop (cset_identifier_nth cfg) r in
        olet _ := match rest with EmptyString => peek_at_end e | _ => Ok tt end in
        Ok (G_TOKEN_IDENTIFIER, V_string (String ch s), rest, e)
      else if scan_identifier_1char cfg then
        Ok (G_TOKEN_IDENTIFIER, V_string (String ch EmptyString), r, e)
      else Ok (G_TOKEN_CHAR, V_char ch, r, e)
  | EmptyString =>
      olet _ := peek_at_end e in
      olet e1 := get_at_end e in
      olet _ := peek_at_end e1 in
      Ok (G_TOKEN_IDENTIFIER, V_string (String ch EmptyString), EmptyString, e1)
  end.

Definition lex_string_sq (r : string) (e : text_end) : outcome lexed :=
  match string_sq_loop r with
  | SqClosed s rest => Ok (G_TOKEN_STRING, V_string s, rest, e)
  | SqNul rest => Ok (G_TOKEN_ERROR, V_error G_ERR_UNEXP_EOF_IN_STRING, rest, e)
  | SqEnd =>
      olet e1 := get_at_end e in
      Ok (G_TOKEN_ERROR, V_error G_ERR_UNEXP_EOF_IN_STRING, EmptyString, e1)
  end.

(** A double-quoted string.  An escape can put a NUL in the string; the
    value is then the C string before it. *)
Definition lex_string_dq (r : string) (e : text_end) : outcome lexed :=
  match string_dq_loop r with
  | DqClosed s rest => Ok (G_TOKEN_STRING, V_string (c_str s), rest, e)
  | DqNul rest => Ok (G_TOKEN_ERROR, V_error G_ERR_UNEXP_EOF_IN_STRING, rest, e)
  | DqEnd =>
      olet e1 := get_at_end e in
      Ok (G_TOKEN_ERROR, V_error G_ERR_UNEXP_EOF_IN_STRING, EmptyString, e1)
  | DqEndEscape =>
      olet e1 := get_at_end e in
      olet e2 := get_at_end e1 in
      Ok (G_TOKEN_ERROR, V_error G_ERR_UNEXP_EOF_IN_STRING, EmptyString, e2)
  end.

Definition is_x (c : ascii) : bool := (c ==c "x"%char) || (c ==c "X"%char).
Definition is_b (c : ascii) : bool := (c ==c "b"%char) || (c ==c "B"%char).

(** A number that starts with [0]: octal, or hexadecimal or binary after
    the prefix. *)
Definition lex_zero (cfg : GScannerConfig) (r : string) (e : text_end) : outcome lexed :=
  let tok := if scan_octal cfg then NOctal else NInt in
  match r with
  | String p r' =>
      if scan_hex cfg && is_x p then scan_number_from cfg EmptyString "0" NHex r' e
      else if scan_binary cfg && is_b p then scan_number_from cfg EmptyString "0" NBinary r' e
      else scan_number_from cfg EmptyString "0" tok r e
  | EmptyString =>
      olet _ := peek_at_end e in
      scan_number_from cfg EmptyString "0" tok r e
  end.

(** A float that starts with a point: the character after the point is
    read without a test. *)
Definition lex_dotted (cfg : GScannerConfig) (r : string) (e : text_end) : outcome lexed :=
  match r with
  | String c r' => scan_number_from cfg "0." c NFloat r' e
  | EmptyString =>
      olet e1 := get_at_end e in
      olet _ := peek_at_end e1 in
      Ok (G_TOKEN_FLOAT, V_float "0.", EmptyString, e1)
  end.

(** The default case: a single-line comment, or the character itself. *)
Definition lex_default (cfg : GScannerConfig) (ch : ascii) (r : string)
    (e : text_end) : outcome lexed :=
  match cpair_comment_single cfg with
  | String c0 _ =>
      if ch ==c c0 then
        let '(s, rest, found) := comment_single_loop r in
        if found then Ok (G_TOKEN_COMMENT_SINGLE, V_string s, rest, e)
        else olet e1 := get_at_end e in
             Ok (G_TOKEN_COMMENT_SINGLE, V_string s, EmptyString, e1)
      else if char_2_token cfg then Ok (G_TOKEN_LITERAL ch, V_zero, r, e)
      else Ok (G_TOKEN_CHAR, V_char ch, r, e)
  | EmptyString =>
      if char_2_token cfg then Ok (G_TOKEN_LITERAL ch, V_zero, r, e)
      else Ok (G_TOKEN_CHAR, V_char ch, r, e)
  end.

(** [g_scanner_get_token_ll]: the next token of the text, before skipping
    and conversion.  [token] is the scanner's current token: once it is
    [G_TOKEN_EOF] nothing more is read. *)
Definition g_scanner_get_token_ll (cfg : GScannerConfig) (token : GTokenType)
    (text : string) (e : text_end) : outcome lexed :=
  if at_text_end text e || bool_decide (token = G_TOKEN_EOF)
  then Ok (G_TOKEN_EOF, V_zero, text, e)
  else
    match text with
    | EmptyString =>
        olet e1 := get_at_end e in Ok (G_TOKEN_EOF, V_zero, EmptyString, e1)
    | String ch r =>
        if ch ==c NUL then Ok (G_TOKEN_EOF, V_zero, r, e)
        else if scan_identifier cfg && str_mem ch (cset_identifier_first cfg)
        then lex_identifier cfg ch r e
        else if (ch ==c char_sq) && scan_string_sq cfg then lex_string_sq r e
        else if (ch ==c char_dq) && scan_string_dq cfg then lex_string_dq r e
        else if ch ==c "0"%char then lex_zero cfg r e
        else if is_digit ch then scan_number_from cfg EmptyString ch NInt r e
        else if (ch ==c "."%char) && scan_float cfg then lex_dotted cfg r e
        else lex_default cfg ch r e
    end.

(** A token the scanner drops: a character of [cset_skip_characters]. *)
Definition token_skipped (cfg : GScannerConfig) (t : GTokenType) (v : GTokenValue) : bool :=
  match t, v with
  | G_TOKEN_LITERAL c, _ => strchr (cset_skip_characters cfg) c
  | G_TOKEN_CHAR, V_char c => strchr (cset_skip_characters cfg) c
  | _, _ => false
  end.

(** The conversions applied to the token that is returned. *)
Definition token_convert (cfg : GScannerConfig) (t : GTokenType) : GTokenType :=
  match t with
  | G_TOKEN_BINARY | G_TOKEN_OCTAL | G_TOKEN_HEX =>
      if numbers_2_int cfg then G_TOKEN_INT else t
  | _ => t
  end.

(** [g_scanner_get_token_i]: read tokens until one is not dropped.  A
    dropped token is one character of the text, so the recursion is on
    the text. *)
Fixpoint g_scanner_get_token_i (cfg : GScannerConfig) (token : GTokenType)
    (text : string) (e : text_end) : outcome lexed :=
  olet '(t, v, text', e') := g_scanner_get_token_ll cfg token text e in
  if token_skipped cfg t v then
    match text with
    | String _ r => g_scanner_get_token_i cfg t r e'
    | EmptyString => Ok (token_convert cfg t, v, text', e')
    end
  else Ok (token_convert cfg t, v, text', e').

(** ** The scanner object *)

Record GScanner : Type := mk_scanner {
  sc_config : GScannerConfig;
  sc_text : string;
  sc_end : text_end;
  sc_token : GTokenType;
  sc_value : GTokenValue;
}.

(** [g_scanner_new (config_templ)] *)
Definition g_scanner_new (cfg : GScannerConfig) : GScanner := {|
  sc_config := cfg;
  sc_text := EmptyString;
  sc_end := AtBound;
  sc_token := G_TOKEN_NONE;
  sc_value := V_zero;
|}.

Definition set_sc_config (cfg : GScannerConfig) (sc : GScanner) : GScanner :=
  {| sc_config := cfg; sc_text := sc_text sc; sc_end := sc_end sc;
     sc_token := sc_token sc; sc_value := sc_value sc |}.

(** The value of an [int] converted to [guint]. *)
Definition to_guint (z : Z) : Z := z mod 2 ^ 32.

(** [g_scanner_input_text (scanner, text, text_len)]: the scanner will
    read [text_len] bytes from [text]; [text_len] is a [guint].  [text]
    is the bytes of the buffer before its terminator, a NUL that was
    written into it included. *)
Definition input_text (text : string) (text_len : Z) (sc : GScanner) : GScanner :=
  let len := to_guint text_len in
  let n := Z.of_nat (String.length text) in
  {| sc_config := sc_config sc;
     sc_text := if bool_decide (len <= n) then str_take (Z.to_nat len) text else text;
     sc_end := if bool_decide (len <= n) then AtBound else AtTerm (len - n);
     sc_token := G_TOKEN_NONE;
     sc_value := V_zero |}.

(** [g_scanner_get_next_token (scanner)] on a scanner that exists. *)
Definition get_next_token : ST GScanner GTokenType :=
  fun sc =>
    olet '(t, v, text, e) :=
      g_scanner_get_token_i (sc_config sc) (sc_token sc) (sc_text sc) (sc_end sc) in
    Ok (t, {| sc_config := sc_config sc; sc_text := text; sc_end := e;
              sc_token := t; sc_value := v |}).

(** The same functions on the pointer: both return at once on [NULL]. *)
Definition g_scanner_input_text (text : string) (text_len : Z) : ST (handle GScanner) unit :=
  fun h => match h with
           | Null => Ok (tt, Null)
           | Live sc => Ok (tt, Live (input_text text text_len sc))
           | Dangling => Fault Undefined
           end.

Definition g_scanner_get_next_token : ST (handle GScanner) GTokenType :=
  fun h => match h with
           | Null => Ok (G_TOKEN_EOF, Null)
           | Live sc => olet '(t, sc') := get_next_token sc in Ok (t, Live sc')
           | Dangling => Fault Undefined
           end.

(** [scanner->value], a dereference of the pointer. *)
Definition scanner_value : ST (handle GScanner) GTokenValue :=
  fun h => match h with
           | Live sc => Ok (sc_value sc, h)
           | Null | Dangling => Fault Undefined
           end.

(** ** The globals and [udb_scanner_init] *)

(** [GScanner* udb_scanner; GMutex scanner_mutex;] *)
Record scanner_state : Type := mk_scanner_state {
  udb_scanner : handle GScanner;
  scanner_mutex : GMutex;
}.

Definition scanner_static : scanner_state :=
  {| udb_scanner := Null; scanner_mutex := G_MUTEX_STATIC |}.

Definition set_udb_scanner (h : handle GScanner) (s : scanner_state) : scanner_state :=
  {| udb_scanner := h; scanner_mutex := scanner_mutex s |}.

Definition set_scanner_mutex (m : GMutex) (s : scanner_state) : scanner_state :=
  {| udb_scanner := udb_scanner s; scanner_mutex := m |}.

Definition on_udb_scanner {A} (c : ST (handle GScanner) A) : ST scanner_state A :=
  zoom udb_scanner set_udb_scanner c.

Definition on_scanner_mutex {A} (c : ST GMutex A) : ST scanner_state A :=
  zoom scanner_mutex set_scanner_mutex c.

(** [scanner->config = ...]: the assignments of [udb_scanner_init], which
    dereference the pointer. *)
Definition assign_config (cfg : GScannerConfig) : ST (handle GScanner) unit :=
  fun h => match h with
           | Live sc => Ok (tt, Live (set_sc_config cfg sc))
           | Null | Dangling => Fault Undefined
           end.

(** [udb_scanner_init]: initialise the mutex, create the scanner with the
    default configuration, and assign the fields of its configuration. *)
Definition udb_scanner_init : ST scanner_state unit :=
  on_scanner_mutex g_mutex_init ;;
  st_modify (set_udb_scanner (Live (g_scanner_new g_scanner_config_template))) ;;
  on_udb_scanner (assign_config udb_scanner_config).

(** The state [udb_scanner_init] leaves, with the scanner [sc]. *)
Definition scanner_of (sc : GScanner) : scanner_state :=
  {| udb_scanner := Live sc; scanner_mutex := MUnlocked |}.

(** ** Lemmas: reads at the end of the text *)

Lemma get_at_end_AtBound : get_at_end AtBound = Ok AtBound.
Proof. reflexivity. Qed.

Lemma peek_at_end_AtBound : peek_at_end AtBound = Ok tt.
Proof. reflexivity. Qed.

Lemma get_at_end_fault e f : get_at_end e = Fault f -> f = Undefined.
Proof. destruct e; simpl; try done. case_bool_decide; congruence. Qed.

Lemma peek_at_end_fault e f : peek_at_end e = Fault f -> f = Undefined.
Proof. destruct e; simpl; try done. case_bool_decide; congruence. Qed.

(** The reads that fault are those after the terminator. *)
Lemma get_at_end_Ok e : (forall k, e = Past k -> k <= 0) -> is_Ok (get_at_end e).
Proof.
  destruct e as [| |k]; simpl; try done. intros Hk.
  by rewrite bool_decide_eq_true_2 by eauto.
Qed.

(** ** Lemmas: the value of a token is the member its type names *)

(** The member of the value that a token of type [t] has written. *)
Definition value_of_type (t : GTokenType) (v : GTokenValue) : Prop :=
  match t with
  | G_TOKEN_STRING | G_TOKEN_IDENTIFIER | G_TOKEN_COMMENT_SINGLE => exists s, v = V_string s
  | G_TOKEN_INT | G_TOKEN_BINARY | G_TOKEN_OCTAL | G_TOKEN_HEX => exists z, v = V_int z
  | G_TOKEN_FLOAT => exists x, v = V_float x
  | G_TOKEN_CHAR => exists c, v = V_char c
  | G_TOKEN_ERROR => exists e, v = V_error e
  | G_TOKEN_EOF | G_TOKEN_LITERAL _ => v = V_zero
  | _ => False
  end.

Lemma value_of_type_convert cfg t v :
  value_of_type t v -> value_of_type (token_convert cfg t) v.
Proof. destruct t; simpl; try done; by destruct (numbers_2_int cfg). Qed.

Lemma number_token_value res gstring :
  value_of_type (number_token res gstring).1 (number_token res gstring).2.
Proof.
  unfold number_token. destruct res as [e|[]]; simpl; eauto;
    repeat case_match; simpl; eauto.
Qed.

(** Destruct the binds, matches and tests of a hypothesis about one of
    the token readers. *)
Ltac lex_inv H :=
  repeat match type of H with
         | o_bind ?o _ = _ => destruct o eqn:?; simpl in H
         | (let '(_, _) := ?p in _) = _ => destruct p eqn:?
         | (if ?b then _ else _) = _ => destruct b eqn:?
         | match ?x with _ => _ end = _ => destruct x eqn:?
         end;
  try discriminate H; try (injection H as ????; subst).

Lemma scan_number_from_value cfg prefix first tok text e t v text' e' :
  scan_number_from cfg prefix first tok text e = Ok (t, v, text', e') ->
  value_of_type t v.
Proof.
  unfold scan_number_from.
  destruct (number_loop cfg text tok first) as [[res s] rest].
  pose proof (number_token_value res (c_str (prefix +:+ String first s))) as Hv.
  destruct (number_token res (c_str (prefix +:+ String first s))) as [t0 v0].
  intros Hs. by lex_inv Hs.
Qed.

Lemma lex_identifier_value cfg ch r e t v text' e' :
  lex_identifier cfg ch r e = Ok (t, v, text', e') -> value_of_type t v.
Proof. unfold lex_identifier. intros Hs. lex_inv Hs; simpl; eauto. Qed.

Lemma lex_string_sq_value r e t v text' e' :
  lex_string_sq r e = Ok (t, v, text', e') -> value_of_type t v.
Proof. unfold lex_string_sq. intros Hs. lex_inv Hs; simpl; eauto. Qed.

Lemma lex_string_dq_value r e t v text' e' :
  lex_string_dq r e = Ok (t, v, text', e') -> value_of_type t v.
Proof. unfold lex_string_dq. intros Hs. lex_inv Hs; simpl; eauto. Qed.

Lemma lex_zero_value cfg r e t v text' e' :
  lex_zero cfg r e = Ok (t, v, text', e') -> value_of_type t v.
Proof.
  unfold lex_zero. intros Hs.
  repeat match type of Hs with
         | o_bind ?o _ = _ => destruct o eqn:?; simpl in Hs
         | (if ?b then _ else _) = _ => destruct b eqn:?
         | match ?x with _ => _ end = _ => destruct x eqn:?
         end; try done; eauto using scan_number_from_value.
Qed.

Lemma lex_dotted_value cfg r e t v text' e' :
  lex_dotted cfg r e = Ok (t, v, text', e') -> value_of_type t v.
Proof.
  unfold lex_dotted. destruct r; [|by eauto using scan_number_from_value].
  intros Hs. lex_inv Hs; simpl; eauto.
Qed.

Lemma lex_default_value cfg ch r e t v text' e' :
  lex_default cfg ch r e = Ok (t, v, text', e') -> value_of_type t v.
Proof. unfold lex_default. intros Hs. lex_inv Hs; simpl; eauto. Qed.

Lemma g_scanner_get_token_ll_value cfg token text e t v text' e' :
  g_scanner_get_token_ll cfg token text e = Ok (t, v, text', e') ->
  value_of_type t v.
Proof.
  unfold g_scanner_get_token_ll. intros Hs.
  repeat match type of Hs with
         | o_bind ?o _ = _ => destruct o eqn:?; simpl in Hs
         | (if ?b then _ else _) = _ => destruct b eqn:?
         | match ?x with _ => _ end = _ => destruct x eqn:?
         end; try discriminate Hs;
    eauto using scan_number_from_value, lex_identifier_value, lex_string_sq_value,
      lex_string_dq_value, lex_zero_value, lex_dotted_value, lex_default_value;
    by injection Hs as <- <- _ _.
Qed.

Lemma g_scanner_get_token_i_value cfg token text e t v text' e' :
  g_scanner_get_token_i cfg token text e = Ok (t, v, text', e') ->
  value_of_type t v.
Proof.
  revert token e. induction text as [|c r IH]; intros token e; simpl.
  - destruct (g_scanner_get_token_ll cfg token "" e) as [[[[t0 v0] x] y]|] eqn:E; [|done].
    simpl. apply g_scanner_get_token_ll_value in E.
    destruct (token_skipped cfg t0 v0); intros [= <- <- <- <-];
      by apply value_of_type_convert.
  - destruct (g_scanner_get_token_ll cfg token (String c r) e) as [[[[t0 v0] x] y]|] eqn:E;
      [|done].
    simpl. apply g_scanner_get_token_ll_value in E.
    destruct (token_skipped cfg t0 v0); [by eauto|].
    intros [= <- <- <- <-]. by apply value_of_type_convert.
Qed.

(** The token [g_scanner_get_next_token] returns is the scanner's current
    token, and the scanner's value is the member that token names. *)
Lemma get_next_token_value sc t sc' :
  get_next_token sc = Ok (t, sc') ->
  sc_token sc' = t /\ value_of_type t (sc_value sc').
Proof.
  unfold get_next_token.
  destruct (g_scanner_get_token_i _ _ _ _) as [[[[t0 v0] x] y]|] eqn:E; [|done].
  simpl. intros [= <- <-]. split; [done|]. by eapply g_scanner_get_token_i_value.
Qed.

(** ** Lemmas: a text with its true length is read without fault *)

(** A reader that returns when the text ends at its bound, and leaves the
    end of the text there. *)
Definition total_at_bound (o : outcome lexed) : Prop :=
  exists t v text', o = Ok (t, v, text', AtBound).

Ltac total_at_bound_cases :=
  unfold total_at_bound;
  repeat (simpl; match goal with
                 | |- context [let '(_, _) := ?p in _] => destruct p eqn:?
                 | |- context [if ?b then _ else _] => destruct b eqn:?
                 | |- context [match ?x with _ => _ end] => destruct x eqn:?
                 end); simpl; eauto.

Lemma scan_number_from_total cfg prefix first tok text :
  total_at_bound (scan_number_from cfg prefix first tok text AtBound).
Proof. unfold scan_number_from. total_at_bound_cases. Qed.

Lemma lex_identifier_total cfg ch r : total_at_bound (lex_identifier cfg ch r AtBound).
Proof. unfold lex_identifier. total_at_bound_cases. Qed.

Lemma lex_string_sq_total r : total_at_bound (lex_string_sq r AtBound).
Proof. unfold lex_string_sq. total_at_bound_cases. Qed.

Lemma lex_string_dq_total r : total_at_bound (lex_string_dq r AtBound).
Proof. unfold lex_string_dq. total_at_bound_cases. Qed.

Lemma lex_zero_total cfg r : total_at_bound (lex_zero cfg r AtBound).
Proof.
  unfold lex_zero. destruct r; simpl; repeat case_match;
    apply scan_number_from_total.
Qed.

Lemma lex_dotted_total cfg r : total_at_bound (lex_dotted cfg r AtBound).
Proof.
  unfold lex_dotted. destruct r; [|apply scan_number_from_total].
  unfold total_at_bound. simpl. eauto.
Qed.

Lemma lex_default_total cfg ch r : total_at_bound (lex_default cfg ch r AtBound).
Proof. unfold lex_default. total_at_bound_cases. Qed.

Lemma g_scanner_get_token_ll_total cfg token text :
  total_at_bound (g_scanner_get_token_ll cfg token text AtBound).
Proof.
  unfold g_scanner_get_token_ll.
  repeat case_match;
    eauto using scan_number_from_total, lex_identifier_total, lex_string_sq_total,
      lex_string_dq_total, lex_zero_total, lex_dotted_total, lex_default_total;
    unfold total_at_bound; simpl; eauto.
Qed.

Lemma g_scanner_get_token_i_total cfg token text :
  total_at_bound (g_scanner_get_token_i cfg token text AtBound).
Proof.
  revert token. induction text as [|c r IH]; intros token; simpl;
    destruct (g_scanner_get_token_ll_total cfg token "") as (t & v & x & E0);
    try destruct (g_scanner_get_token_ll_total cfg token (String c r)) as (t1 & v1 & x1 & E1);
    rewrite ?E0, ?E1; simpl; repeat case_match; try apply IH;
    unfold total_at_bound; eauto.
Qed.

(** ** Lemmas: the only fault of the scanner is the read past the string *)

Definition faults_undefined {A} (o : outcome A) : Prop :=
  forall f, o = Fault f -> f = Undefined.

Lemma faults_undefined_Ok {A} (a : A) : faults_undefined (Ok a).
Proof. by intros f. Qed.

Lemma faults_undefined_bind {A B} (o : outcome A) (k : A -> outcome B) :
  faults_undefined o -> (forall a, faults_undefined (k a)) -> faults_undefined (o_bind o k).
Proof. intros Ho Hk f. destruct o as [a|f']; simpl; [apply Hk|]. intros [= <-]. eauto. Qed.

Lemma faults_undefined_get e : faults_undefined (get_at_end e).
Proof. intros f. apply get_at_end_fault. Qed.

Lemma faults_undefined_peek e : faults_undefined (peek_at_end e).
Proof. intros f. apply peek_at_end_fault. Qed.

#[export] Hint Resolve faults_undefined_Ok faults_undefined_bind faults_undefined_get
  faults_undefined_peek : udb.

Ltac faults_undefined_cases :=
  repeat (simpl; match goal with
                 | |- faults_undefined (o_bind _ _) => apply faults_undefined_bind; [|intros ?]
                 | |- faults_undefined (let '(_, _) := ?p in _) => destruct p eqn:?
                 | |- faults_undefined (if ?b then _ else _) => destruct b eqn:?
                 | |- faults_undefined (match ?x with _ => _ end) => destruct x eqn:?
                 end); auto with udb.

Lemma scan_number_from_faults cfg prefix first tok text e :
  faults_undefined (scan_number_from cfg prefix first tok text e).
Proof. unfold scan_number_from. faults_undefined_cases. Qed.

Lemma lex_identifier_faults cfg ch r e : faults_undefined (lex_identifier cfg ch r e).
Proof. unfold lex_identifier. faults_undefined_cases. Qed.

Lemma lex_string_sq_faults r e : faults_undefined (lex_string_sq r e).
Proof. unfold lex_string_sq. faults_undefined_cases. Qed.

Lemma lex_string_dq_faults r e : faults_undefined (lex_string_dq r e).
Proof. unfold lex_string_dq. faults_undefined_cases. Qed.

Lemma lex_zero_faults cfg r e : faults_undefined (lex_zero cfg r e).
Proof.
  unfold lex_zero. destruct r; simpl; repeat case_match;
    try (apply faults_undefined_bind; [|intros ?]);
    auto using scan_number_from_faults with udb.
Qed.

Lemma lex_dotted_faults cfg r e : faults_undefined (lex_dotted cfg r e).
Proof.
  unfold lex_dotted. destruct r; [|apply scan_number_from_faults].
  faults_undefined_cases.
Qed.

Lemma lex_default_faults cfg ch r e : faults_undefined (lex_default cfg ch r e).
Proof. unfold lex_default. faults_undefined_cases. Qed.

Lemma g_scanner_get_token_ll_faults cfg token text e :
  faults_undefined (g_scanner_get_token_ll cfg token text e).
Proof.
  unfold g_scanner_get_token_ll.
  repeat case_match;
    auto using scan_number_from_faults, lex_identifier_faults, lex_string_sq_faults,
      lex_string_dq_faults, lex_zero_faults, lex_dotted_faults, lex_default_faults with udb.
Qed.

Lemma g_scanner_get_token_i_faults cfg token text e :
  faults_undefined (g_scanner_get_token_i cfg token text e).
Proof.
  revert token e. induction text as [|c r IH]; intros token e; simpl;
    (apply faults_undefined_bind; [apply g_scanner_get_token_ll_faults|]);
    intros [[[t v] x] y]; repeat case_match; auto with udb.
Qed.

Lemma get_next_token_faults sc : faults_undefined (get_next_token sc).
Proof.
  unfold get_next_token. apply faults_undefined_bind;
    [apply g_scanner_get_token_i_faults|]. intros [[[??]?]?]. auto with udb.
Qed.

Lemma get_next_token_total sc :
  sc_end sc = AtBound ->
  exists t sc', get_next_token sc = Ok (t, sc') /\ sc_end sc' = AtBound
                /\ sc_config sc' = sc_config sc.
Proof.
  intros He. unfold get_next_token. rewrite He.
  destruct (g_scanner_get_token_i_total (sc_config sc) (sc_token sc) (sc_text sc))
    as (t & v & x & ->). simpl. eauto.
Qed.

(** ** Writing a string so that the scanner reads it back *)

(** The text between double quotes that stands for [s]: the quote, the
    backslash, the line feed and the carriage return are escaped, and a
    NUL is written with its three octal digits. *)
Fixpoint escape_dq (s : string) : string :=
  match s with
  | EmptyString => EmptyString
  | String c r =>
      if c ==c NUL then String char_bs (String "0" (String "0" (String "0" (escape_dq r))))
      else if c ==c char_dq then String char_bs (String char_dq (escape_dq r))
      else if c ==c char_bs then String char_bs (String char_bs (escape_dq r))
      else if c ==c char_lf then String char_bs (String "n" (escape_dq r))
      else if c ==c "013"%char then String char_bs (String "r" (escape_dq r))
      else String c (escape_dq r)
  end.

(** [s] between double quotes. *)
Definition quote_dq (s : string) : string :=
  String char_dq (escape_dq s +:+ String char_dq EmptyString).

Lemma string_dq_loop_escape s rest :
  string_dq_loop (escape_dq s +:+ String char_dq rest) = DqClosed s rest.
Proof.
  induction s as [|c s IH]; [done|]. simpl.
  destruct (c ==c NUL) eqn:E0; [apply Ascii.eqb_eq in E0 as ->; simpl; by rewrite IH|].
  destruct (c ==c char_dq) eqn:E1; [apply Ascii.eqb_eq in E1 as ->; simpl; by rewrite IH|].
  destruct (c ==c char_bs) eqn:E2; [apply Ascii.eqb_eq in E2 as ->; simpl; by rewrite IH|].
  destruct (c ==c char_lf) eqn:E3; [apply Ascii.eqb_eq in E3 as ->; simpl; by rewrite IH|].
  destruct (c ==c "013"%char) eqn:E4; [apply Ascii.eqb_eq in E4 as ->; simpl; by rewrite IH|].
  rewrite str_app_cons. simpl. by rewrite E0, E1, E2, IH.
Qed.

(** C3. A string written between double quotes, with the quote, the
    backslash, the line feed and the carriage return escaped and a NUL
    written with its octal digits, is read back by the scanner as one
    string token whose value is the string, up to its first NUL; the
    text after the closing quote remains. *)
Theorem get_next_token_quote_dq (s rest : string) (sc : GScanner) :
  sc_config sc = udb_scanner_config -> sc_token sc <> G_TOKEN_EOF ->
  sc_text sc = quote_dq s +:+ rest ->
  get_next_token sc
  = Ok (G_TOKEN_STRING,
        {| sc_config := udb_scanner_config; sc_text := rest; sc_end := sc_end sc;
           sc_token := G_TOKEN_STRING; sc_value := V_string (c_str s) |}).
Proof.
  intros Hcfg Htok Htext. unfold get_next_token. rewrite Hcfg, Htext.
  unfold quote_dq. rewrite str_app_cons, str_app_assoc, str_app_cons, str_app_nil.
  simpl. unfold g_scanner_get_token_ll. rewrite bool_decide_eq_false_2 by done.
  simpl. unfold lex_string_dq. by rewrite string_dq_loop_escape.
Qed.

Lemma str_mem_cons c d s : str_mem c (String d s) = (c ==c d) || str_mem c s.
Proof. reflexivity. Qed.

Lemma escape_dq_no_lf s : str_mem char_lf (escape_dq s) = false.
Proof.
  induction s as [|c s IH]; [done|]. cbn [escape_dq].
  repeat case_match; rewrite !str_mem_cons, IH; try reflexivity.
  rewrite Ascii.eqb_sym. by rewrite orb_false_r.
Qed.

Lemma is_c_str_escape_dq s : is_c_str s -> is_c_str (escape_dq s).
Proof.
  induction s as [|c s IH]; [done|]. intros [Hc Hs]%is_c_str_cons. simpl.
  repeat case_match; rewrite !is_c_str_cons; split_and?; auto; done.
Qed.

(** ** The tokens of the configuration of [udb_scanner_init] *)

(** A skipped character is dropped. *)
Lemma get_token_i_skip c tok text e :
  str_mem c udb_cset_skip_characters = true -> tok <> G_TOKEN_EOF ->
  g_scanner_get_token_i udb_scanner_config tok (String c text) e
  = g_scanner_get_token_i udb_scanner_config G_TOKEN_CHAR text e.
Proof.
  intros Hc Htok.
  assert (g_scanner_get_token_ll udb_scanner_config tok (String c text) e
          = Ok (G_TOKEN_CHAR, V_char c, text, e)) as Hll.
  { unfold g_scanner_get_token_ll. rewrite bool_decide_eq_false_2 by done.
    simpl in Hc. rewrite !orb_true_iff, !Ascii.eqb_eq in Hc.
    destruct Hc as [->|[->|[->|[->|?]]]]; try done; reflexivity. }
  simpl. rewrite Hll. simpl. unfold strchr. by rewrite Hc, orb_true_r.
Qed.

(** A string between double quotes is read as the string. *)
Lemma get_token_i_quote_dq s tok rest e :
  tok <> G_TOKEN_EOF ->
  g_scanner_get_token_i udb_scanner_config tok
    (String char_dq (escape_dq s +:+ String char_dq rest)) e
  = Ok (G_TOKEN_STRING, V_string (c_str s), rest, e).
Proof.
  intros Htok. simpl. unfold g_scanner_get_token_ll.
  rewrite bool_decide_eq_false_2 by done. simpl.
  unfold lex_string_dq. by rewrite string_dq_loop_escape.
Qed.

(** An identifier of one character before the terminator. *)
Lemma get_token_i_1char_overread c tok k :
  str_mem c udb_cset_identifier_first = true -> tok <> G_TOKEN_EOF -> 1 < k ->
  g_scanner_get_token_i udb_scanner_config tok (String c EmptyString) (AtTerm k)
  = Fault Undefined.
Proof.
  intros Hc Htok Hk.
  assert ((c ==c NUL) = false) as Hn.
  { apply not_true_is_false. intros ->%Ascii.eqb_eq. by vm_compute in Hc. }
  cbn [g_scanner_get_token_i]. unfold g_scanner_get_token_ll.
  rewrite bool_decide_eq_false_2 by done. cbn [at_text_end orb].
  rewrite Hn. change (cset_identifier_first udb_scanner_config) with udb_cset_identifier_first.
  rewrite Hc. simpl. by rewrite bool_decide_eq_false_2 by lia.
Qed.

(** ** Reading a whole text *)

(** [n] calls of [get_next_token], the tokens in the order read. *)
Fixpoint scan_tokens (n : nat) : ST GScanner (list GTokenType) :=
  match n with
  | O => st_ret []
  | S n => t <- get_next_token ;; ts <- scan_tokens n ;; st_ret (t :: ts)
  end.

(** ** Theorems *)

(** [udb_scanner_init] on the globals as the program starts: the
    mutex is free, the scanner exists, and its configuration is the one
    assigned field by field, which is within what the scanner of this
    development reads. *)
Lemma udb_scanner_init_ok :
  udb_scanner_init scanner_static
  = Ok (tt, scanner_of (set_sc_config udb_scanner_config
                          (g_scanner_new g_scanner_config_template)))
  /\ config_supported udb_scanner_config = true.
Proof. by split. Qed.

(** A text given with its true length is read to its end without a
    fault: any number of calls of [get_next_token] returns, and the end
    of the text stays where it was set. *)
Lemma scan_tokens_total (n : nat) (sc : GScanner) :
  sc_end sc = AtBound ->
  exists ts sc', scan_tokens n sc = Ok (ts, sc') /\ length ts = n /\ sc_end sc' = AtBound.
Proof.
  revert sc. induction n as [|n IH]; intros sc He; [by exists [], sc|].
  destruct (get_next_token_total sc He) as (t & sc1 & E1 & He1 & _).
  destruct (IH sc1 He1) as (ts & sc' & E2 & Hlen & He').
  exists (t :: ts), sc'. simpl. unfold st_bind. rewrite E1. simpl. rewrite E2. simpl.
  by rewrite Hlen.
Qed.

(** The token and the value agree: after [get_next_token] the
    scanner's value is the member of the union that the token names, a
    string for [G_TOKEN_STRING] and [G_TOKEN_IDENTIFIER], an integer for
    [G_TOKEN_INT], the lexeme of a float for [G_TOKEN_FLOAT]. *)
Lemma get_next_token_value_agrees (sc sc' : GScanner) (t : GTokenType) :
  get_next_token sc = Ok (t, sc') ->
  sc_token sc' = t
  /\ (t = G_TOKEN_STRING \/ t = G_TOKEN_IDENTIFIER -> is_Ok (v_string (sc_value sc')))
  /\ (t = G_TOKEN_INT -> is_Ok (v_int (sc_value sc')))
  /\ (t = G_TOKEN_FLOAT -> is_Ok (v_float (sc_value sc'))).
Proof.
  intros [<- Hv]%get_next_token_value. split; [done|].
  repeat split; [intros [Ht|Ht]|intros Ht..];
    rewrite Ht in Hv; by destruct Hv as [? ->].
Qed.

(** After the end of the text the scanner stays there: once
    [G_TOKEN_EOF] was returned, every further call returns it and reads
    nothing. *)
Lemma get_next_token_eof_sticky (sc : GScanner) :
  sc_token sc = G_TOKEN_EOF ->
  get_next_token sc
  = Ok (G_TOKEN_EOF,
        {| sc_config := sc_config sc; sc_text := sc_text sc; sc_end := sc_end sc;
           sc_token := G_TOKEN_EOF; sc_value := V_zero |}).
Proof.
  intros Ht. unfold get_next_token. rewrite Ht.
  assert (forall cfg text e,
    g_scanner_get_token_ll cfg G_TOKEN_EOF text e = Ok (G_TOKEN_EOF, V_zero, text, e)) as Hll.
  { intros. unfold g_scanner_get_token_ll. by rewrite orb_true_r. }
  by destruct (sc_text sc); cbn [g_scanner_get_token_i]; rewrite Hll.
Qed.

(** An identifier of one character at the end of a text whose
    length was given too large: the scanner takes the terminator for a
    character of the identifier and reads the byte behind it, which is
    not part of the caller's string. *)
Lemma identifier_1char_overread (c : ascii) (k : Z) (sc : GScanner) :
  sc_config sc = udb_scanner_config -> sc_token sc <> G_TOKEN_EOF ->
  sc_text sc = String c EmptyString -> sc_end sc = AtTerm k -> 1 < k ->
  str_mem c udb_cset_identifier_first = true ->
  get_next_token sc = Fault Undefined.
Proof.
  intros Hcfg Htok Htext He Hk Hc. unfold get_next_token.
  by rewrite Hcfg, Htext, He, get_token_i_1char_overread.
Qed.

(** ** Examples *)

Definition example_scanner (text : string) (e : text_end) : GScanner :=
  {| sc_config := udb_scanner_config; sc_text := text; sc_end := e;
     sc_token := G_TOKEN_NONE; sc_value := V_zero |}.

Lemma get_next_token_quote_dq_witness :
  get_next_token (example_scanner (quote_dq "C:\dir" +:+ " tail") AtBound)
  = Ok (G_TOKEN_STRING,
        {| sc_config := udb_scanner_config; sc_text := " tail"; sc_end := AtBound;
           sc_token := G_TOKEN_STRING; sc_value := V_string (c_str "C:\dir") |}).
Proof.
  by apply (get_next_token_quote_dq "C:\dir" " tail"
              (example_scanner (quote_dq "C:\dir" +:+ " tail") AtBound)).
Defined.

Lemma identifier_1char_overread_witness :
  get_next_token (example_scanner "a" (AtTerm 4294967290)) = Fault Undefined.
Proof.
  by apply (identifier_1char_overread "a" 4294967290
              (example_scanner "a" (AtTerm 4294967290))).
Defined.
