(* ===== verification/Numbers.v ===== *)
(** * Numbers: decimal numerals through the scanner

    What GLib's token reader, with the configuration of
    [udb_scanner_init] (src/udb.c lines 210-243), makes of a number
    written in decimal: the token [G_TOKEN_INT] with the value
    [g_ascii_strtoull] gives, which saturates at [2^64 - 1].  The
    numerals are the strings [pretty] prints. *)

From stdpp Require Import base strings pretty list.
From S2P Require Import Prelude CString Scanner.

Open Scope string_scope.
Open Scope Z_scope.

(** What ends a number: the end of the text, or a character that is
    neither a letter, a digit nor a point. *)
Definition ends_number (rest : string) : bool :=
  match rest with
  | EmptyString => true
  | String c _ => negb (is_alnum c) && negb (c ==c "."%char)
  end.

(** ** Digits *)

Lemma is_digit_cases c :
  is_digit c = true -> c ∈ ["0"; "1"; "2"; "3"; "4"; "5"; "6"; "7"; "8"; "9"]%char.
Proof.
  unfold is_digit, char_code. intros Hc%bool_decide_eq_true.
  rewrite <-(ascii_N_embedding c).
  assert (exists d, N_of_ascii c = (48 + N.of_nat d)%N /\ (d < 10)%nat) as (d & -> & Hd).
  { exists (N.to_nat (N_of_ascii c - 48)). lia. }
  do 10 (destruct d as [|d]; [apply (bool_decide_unpack _); by vm_compute|]). lia.
Qed.

(** Case analysis on a digit. *)
Ltac digit_cases H :=
  apply is_digit_cases in H;
  repeat (apply elem_of_cons in H as [->|H]); [..|by apply elem_of_nil in H].

Lemma pretty_N_char_digit x : is_digit (pretty_N_char (x `mod` 10)) = true.
Proof. unfold pretty_N_char. by repeat case_match. Qed.

Lemma char_2_num_pretty x :
  char_2_num (pretty_N_char (x `mod` 10)) 10 = Some (Z.of_N (x `mod` 10)).
Proof.
  pose proof (N.mod_upper_bound x 10). set (d := (x `mod` 10)%N) in *.
  assert (exists k, d = N.of_nat k /\ (k < 10)%nat) as (k & -> & Hk).
  { exists (N.to_nat d). lia. }
  do 10 (destruct k as [|k]; [done|]). lia.
Qed.

Lemma all_digits_app s1 s2 : all_digits (s1 +:+ s2) = all_digits s1 && all_digits s2.
Proof.
  induction s1 as [|c s1 IH]; [by rewrite str_app_nil|].
  rewrite str_app_cons. cbn [all_digits]. by rewrite IH, andb_assoc.
Qed.

(** ** Numerals *)

Lemma all_digits_pretty_go x s : all_digits s = true -> all_digits (pretty_N_go x s) = true.
Proof.
  revert s. induction (N.lt_wf_0 x) as [x _ IH]; intros s Hs.
  destruct (decide (0 < x)%N) as [Hx|Hx]; [|by replace x with 0%N by lia].
  rewrite pretty_N_go_step by done. apply IH; [by apply N.div_lt|].
  cbn [all_digits]. by rewrite pretty_N_char_digit.
Qed.

(** A numeral of a positive number starts with a digit that is not 0. *)
Lemma pretty_go_first x s :
  (0 < x)%N -> all_digits s = true ->
  exists c r, pretty_N_go x s = String c (r +:+ s) /\ is_digit c = true
              /\ c <> "0"%char /\ all_digits r = true.
Proof.
  revert s. induction (N.lt_wf_0 x) as [x _ IH]; intros s Hx Hs.
  rewrite pretty_N_go_step by done.
  destruct (decide (0 < x `div` 10)%N) as [Hd|Hd].
  - destruct (IH (x `div` 10)%N) with (s := String (pretty_N_char (x `mod` 10)) s)
      as (c & r & -> & Hc & Hz & Hr); [by apply N.div_lt|done|..].
    { cbn [all_digits]. by rewrite pretty_N_char_digit. }
    exists c, (r +:+ String (pretty_N_char (x `mod` 10)) EmptyString).
    rewrite str_app_assoc, str_app_cons, str_app_nil. split_and!; [done..|].
    rewrite all_digits_app, Hr. cbn [all_digits]. by rewrite pretty_N_char_digit.
  - apply N.nlt_ge, N.le_0_r in Hd as E. rewrite E, pretty_N_go_0.
    exists (pretty_N_char (x `mod` 10)), EmptyString. rewrite str_app_nil.
    split_and!; [done|apply pretty_N_char_digit| |done].
    apply N.div_small_iff in E; [|done]. rewrite N.mod_small by done.
    assert (exists k, x = N.of_nat (S k) /\ (k < 9)%nat) as (k & -> & Hk).
    { exists (N.to_nat x - 1)%nat. lia. }
    do 9 (destruct k as [|k]; [done|]). lia.
Qed.

(** [g_ascii_strtoull] on a numeral: the number, saturated. *)
Lemma strtoull_pretty_go x s :
  strtoull_digits 10 (pretty_N_go x s) 0
  = strtoull_digits 10 s (Z.min (Z.of_N x) (2 ^ 64)).
Proof.
  revert s. induction (N.lt_wf_0 x) as [x _ IH]; intros s.
  destruct (decide (0 < x)%N) as [Hx|Hx]; [|by replace x with 0%N by lia].
  rewrite pretty_N_go_step, IH by (done || by apply N.div_lt).
  cbn [strtoull_digits]. rewrite char_2_num_pretty. f_equal.
  rewrite N2Z.inj_div, N2Z.inj_mod. pose proof (Z.div_mod (Z.of_N x) 10). 
  pose proof (Z.mod_pos_bound (Z.of_N x) 10). lia.
Qed.

Lemma strtoull_pretty (n : N) :
  strtoull_digits 10 (pretty n) 0 = Some (Z.min (Z.of_N n) (2 ^ 64 - 1)).
Proof.
  unfold pretty, pretty_N. destruct (decide (n = 0%N)) as [->|Hn]; [done|].
  rewrite strtoull_pretty_go. cbn [strtoull_digits]. f_equal. lia.
Qed.

(** ** The token reader on a numeral *)

Lemma digit_not_point c : is_digit c = true -> (c ==c "."%char) = false.
Proof. intros Hc. by digit_cases Hc. Qed.

Lemma digit_is_alnum c : is_digit c = true -> is_alnum c = true.
Proof. unfold is_alnum. by intros ->. Qed.

(** The loop of a number over digits, up to what ends the number. *)
Lemma number_loop_digits ds rest tok last :
  tok <> NFloat -> all_digits ds = true -> ends_number rest = true ->
  number_loop udb_scanner_config (ds +:+ rest) tok last = (inr tok, ds, rest).
Proof.
  intros Htok Hds Hr. revert last. induction ds as [|c ds IH]; intros last.
  - rewrite str_app_nil. destruct rest as [|c r]; [done|].
    apply andb_prop in Hr as [Ha%negb_true_iff Hp%negb_true_iff].
    cbn [number_loop]. rewrite Ha, Hp, (bool_decide_eq_false_2 (tok = NFloat)) by done.
    by rewrite andb_false_r.
  - apply andb_prop in Hds as [Hc Hds]. rewrite str_app_cons. cbn [number_loop].
    by rewrite (digit_is_alnum c), (digit_not_point c), Hc, IH.
Qed.

(** A digit that is not 0 starts a decimal number. *)
Lemma get_token_ll_digit c r tok e :
  is_digit c = true -> c <> "0"%char -> tok <> G_TOKEN_EOF ->
  g_scanner_get_token_ll udb_scanner_config tok (String c r) e
  = scan_number_from udb_scanner_config EmptyString c NInt r e.
Proof.
  intros Hc Hz Htok. unfold g_scanner_get_token_ll.
  rewrite bool_decide_eq_false_2 by done. by digit_cases Hc.
Qed.

(** What follows the numeral 0: nothing that continues a number. *)
Lemma lex_zero_alone rest e :
  ends_number rest = true -> peek_at_end e = Ok tt ->
  lex_zero udb_scanner_config rest e = Ok (G_TOKEN_OCTAL, V_int 0, rest, e).
Proof.
  intros Hr He. unfold lex_zero, scan_number_from.
  destruct rest as [|p r]; [by rewrite He|].
  rewrite (number_loop_digits EmptyString (String p r)) by done.
  apply andb_prop in Hr as [Ha%negb_true_iff _].
  assert (is_x p = false /\ is_b p = false) as [-> ->]; [|done].
  split; apply not_true_is_false; intros [->%Ascii.eqb_eq| ->%Ascii.eqb_eq]%orb_prop; done.
Qed.

Lemma all_digits_is_c_str s : all_digits s = true -> is_c_str s.
Proof.
  induction s as [|c s IH]; [done|]. intros [Hc Hs]%andb_prop.
  apply is_c_str_cons. split; [|by apply IH]. intros ->. done.
Qed.

(** A numeral is read as an integer: the number, saturated at
    [2^64 - 1]. *)
Lemma get_token_i_numeral (n : N) rest tok e :
  ends_number rest = true -> tok <> G_TOKEN_EOF -> peek_at_end e = Ok tt ->
  g_scanner_get_token_i udb_scanner_config tok (pretty n +:+ rest) e
  = Ok (G_TOKEN_INT, V_int (Z.min (Z.of_N n) (2 ^ 64 - 1)), rest, e).
Proof.
  intros Hr Htok He. pose proof (strtoull_pretty n) as Hv. revert Hv.
  unfold pretty, pretty_N. destruct (decide (n = 0%N)) as [->|Hn]; intros Hv.
  - rewrite str_app_cons, str_app_nil. cbn [g_scanner_get_token_i].
    unfold g_scanner_get_token_ll. rewrite bool_decide_eq_false_2 by done.
    cbn [at_text_end orb]. change ("0" ==c NUL)%char with false. cbv iota.
    change (_ && str_mem "0" _) with false. cbv iota.
    change ((_ ==c char_sq) && _) with false. change ((_ ==c char_dq) && _) with false.
    cbv iota. change ("0" ==c "0")%char with true. cbv iota.
    by rewrite lex_zero_alone.
  - destruct (pretty_go_first n EmptyString) as (c & r & E & Hc & Hz & Hds); [lia|done|].
    rewrite E, str_app_nil_r in *. rewrite str_app_cons. cbn [g_scanner_get_token_i].
    rewrite get_token_ll_digit by done. unfold scan_number_from.
    rewrite number_loop_digits by done. unfold number_token. rewrite str_app_nil.
    rewrite (all_digits_is_c_str (String c r)) by (cbn [all_digits]; by rewrite Hc).
    cbn [num_base]. rewrite Hv. destruct rest; [rewrite He|]; done.
Qed.

Lemma all_digits_pretty (n : N) : all_digits (pretty n) = true.
Proof.
  unfold pretty, pretty_N. destruct (decide (n = 0%N)); [done|]. by apply all_digits_pretty_go.
Qed.

(** [%ld] on what the scanner read of a numeral: the number below
    [2^63], the number less [2^64] from there to [2^64 - 1], and [-1]
    for every larger number. *)
Lemma fmt_ld_numeral (n : N) :
  fmt_ld (Z.min (Z.of_N n) (2 ^ 64 - 1))
  = if bool_decide (Z.of_N n < 2 ^ 63) then pretty (Z.of_N n)
    else if bool_decide (Z.of_N n < 2 ^ 64) then pretty (Z.of_N n - 2 ^ 64)
    else "-1".
Proof.
  unfold fmt_ld. repeat case_bool_decide.
  - by rewrite Z.min_l, signed64_small by lia.
  - by rewrite Z.min_l, signed64_large by lia.
  - by rewrite Z.min_r by lia.
Qed.
