(* ===== verification/Printf.v ===== *)
(** * Printf: the [%g] conversion on decimal literals

    [udb_handle_set] stores a floating-point argument as
    [g_strdup_printf ("%g", v_float)], where [v_float] is the [double]
    that [g_strtod] read from the text of the token.  This file gives the
    composition of the two on the text: the decimal value of the literal,
    rounded to six significant digits (ties to even) and printed the way
    [%g] prints, in fixed notation when the decimal exponent is between
    [-4] and [5] and in scientific notation otherwise, without trailing
    zeros.

    The value is rounded in decimal, not through a [double]: the result
    is the C library's for every literal in the range of normal doubles
    whose rounding to six digits is not decided by the 17th significant
    digit, in particular for every literal of at most six significant
    digits.  Values beyond the range of a [double] print as [inf]. *)

From S2P Require Import Prelude CString.

Open Scope Z_scope.

(** ** Reading the literal *)

Fixpoint digits_value (s : string) (acc : Z) : Z :=
  match s with
  | EmptyString => acc
  | String c r => digits_value r (acc * 10 + (char_code c - 48))
  end.

Fixpoint take_digits (s : string) : string * string :=
  match s with
  | String c r =>
      if is_digit c then let '(d, rest) := take_digits r in (String c d, rest)
      else (EmptyString, s)
  | EmptyString => (EmptyString, EmptyString)
  end.

(** The literal as a mantissa and a power of ten: [m * 10 ^ e]. *)
Definition decimal_of_literal (lexeme : string) : Z * Z :=
  let '(int_part, r1) := take_digits lexeme in
  let '(frac_part, r2) :=
    match r1 with
    | String "." r => take_digits r
    | _ => (EmptyString, r1)
    end in
  let exponent :=
    match r2 with
    | String _ (String "-" r) => - digits_value (take_digits r).1 0
    | String _ (String "+" r) => digits_value (take_digits r).1 0
    | String _ r => digits_value (take_digits r).1 0
    | EmptyString => 0
    end in
  (digits_value (int_part +:+ frac_part) 0, exponent - Z.of_nat (strlen frac_part)).

(** ** Rounding to six significant digits *)

(** The number of decimal digits of a positive number. *)
Definition num_digits (m : Z) : Z := Z.of_nat (strlen (pretty m)).

(** Round [m * 10 ^ e] to at most [p] significant digits, ties to even. *)
Definition round_sig (p : Z) (m e : Z) : Z * Z :=
  let n := num_digits m in
  if bool_decide (n <= p) then (m, e)
  else
    let k := n - p in
    let q := m / 10 ^ k in
    let r := m mod 10 ^ k in
    let half := 5 * 10 ^ (k - 1) in
    let q' := if bool_decide (half < r) || (bool_decide (r = half) && Z.odd q)
              then q + 1 else q in
    if bool_decide (q' = 10 ^ p) then (10 ^ (p - 1), e + k + 1) else (q', e + k).

(** Drop the zeros at the end of the mantissa. *)
Fixpoint strip_zeros (fuel : nat) (m e : Z) : Z * Z :=
  match fuel with
  | O => (m, e)
  | S fuel =>
      if bool_decide (m <> 0) && bool_decide (m mod 10 = 0)
      then strip_zeros fuel (m / 10) (e + 1)
      else (m, e)
  end.

(** ** Printing *)

Fixpoint zeros (n : nat) : string :=
  match n with O => EmptyString | S n => String "0" (zeros n) end.

Definition fmt_exponent (x : Z) : string :=
  let a := Z.abs x in
  (if bool_decide (x < 0) then "-" else "+")
  +:+ (if bool_decide (a < 10) then "0" else "") +:+ pretty a.

(** [%g] for the positive value [m * 10 ^ e] with [m] free of trailing
    zeros and of at most six digits. *)
Definition fmt_g_digits (m e : Z) : string :=
  let d := pretty m in
  let n := Z.of_nat (strlen d) in
  let x := n - 1 + e in
  if bool_decide (x < -4) || bool_decide (6 <= x) then
    str_take 1 d
    +:+ (if bool_decide (1 < n) then "." +:+ str_drop 1 d else "")
    +:+ "e" +:+ fmt_exponent x
  else if bool_decide (0 <= e) then d +:+ zeros (Z.to_nat e)
  else if bool_decide (0 <= x) then
    str_take (Z.to_nat (x + 1)) d +:+ "." +:+ str_drop (Z.to_nat (x + 1)) d
  else "0." +:+ zeros (Z.to_nat (- x - 1)) +:+ d.

(** [printf ("%g", g_strtod (lexeme))] *)
Definition fmt_g_decimal (lexeme : string) : string :=
  let '(m0, e0) := decimal_of_literal lexeme in
  if bool_decide (m0 = 0) then "0"
  else
    let '(m1, e1) := round_sig 6 m0 e0 in
    let '(m, e) := strip_zeros 6 m1 e1 in
    let x := num_digits m - 1 + e in
    if bool_decide (308 < x) then "inf"
    else if bool_decide (x < -324) then "0"
    else fmt_g_digits m e.

(** ** Examples *)

Example fmt_g_examples :
  map fmt_g_decimal
    ["1.50"; "0.5"; "100"; "1e5"; "1e6"; "123456789"; "0.0001"; "0.00001";
     "3.14159265"; "2.5e-3"; "1999999.5"; "0.000"; "1234.5678"; "1e400"; "999999.5";
     "0."; "1.e2"]
  = ["1.5"; "0.5"; "100"; "100000"; "1e+06"; "1.23457e+08"; "0.0001"; "1e-05";
     "3.14159"; "0.0025"; "2e+06"; "0"; "1234.57"; "inf"; "1e+06";
     "0"; "100"].
Proof. vm_compute. reflexivity. Qed.
