(* ===== verification/KeyFile.v ===== *)
(** * KeyFile: GLib's [GKeyFile], as the snapshot uses it

    [db_save_to_file] builds a key file with [g_key_file_set_string] and
    prints it with [g_key_file_to_data]; [db_load_from_file] parses a
    file with [g_key_file_load_from_file] and reads it back with
    [g_key_file_get_keys] and [g_key_file_get_string].  This file models
    those functions from gkeyfile.c for a key file created with
    [G_KEY_FILE_NONE]: comments and blank lines are dropped when a file
    is parsed, and an entry for a locale is kept only when the locale is
    one of the user's.

    A group keeps its entries in the order of the file; GLib keeps the
    reverse list and walks it backwards.  The unnamed group GLib creates
    for the comments at the top of a file never holds an entry and is left
    out.  Error messages are not modelled: a [GError] is its domain and
    its code. *)

From S2P Require Import Prelude CString.

Set Warnings "-clear-no-such-hyp".

Open Scope Z_scope.

(** ** Errors *)

Inductive GQuark : Type :=
| G_FILE_ERROR
| G_KEY_FILE_ERROR
| G_IO_ERROR
| G_OPTION_ERROR
| G_CONVERT_ERROR.

#[export] Instance GQuark_eq_dec : EqDecision GQuark.
Proof. solve_decision. Defined.

Record GError : Type := mk_error {
  error_domain : GQuark;
  error_code : Z;
}.

#[export] Instance GError_eq_dec : EqDecision GError.
Proof. solve_decision. Defined.

(** The members of [GFileError] and [GKeyFileError] the program can
    meet, with their values. *)
Definition G_FILE_ERROR_ACCES : Z := 2.
Definition G_FILE_ERROR_NOENT : Z := 4.
Definition G_FILE_ERROR_NXIO : Z := 6.
Definition G_FILE_ERROR_NOMEM : Z := 13.
Definition G_KEY_FILE_ERROR_UNKNOWN_ENCODING : Z := 0.
Definition G_KEY_FILE_ERROR_PARSE : Z := 1.
Definition G_KEY_FILE_ERROR_KEY_NOT_FOUND : Z := 3.
Definition G_KEY_FILE_ERROR_GROUP_NOT_FOUND : Z := 4.
Definition G_KEY_FILE_ERROR_INVALID_VALUE : Z := 5.

Definition key_file_error (code : Z) : GError :=
  {| error_domain := G_KEY_FILE_ERROR; error_code := code |}.

(** ** Characters *)

Definition kf_tab : ascii := "009"%char.
Definition kf_nl : ascii := "010"%char.
Definition kf_ff : ascii := "012"%char.
Definition kf_cr : ascii := "013"%char.
Definition kf_bs : ascii := "092"%char.

(** [g_ascii_isspace]: space, tab, line feed, form feed and carriage
    return; the vertical tab is not among them. *)
Definition g_ascii_isspace (c : ascii) : bool :=
  bool_decide (c = " "%char) || bool_decide (c = kf_tab) || bool_decide (c = kf_nl)
  || bool_decide (c = kf_ff) || bool_decide (c = kf_cr).

Definition g_ascii_iscntrl (c : ascii) : bool :=
  bool_decide (char_code c < 32) || bool_decide (char_code c = 127).

Definition g_ascii_isalnum (c : ascii) : bool := is_upper c || is_lower c || is_digit c.

(** ** Text *)

(** Whether a character occurs in a string. *)
Fixpoint str_has (c : ascii) (s : string) : bool :=
  match s with
  | EmptyString => false
  | String d s => bool_decide (c = d) || str_has c s
  end.

(** The last character of a string. *)
Fixpoint str_last (s : string) : option ascii :=
  match s with
  | EmptyString => None
  | String c EmptyString => Some c
  | String _ s => str_last s
  end.

(** The string without its last character. *)
Fixpoint str_init (s : string) : string :=
  match s with
  | EmptyString | String _ EmptyString => EmptyString
  | String c s => String c (str_init s)
  end.

(** The characters before the first [c], and those after it. *)
Fixpoint str_cut (c : ascii) (s : string) : option (string * string) :=
  match s with
  | EmptyString => None
  | String d r =>
      if bool_decide (d = c) then Some (EmptyString, r)
      else '(a, b) ← str_cut c r; Some (String d a, b)
  end.

(** Without the leading characters that satisfy [p]. *)
Fixpoint str_chug (p : ascii -> bool) (s : string) : string :=
  match s with
  | EmptyString => EmptyString
  | String c r => if p c then str_chug p r else s
  end.

(** Without the trailing characters that satisfy [p]. *)
Fixpoint str_chomp (p : ascii -> bool) (s : string) : string :=
  match s with
  | EmptyString => EmptyString
  | String c r =>
      match str_chomp p r with
      | EmptyString => if p c then EmptyString else String c EmptyString
      | r' => String c r'
      end
  end.

(** Every character satisfies [p]. *)
Fixpoint str_all (p : ascii -> bool) (s : string) : bool :=
  match s with
  | EmptyString => true
  | String c r => p c && str_all p r
  end.

(** The pieces of a text between its line feeds: one more than it has
    line feeds. *)
Fixpoint split_nl (s : string) : list string :=
  match s with
  | EmptyString => [EmptyString]
  | String c r =>
      if bool_decide (c = kf_nl) then EmptyString :: split_nl r
      else match split_nl r with
           | l :: ls => String c l :: ls
           | [] => [String c EmptyString]
           end
  end.

(** ** UTF-8 *)

Definition is_cont (c : ascii) : bool := bool_decide (128 <= char_code c < 192).

Definition cont_val (c : ascii) : Z := char_code c - 128.

(** Where the validation of UTF-8 stands: between two characters, or
    inside one, with the number of bytes that must follow, the value read
    so far and the least value an encoding of that length may have. *)
Inductive utf8_state : Type :=
| U_start
| U_cont (remaining : nat) (value least : Z).

#[export] Instance utf8_state_eq_dec : EqDecision utf8_state.
Proof. solve_decision. Defined.

Definition utf8_step (st : utf8_state) (c : ascii) : option utf8_state :=
  let n := char_code c in
  match st with
  | U_start =>
      if bool_decide (n < 128) then Some U_start
      else if bool_decide (194 <= n < 224) then Some (U_cont 0 (n - 192) 128)
      else if bool_decide (224 <= n < 240) then Some (U_cont 1 (n - 224) 2048)
      else if bool_decide (240 <= n < 245) then Some (U_cont 2 (n - 240) 65536)
      else None
  | U_cont k v least =>
      if is_cont c then
        let v' := v * 64 + cont_val c in
        match k with
        | O => if bool_decide (least <= v' < 1114112)
                  && negb (bool_decide (55296 <= v' < 57344))
               then Some U_start else None
        | S k => Some (U_cont k v' least)
        end
      else None
  end.

Fixpoint utf8_run (st : utf8_state) (s : string) : bool :=
  match s with
  | EmptyString => bool_decide (st = U_start)
  | String c r =>
      match utf8_step st c with
      | Some st' => utf8_run st' r
      | None => false
      end
  end.

(** [g_utf8_validate] on a C string: every character is a shortest-form
    encoding of a code point that is not a surrogate and not above
    [U+10FFFF]. *)
Definition g_utf8_validate (s : string) : bool := utf8_run U_start s.

(** ** Names *)

(** [g_key_file_is_group_name]: not empty, without brackets and control
    characters. *)
Definition g_key_file_is_group_name (name : string) : bool :=
  negb (bool_decide (name = EmptyString))
  && str_all (fun c => negb (bool_decide (c = "["%char)) && negb (bool_decide (c = "]"%char))
                       && negb (g_ascii_iscntrl c)) name.

(** What the library asks of Unicode and of the user's environment. *)
Class KeyFileEnv : Type := {
  (** [g_unichar_isalnum (g_utf8_get_char_validated (s, -1))] on a text
      that starts with a byte of [128] or more *)
  g_unichar_isalnum_at : string -> bool;
  (** [g_key_file_locale_is_interesting]: the locale is one of
      [g_get_language_names ()] *)
  locale_is_interesting : string -> bool;
}.

(** A character that ends the name of a key. *)
Definition key_stop (c : ascii) : bool :=
  bool_decide (c = "="%char) || bool_decide (c = "["%char) || bool_decide (c = "]"%char).

(** The characters before the first [=], [[] or []], and the text from
    it on. *)
Fixpoint key_span (s : string) : string * string :=
  match s with
  | EmptyString => (EmptyString, EmptyString)
  | String c r =>
      if key_stop c then (EmptyString, s)
      else let '(a, b) := key_span r in (String c a, b)
  end.

Section names.
Context `{KeyFileEnv}.

(** The locale of a key after its opening bracket: the text after the
    closing bracket, or nothing when a character is not allowed or the
    bracket is missing.  After a character the bytes that continue it are
    passed over ([skipping]). *)
Fixpoint locale_end (skipping : bool) (s : string) : option string :=
  match s with
  | EmptyString => None
  | String c r =>
      if skipping && is_cont c then locale_end true r
      else
        let ok := if bool_decide (char_code c < 128)
                  then g_ascii_isalnum c || str_has c "-_.@"
                  else g_unichar_isalnum_at s in
        if ok then locale_end true r
        else if bool_decide (c = "]"%char) then Some r
        else None
  end.

(** [g_key_file_is_key_name]: a name without [=], [[] and []], not
    empty, not starting and not ending with a space, optionally followed
    by a locale between brackets. *)
Definition g_key_file_is_key_name (name : string) : bool :=
  let '(key, rest) := key_span (c_str name) in
  negb (bool_decide (key = EmptyString))
  && negb (bool_decide (str_take 1 key = " "))
  && negb (bool_decide (str_last key = Some " "%char))
  && match rest with
     | EmptyString => true
     | String c r =>
         bool_decide (c = "["%char) && bool_decide (locale_end false r = Some EmptyString)
     end.

(** [key_get_locale]: the text between the last [[] of a key and its
    end, less the closing bracket, when more than [[]] follows. *)
Fixpoint after_last_bracket (s : string) : option string :=
  match s with
  | EmptyString => None
  | String c r =>
      match after_last_bracket r with
      | Some l => Some l
      | None => if bool_decide (c = "["%char) then Some r else None
      end
  end.

Definition key_get_locale (key : string) : option string :=
  match after_last_bracket key with
  | Some l => if bool_decide (2 <= strlen l)%nat then Some (str_init l) else None
  | None => None
  end.

(** ** Values *)

(** [g_key_file_parse_string_as_value]: the value written for a string.
    A space or a tab is escaped while only spaces, tabs and line ends
    were seen. *)
Fixpoint parse_string_as_value (leading : bool) (s : string) : string :=
  match s with
  | EmptyString => EmptyString
  | String c r =>
      if bool_decide (c = " "%char) then
        if leading then String kf_bs (String "s" (parse_string_as_value leading r))
        else String c (parse_string_as_value leading r)
      else if bool_decide (c = kf_tab) then
        if leading then String kf_bs (String "t" (parse_string_as_value leading r))
        else String c (parse_string_as_value leading r)
      else if bool_decide (c = kf_nl) then
        String kf_bs (String "n" (parse_string_as_value leading r))
      else if bool_decide (c = kf_cr) then
        String kf_bs (String "r" (parse_string_as_value leading r))
      else if bool_decide (c = kf_bs) then
        String kf_bs (String kf_bs (parse_string_as_value false r))
      else String c (parse_string_as_value false r)
  end.

Definition g_key_file_parse_string_as_value (s : string) : string :=
  parse_string_as_value true (c_str s).

(** [g_key_file_parse_value_as_string]: the string a value stands for,
    or nothing when a backslash is followed by a character that is none
    of [s], [n], [t], [r] and the backslash, or ends the value. *)
Fixpoint g_key_file_parse_value_as_string (v : string) : option string :=
  match v with
  | EmptyString => Some EmptyString
  | String c r =>
      if bool_decide (c = kf_bs) then
        match r with
        | String e r' =>
            c' ← (if bool_decide (e = "s"%char) then Some " "%char
                  else if bool_decide (e = "n"%char) then Some kf_nl
                  else if bool_decide (e = "t"%char) then Some kf_tab
                  else if bool_decide (e = "r"%char) then Some kf_cr
                  else if bool_decide (e = kf_bs) then Some kf_bs
                  else None);
            s ← g_key_file_parse_value_as_string r';
            Some (String c' s)
        | EmptyString => None
        end
      else s ← g_key_file_parse_value_as_string r; Some (String c s)
  end.

(** ** The key file *)

Record GKeyFileGroup : Type := mk_group {
  group_name : string;
  key_value_pairs : list (string * string);
}.

Record GKeyFile : Type := mk_key_file {
  kf_groups : list GKeyFileGroup;
  (** the group that entries read from a file go to *)
  kf_current_group : option string;
  (** the first group of the file *)
  kf_start_group : option string;
}.

(** [g_key_file_new]: GLib stops the process when memory is short, so
    the pointer is never [NULL]. *)
Definition empty_key_file : GKeyFile :=
  {| kf_groups := []; kf_current_group := None; kf_start_group := None |}.

Definition g_key_file_new : handle GKeyFile := Live empty_key_file.

Definition g_key_file_lookup_group (name : string) (kf : GKeyFile) : option GKeyFileGroup :=
  List.find (fun g => bool_decide (group_name g = name)) (kf_groups kf).

(** [g_key_file_add_group]: the group becomes the current one; a group
    that is new goes behind the others. *)
Definition g_key_file_add_group (name : string) (kf : GKeyFile) : GKeyFile :=
  match g_key_file_lookup_group name kf with
  | Some _ =>
      {| kf_groups := kf_groups kf; kf_current_group := Some name;
         kf_start_group := kf_start_group kf |}
  | None =>
      {| kf_groups := kf_groups kf ++ [{| group_name := name; key_value_pairs := [] |}];
         kf_current_group := Some name;
         kf_start_group := match kf_start_group kf with
                           | Some g => Some g
                           | None => Some name
                           end |}
  end.

(** The entries of one group changed by [f]. *)
Definition on_group (name : string) (f : list (string * string) -> list (string * string))
    (kf : GKeyFile) : GKeyFile :=
  {| kf_groups := (fun g => if bool_decide (group_name g = name)
                            then {| group_name := name; key_value_pairs := f (key_value_pairs g) |}
                            else g) <$> kf_groups kf;
     kf_current_group := kf_current_group kf;
     kf_start_group := kf_start_group kf |}.

(** The entry of a key that lookups find: the last one added. *)
Fixpoint lookup_pair (key : string) (pairs : list (string * string)) : option string :=
  match pairs with
  | [] => None
  | (k, v) :: pairs =>
      match lookup_pair key pairs with
      | Some v' => Some v'
      | None => if bool_decide (k = key) then Some v else None
      end
  end.

(** The value of the entry that lookups find replaced. *)
Fixpoint replace_pair (key value : string) (pairs : list (string * string))
    : list (string * string) :=
  match pairs with
  | [] => []
  | (k, v) :: pairs =>
      match lookup_pair key pairs with
      | Some _ => (k, v) :: replace_pair key value pairs
      | None => if bool_decide (k = key) then (k, value) :: pairs
                else (k, v) :: replace_pair key value pairs
      end
  end.

(** [g_key_file_add_key_value_pair] *)
Definition add_pair (key value : string) (pairs : list (string * string))
    : list (string * string) := pairs ++ [(key, value)].

(** [g_key_file_set_value]: nothing happens for a group or a key whose
    name is not allowed. *)
Definition g_key_file_set_value (group key value : string) (kf : GKeyFile) : GKeyFile :=
  if negb (g_key_file_is_group_name group) then kf
  else if negb (g_key_file_is_key_name key) then kf
  else
    match g_key_file_lookup_group group kf with
    | None => on_group group (add_pair (c_str key) value) (g_key_file_add_group group kf)
    | Some g =>
        match lookup_pair (c_str key) (key_value_pairs g) with
        | Some _ => on_group group (replace_pair (c_str key) value) kf
        | None => on_group group (add_pair (c_str key) value) kf
        end
    end.

(** [g_key_file_set_string] *)
Definition g_key_file_set_string (group key str : string) (kf : GKeyFile) : GKeyFile :=
  g_key_file_set_value group key (g_key_file_parse_string_as_value str) kf.

End names.

(** ** Printing *)

(** The text of one group: its name between brackets, then one line per
    entry. *)
Definition group_to_data (g : GKeyFileGroup) : string :=
  "[" +:+ group_name g +:+ "]" +:+ String kf_nl EmptyString
  +:+ foldr (fun '(k, v) acc => k +:+ "=" +:+ v +:+ String kf_nl acc)
        EmptyString (key_value_pairs g).

(** The character before the last one. *)
Definition str_last_but_one (s : string) : option ascii := str_last (str_init s).

(** [g_key_file_to_data]: the groups in the order they were created,
    with an empty line before a group when the text so far does not end
    in one. *)
Fixpoint groups_to_data (acc : string) (gs : list GKeyFileGroup) : string :=
  match gs with
  | [] => acc
  | g :: gs =>
      let sep := if bool_decide (2 <= strlen acc)%nat
                    && negb (bool_decide (str_last_but_one acc = Some kf_nl))
                 then String kf_nl EmptyString else EmptyString in
      groups_to_data (acc +:+ sep +:+ group_to_data g) gs
  end.

Definition g_key_file_to_data (kf : GKeyFile) : string :=
  groups_to_data EmptyString (kf_groups kf).

(** ** Parsing *)

Section parsing.
Context `{KeyFileEnv}.

(** [g_key_file_line_is_comment] *)
Definition g_key_file_line_is_comment (line : string) : bool :=
  match line with
  | EmptyString => true
  | String c _ => bool_decide (c = "#"%char) || bool_decide (c = kf_nl)
  end.

(** [g_key_file_line_is_group]: an opening bracket, a closing one, and
    only spaces and tabs after it. *)
Definition g_key_file_line_is_group (line : string) : bool :=
  match line with
  | String c r =>
      bool_decide (c = "["%char)
      && match str_cut "]"%char r with
         | Some (_, rest) =>
             str_all (fun c => bool_decide (c = " "%char) || bool_decide (c = kf_tab)) rest
         | None => false
         end
  | EmptyString => false
  end.

(** [g_key_file_line_is_key_value_pair]: an [=] that is not the first
    character. *)
Definition g_key_file_line_is_key_value_pair (line : string) : bool :=
  match line with
  | String c _ => str_has "="%char line && negb (bool_decide (c = "="%char))
  | EmptyString => false
  end.

(** [g_key_file_parse_group] on a line that is a group. *)
Definition g_key_file_parse_group (line : string) (kf : GKeyFile) : GError + GKeyFile :=
  match line with
  | String _ r =>
      match str_cut "]"%char r with
      | Some (name, _) =>
          if g_key_file_is_group_name name then inr (g_key_file_add_group name kf)
          else inl (key_file_error G_KEY_FILE_ERROR_PARSE)
      | None => inl (key_file_error G_KEY_FILE_ERROR_PARSE)
      end
  | EmptyString => inl (key_file_error G_KEY_FILE_ERROR_PARSE)
  end.

(** [g_key_file_parse_key_value_pair] on a line that is an entry: the key
    without the white space before the [=], the value without the white
    space after it. *)
Definition g_key_file_parse_key_value_pair (line : string) (kf : GKeyFile)
    : GError + GKeyFile :=
  match kf_current_group kf, str_cut "="%char line with
  | None, _ => inl (key_file_error G_KEY_FILE_ERROR_GROUP_NOT_FOUND)
  | Some _, None => inl (key_file_error G_KEY_FILE_ERROR_PARSE)
  | Some group, Some (k, v) =>
      let key := str_chomp g_ascii_isspace k in
      let value := str_chug g_ascii_isspace v in
      if negb (g_key_file_is_key_name key)
      then inl (key_file_error G_KEY_FILE_ERROR_PARSE)
      else if bool_decide (kf_start_group kf = Some group)
              && bool_decide (key = "Encoding")
              && negb (bool_decide (g_ascii_strcasecmp value "UTF-8" = 0))
      then inl (key_file_error G_KEY_FILE_ERROR_UNKNOWN_ENCODING)
      else
        match key_get_locale key with
        | Some locale =>
            if locale_is_interesting locale
            then inr (on_group group (add_pair key value) kf)
            else inr kf
        | None => inr (on_group group (add_pair key value) kf)
        end
  end.

(** [g_key_file_parse_line]: the line is read as a C string. *)
Definition g_key_file_parse_line (line : string) (kf : GKeyFile) : GError + GKeyFile :=
  let line_start := str_chug g_ascii_isspace (c_str line) in
  if g_key_file_line_is_comment line_start then inr kf
  else if g_key_file_line_is_group line_start then g_key_file_parse_group line_start kf
  else if g_key_file_line_is_key_value_pair line_start
  then g_key_file_parse_key_value_pair line_start kf
  else inl (key_file_error G_KEY_FILE_ERROR_PARSE).

(** A line that a line feed ended: a carriage return before the line
    feed is dropped, and an empty line is a comment. *)
Definition parse_terminated_line (line : string) (kf : GKeyFile) : GError + GKeyFile :=
  let line := if bool_decide (str_last line = Some kf_cr) then str_init line else line in
  if bool_decide (line = EmptyString) then inr kf else g_key_file_parse_line line kf.

(** [g_key_file_flush_parse_buffer] at the end of the file: what follows
    the last line feed. *)
Definition parse_last_line (line : string) (kf : GKeyFile) : GError + GKeyFile :=
  if bool_decide (line = EmptyString) then inr kf else g_key_file_parse_line line kf.

Fixpoint parse_lines (lines : list string) (kf : GKeyFile) : GError + GKeyFile :=
  match lines with
  | [] => inr kf
  | [line] => parse_last_line line kf
  | line :: lines =>
      match parse_terminated_line line kf with
      | inl e => inl e
      | inr kf => parse_lines lines kf
      end
  end.

(** [g_key_file_parse_data] on the whole contents of a file, followed by
    the flush of the buffer. *)
Definition g_key_file_parse_data (data : string) : GError + GKeyFile :=
  parse_lines (split_nl data) empty_key_file.

(** ** Reading *)

(** [g_key_file_get_keys]: the keys of a group in the order of the
    file. *)
Definition g_key_file_get_keys (group : string) (kf : GKeyFile) : GError + list string :=
  match g_key_file_lookup_group group kf with
  | None => inl (key_file_error G_KEY_FILE_ERROR_GROUP_NOT_FOUND)
  | Some g => inr (fst <$> key_value_pairs g)
  end.

(** [g_key_file_get_value] *)
Definition g_key_file_get_value (group key : string) (kf : GKeyFile) : GError + string :=
  match g_key_file_lookup_group group kf with
  | None => inl (key_file_error G_KEY_FILE_ERROR_GROUP_NOT_FOUND)
  | Some g =>
      match lookup_pair key (key_value_pairs g) with
      | None => inl (key_file_error G_KEY_FILE_ERROR_KEY_NOT_FOUND)
      | Some v => inr v
      end
  end.

(** [g_key_file_get_string]: the value must be UTF-8 and its escapes
    known. *)
Definition g_key_file_get_string (group key : string) (kf : GKeyFile) : GError + string :=
  match g_key_file_get_value group key kf with
  | inl e => inl e
  | inr value =>
      if negb (g_utf8_validate value)
      then inl (key_file_error G_KEY_FILE_ERROR_UNKNOWN_ENCODING)
      else match g_key_file_parse_value_as_string value with
           | Some s => inr s
           | None => inl (key_file_error G_KEY_FILE_ERROR_INVALID_VALUE)
           end
  end.

End parsing.

(** ** An environment for the examples *)

(** No character beyond ASCII counts as a letter or a digit, and the user
    has no language but C. *)
Definition example_key_file_env : KeyFileEnv :=
  {| g_unichar_isalnum_at := fun _ => false; locale_is_interesting := fun _ => false |}.

(** ** Lemmas: text *)

Lemma str_has_app c a b : str_has c (a +:+ b) = str_has c a || str_has c b.
Proof.
  induction a as [|d a IH]; [done|].
  rewrite str_app_cons. simpl. by rewrite IH, orb_assoc.
Qed.

Lemma str_last_app_cons a c b : str_last (a +:+ String c b) = str_last (String c b).
Proof.
  induction a as [|d a IH]; [done|]. rewrite str_app_cons.
  change (str_last (String d (a +:+ String c b)))
    with (match a +:+ String c b with EmptyString => Some d | _ => str_last (a +:+ String c b) end).
  rewrite IH. by destruct a.
Qed.

Lemma str_last_has c s : str_last s = Some c -> str_has c s = true.
Proof.
  induction s as [|d s IH]; [done|]. destruct s as [|e s].
  - intros [= ->]. simpl. by rewrite bool_decide_eq_true_2.
  - intros Hl. change (str_has c (String d (String e s)))
      with (bool_decide (c = d) || str_has c (String e s)).
    rewrite IH by done. apply orb_true_r.
Qed.

Lemma str_cut_app c a b :
  str_has c a = false -> str_cut c (a +:+ String c b) = Some (a, b).
Proof.
  induction a as [|d a IH]; simpl.
  - intros _. rewrite ?str_app_nil. simpl. by rewrite (bool_decide_eq_true_2 (c = c)).
  - intros [Hd Ha]%orb_false_elim. apply bool_decide_eq_false in Hd.
    rewrite ?str_app_cons. simpl. rewrite bool_decide_eq_false_2 by congruence.
    by rewrite IH.
Qed.

Lemma split_nl_app a b :
  str_has kf_nl a = false -> split_nl (a +:+ String kf_nl b) = a :: split_nl b.
Proof.
  induction a as [|d a IH]; cbn [str_has].
  - intros _. by rewrite ?str_app_nil.
  - intros [Hd Ha]%orb_false_elim. apply bool_decide_eq_false in Hd.
    rewrite ?str_app_cons. cbn [split_nl]. rewrite bool_decide_eq_false_2 by congruence.
    by rewrite IH.
Qed.

Lemma str_chomp_id p s :
  (forall c, str_last s = Some c -> p c = false) -> str_chomp p s = s.
Proof.
  induction s as [|d s IH]; [done|]. intros Hl. simpl.
  destruct s as [|e s].
  - simpl. by rewrite (Hl d).
  - rewrite IH by (intros c Hc; by apply Hl). done.
Qed.

Lemma str_chug_id p s :
  match s with String c _ => p c = false | EmptyString => True end -> str_chug p s = s.
Proof. destruct s; simpl; [done|]. by intros ->. Qed.

(** ** Lemmas: values *)

(** [parse_string_as_value] on one character. *)
Lemma escape_space leading s :
  parse_string_as_value leading (String " " s)
  = if leading then String kf_bs (String "s" (parse_string_as_value leading s))
    else String " " (parse_string_as_value leading s).
Proof. reflexivity. Qed.

Lemma escape_tab leading s :
  parse_string_as_value leading (String kf_tab s)
  = if leading then String kf_bs (String "t" (parse_string_as_value leading s))
    else String kf_tab (parse_string_as_value leading s).
Proof. reflexivity. Qed.

Lemma escape_nl leading s :
  parse_string_as_value leading (String kf_nl s)
  = String kf_bs (String "n" (parse_string_as_value leading s)).
Proof. reflexivity. Qed.

Lemma escape_cr leading s :
  parse_string_as_value leading (String kf_cr s)
  = String kf_bs (String "r" (parse_string_as_value leading s)).
Proof. reflexivity. Qed.

Lemma escape_bs leading s :
  parse_string_as_value leading (String kf_bs s)
  = String kf_bs (String kf_bs (parse_string_as_value false s)).
Proof. reflexivity. Qed.

(** A character that is written as it is. *)
Definition plain_char (c : ascii) : Prop :=
  c <> " "%char /\ c <> kf_tab /\ c <> kf_nl /\ c <> kf_cr /\ c <> kf_bs.

Lemma escape_plain leading c s :
  plain_char c ->
  parse_string_as_value leading (String c s) = String c (parse_string_as_value false s).
Proof.
  intros (? & ? & ? & ? & ?). cbn [parse_string_as_value].
  by rewrite !bool_decide_eq_false_2 by done.
Qed.

Ltac escape_cases c :=
  destruct (decide (c = " "%char)) as [->|?];
    [rewrite escape_space
    |destruct (decide (c = kf_tab)) as [->|?];
      [rewrite escape_tab
      |destruct (decide (c = kf_nl)) as [->|?];
        [rewrite escape_nl
        |destruct (decide (c = kf_cr)) as [->|?];
          [rewrite escape_cr
          |destruct (decide (c = kf_bs)) as [->|?];
            [rewrite escape_bs
            |rewrite (escape_plain _ c) by done]]]]].

(** A value is read back as the string it was written for. *)
Lemma parse_value_as_string_escape leading s :
  g_key_file_parse_value_as_string (parse_string_as_value leading s) = Some s.
Proof.
  revert leading; induction s as [|c s IH]; intros leading; [done|].
  escape_cases c; try destruct leading; cbn [g_key_file_parse_value_as_string];
    rewrite ?bool_decide_eq_false_2 by done; try (cbn; by rewrite IH).
Qed.

Lemma str_has_nl_escape leading s :
  str_has kf_nl (parse_string_as_value leading s) = false.
Proof.
  revert leading; induction s as [|c s IH]; intros leading; [done|].
  escape_cases c; try destruct leading; cbn [str_has];
    rewrite ?IH, ?orb_false_r; try done; by apply bool_decide_eq_false_2.
Qed.

Lemma str_has_cr_escape leading s :
  str_has kf_cr (parse_string_as_value leading s) = false.
Proof.
  revert leading; induction s as [|c s IH]; intros leading; [done|].
  escape_cases c; try destruct leading; cbn [str_has];
    rewrite ?IH, ?orb_false_r; try done; by apply bool_decide_eq_false_2.
Qed.

Lemma is_c_str_escape leading s :
  is_c_str s -> is_c_str (parse_string_as_value leading s).
Proof.
  revert leading; induction s as [|c s IH]; intros leading; [done|].
  intros [Hc Hs]%is_c_str_cons.
  escape_cases c; try destruct leading; rewrite ?is_c_str_cons; auto.
Qed.

Lemma utf8_run_ascii st c s :
  char_code c < 128 ->
  utf8_run st (String c s) = match st with U_start => utf8_run U_start s | _ => false end.
Proof.
  intros Hc. cbn [utf8_run]. destruct st as [|k v least]; cbn [utf8_step].
  - by rewrite bool_decide_eq_true_2.
  - unfold is_cont. by rewrite bool_decide_eq_false_2 by lia.
Qed.

(** Validation passes over an escape as over the character it stands
    for. *)
Lemma utf8_run_escape st leading s :
  utf8_run st (parse_string_as_value leading s) = utf8_run st s.
Proof.
  revert st leading; induction s as [|c s IH]; intros st leading; [done|].
  escape_cases c; try destruct leading;
    try (rewrite !utf8_run_ascii by (by vm_compute); by destruct st; rewrite ?IH).
  all: cbn [utf8_run]; by destruct (utf8_step st c); rewrite ?IH.
Qed.

(** The white space before a value is written as escapes, the form feed
    apart. *)
Lemma str_chug_escape s :
  str_take 1 s <> String kf_ff EmptyString ->
  str_chug g_ascii_isspace (parse_string_as_value true s) = parse_string_as_value true s.
Proof.
  destruct s as [|c s]; [done|]. intros Hff. apply str_chug_id.
  escape_cases c; try done. unfold g_ascii_isspace.
  rewrite !bool_decide_eq_false_2; try done. intros ->. by destruct s.
Qed.

(** ** What a key file gives back *)

(** The keys that a file gives back as they were written: C strings
    without [=], brackets and line feeds, that do not start with white
    space or [#], do not end with white space, and are not [Encoding]. *)
Definition storable_key (k : string) : bool :=
  bool_decide (is_c_str k)
  && str_all (fun c => negb (key_stop c) && negb (bool_decide (c = kf_nl))) k
  && match k with
     | String c _ => negb (g_ascii_isspace c) && negb (bool_decide (c = "#"%char))
     | EmptyString => false
     end
  && match str_last k with
     | Some c => negb (g_ascii_isspace c)
     | None => false
     end
  && negb (bool_decide (k = "Encoding")).

(** The values that a file gives back: C strings of valid UTF-8 that do
    not start with a form feed. *)
Definition storable_value (v : string) : bool :=
  bool_decide (is_c_str v) && g_utf8_validate v
  && negb (bool_decide (str_take 1 v = String kf_ff EmptyString)).

(** The values as they stand in a file: without line ends, and nothing
    that the parser drops in front. *)
Definition plain_value (v : string) : Prop :=
  is_c_str v /\ str_has kf_nl v = false /\ str_has kf_cr v = false
  /\ str_chug g_ascii_isspace v = v.

(** The lines of the entries of a group. *)
Definition entries_to_data (pairs : list (string * string)) : string :=
  foldr (fun '(k, v) acc => k +:+ "=" +:+ v +:+ String kf_nl acc) EmptyString pairs.

(** A key file with one group, as a file with one group is read. *)
Definition single_group (g : string) (pairs : list (string * string)) : GKeyFile :=
  {| kf_groups := [{| group_name := g; key_value_pairs := pairs |}];
     kf_current_group := Some g; kf_start_group := Some g |}.

Lemma plain_value_escape s :
  is_c_str s -> str_take 1 s <> String kf_ff EmptyString ->
  plain_value (parse_string_as_value true s).
Proof.
  intros Hs Hff. split_and!; auto using is_c_str_escape, str_has_nl_escape,
    str_has_cr_escape, str_chug_escape.
Qed.

Section storable.
Context `{KeyFileEnv}.

Lemma storable_key_inv k :
  storable_key k = true ->
  is_c_str k
  /\ str_all (fun c => negb (key_stop c) && negb (bool_decide (c = kf_nl))) k = true
  /\ (exists c r, k = String c r /\ g_ascii_isspace c = false /\ c <> "#"%char)
  /\ (forall c, str_last k = Some c -> g_ascii_isspace c = false)
  /\ k <> "Encoding".
Proof.
  unfold storable_key. rewrite !andb_true_iff, !negb_true_iff.
  intros ((((Hc%bool_decide_eq_true & Hall) & Hfirst) & Hlast) & Hne%bool_decide_eq_false).
  split_and!; try done.
  - destruct k as [|c r]; [done|]. apply andb_true_iff in Hfirst as [Hs Hh].
    apply negb_true_iff in Hs, Hh. apply bool_decide_eq_false in Hh. eauto.
  - intros c Hl. rewrite Hl in Hlast. by apply negb_true_iff.
Qed.

Lemma key_span_all k :
  str_all (fun c => negb (key_stop c) && negb (bool_decide (c = kf_nl))) k = true ->
  key_span k = (k, EmptyString) /\ str_has "="%char k = false
  /\ str_has kf_nl k = false /\ after_last_bracket k = None.
Proof.
  induction k as [|c k IH]; [done|]. cbn [str_all key_span str_has after_last_bracket].
  intros [[Hs Hn]%andb_true_iff Hk]%andb_true_iff.
  apply negb_true_iff in Hs, Hn. destruct (IH Hk) as (-> & He & Hnl & ->).
  rewrite Hs, He, Hnl. apply bool_decide_eq_false in Hn.
  unfold key_stop in Hs. apply orb_false_elim in Hs as [[H1 H2]%orb_false_elim H3].
  apply bool_decide_eq_false in H1, H2.
  by rewrite !bool_decide_eq_false_2 by congruence.
Qed.

Lemma storable_key_name k : storable_key k = true -> g_key_file_is_key_name k = true.
Proof.
  intros (Hc & Hall & (c & r & -> & Hsp & _) & Hlast & _)%storable_key_inv.
  unfold g_key_file_is_key_name. rewrite Hc.
  destruct (key_span_all _ Hall) as (-> & _). rewrite !andb_true_iff, !negb_true_iff.
  split_and!; try done; apply bool_decide_eq_false_2.
  - cbn. intros [= ->]. by vm_compute in Hsp.
  - intros Hl. apply Hlast in Hl. by vm_compute in Hl.
Qed.

End storable.

(** ** Lemmas: a file that was printed is read back *)

Lemma split_nl_cons s : exists l ls, split_nl s = l :: ls.
Proof.
  induction s as [|c s (l & ls & IH)]; [by eexists _, _|].
  cbn [split_nl]. rewrite IH. case_bool_decide; by eexists _, _.
Qed.

Lemma is_c_str_entry k v : is_c_str k -> is_c_str v -> is_c_str (k +:+ "=" +:+ v).
Proof.
  intros Hk Hv. apply is_c_str_app. split; [done|].
  rewrite str_app_cons, str_app_nil. by apply is_c_str_cons.
Qed.

Section read_back.
Context `{KeyFileEnv}.

(** The line of an entry whose key and value are read as they are
    written. *)
Lemma parse_line_entry k v g kf :
  storable_key k = true -> plain_value v -> kf_current_group kf = Some g ->
  g_key_file_parse_line (k +:+ "=" +:+ v) kf = inr (on_group g (add_pair k v) kf).
Proof.
  intros Hk (Hcv & _ & _ & Hchug) Hg.
  pose proof (storable_key_name k Hk) as Hname.
  apply storable_key_inv in Hk as (Hc & Hall & (c & r & -> & Hsp & Hh) & Hlast & Hne).
  destruct (key_span_all _ Hall) as (_ & Heq & _ & Hloc).
  unfold g_key_file_parse_line. rewrite (is_c_str_entry _ _ Hc Hcv).
  rewrite str_app_cons. cbn [str_chug]. rewrite Hsp, <- str_app_cons.
  assert (c <> "="%char /\ c <> kf_nl /\ c <> "["%char) as (Hc1 & Hnl & Hbr).
  { cbn [str_all] in Hall. apply andb_true_iff in Hall as [Hs _].
    apply andb_true_iff in Hs as [Hs Hn]. apply negb_true_iff in Hs, Hn.
    apply bool_decide_eq_false in Hn. unfold key_stop in Hs.
    apply orb_false_elim in Hs as [[H1%bool_decide_eq_false H2%bool_decide_eq_false]%orb_false_elim _].
    done. }
  replace (g_key_file_line_is_comment (String c r +:+ "=" +:+ v)) with false
    by (rewrite str_app_cons; cbn; by rewrite !bool_decide_eq_false_2).
  replace (g_key_file_line_is_group (String c r +:+ "=" +:+ v)) with false
    by (rewrite str_app_cons; cbn; by rewrite bool_decide_eq_false_2).
  replace (g_key_file_line_is_key_value_pair (String c r +:+ "=" +:+ v)) with true; last first.
  { rewrite str_app_cons. cbn [g_key_file_line_is_key_value_pair].
    rewrite <- str_app_cons, str_has_app, bool_decide_eq_false_2 by done.
    rewrite str_app_cons. cbn. by rewrite orb_true_r. }
  unfold g_key_file_parse_key_value_pair. rewrite Hg.
  rewrite (str_app_cons "="), str_app_nil, str_cut_app by done.
  rewrite (str_chomp_id _ _ Hlast), Hchug, Hname. cbn [negb].
  rewrite (bool_decide_eq_false_2 (String c r = "Encoding")) by done.
  rewrite andb_false_r. cbn [andb]. unfold key_get_locale. by rewrite Hloc.
Qed.

Lemma group_name_chars g :
  str_all (fun c => negb (bool_decide (c = "["%char)) && negb (bool_decide (c = "]"%char))
                    && negb (g_ascii_iscntrl c)) g = true ->
  is_c_str g /\ str_has "]"%char g = false /\ str_has kf_nl g = false.
Proof.
  induction g as [|c g IH]; [done|]. cbn [str_all str_has].
  intros [[[_ H2]%andb_true_iff H3]%andb_true_iff (Hc & Hh & Hn)%IH]%andb_true_iff.
  apply negb_true_iff in H2, H3. apply bool_decide_eq_false in H2.
  rewrite Hh, Hn, !bool_decide_eq_false_2; [|by intros <-|congruence].
  split; [|done]. apply is_c_str_cons. split; [|done]. intros ->. by vm_compute in H3.
Qed.

(** The line of a group. *)
Lemma parse_line_group g kf :
  g_key_file_is_group_name g = true ->
  g_key_file_parse_line ("[" +:+ g +:+ "]") kf = inr (g_key_file_add_group g kf).
Proof.
  intros Hg. pose proof Hg as [_ (Hc & Hh & _)%group_name_chars]%andb_true_iff.
  unfold g_key_file_parse_line.
  assert (is_c_str ("[" +:+ g +:+ "]")) as ->.
  { rewrite str_app_cons, str_app_nil. apply is_c_str_cons. split; [done|].
    apply is_c_str_app. by split. }
  rewrite str_app_cons, str_app_nil. cbn [str_chug].
  change (g_ascii_isspace "[") with false. cbn [g_key_file_line_is_comment].
  change (bool_decide ("["%char = "#"%char) || bool_decide ("["%char = kf_nl)) with false.
  cbn [g_key_file_line_is_group g_key_file_parse_group].
  rewrite str_cut_app by done. cbn [str_all]. rewrite (bool_decide_eq_true_2 _ eq_refl).
  cbn [andb]. by rewrite Hg.
Qed.

(** A line that a line feed ended is parsed as it stands when it is
    not empty and does not end in a carriage return. *)
Lemma parse_terminated_line_plain line kf :
  str_has kf_cr line = false -> line <> EmptyString ->
  parse_terminated_line line kf = g_key_file_parse_line line kf.
Proof.
  intros Hcr Hne. unfold parse_terminated_line.
  rewrite (bool_decide_eq_false_2 (str_last line = Some kf_cr)).
  - by rewrite bool_decide_eq_false_2.
  - intros Hl%str_last_has. congruence.
Qed.

Lemma parse_terminated_line_last line kf :
  (forall c, str_last line = Some c -> c <> kf_cr) -> line <> EmptyString ->
  parse_terminated_line line kf = g_key_file_parse_line line kf.
Proof.
  intros Hcr Hne. unfold parse_terminated_line.
  rewrite (bool_decide_eq_false_2 (str_last line = Some kf_cr)).
  - by rewrite bool_decide_eq_false_2.
  - intros Hl. by apply Hcr in Hl.
Qed.

Lemma single_group_add g acc k v :
  on_group g (add_pair k v) (single_group g acc) = single_group g (acc ++ [(k, v)]).
Proof. unfold on_group, single_group. cbn. by rewrite bool_decide_eq_true_2. Qed.

Lemma parse_lines_cons line s kf :
  parse_lines (line :: split_nl s) kf
  = match parse_terminated_line line kf with
    | inl e => inl e
    | inr kf => parse_lines (split_nl s) kf
    end.
Proof. by destruct (split_nl_cons s) as (l & ls & ->). Qed.

Lemma entries_to_data_app a b :
  entries_to_data (a ++ b) = entries_to_data a +:+ entries_to_data b.
Proof.
  induction a as [|[k v] a IH]; [done|]. cbn [app entries_to_data foldr].
  fold (entries_to_data (a ++ b)). fold (entries_to_data a).
  by rewrite IH, !str_app_assoc, !str_app_cons, !str_app_nil.
Qed.

(** The lines of the entries of a group, read into that group, with
    what follows them in the file. *)
Lemma parse_lines_entries_app g acc pairs rest :
  Forall (fun e => storable_key e.1 = true /\ plain_value e.2) pairs ->
  parse_lines (split_nl (entries_to_data pairs +:+ rest)) (single_group g acc)
  = parse_lines (split_nl rest) (single_group g (acc ++ pairs)).
Proof.
  intros Hp. revert acc. induction Hp as [|[k v] pairs [Hk Hv] _ IH]; intros acc.
  { by rewrite app_nil_r. }
  cbn [fst snd] in Hk, Hv.
  cbn [entries_to_data foldr]. fold (entries_to_data pairs).
  replace ((k +:+ "=" +:+ v +:+ String kf_nl (entries_to_data pairs)) +:+ rest)
    with ((k +:+ "=" +:+ v) +:+ String kf_nl (entries_to_data pairs +:+ rest))
    by (by rewrite !str_app_assoc, !str_app_cons, !str_app_nil).
  pose proof Hk as (Hck & Hall & (c & r & Hkc & _) & Hlast & _)%storable_key_inv.
  destruct (key_span_all _ Hall) as (_ & _ & Hnl & _).
  destruct Hv as (Hcv & Hvnl & Hvcr & Hchug).
  rewrite split_nl_app by (rewrite !str_has_app, Hnl, Hvnl; done).
  rewrite parse_lines_cons, parse_terminated_line_last.
  - rewrite (parse_line_entry k v g) by done.
    rewrite single_group_add, IH. by rewrite <- app_assoc.
  - intros x. rewrite (str_app_cons "="), str_app_nil, str_last_app_cons. intros Hx ->.
    apply str_last_has in Hx. cbn [str_has] in Hx. by rewrite Hvcr in Hx.
  - rewrite Hkc, str_app_cons. done.
Qed.

Lemma parse_lines_entries g acc pairs :
  Forall (fun e => storable_key e.1 = true /\ plain_value e.2) pairs ->
  parse_lines (split_nl (entries_to_data pairs)) (single_group g acc)
  = inr (single_group g (acc ++ pairs)).
Proof.
  intros Hp. rewrite <- (str_app_nil_r (entries_to_data pairs)).
  by rewrite parse_lines_entries_app.
Qed.

(** A line that holds a key and nothing else is no line of a key
    file. *)
Lemma parse_line_key_alone a kf :
  storable_key a = true ->
  g_key_file_parse_line a kf = inl (key_file_error G_KEY_FILE_ERROR_PARSE).
Proof.
  intros (Hc & Hall & (c & r & -> & Hsp & Hh) & _)%storable_key_inv.
  destruct (key_span_all _ Hall) as (_ & Heq & _).
  unfold g_key_file_parse_line. cbv zeta. unfold is_c_str in Hc. rewrite !Hc.
  cbn [str_chug]. rewrite !Hsp. cbn [str_all] in Hall. apply andb_true_iff in Hall as [[Hs Hn]%andb_true_iff _].
  apply negb_true_iff in Hs, Hn. apply bool_decide_eq_false in Hn. unfold key_stop in Hs.
  apply orb_false_elim in Hs as [[H1%bool_decide_eq_false H2%bool_decide_eq_false]%orb_false_elim _].
  unfold g_key_file_line_is_comment, g_key_file_line_is_group,
    g_key_file_line_is_key_value_pair.
  by rewrite Heq, !bool_decide_eq_false_2.
Qed.

(** The lines of a key that holds a line feed: the first one is
    refused. *)
Lemma parse_lines_key_alone g acc a rest :
  storable_key a = true ->
  parse_lines (split_nl (a +:+ String kf_nl rest)) (single_group g acc)
  = inl (key_file_error G_KEY_FILE_ERROR_PARSE).
Proof.
  intros Hk. pose proof Hk as (_ & Hall & (c & r & Hkc & _) & Hlast & _)%storable_key_inv.
  destruct (key_span_all _ Hall) as (_ & _ & Hnl & _).
  rewrite split_nl_app by done. rewrite parse_lines_cons, parse_terminated_line_last.
  - by rewrite parse_line_key_alone.
  - intros x Hx ->. by apply Hlast in Hx.
  - by subst.
Qed.

(** A file with one group, printed and read. *)
Lemma parse_data_single_group g pairs :
  g_key_file_is_group_name g = true ->
  Forall (fun e => storable_key e.1 = true /\ plain_value e.2) pairs ->
  g_key_file_parse_data (g_key_file_to_data (single_group g pairs))
  = inr (single_group g pairs).
Proof.
  intros Hg Hp. unfold g_key_file_parse_data, g_key_file_to_data.
  cbn [single_group kf_groups groups_to_data strlen String.length].
  rewrite bool_decide_eq_false_2 by (cbn; lia). cbn [andb].
  rewrite !str_app_nil. unfold group_to_data. cbn [group_name key_value_pairs].
  fold (entries_to_data pairs).
  replace ("[" +:+ g +:+ "]" +:+ String kf_nl EmptyString +:+ entries_to_data pairs)
    with (("[" +:+ g +:+ "]") +:+ String kf_nl (entries_to_data pairs))
    by (by rewrite !str_app_assoc, !str_app_cons, !str_app_nil).
  pose proof Hg as [_ (Hc & Hh & Hn)%group_name_chars]%andb_true_iff.
  rewrite split_nl_app, parse_lines_cons, parse_terminated_line_last.
  - rewrite parse_line_group by done.
    change (g_key_file_add_group g empty_key_file) with (single_group g []).
    by rewrite parse_lines_entries.
  - intros x. rewrite <- str_app_assoc, str_last_app_cons. by intros [= <-].
  - by rewrite str_app_cons.
  - by rewrite !str_has_app, Hn.
Qed.

(** A file with one group in which the key of an entry holds a line
    feed after a text that is a key: the file is printed, and refused
    when it is read. *)
Lemma parse_data_key_alone g pairs1 a b v pairs2 :
  g_key_file_is_group_name g = true ->
  Forall (fun e => storable_key e.1 = true /\ plain_value e.2) pairs1 ->
  storable_key a = true ->
  g_key_file_parse_data
    (g_key_file_to_data (single_group g (pairs1 ++ (a +:+ String kf_nl b, v) :: pairs2)))
  = inl (key_file_error G_KEY_FILE_ERROR_PARSE).
Proof.
  intros Hg Hp Ha. unfold g_key_file_parse_data, g_key_file_to_data.
  cbn [single_group kf_groups groups_to_data strlen String.length].
  rewrite bool_decide_eq_false_2 by (cbn; lia). cbn [andb].
  rewrite !str_app_nil. unfold group_to_data. cbn [group_name key_value_pairs].
  fold (entries_to_data (pairs1 ++ (a +:+ String kf_nl b, v) :: pairs2)).
  rewrite entries_to_data_app. cbn [entries_to_data foldr]. fold (entries_to_data pairs2).
  replace ("[" +:+ g +:+ "]" +:+ String kf_nl EmptyString +:+ entries_to_data pairs1
           +:+ (a +:+ String kf_nl b) +:+ "=" +:+ v +:+ String kf_nl (entries_to_data pairs2))
    with (("[" +:+ g +:+ "]") +:+ String kf_nl
            (entries_to_data pairs1
             +:+ (a +:+ String kf_nl (b +:+ "=" +:+ v +:+ String kf_nl (entries_to_data pairs2)))))
    by (by rewrite !str_app_assoc, !str_app_cons, !str_app_nil).
  pose proof Hg as [_ (Hc & Hh & Hn)%group_name_chars]%andb_true_iff.
  rewrite split_nl_app, parse_lines_cons, parse_terminated_line_last.
  - rewrite parse_line_group by done.
    change (g_key_file_add_group g empty_key_file) with (single_group g []).
    by rewrite parse_lines_entries_app, parse_lines_key_alone.
  - intros x. rewrite <- str_app_assoc, str_last_app_cons. by intros [= <-].
  - by rewrite str_app_cons.
  - by rewrite !str_has_app, Hn.
Qed.

End read_back.

(** ** Lemmas: writing and reading the entries of one group *)

Lemma lookup_pair_None key pairs : key ∉ pairs.*1 -> lookup_pair key pairs = None.
Proof.
  induction pairs as [|[k v] pairs IH]; [done|]. cbn [lookup_pair fmap list_fmap fst].
  intros [Hk Hp]%not_elem_of_cons. rewrite IH by done. by rewrite bool_decide_eq_false_2.
Qed.

Lemma lookup_pair_Some key value pairs :
  NoDup pairs.*1 -> (key, value) ∈ pairs -> lookup_pair key pairs = Some value.
Proof.
  induction pairs as [|[k v] pairs IH]; [by intros _ ?%elem_of_nil|].
  cbn [lookup_pair fmap list_fmap fst]. intros [Hk Hnd]%NoDup_cons [[= -> ->]|Hin]%elem_of_cons.
  - rewrite lookup_pair_None by done. by rewrite bool_decide_eq_true_2.
  - by rewrite IH.
Qed.

Lemma get_keys_single_group g pairs :
  g_key_file_get_keys g (single_group g pairs) = inr (pairs.*1).
Proof.
  unfold g_key_file_get_keys, g_key_file_lookup_group. cbn.
  by rewrite bool_decide_eq_true_2.
Qed.

Section entries.
Context `{KeyFileEnv}.

Lemma get_string_single_group g key s pairs :
  NoDup pairs.*1 -> (key, parse_string_as_value true s) ∈ pairs ->
  g_utf8_validate s = true ->
  g_key_file_get_string g key (single_group g pairs) = inr s.
Proof.
  intros Hnd Hin Hu. unfold g_key_file_get_string, g_key_file_get_value, g_key_file_lookup_group.
  cbn. rewrite bool_decide_eq_true_2 by done. cbn.
  rewrite (lookup_pair_Some _ _ _ Hnd Hin). unfold g_utf8_validate in *.
  by rewrite utf8_run_escape, Hu, parse_value_as_string_escape.
Qed.

(** The first entry and the next ones, for a key that a key file
    allows. *)
Lemma set_string_empty_name g key s :
  g_key_file_is_group_name g = true -> g_key_file_is_key_name key = true ->
  is_c_str key -> is_c_str s ->
  g_key_file_set_string g key s empty_key_file
  = single_group g [(key, parse_string_as_value true s)].
Proof.
  intros Hg Hk Hc Hs. unfold g_key_file_set_string, g_key_file_set_value.
  rewrite Hg, Hk, Hc. cbn [negb].
  unfold g_key_file_parse_string_as_value. rewrite Hs.
  unfold on_group, single_group. cbn. by rewrite bool_decide_eq_true_2.
Qed.

Lemma set_string_single_group_name g key s pairs :
  g_key_file_is_group_name g = true -> g_key_file_is_key_name key = true ->
  is_c_str key -> is_c_str s -> key ∉ pairs.*1 ->
  g_key_file_set_string g key s (single_group g pairs)
  = single_group g (pairs ++ [(key, parse_string_as_value true s)]).
Proof.
  intros Hg Hk Hc Hs Hin. unfold g_key_file_set_string, g_key_file_set_value.
  rewrite Hg, Hk, Hc. cbn [negb].
  unfold g_key_file_parse_string_as_value. rewrite Hs.
  unfold g_key_file_lookup_group. cbn. rewrite bool_decide_eq_true_2 by done. cbn.
  rewrite lookup_pair_None by done. apply single_group_add.
Qed.

End entries.
