(* ===== verification/Snapshot.v ===== *)
(** * Snapshot: the table written to and read from a key file

    src/udb.c lines 12 ([db_file_path]), 57-97 ([db_save_to_file]) and
    99-155 ([db_load_from_file]).  Both functions return when no path
    was given, after the critical message of [g_return_if_fail];
    otherwise the table is printed as one group of a key file, named
    [UDB_DB_SECTION], with one entry per key, and read back from it.
    The [GError] a function leaves in [*error] is its result: [None]
    when it leaves none.

    The disk is what each path names, a regular file with its text or
    the node of a socket, with what the next read and the next write
    fail with when they fail.  The order in which a [GHashTable] is
    walked is not specified: it is the parameter [HashOrder], and the
    theorems hold for every order. *)

From S2P Require Import Prelude CString Mutex Store KeyFile.

Set Warnings "-clear-no-such-hyp".

Open Scope Z_scope.

(** ** Parameters *)

(** config.h is not among the sources: the name of the group is a
    parameter. *)
Class SnapshotConfig : Type := {
  UDB_DB_SECTION : string;
}.

(** The order of [g_hash_table_iter_next]: every entry once. *)
Class HashOrder : Type := {
  g_hash_table_iter : table -> list (string * string);
  g_hash_table_iter_perm m : g_hash_table_iter m ≡ₚ map_to_list m;
}.

(** ** The disk *)

(** What a path names: a regular file with its text, or the node of a
    socket that was bound there. *)
Inductive file : Type :=
  | Regular (data : string)
  | Socket.

Record disk : Type := mk_disk {
  disk_files : gmap string file;
  (** the error of the next [open] or [read], if it fails *)
  disk_read_error : option GError;
  (** the error of the next write, if it fails *)
  disk_write_error : option GError;
}.

Definition file_error (code : Z) : GError :=
  {| error_domain := G_FILE_ERROR; error_code := code |}.

(** [g_file_set_contents]: the file is replaced as a whole, or not at
    all.  The text is written to a file of its own that is renamed, so
    whatever had the name before, a socket included, gives way. *)
Definition g_file_set_contents (path data : string) : ST disk (option GError) :=
  fun d =>
    match disk_write_error d with
    | Some e => Ok (Some e, d)
    | None =>
        Ok (None, {| disk_files := <[path:=Regular data]> (disk_files d);
                     disk_read_error := disk_read_error d;
                     disk_write_error := None |})
    end.

Section snapshot.
Context `{SnapshotConfig} `{HashOrder} `{KeyFileEnv}.

(** [g_key_file_load_from_file] with [G_KEY_FILE_NONE]: a file that does
    not exist is the error [G_FILE_ERROR_NOENT], and a socket cannot be
    opened: [open] fails with [ENXIO]. *)
Definition g_key_file_load_from_file (path : string) (d : disk) : GError + GKeyFile :=
  match disk_read_error d with
  | Some e => inl e
  | None =>
      match disk_files d !! path with
      | None => inl (file_error G_FILE_ERROR_NOENT)
      | Some Socket => inl (file_error G_FILE_ERROR_NXIO)
      | Some (Regular data) => g_key_file_parse_data data
      end
  end.

(** ** The state *)

(** What [g_return_if_fail] prints at the level [G_LOG_LEVEL_CRITICAL]
    when its condition does not hold: the function and the condition. *)
Record critical : Type := mk_critical {
  crit_func : string;
  crit_expr : string;
}.

#[export] Instance critical_eq_dec : EqDecision critical.
Proof. solve_decision. Defined.

(** [char* db_file_path], the table and the disk, with the critical
    messages that were printed. *)
Record snapshot_state : Type := mk_snapshot_state {
  sn_db : db_state;
  db_file_path : option string;
  sn_disk : disk;
  sn_criticals : list critical;
}.

Definition set_sn_db (d : db_state) (s : snapshot_state) : snapshot_state :=
  {| sn_db := d; db_file_path := db_file_path s; sn_disk := sn_disk s;
     sn_criticals := sn_criticals s |}.

Definition set_sn_disk (d : disk) (s : snapshot_state) : snapshot_state :=
  {| sn_db := sn_db s; db_file_path := db_file_path s; sn_disk := d;
     sn_criticals := sn_criticals s |}.

Definition add_critical (c : critical) (s : snapshot_state) : snapshot_state :=
  {| sn_db := sn_db s; db_file_path := db_file_path s; sn_disk := sn_disk s;
     sn_criticals := sn_criticals s ++ [c] |}.

(** [g_return_if_fail_warning] *)
Definition g_return_if_fail_warning (func expr : string) : ST snapshot_state unit :=
  st_modify (add_critical {| crit_func := func; crit_expr := expr |}).

Definition on_sn_table {A} (c : ST (handle table) A) : ST snapshot_state A :=
  zoom sn_db set_sn_db (on_db_mem c).

Definition on_sn_disk {A} (c : ST disk A) : ST snapshot_state A :=
  zoom sn_disk set_sn_disk c.

(** The entries of the table as [g_hash_table_iter_next] yields them. *)
Definition g_hash_table_entries : ST (handle table) (list (string * string)) :=
  fun h => match h with
           | Live m => Ok (g_hash_table_iter m, h)
           | Null | Dangling => Fault Undefined
           end.

(** ** [db_save_to_file] *)

(** The loop over the table: one [g_key_file_set_string] per entry. *)
Definition set_entries (entries : list (string * string)) (kf : GKeyFile) : GKeyFile :=
  foldl (fun kf '(key, value) => g_key_file_set_string UDB_DB_SECTION key value kf)
        kf entries.

Definition db_save_to_file : ST snapshot_state (option GError) :=
  s <- st_get ;;
  match db_file_path s with
  | None => g_return_if_fail_warning "db_save_to_file" "db_file_path != NULL" ;; st_ret None
  | Some path =>
      match g_key_file_new with
      | Live keyfile =>
          entries <- on_sn_table g_hash_table_entries ;;
          let keyfile := set_entries entries keyfile in
          let data := g_key_file_to_data keyfile in
          on_sn_disk (g_file_set_contents path data)
      | Null | Dangling => st_ret (Some (file_error G_FILE_ERROR_NOMEM))
      end
  end.

(** ** [db_load_from_file] *)

(** The loop over the keys: the entries whose value can be read go to
    the table. *)
Fixpoint load_keys (keyfile : GKeyFile) (keys : list string) : ST (handle table) unit :=
  match keys with
  | [] => st_ret tt
  | key :: keys =>
      match g_key_file_get_string UDB_DB_SECTION key keyfile with
      | inr val => g_hash_table_insert key val ;; load_keys keyfile keys
      | inl _ => load_keys keyfile keys
      end
  end.

Definition db_load_from_file : ST snapshot_state (option GError) :=
  s <- st_get ;;
  match db_file_path s with
  | None => g_return_if_fail_warning "db_load_from_file" "db_file_path != NULL" ;; st_ret None
  | Some path =>
      match g_key_file_new with
      | Live _ =>
          match g_key_file_load_from_file path (sn_disk s) with
          | inl e => st_ret (Some e)
          | inr keyfile =>
              on_sn_table g_hash_table_remove_all ;;
              match g_key_file_get_keys UDB_DB_SECTION keyfile with
              | inl e => st_ret (Some e)
              | inr keys => on_sn_table (load_keys keyfile keys) ;; st_ret None
              end
          end
      | Null | Dangling => st_ret (Some (file_error G_FILE_ERROR_NOMEM))
      end
  end.

(** ** What a snapshot holds *)

(** The state with table [m] and the lock free. *)
Definition snapshot_of (m : table) (path : option string) (d : disk) : snapshot_state :=
  {| sn_db := db_of m; db_file_path := path; sn_disk := d; sn_criticals := [] |}.

(** The same with the critical messages [cs]. *)
Definition snapshot_with (m : table) (path : option string) (d : disk) (cs : list critical)
    : snapshot_state :=
  {| sn_db := db_of m; db_file_path := path; sn_disk := d; sn_criticals := cs |}.

(** The disk after a write of [data] to [path] that meets no error. *)
Definition disk_written (path data : string) (d : disk) : disk :=
  {| disk_files := <[path:=Regular data]> (disk_files d);
     disk_read_error := disk_read_error d; disk_write_error := None |}.

(** A disk without pending errors. *)
Definition disk_of (files : gmap string string) : disk :=
  {| disk_files := Regular <$> files; disk_read_error := None;
     disk_write_error := None |}.

(** The text [db_save_to_file] writes for the table [m]. *)
Definition snapshot_data (m : table) : string :=
  g_key_file_to_data (set_entries (g_hash_table_iter m) empty_key_file).

(** The tables a snapshot gives back: every key and every value is
    storable. *)
Definition storable_table (m : table) : Prop :=
  map_Forall (fun k v => storable_key k = true /\ storable_value v = true) m.

#[export] Instance storable_table_dec m : Decision (storable_table m).
Proof. unfold storable_table. apply _. Defined.

(** The entries as they stand in the file. *)
Definition escape_entries (entries : list (string * string)) : list (string * string) :=
  (fun '(k, v) => (k, parse_string_as_value true v)) <$> entries.

(** The table after the entries were inserted one by one. *)
Definition insert_entries (entries : list (string * string)) (m : table) : table :=
  foldl (fun m '(k, v) => <[k:=v]> m) m entries.

(** The entries [db_save_to_file] writes: the key is a name a key file
    allows. *)
Definition written_entry (e : string * string) : Prop :=
  g_key_file_is_key_name e.1 = true.

#[export] Instance written_entry_dec e : Decision (written_entry e).
Proof. unfold written_entry. apply _. Defined.

(** A key and a value as the table holds them: C strings. *)
Definition c_entry (e : string * string) : Prop := is_c_str e.1 /\ is_c_str e.2.

(** ** Theorems: a file that cannot be loaded *)

(** C8. Without a snapshot file [db_load_from_file] reports
    [G_FILE_ERROR_NOENT] and leaves the table as it is. *)
Theorem db_load_from_file_missing (s : snapshot_state) (path : string) :
  db_file_path s = Some path -> disk_read_error (sn_disk s) = None ->
  disk_files (sn_disk s) !! path = None ->
  db_load_from_file s = Ok (Some (file_error G_FILE_ERROR_NOENT), s).
Proof.
  intros Hp Hr Hf. unfold db_load_from_file, st_bind. cbn.
  unfold g_key_file_load_from_file. by rewrite Hp, Hr, Hf.
Qed.

(** What [g_key_file_load_from_file] finds at the path. *)
Lemma load_from_file_lookup (path : string) (d : disk) :
  disk_read_error d = None ->
  g_key_file_load_from_file path d
  = match disk_files d !! path with
    | None => inl (file_error G_FILE_ERROR_NOENT)
    | Some Socket => inl (file_error G_FILE_ERROR_NXIO)
    | Some (Regular data) => g_key_file_parse_data data
    end.
Proof. intros Hr. unfold g_key_file_load_from_file. by rewrite Hr. Qed.

(** What [db_load_from_file] does when the file cannot be opened or is
    no key file: the error is returned and nothing else happens. *)
Lemma db_load_from_file_refused (s : snapshot_state) (path : string) (e : GError) :
  db_file_path s = Some path -> g_key_file_load_from_file path (sn_disk s) = inl e ->
  db_load_from_file s = Ok (Some e, s).
Proof. intros Hp He. unfold db_load_from_file, st_bind. cbn. by rewrite Hp, He. Qed.

(** A path at which a socket is bound cannot be read: the error is
    [G_FILE_ERROR_NXIO], and the table is left as it is. *)
Lemma db_load_from_file_socket (s : snapshot_state) (path : string) :
  db_file_path s = Some path -> disk_read_error (sn_disk s) = None ->
  disk_files (sn_disk s) !! path = Some Socket ->
  db_load_from_file s = Ok (Some (file_error G_FILE_ERROR_NXIO), s).
Proof.
  intros Hp Hr Hf. apply (db_load_from_file_refused s path); [done|].
  by rewrite load_from_file_lookup, Hf.
Qed.

(** A file that is not a key file is refused and the table is left
    as it is. *)
Lemma db_load_from_file_parse_error (s : snapshot_state) (path data : string) (e : GError) :
  db_file_path s = Some path -> disk_read_error (sn_disk s) = None ->
  disk_files (sn_disk s) !! path = Some (Regular data) -> g_key_file_parse_data data = inl e ->
  db_load_from_file s = Ok (Some e, s).
Proof.
  intros Hp Hr Hf He. apply (db_load_from_file_refused s path); [done|].
  by rewrite load_from_file_lookup, Hf.
Qed.

(** A key file without the group of the snapshot: the table is emptied
    before the error is found. *)
Lemma db_load_from_file_group_missing (m0 : table) (path data : string) (d : disk)
    (keyfile : GKeyFile) :
  disk_read_error d = None -> disk_files d !! path = Some (Regular data) ->
  g_key_file_parse_data data = inr keyfile ->
  g_key_file_lookup_group UDB_DB_SECTION keyfile = None ->
  db_load_from_file (snapshot_of m0 (Some path) d)
  = Ok (Some (key_file_error G_KEY_FILE_ERROR_GROUP_NOT_FOUND), snapshot_of ∅ (Some path) d).
Proof.
  intros Hr Hf Hk Hg. unfold db_load_from_file, st_bind. cbn.
  unfold g_key_file_load_from_file, g_key_file_get_keys.
  by rewrite Hr, Hf, Hk, Hg.
Qed.

(** C32. A key file without the group of the snapshot: the table is
    emptied before the error is found, and the error has the code of
    [G_FILE_ERROR_NOENT]. *)
Theorem db_load_from_file_no_group (m0 : table) (path data : string) (d : disk)
    (keyfile : GKeyFile) :
  disk_read_error d = None -> disk_files d !! path = Some (Regular data) ->
  g_key_file_parse_data data = inr keyfile ->
  g_key_file_lookup_group UDB_DB_SECTION keyfile = None ->
  db_load_from_file (snapshot_of m0 (Some path) d)
  = Ok (Some (key_file_error G_KEY_FILE_ERROR_GROUP_NOT_FOUND), snapshot_of ∅ (Some path) d)
  /\ G_KEY_FILE_ERROR_GROUP_NOT_FOUND = G_FILE_ERROR_NOENT.
Proof.
  intros Hr Hf Hk Hg. split; [|done]. by eapply db_load_from_file_group_missing. Qed.

(** ** Lemmas *)

Lemma escape_entries_fst entries : (escape_entries entries).*1 = entries.*1.
Proof.
  unfold escape_entries. rewrite <- list_fmap_compose.
  apply list_fmap_ext. by intros ? [??].
Qed.

Lemma escape_entries_app a b : escape_entries (a ++ b) = escape_entries a ++ escape_entries b.
Proof. apply fmap_app. Qed.

Lemma insert_entries_list_to_map entries m :
  NoDup entries.*1 -> insert_entries entries m = list_to_map entries ∪ m.
Proof.
  revert m. induction entries as [|[k v] entries IH]; intros m.
  { intros _. cbn. by rewrite (left_id_L ∅ (∪)). }
  cbn [fmap list_fmap fst]. intros [Hk Hnd]%NoDup_cons.
  cbn [insert_entries foldl]. fold (insert_entries entries (<[k:=v]> m)).
  rewrite IH by done. cbn [list_to_map foldr]. 
  rewrite <- insert_union_l, <- insert_union_r; [done|].
  by apply not_elem_of_list_to_map_1.
Qed.

Lemma storable_value_inv v :
  storable_value v = true ->
  is_c_str v /\ g_utf8_validate v = true /\ str_take 1 v <> String kf_ff EmptyString.
Proof.
  unfold storable_value. rewrite !andb_true_iff, negb_true_iff.
  by intros [[?%bool_decide_eq_true ?] ?%bool_decide_eq_false].
Qed.

Lemma set_entries_cons key value entries kf :
  set_entries ((key, value) :: entries) kf
  = set_entries entries (g_key_file_set_string UDB_DB_SECTION key value kf).
Proof. reflexivity. Qed.

Lemma set_entries_single_group acc entries :
  g_key_file_is_group_name UDB_DB_SECTION = true ->
  NoDup (acc.*1 ++ entries.*1) ->
  Forall (fun e => written_entry e /\ c_entry e) entries ->
  set_entries entries (single_group UDB_DB_SECTION (escape_entries acc))
  = single_group UDB_DB_SECTION (escape_entries (acc ++ entries)).
Proof.
  intros Hg Hnd He. revert acc Hnd.
  induction He as [|[k v] entries [Hk [Hck Hv]] _ IH]; intros acc Hnd.
  { by rewrite app_nil_r. }
  unfold written_entry in Hk. cbn [fst snd] in Hk, Hck, Hv.
  rewrite set_entries_cons. cbn [fmap list_fmap fst] in Hnd.
  rewrite set_string_single_group_name; try done.
  - change [(k, parse_string_as_value true v)] with (escape_entries [(k, v)]).
    rewrite <- escape_entries_app, IH, <- app_assoc; [done|].
    by rewrite fmap_app, <- app_assoc.
  - rewrite escape_entries_fst. apply NoDup_app in Hnd as (_ & Hnd & _).
    intros Hin. apply (Hnd _ Hin). by left.
Qed.

Lemma set_entries_empty entries :
  g_key_file_is_group_name UDB_DB_SECTION = true ->
  NoDup entries.*1 -> entries <> [] ->
  Forall (fun e => written_entry e /\ c_entry e) entries ->
  set_entries entries empty_key_file = single_group UDB_DB_SECTION (escape_entries entries).
Proof.
  intros Hg Hnd Hne He. destruct He as [|[k v] entries [Hk [Hck Hv]] He]; [done|].
  unfold written_entry in Hk. cbn [fst snd] in Hk, Hck, Hv.
  rewrite set_entries_cons, set_string_empty_name by done.
  by apply (set_entries_single_group [(k, v)]).
Qed.

(** A storable entry is written. *)
Lemma storable_written (e : string * string) :
  storable_key e.1 = true /\ storable_value e.2 = true -> written_entry e /\ c_entry e.
Proof.
  intros [Hk (Hv & _)%storable_value_inv]. split; [by apply storable_key_name|].
  by apply storable_key_inv in Hk as (Hk & _).
Qed.

Lemma load_keys_entries pairs entries m0 :
  NoDup pairs.*1 ->
  Forall (fun e => (e.1, parse_string_as_value true e.2) ∈ pairs
                   /\ g_utf8_validate e.2 = true) entries ->
  load_keys (single_group UDB_DB_SECTION pairs) entries.*1 (Live m0)
  = Ok (tt, Live (insert_entries entries m0)).
Proof.
  intros Hnd He. revert m0. induction He as [|[k v] entries [Hin Hu] _ IH]; intros m0; [done|].
  cbn [fmap list_fmap fst load_keys]. cbn [fst snd] in Hin, Hu.
  rewrite (get_string_single_group _ _ v) by done.
  unfold st_bind. cbn. fold (fmap (M:=list) (@fst string string)). by rewrite IH.
Qed.

(** The entries of a storable table, in the order they are walked. *)
Lemma storable_table_entries m :
  storable_table m ->
  NoDup (g_hash_table_iter m).*1
  /\ Forall (fun e => storable_key e.1 = true /\ storable_value e.2 = true)
       (g_hash_table_iter m)
  /\ list_to_map (g_hash_table_iter m) = m.
Proof.
  intros Hm. pose proof (g_hash_table_iter_perm m) as Hp. split_and!.
  - rewrite Hp. apply NoDup_fst_map_to_list.
  - rewrite Hp. apply Forall_forall. intros [k v] Hin%elem_of_map_to_list.
    by apply (Hm k v).
  - rewrite <- (list_to_map_to_list m) at 2. apply list_to_map_proper; [|done].
    rewrite Hp. apply NoDup_fst_map_to_list.
Qed.

Lemma g_hash_table_iter_empty : g_hash_table_iter ∅ = [].
Proof.
  apply Permutation_nil_r. rewrite <- (map_to_list_empty (A:=string)).
  apply g_hash_table_iter_perm.
Qed.

Lemma g_hash_table_iter_nil m : g_hash_table_iter m = [] -> m = ∅.
Proof.
  intros Hl. apply map_to_list_empty_iff, Permutation_nil_r.
  rewrite <- Hl. symmetry. apply g_hash_table_iter_perm.
Qed.

(** The text of a snapshot of a storable table. *)
Lemma snapshot_data_storable m :
  g_key_file_is_group_name UDB_DB_SECTION = true -> storable_table m -> m <> ∅ ->
  snapshot_data m
  = g_key_file_to_data (single_group UDB_DB_SECTION (escape_entries (g_hash_table_iter m))).
Proof.
  intros Hg (Hnd & Hall & _)%storable_table_entries Hne. unfold snapshot_data.
  rewrite set_entries_empty; try done.
  - intros Hl. by apply Hne, g_hash_table_iter_nil.
  - eapply Forall_impl; [done|]. intros e. apply storable_written.
Qed.

Lemma escape_entries_storable entries :
  Forall (fun e => storable_key e.1 = true /\ storable_value e.2 = true) entries ->
  Forall (fun e => storable_key e.1 = true /\ plain_value e.2) (escape_entries entries).
Proof.
  intros He. apply Forall_fmap. eapply Forall_impl; [done|].
  intros [k v] [Hk (Hc & _ & Hff)%storable_value_inv]. split; [done|].
  by apply plain_value_escape.
Qed.

(** An entry whose key is not a name a key file allows is left out
    of the snapshot without an error. *)
Lemma set_entries_invalid_key (key value : string) (entries : list (string * string))
    (kf : GKeyFile) :
  g_key_file_is_key_name key = false ->
  set_entries ((key, value) :: entries) kf = set_entries entries kf.
Proof.
  intros Hk. rewrite set_entries_cons. unfold g_key_file_set_string, g_key_file_set_value.
  rewrite Hk. by destruct (g_key_file_is_group_name UDB_DB_SECTION).
Qed.

(** The loop over the table writes the entries whose key is a name a
    key file allows, and passes over the others. *)
Lemma set_entries_filter entries kf :
  set_entries entries kf = set_entries (filter written_entry entries) kf.
Proof.
  revert kf. induction entries as [|[k v] entries IH]; intros kf; [done|].
  rewrite filter_cons. destruct (decide (written_entry (k, v))) as [Hk|Hk].
  - rewrite !set_entries_cons. apply IH.
  - rewrite set_entries_invalid_key; [apply IH|].
    unfold written_entry in Hk. cbn in Hk. by destruct (g_key_file_is_key_name k).
Qed.

(** [db_load_from_file] on the file of some storable entries. *)
Lemma db_load_from_file_entries es m0 path d :
  g_key_file_is_group_name UDB_DB_SECTION = true -> NoDup es.*1 ->
  Forall (fun e => storable_key e.1 = true /\ storable_value e.2 = true) es ->
  disk_read_error d = None ->
  disk_files d !! path = Some (Regular (g_key_file_to_data (set_entries es empty_key_file))) ->
  db_load_from_file (snapshot_of m0 (Some path) d)
  = Ok (if decide (es = []) then Some (key_file_error G_KEY_FILE_ERROR_GROUP_NOT_FOUND)
        else None,
        snapshot_of (list_to_map es) (Some path) d).
Proof.
  intros Hg Hnd Hall Hr Hf. unfold db_load_from_file, st_bind. cbn.
  unfold g_key_file_load_from_file. rewrite Hr, Hf.
  destruct (decide (es = [])) as [->|Hne]; [done|].
  rewrite set_entries_empty, parse_data_single_group
    by eauto using escape_entries_storable, Forall_impl, storable_written.
  cbn. rewrite get_keys_single_group, escape_entries_fst.
  unfold on_sn_table, on_db_mem, zoom. cbn.
  rewrite (load_keys_entries (escape_entries es)).
  - cbn. by rewrite insert_entries_list_to_map, (right_id_L ∅ (∪)).
  - by rewrite escape_entries_fst.
  - apply Forall_forall. intros [k v] Hin.
    pose proof (proj1 (Forall_forall _ _) Hall _ Hin) as [_ (_ & Hu & _)%storable_value_inv].
    split; [|done]. unfold escape_entries. apply list_elem_of_fmap. by exists (k, v).
Qed.

(** [db_load_from_file] on the snapshot of a storable table. *)
Lemma db_load_from_file_snapshot m m0 path d :
  g_key_file_is_group_name UDB_DB_SECTION = true -> storable_table m ->
  disk_read_error d = None ->
  disk_files d !! path = Some (Regular (snapshot_data m)) ->
  db_load_from_file (snapshot_of m0 (Some path) d)
  = Ok (if decide (m = ∅) then Some (key_file_error G_KEY_FILE_ERROR_GROUP_NOT_FOUND)
        else None,
        snapshot_of m (Some path) d).
Proof.
  intros Hg Hm Hr Hf. pose proof (storable_table_entries m Hm) as (Hnd & Hall & Hmap).
  rewrite (db_load_from_file_entries (g_hash_table_iter m)), Hmap by done.
  destruct (decide (m = ∅)) as [->|Hne]; [by rewrite g_hash_table_iter_empty|].
  rewrite decide_False; [done|]. intros Hl. by apply Hne, g_hash_table_iter_nil.
Qed.

(** The entries of a table that are written, when the others are
    storable: they are the storable ones. *)
Lemma kept_entries m bad :
  storable_table m -> map_Forall (fun k _ => g_key_file_is_key_name k = false) bad ->
  NoDup (filter written_entry (g_hash_table_iter (m ∪ bad))).*1
  /\ Forall (fun e => storable_key e.1 = true /\ storable_value e.2 = true)
       (filter written_entry (g_hash_table_iter (m ∪ bad)))
  /\ list_to_map (filter written_entry (g_hash_table_iter (m ∪ bad))) = m.
Proof.
  intros Hm Hbad. pose proof (g_hash_table_iter_perm (m ∪ bad)) as Hp.
  assert (forall k v, (k, v) ∈ filter written_entry (g_hash_table_iter (m ∪ bad))
                      <-> m !! k = Some v) as Hin.
  { intros k v. rewrite list_elem_of_filter, Hp, elem_of_map_to_list, lookup_union_Some_raw.
    unfold written_entry. cbn. split.
    - intros [Hk [?|[_ Hb]]]; [done|]. apply Hbad in Hb. congruence.
    - intros Hk. split; [|by left]. apply storable_key_name. by apply (Hm k v). }
  assert (NoDup (filter written_entry (g_hash_table_iter (m ∪ bad))).*1) as Hnd.
  { eapply sublist_NoDup; [|apply fmap_sublist, sublist_filter].
    rewrite Hp. apply NoDup_fst_map_to_list. }
  split_and!; [done| |].
  - apply Forall_forall. intros [k v] Hkv%Hin. by apply (Hm k v).
  - apply map_eq. intros k. apply option_eq. intros v.
    by rewrite <- elem_of_list_to_map, Hin.
Qed.

(** [db_load_from_file] on the snapshot of a table whose entries are
    storable or have a key that is not written: the storable ones come
    back. *)
Lemma db_load_from_file_kept m bad m0 path d :
  g_key_file_is_group_name UDB_DB_SECTION = true -> storable_table m ->
  map_Forall (fun k _ => g_key_file_is_key_name k = false) bad ->
  disk_read_error d = None ->
  disk_files d !! path = Some (Regular (snapshot_data (m ∪ bad))) ->
  db_load_from_file (snapshot_of m0 (Some path) d)
  = Ok (if decide (m = ∅) then Some (key_file_error G_KEY_FILE_ERROR_GROUP_NOT_FOUND)
        else None,
        snapshot_of m (Some path) d).
Proof.
  intros Hg Hm Hbad Hr Hf. destruct (kept_entries m bad Hm Hbad) as (Hnd & Hall & Hmap).
  unfold snapshot_data in Hf. rewrite set_entries_filter in Hf.
  set (es := filter written_entry _) in *.
  rewrite (db_load_from_file_entries _ _ _ _ Hg Hnd Hall Hr Hf), Hmap.
  destruct (decide (m = ∅)) as [->|Hne].
  - destruct es as [|[k v] es]; [done|]. cbn in Hmap. by apply insert_non_empty in Hmap.
  - rewrite decide_False; [done|]. intros Hl. rewrite Hl in Hmap. by apply Hne.
Qed.

(** The snapshot of a table that holds a key with a line feed after a
    text that is a key, beside storable entries, is no key file. *)
Lemma snapshot_data_key_alone m a b v :
  g_key_file_is_group_name UDB_DB_SECTION = true -> storable_table m ->
  storable_key a = true -> written_entry (a +:+ String kf_nl b, v) ->
  c_entry (a +:+ String kf_nl b, v) ->
  g_key_file_parse_data (snapshot_data (<[a +:+ String kf_nl b:=v]> m))
  = inl (key_file_error G_KEY_FILE_ERROR_PARSE).
Proof.
  intros Hg Hm Ha Hw Hc. set (k := a +:+ String kf_nl b) in *.
  pose proof (g_hash_table_iter_perm (<[k:=v]> m)) as Hp.
  assert ((k, v) ∈ g_hash_table_iter (<[k:=v]> m)) as Hkv.
  { rewrite Hp, elem_of_map_to_list. apply lookup_insert_eq. }
  assert (NoDup (g_hash_table_iter (<[k:=v]> m)).*1) as Hnd.
  { rewrite Hp. apply NoDup_fst_map_to_list. }
  assert (forall e, e ∈ g_hash_table_iter (<[k:=v]> m) -> e.1 <> k ->
                    storable_key e.1 = true /\ storable_value e.2 = true) as Hst.
  { intros [k' v']. rewrite Hp, elem_of_map_to_list. cbn. intros Hl Hne.
    rewrite lookup_insert_ne in Hl by done. by apply (Hm k' v'). }
  unfold snapshot_data. destruct (list_elem_of_split _ _ Hkv) as (es1 & es2 & Hes).
  rewrite Hes in Hnd, Hst |- *. pose proof Hnd as Hnd'. rewrite fmap_app, fmap_cons in Hnd.
  apply NoDup_app in Hnd as (_ & Hn1 & [Hn2 _]%NoDup_cons). cbn [fst] in Hn1, Hn2.
  rewrite set_entries_empty; [|done..|by destruct es1|].
  - rewrite escape_entries_app. apply parse_data_key_alone; [done| |done].
    apply escape_entries_storable, Forall_forall. intros e He. apply Hst; [set_solver|].
    intros Hk. apply (Hn1 k); [by rewrite <- Hk; apply list_elem_of_fmap_2|by left].
  - apply Forall_forall. intros e [He| [->|He]%elem_of_cons]%elem_of_app; [|done|].
    + apply storable_written, Hst; [set_solver|].
      intros Hk. apply (Hn1 k); [by rewrite <- Hk; apply list_elem_of_fmap_2|by left].
    + apply storable_written, Hst; [set_solver|].
      intros Hk. apply Hn2. by rewrite <- Hk; apply list_elem_of_fmap_2.
Qed.

(** A write that fails is reported and leaves the disk and the
    table as they are. *)
Lemma db_save_to_file_write_error (m : table) (path : string) (d : disk) (e : GError) :
  disk_write_error d = Some e ->
  db_save_to_file (snapshot_of m (Some path) d) = Ok (Some e, snapshot_of m (Some path) d).
Proof.
  intros Hw. unfold db_save_to_file, st_bind, snapshot_of. cbn.
  unfold on_sn_disk, zoom, g_file_set_contents. cbn. by rewrite Hw.
Qed.

(** ** Theorems: saving and loading *)

(** C7. Round trip: a table whose keys and values are storable, saved
    with [db_save_to_file] and loaded with [db_load_from_file] into any
    table, is the table again, for every order in which the hash table
    is walked.  The load reports that the group is missing when the
    table was empty, and no error otherwise. *)
Theorem snapshot_roundtrip (m m0 : table) (path : string) (d : disk) :
  g_key_file_is_group_name UDB_DB_SECTION = true -> storable_table m ->
  disk_write_error d = None -> disk_read_error d = None ->
  (e1 <- db_save_to_file ;;
   st_modify (set_sn_db (db_of m0)) ;;
   e2 <- db_load_from_file ;;
   st_ret (e1, e2)) (snapshot_of m (Some path) d)
  = Ok ((None, if decide (m = ∅)
               then Some (key_file_error G_KEY_FILE_ERROR_GROUP_NOT_FOUND) else None),
        snapshot_of m (Some path) (disk_written path (snapshot_data m) d)).
Proof.
  intros Hg Hm Hw Hr.
  assert (db_save_to_file (snapshot_of m (Some path) d)
          = Ok (None, snapshot_of m (Some path) (disk_written path (snapshot_data m) d)))
    as Hsave.
  { unfold db_save_to_file, st_bind, snapshot_of. cbn.
    unfold on_sn_disk, zoom, g_file_set_contents. cbn. by rewrite Hw. }
  rewrite (st_bind_Ok _ _ _ _ _ Hsave).
  unfold st_bind at 1, st_modify. cbn [o_bind].
  erewrite st_bind_Ok; [done|].
  apply (db_load_from_file_snapshot m m0 path (disk_written _ _ _)); try done.
  apply lookup_insert_eq.
Qed.

(** [db_save_to_file] with a path, on a disk that takes the write. *)
Lemma db_save_to_file_run m path d :
  disk_write_error d = None ->
  db_save_to_file (snapshot_of m (Some path) d)
  = Ok (None, snapshot_of m (Some path) (disk_written path (snapshot_data m) d)).
Proof.
  intros Hw. unfold db_save_to_file, st_bind, snapshot_of. cbn.
  unfold on_sn_disk, zoom, g_file_set_contents. cbn. by rewrite Hw.
Qed.

(** C31. What a snapshot leaves out: the entries whose key is not a
    name a key file allows (a key that is empty, holds [=], or starts or
    ends with a space) are passed over by [db_save_to_file] without an
    error.  A table of storable entries [m] and such entries [bad],
    saved and loaded, is [m]: the others are lost, and the load reports
    a missing group when nothing else was there. *)
Theorem snapshot_drops_keys (m bad m0 : table) (path : string) (d : disk) :
  g_key_file_is_group_name UDB_DB_SECTION = true -> storable_table m ->
  map_Forall (fun k _ => g_key_file_is_key_name k = false) bad ->
  disk_write_error d = None -> disk_read_error d = None ->
  (e1 <- db_save_to_file ;;
   st_modify (set_sn_db (db_of m0)) ;;
   e2 <- db_load_from_file ;;
   st_ret (e1, e2)) (snapshot_of (m ∪ bad) (Some path) d)
  = Ok ((None, if decide (m = ∅)
               then Some (key_file_error G_KEY_FILE_ERROR_GROUP_NOT_FOUND) else None),
        snapshot_of m (Some path) (disk_written path (snapshot_data (m ∪ bad)) d)).
Proof.
  intros Hg Hm Hbad Hw Hr.
  rewrite (st_bind_Ok _ _ _ _ _ (db_save_to_file_run (m ∪ bad) path d Hw)).
  unfold st_bind at 1, st_modify. cbn [o_bind].
  erewrite st_bind_Ok; [done|].
  apply (db_load_from_file_kept m bad m0 path (disk_written _ _ _)); try done.
  apply lookup_insert_eq.
Qed.

(** Without [--db-file] nothing is saved and nothing is loaded: the
    two functions print the critical message of [g_return_if_fail] and
    return. *)
Lemma snapshot_no_path (s : snapshot_state) :
  db_file_path s = None ->
  db_save_to_file s
  = Ok (None, add_critical (mk_critical "db_save_to_file" "db_file_path != NULL") s)
  /\ db_load_from_file s
     = Ok (None, add_critical (mk_critical "db_load_from_file" "db_file_path != NULL") s).
Proof. intros Hp. unfold db_save_to_file, db_load_from_file, st_bind. cbn. by rewrite Hp. Qed.

(** ** Lemmas: the calls return *)

(** The loop over the keys returns on a live table. *)
Lemma load_keys_total keyfile keys m :
  exists m', load_keys keyfile keys (Live m) = Ok (tt, Live m').
Proof.
  revert m. induction keys as [|key keys IH]; intros m; [by exists m|].
  cbn [load_keys]. destruct (g_key_file_get_string _ _ _); [apply IH|].
  unfold st_bind. cbn. apply IH.
Qed.

(** [db_save_to_file] returns, and leaves the table and the path as
    they are. *)
Lemma db_save_to_file_total m file d :
  exists error d' cs,
    db_save_to_file (snapshot_of m file d) = Ok (error, snapshot_with m file d' cs).
Proof.
  unfold db_save_to_file, st_bind, snapshot_of. cbn.
  destruct file as [path|]; [|by eexists _, _, _].
  unfold on_sn_disk, zoom, g_file_set_contents. cbn.
  destruct (disk_write_error d); by eexists _, _, _.
Qed.

(** [db_load_from_file] returns, and leaves the disk and the path as
    they are. *)
Lemma db_load_from_file_total m file d :
  exists error m' cs,
    db_load_from_file (snapshot_of m file d) = Ok (error, snapshot_with m' file d cs).
Proof.
  unfold db_load_from_file, st_bind, snapshot_of. cbn.
  destruct file as [path|]; [|by eexists _, _, _].
  destruct (g_key_file_load_from_file path d) as [e|keyfile]; [by eexists _, _, _|]. cbn.
  destruct (g_key_file_get_keys UDB_DB_SECTION keyfile) as [e|keys]; [by eexists _, _, _|].
  unfold on_sn_table, on_db_mem, zoom. cbn.
  destruct (load_keys_total keyfile keys ∅) as [m' ->]. by eexists _, _, _.
Qed.

(** With a path the two calls print no critical message. *)
Lemma db_save_to_file_path m path d :
  exists error d',
    db_save_to_file (snapshot_of m (Some path) d) = Ok (error, snapshot_of m (Some path) d').
Proof.
  destruct (disk_write_error d) as [e|] eqn:Hw; eexists _, _.
  - by apply db_save_to_file_write_error.
  - by apply db_save_to_file_run.
Qed.

Lemma db_load_from_file_path m path d :
  exists error m',
    db_load_from_file (snapshot_of m (Some path) d) = Ok (error, snapshot_of m' (Some path) d).
Proof.
  unfold db_load_from_file, st_bind, snapshot_of. cbn.
  destruct (g_key_file_load_from_file path d) as [e|keyfile]; [by eexists _, _|]. cbn.
  destruct (g_key_file_get_keys UDB_DB_SECTION keyfile) as [e|keys]; [by eexists _, _|].
  unfold on_sn_table, on_db_mem, zoom. cbn.
  destruct (load_keys_total keyfile keys ∅) as [m' ->]. by eexists _, _.
Qed.

End snapshot.

(** ** Examples *)

(** config.h is not among the sources: the examples take [udb] for the
    name of the group, and walk the table in the order of
    [map_to_list]. *)
Definition example_snapshot_config : SnapshotConfig := {| UDB_DB_SECTION := "udb" |}.

Definition example_hash_order : HashOrder :=
  {| g_hash_table_iter := map_to_list; g_hash_table_iter_perm m := reflexivity _ |}.

Section examples.
#[local] Existing Instance example_snapshot_config.
#[local] Existing Instance example_hash_order.
#[local] Existing Instance example_key_file_env.

(** A process that saves the table [m], starts again with an empty table
    and loads the file: the errors of the two calls and the table. *)
Definition save_and_load (m : table) : outcome (option GError * option GError * table) :=
  olet '(e1, s1) := db_save_to_file (snapshot_of m (Some "/tmp/udb.db") (disk_of ∅)) in
  olet '(e2, s2) := db_load_from_file (set_sn_db (db_of ∅) s1) in
  Ok (e1, e2, db_contents (sn_db s2)).

(** A table with a key that holds a space and a value that holds a
    leading space, a backslash, a line feed and a character of two
    bytes. *)
Definition example_table : table :=
  {[ "key1" := "hello";
     "k 2" := " a\b" +:+ String kf_nl (" c" +:+ String "195" (String "169" "")) ]}.

Lemma snapshot_roundtrip_witness :
  (e1 <- db_save_to_file ;;
   st_modify (set_sn_db (db_of {[ "old" := "x" ]})) ;;
   e2 <- db_load_from_file ;;
   st_ret (e1, e2)) (snapshot_of example_table (Some "/tmp/udb.db") (disk_of ∅))
  = Ok ((None, if decide (example_table = ∅)
               then Some (key_file_error G_KEY_FILE_ERROR_GROUP_NOT_FOUND) else None),
        snapshot_of example_table (Some "/tmp/udb.db")
          (disk_written "/tmp/udb.db" (snapshot_data example_table) (disk_of ∅))).
Proof.
  apply (snapshot_roundtrip example_table {[ "old" := "x" ]} "/tmp/udb.db" (disk_of ∅));
    try done.
  apply (bool_decide_eq_true_1 (storable_table example_table)). by vm_compute.
Defined.

Lemma db_load_from_file_missing_witness :
  db_load_from_file (snapshot_of example_table (Some "/tmp/udb.db") (disk_of ∅))
  = Ok (Some (file_error G_FILE_ERROR_NOENT),
        snapshot_of example_table (Some "/tmp/udb.db") (disk_of ∅)).
Proof. by apply (db_load_from_file_missing _ "/tmp/udb.db"). Defined.

Lemma db_load_from_file_parse_error_witness :
  db_load_from_file
    (snapshot_of example_table (Some "/tmp/udb.db") (disk_of {[ "/tmp/udb.db" := "hello" ]}))
  = Ok (Some (key_file_error G_KEY_FILE_ERROR_PARSE),
        snapshot_of example_table (Some "/tmp/udb.db") (disk_of {[ "/tmp/udb.db" := "hello" ]})).
Proof. by apply (db_load_from_file_parse_error _ "/tmp/udb.db" "hello"). Defined.

Lemma db_load_from_file_no_group_witness :
  db_load_from_file
    (snapshot_of example_table (Some "/tmp/udb.db") (disk_of {[ "/tmp/udb.db" := "[other]" ]}))
  = Ok (Some (key_file_error G_KEY_FILE_ERROR_GROUP_NOT_FOUND),
        snapshot_of ∅ (Some "/tmp/udb.db") (disk_of {[ "/tmp/udb.db" := "[other]" ]}))
  /\ G_KEY_FILE_ERROR_GROUP_NOT_FOUND = G_FILE_ERROR_NOENT.
Proof.
  by apply (db_load_from_file_no_group example_table "/tmp/udb.db" "[other]"
              (disk_of {[ "/tmp/udb.db" := "[other]" ]}) (single_group "other" [])).
Defined.

Lemma snapshot_no_path_witness :
  db_save_to_file (snapshot_of example_table None (disk_of ∅))
  = Ok (None, add_critical (mk_critical "db_save_to_file" "db_file_path != NULL")
                (snapshot_of example_table None (disk_of ∅)))
  /\ db_load_from_file (snapshot_of example_table None (disk_of ∅))
     = Ok (None, add_critical (mk_critical "db_load_from_file" "db_file_path != NULL")
                   (snapshot_of example_table None (disk_of ∅))).
Proof. by apply (snapshot_no_path (snapshot_of example_table None (disk_of ∅))). Defined.

(** A disk that refuses the write: no permission. *)
Definition example_read_only_disk : disk :=
  {| disk_files := ∅; disk_read_error := None;
     disk_write_error := Some (file_error G_FILE_ERROR_ACCES) |}.

Lemma db_save_to_file_write_error_witness :
  db_save_to_file (snapshot_of example_table (Some "/tmp/udb.db") example_read_only_disk)
  = Ok (Some (file_error G_FILE_ERROR_ACCES),
        snapshot_of example_table (Some "/tmp/udb.db") example_read_only_disk).
Proof.
  by apply (db_save_to_file_write_error example_table "/tmp/udb.db" example_read_only_disk).
Defined.

Lemma set_entries_invalid_key_witness :
  set_entries [("a=b", "x"); ("c", "y")] empty_key_file
  = set_entries [("c", "y")] empty_key_file.
Proof. by apply (set_entries_invalid_key "a=b" "x" [("c", "y")] empty_key_file). Defined.

Lemma snapshot_drops_keys_witness :
  (e1 <- db_save_to_file ;;
   st_modify (set_sn_db (db_of ∅)) ;;
   e2 <- db_load_from_file ;;
   st_ret (e1, e2))
    (snapshot_of ({[ "c" := "y" ]} ∪ {[ "a=b" := "x"; " d" := "z" ]}) (Some "/tmp/udb.db")
       (disk_of ∅))
  = Ok ((None, if decide (({[ "c" := "y" ]} : table) = ∅)
               then Some (key_file_error G_KEY_FILE_ERROR_GROUP_NOT_FOUND) else None),
        snapshot_of {[ "c" := "y" ]} (Some "/tmp/udb.db")
          (disk_written "/tmp/udb.db"
             (snapshot_data ({[ "c" := "y" ]} ∪ {[ "a=b" := "x"; " d" := "z" ]})) (disk_of ∅))).
Proof.
  apply (snapshot_drops_keys {[ "c" := "y" ]} {[ "a=b" := "x"; " d" := "z" ]} ∅ "/tmp/udb.db"
           (disk_of ∅)); try done.
  - apply (bool_decide_eq_true_1 (storable_table {[ "c" := "y" ]})). by vm_compute.
  - apply (bool_decide_unpack _). by vm_compute.
Defined.

Lemma snapshot_data_key_alone_witness :
  g_key_file_parse_data
    (snapshot_data (<["a" +:+ String kf_nl "b":="x"]> {[ "c" := "y" ]}))
  = inl (key_file_error G_KEY_FILE_ERROR_PARSE).
Proof.
  apply (snapshot_data_key_alone {[ "c" := "y" ]} "a" "b" "x"); try done.
  apply (bool_decide_eq_true_1 (storable_table {[ "c" := "y" ]})). by vm_compute.
Defined.

(** Entries that do not come back, by evaluation: a key with [=] is not
    written; a key that starts with [#] is written and read as a
    comment; a value that starts with a form feed comes back without
    it. *)
Example snapshot_entries_lost :
  save_and_load {[ "a=b" := "x"; "c" := "y" ]} = Ok (None, None, {[ "c" := "y" ]})
  /\ save_and_load {[ "#c" := "x"; "d" := "y" ]} = Ok (None, None, {[ "d" := "y" ]})
  /\ save_and_load {[ "k" := String kf_ff "v" ]} = Ok (None, None, {[ "k" := "v" ]}).
Proof. by vm_compute. Qed.

(** A key with a line feed is written over two lines, and the file
    is refused when it is loaded. *)
Example snapshot_newline_key_unloadable :
  save_and_load {[ "a" +:+ String kf_nl "b" := "x"; "c" := "y" ]}
  = Ok (None, Some (key_file_error G_KEY_FILE_ERROR_PARSE), ∅).
Proof. by vm_compute. Qed.

(** A file that holds the line [key1=hello] after the line of the
    group gives the table its entry; without the line of the group the
    load fails with the code of [G_FILE_ERROR_NOENT]. *)
Example db_load_from_file_key1 :
  db_load_from_file
    (snapshot_of ∅ (Some "/tmp/udb.db")
       (disk_of {[ "/tmp/udb.db" := "[udb]" +:+ String kf_nl "key1=hello" ]}))
  = Ok (None, snapshot_of {[ "key1" := "hello" ]} (Some "/tmp/udb.db")
                (disk_of {[ "/tmp/udb.db" := "[udb]" +:+ String kf_nl "key1=hello" ]}))
  /\ db_load_from_file
       (snapshot_of ∅ (Some "/tmp/udb.db") (disk_of {[ "/tmp/udb.db" := "key1=hello" ]}))
     = Ok (Some (key_file_error 4),
           snapshot_of ∅ (Some "/tmp/udb.db") (disk_of {[ "/tmp/udb.db" := "key1=hello" ]})).
Proof. by vm_compute. Qed.

End examples.
