(* ===== verification/Options.v ===== *)
(** * Options: the command line

    src/udb.c lines 11-31: the paths [socket_path] and [db_file_path]
    and the table [cmd_entries] that tells [g_option_context_parse]
    which option writes which of them.  The table is data of the
    program; the parser is GLib's, modelled from goption.c for a context
    as [main] creates it: the main group only, help enabled, unknown
    options refused, options and other arguments in any order.

    An option changes a path only when the whole command line is
    accepted: GLib takes the changes back when it fails.

    What a command line says is a list of settings ([setting]), each
    written in one of three ways and applied in its turn
    ([apply_setting]); the parser with [cmd_entries] is shown to
    compute that. *)

From S2P Require Import Prelude CString KeyFile.

Set Warnings "-clear-no-such-hyp".

Open Scope Z_scope.

(** ** The table of options *)

(** The kinds of argument the table uses. *)
Inductive GOptionArg : Type :=
| G_OPTION_ARG_STRING
| G_OPTION_ARG_FILENAME.

Inductive GOptionFlags : Type :=
| G_OPTION_FLAG_NONE.

(** [arg_data]: the variable an option writes. *)
Inductive option_target : Type :=
| To_socket_path
| To_db_file_path.

#[export] Instance GOptionArg_eq_dec : EqDecision GOptionArg.
Proof. solve_decision. Defined.

#[export] Instance option_target_eq_dec : EqDecision option_target.
Proof. solve_decision. Defined.

Record GOptionEntry : Type := mk_entry {
  long_name : string;
  short_name : ascii;
  description : string;
  arg : GOptionArg;
  flags : GOptionFlags;
  arg_data : option_target;
  arg_description : string;
}.

Definition cmd_entries : list GOptionEntry :=
  [ {| long_name := "socket-path"; short_name := "p";
       description := "Path to file where the unix socket will be created";
       arg := G_OPTION_ARG_STRING;
       flags := G_OPTION_FLAG_NONE;
       arg_data := To_socket_path;
       arg_description := "PATH" |};
    {| long_name := "db-file"; short_name := "f";
       description := "Path to file where database state will be saved";
       arg := G_OPTION_ARG_FILENAME;
       flags := G_OPTION_FLAG_NONE;
       arg_data := To_db_file_path;
       arg_description := "FILE" |} ].

(** What the command line asks for: the paths it names. *)
Record options : Type := mk_options {
  opt_socket_path : option string;
  opt_db_file : option string;
}.

#[export] Instance options_eq_dec : EqDecision options.
Proof. solve_decision. Defined.

Definition no_options : options := {| opt_socket_path := None; opt_db_file := None |}.

(** The assignment through [arg_data]. *)
Definition set_option (target : option_target) (data : string) (o : options) : options :=
  match target with
  | To_socket_path => {| opt_socket_path := Some data; opt_db_file := opt_db_file o |}
  | To_db_file_path => {| opt_socket_path := opt_socket_path o; opt_db_file := Some data |}
  end.

(** ** Errors *)

Definition G_OPTION_ERROR_UNKNOWN_OPTION : Z := 0.
Definition G_OPTION_ERROR_BAD_VALUE : Z := 1.
Definition G_OPTION_ERROR_FAILED : Z := 2.
Definition G_CONVERT_ERROR_ILLEGAL_SEQUENCE : Z := 1.

Definition option_error (code : Z) : GError :=
  {| error_domain := G_OPTION_ERROR; error_code := code |}.

(** ** The parser *)

(** The character set of the locale: [g_locale_to_utf8] gives the
    argument in UTF-8, or fails. *)
Class OptionEnv : Type := {
  g_locale_to_utf8 : string -> option string;
}.

(** What [g_option_context_parse] leaves: the options; an error; or the
    help was asked for, printed, and the process has ended with
    [exit (0)]. *)
Inductive parse_result : Type :=
| Parsed (o : options)
| ParseError (e : GError)
| ParseHelp.

#[export] Instance parse_result_eq_dec : EqDecision parse_result.
Proof. solve_decision. Defined.

(** [strncmp (s, prefix, strlen (prefix)) == 0] *)
Fixpoint starts_with (prefix s : string) : bool :=
  match prefix, s with
  | EmptyString, _ => true
  | String c prefix, String d s => Ascii.eqb c d && starts_with prefix s
  | String _ _, EmptyString => false
  end.

Section parser.
Context `{OptionEnv}.

(** [parse_arg]: a string is converted from the locale, a file name is
    taken as it is. *)
Definition parse_arg (entry : GOptionEntry) (value : string) (o : options)
    : GError + options :=
  match arg entry with
  | G_OPTION_ARG_STRING =>
      match g_locale_to_utf8 value with
      | Some data => inr (set_option (arg_data entry) data o)
      | None => inl {| error_domain := G_CONVERT_ERROR;
                       error_code := G_CONVERT_ERROR_ILLEGAL_SEQUENCE |}
      end
  | G_OPTION_ARG_FILENAME => inr (set_option (arg_data entry) value o)
  end.

(** The entry a long option names, with the value written after [=], if
    one is: [strncmp (arg, long_name, len) == 0] and [arg[len]] is [=]
    or the end. *)
Fixpoint find_long (entries : list GOptionEntry) (name : string)
    : option (GOptionEntry * option string) :=
  match entries with
  | [] => None
  | entry :: entries =>
      if starts_with (long_name entry) name then
        match str_drop (strlen (long_name entry)) name with
        | EmptyString => Some (entry, None)
        | String c value =>
            if Ascii.eqb c "=" then Some (entry, Some value) else find_long entries name
        end
      else find_long entries name
  end.

Fixpoint find_short (entries : list GOptionEntry) (c : ascii) : option GOptionEntry :=
  match entries with
  | [] => None
  | entry :: entries =>
      if Ascii.eqb c (short_name entry) then Some entry else find_short entries c
  end.

(** The options of one argument [-abc]: the first letter that takes a
    value takes the next argument, a second one finds it taken. *)
Inductive short_result : Type :=
| ShortOk (o : options) (taken : bool)
| ShortError (e : GError)
| ShortHelp.

Fixpoint parse_short_options (entries : list GOptionEntry) (letters : string)
    (next : option string) (taken : bool) (o : options) : short_result :=
  match letters with
  | EmptyString => ShortOk o taken
  | String c letters =>
      if Ascii.eqb c "?"
         || (Ascii.eqb c "h" && negb (bool_decide (is_Some (find_short entries "h"))))
      then ShortHelp
      else
        match find_short entries c with
        | None => ShortError (option_error G_OPTION_ERROR_UNKNOWN_OPTION)
        | Some entry =>
            if taken then ShortError (option_error G_OPTION_ERROR_FAILED)
            else
              match next with
              | None => ShortError (option_error G_OPTION_ERROR_BAD_VALUE)
              | Some value =>
                  match parse_arg entry value o with
                  | inl e => ShortError e
                  | inr o => parse_short_options entries letters next true o
                  end
              end
        end
  end.

(** The arguments after the name of the program, in their order. *)
Fixpoint parse_args (entries : list GOptionEntry) (args : list string)
    (stop_parsing : bool) (o : options) : parse_result :=
  match args with
  | [] => Parsed o
  | a :: rest =>
      if negb stop_parsing && starts_with "-" a && negb (String.eqb a "-") then
        if starts_with "--" a then
          let name := str_drop 2 a in
          if String.eqb name EmptyString then parse_args entries rest true o
          else if String.eqb name "help" || String.eqb name "help-all"
          then ParseHelp
          else
            match find_long entries name with
            | None => ParseError (option_error G_OPTION_ERROR_UNKNOWN_OPTION)
            | Some (entry, Some value) =>
                match parse_arg entry value o with
                | inl e => ParseError e
                | inr o => parse_args entries rest stop_parsing o
                end
            | Some (entry, None) =>
                match rest with
                | [] => ParseError (option_error G_OPTION_ERROR_BAD_VALUE)
                | value :: rest =>
                    match parse_arg entry value o with
                    | inl e => ParseError e
                    | inr o => parse_args entries rest stop_parsing o
                    end
                end
            end
        else
          match parse_short_options entries (str_drop 1 a) (head rest) false o with
          | ShortHelp => ParseHelp
          | ShortError e => ParseError e
          | ShortOk o false => parse_args entries rest stop_parsing o
          | ShortOk o true =>
              match rest with
              | [] => Parsed o
              | _ :: rest => parse_args entries rest stop_parsing o
              end
          end
      else parse_args entries rest stop_parsing o
  end.

(** [g_option_context_parse]: [argv[0]] is the name of the program. *)
Definition g_option_context_parse (entries : list GOptionEntry) (argv : list string)
    : parse_result :=
  parse_args entries (tail argv) false no_options.

(** ** The command line of some options *)

(** The options written with their long names. *)
Definition render_options (o : options) : list string :=
  match opt_socket_path o with Some s => ["--socket-path"; s] | None => [] end
  ++ match opt_db_file o with Some f => ["--db-file"; f] | None => [] end.

(** What a command line says, argument by argument: a path for the
    socket or for the snapshot, each written in one of the three ways
    GLib reads, or an argument that is no option. *)
Inductive spelling : Type :=
| LongEqual
| LongNext
| ShortNext.

Inductive setting : Type :=
| SocketPath (how : spelling) (value : string)
| DbFile (how : spelling) (value : string)
| Operand (a : string).

Definition render_setting (x : setting) : list string :=
  match x with
  | SocketPath LongEqual v => ["--socket-path=" +:+ v]
  | SocketPath LongNext v => ["--socket-path"; v]
  | SocketPath ShortNext v => ["-p"; v]
  | DbFile LongEqual v => ["--db-file=" +:+ v]
  | DbFile LongNext v => ["--db-file"; v]
  | DbFile ShortNext v => ["-f"; v]
  | Operand a => [a]
  end.

(** What a setting means: the path of the socket is the value in UTF-8,
    the path of the snapshot is the value as it is written. *)
Definition apply_setting (o : options) (x : setting) : options :=
  match x with
  | SocketPath _ v => {| opt_socket_path := g_locale_to_utf8 v; opt_db_file := opt_db_file o |}
  | DbFile _ v => {| opt_socket_path := opt_socket_path o; opt_db_file := Some v |}
  | Operand _ => o
  end.

(** The settings a command line may hold: a path for the socket that the
    locale can convert, and operands that do not look like options. *)
Definition setting_ok (x : setting) : Prop :=
  match x with
  | SocketPath _ v => is_Some (g_locale_to_utf8 v)
  | DbFile _ _ => True
  | Operand a => starts_with "-" a = false \/ a = "-"
  end.

(** ** Lemmas *)

(** An option the table does not have. *)
Lemma parse_args_unknown_long name rest o :
  name <> EmptyString -> name <> "help" -> name <> "help-all" ->
  find_long cmd_entries name = None ->
  parse_args cmd_entries (String "-" (String "-" name) :: rest) false o
  = ParseError (option_error G_OPTION_ERROR_UNKNOWN_OPTION).
Proof.
  intros Hn Hh Ha Hf. cbn [parse_args starts_with str_drop negb andb Ascii.eqb Bool.eqb].
  cbn [String.eqb Ascii.eqb Bool.eqb].
  rewrite (proj2 (String.eqb_neq _ _) Hn), (proj2 (String.eqb_neq _ _) Hh),
    (proj2 (String.eqb_neq _ _) Ha). cbn [orb]. by rewrite Hf.
Qed.

(** ** Theorems *)

(** One setting in front of a command line. *)
Lemma parse_args_setting (x : setting) (rest : list string) (o : options) :
  setting_ok x ->
  parse_args cmd_entries (render_setting x ++ rest) false o
  = parse_args cmd_entries rest false (apply_setting o x).
Proof.
  destruct x as [[] v|[] v|a]; cbn [render_setting app setting_ok apply_setting].
  1-3: intros [data Hd]; rewrite ?str_app_cons, ?str_app_nil; cbn; by rewrite Hd.
  1-3: intros _; by rewrite ?str_app_cons, ?str_app_nil.
  intros [Ha| ->]; [|done]. cbn [parse_args]. by rewrite Ha, andb_false_r.
Qed.

(** C22. What [cmd_entries] makes of a command line: for every list of
    settings, in any order, each written as [--name=value],
    [--name value] or [-n value], with operands between them,
    [g_option_context_parse] gives the options that result from the
    settings one after the other.  [--socket-path] and [-p] write the
    path of the socket, converted from the locale; [--db-file] and [-f]
    write the path of the snapshot as it stands; the last setting of a
    path wins; an operand changes nothing. *)
Theorem command_line_settings (prog : string) (xs : list setting) :
  Forall setting_ok xs ->
  g_option_context_parse cmd_entries (prog :: concat (render_setting <$> xs))
  = Parsed (foldl apply_setting no_options xs).
Proof.
  unfold g_option_context_parse. cbn [tail]. generalize no_options.
  induction xs as [|x xs IH]; intros o Hxs; [done|].
  apply Forall_cons in Hxs as [Hx Hxs]. cbn [fmap list_fmap concat foldl].
  by rewrite parse_args_setting, IH.
Qed.

(** The options written with their long names are read back: for
    every choice of the two paths, with a socket path that the locale
    can write, [g_option_context_parse] on the command line of
    [render_options] gives the options. *)
Lemma parse_render_options (prog : string) (o : options) :
  (forall s, opt_socket_path o = Some s -> g_locale_to_utf8 s = Some s) ->
  g_option_context_parse cmd_entries (prog :: render_options o) = Parsed o.
Proof.
  intros Hs. destruct o as [[s|] [f|]]; cbn in *; rewrite ?Hs by done; done.
Qed.

End parser.

(** ** Examples *)

(** A locale whose character set is UTF-8: [g_locale_to_utf8] checks the
    argument and copies it. *)
Definition utf8_locale : OptionEnv :=
  {| g_locale_to_utf8 := fun s => if g_utf8_validate s then Some s else None |}.

Section examples.
#[local] Existing Instance utf8_locale.

Lemma command_line_settings_witness :
  g_option_context_parse cmd_entries
    ("udb" :: concat (render_setting <$>
       [DbFile ShortNext "old.db"; Operand "start"; SocketPath LongEqual "/tmp/udb.sock";
        DbFile LongNext "/tmp/udb.db"]))
  = Parsed (foldl apply_setting no_options
       [DbFile ShortNext "old.db"; Operand "start"; SocketPath LongEqual "/tmp/udb.sock";
        DbFile LongNext "/tmp/udb.db"]).
Proof.
  apply (command_line_settings "udb").
  repeat apply Forall_cons_2; try apply Forall_nil_2; cbn; eauto.
Defined.

Lemma parse_render_options_witness :
  g_option_context_parse cmd_entries
    ("udb" :: render_options {| opt_socket_path := Some "/tmp/udb.sock";
                                opt_db_file := Some "/tmp/udb.db" |})
  = Parsed {| opt_socket_path := Some "/tmp/udb.sock"; opt_db_file := Some "/tmp/udb.db" |}.
Proof.
  apply (parse_render_options "udb" {| opt_socket_path := Some "/tmp/udb.sock";
                                       opt_db_file := Some "/tmp/udb.db" |}).
  by intros s [= <-].
Defined.

(** Command lines by evaluation: the last occurrence of an option wins;
    an option takes the next argument whatever it looks like; a name is
    not abbreviated; a second letter that takes a value finds the next
    argument taken; after [--] nothing is an option; the help ends the
    process wherever it stands before [--]; arguments that are no
    options are passed over. *)
Example command_lines :
  g_option_context_parse cmd_entries ["udb"; "-p"; "a"; "--socket-path=b"]
  = Parsed {| opt_socket_path := Some "b"; opt_db_file := None |}
  /\ g_option_context_parse cmd_entries ["udb"; "-p"; "-f"]
     = Parsed {| opt_socket_path := Some "-f"; opt_db_file := None |}
  /\ g_option_context_parse cmd_entries ["udb"; "--socket=a"]
     = ParseError (option_error G_OPTION_ERROR_UNKNOWN_OPTION)
  /\ g_option_context_parse cmd_entries ["udb"; "-pf"; "a"; "b"]
     = ParseError (option_error G_OPTION_ERROR_FAILED)
  /\ g_option_context_parse cmd_entries ["udb"; "--db-file"]
     = ParseError (option_error G_OPTION_ERROR_BAD_VALUE)
  /\ g_option_context_parse cmd_entries ["udb"; "--"; "--help"; "-x"] = Parsed no_options
  /\ g_option_context_parse cmd_entries ["udb"; "-f"; "db"; "-x"; "--help"]
     = ParseError (option_error G_OPTION_ERROR_UNKNOWN_OPTION)
  /\ g_option_context_parse cmd_entries ["udb"; "-f"; "db"; "--help"; "-x"] = ParseHelp
  /\ g_option_context_parse cmd_entries ["udb"; "start"; "-"; "-f"; "db"]
     = Parsed {| opt_socket_path := None; opt_db_file := Some "db" |}.
Proof. by vm_compute. Qed.

End examples.
