(* ===== verification/Handlers.v ===== *)
(** * Handlers: the commands and their dispatch

    src/udb.c lines 245-364 ([udb_handle_get], [udb_handle_set],
    [udb_handle_del], [udb_handle_unknown], the table [udb_commands]) and
    384-416 ([process_command_line]).  A handler is a computation on the
    state of the process, made of the store ([Store.db_state]) and the
    scanner with its lock ([Scanner.scanner_state]); it returns the reply
    it allocates with [g_strdup_printf].

    The constants of config.h and the [%g] conversion of the C library
    are the classes [UdbConfig] and [FloatFormat]: the definitions and
    theorems of this file hold for every instance. *)

From S2P Require Import Prelude CString Mutex Store Scanner Printf.

Set Warnings "-clear-no-such-hyp".

(** ** What the program takes from config.h and from the C library *)

Class UdbConfig : Type := {
  UDB_MAX_KEY_LENGTH : nat;
}.

(** [fmt_g lexeme] is what [%g] prints for the [double] that [g_strtod]
    reads from [lexeme]. *)
Class FloatFormat : Type := {
  fmt_g : string -> string;
}.

(** ** The state of the process *)

Record udb_state : Type := mk_udb {
  udb_db : db_state;
  udb_sc : scanner_state;
}.

Definition set_udb_db (d : db_state) (s : udb_state) : udb_state :=
  {| udb_db := d; udb_sc := udb_sc s |}.

Definition set_udb_sc (c : scanner_state) (s : udb_state) : udb_state :=
  {| udb_db := udb_db s; udb_sc := c |}.

(** A call into the store, and a use of the scanner or of its lock. *)
Definition on_db {A} (c : ST db_state A) : ST udb_state A :=
  zoom udb_db set_udb_db c.

Definition on_scanner {A} (c : ST (handle GScanner) A) : ST udb_state A :=
  zoom udb_sc set_udb_sc (on_udb_scanner c).

Definition on_scanner_lock {A} (c : ST GMutex A) : ST udb_state A :=
  zoom udb_sc set_udb_sc (on_scanner_mutex c).

(** ** The replies *)

Definition reply_missing_key (tok : GTokenType) : string :=
  "ERR Missing KEY (token=" +:+ fmt_d (token_code tok) +:+ ")" +:+ CRLF.

Definition reply_null : string := "NULL" +:+ CRLF.

Definition reply_value (result : string) : string := result +:+ CRLF.

Definition reply_key_too_long : string := "ERR Key To Long" +:+ CRLF.

Definition reply_missing_value : string := "ERR Missing Value Argument" +:+ CRLF.

Definition reply_malformed_value (tok : GTokenType) : string :=
  "ERR Malformed Value Argument (token=" +:+ fmt_d (token_code tok) +:+ ")" +:+ CRLF.

Definition reply_null_value : string := "ERR NULL Value" +:+ CRLF.

Definition reply_ok : string := "OK" +:+ CRLF.

Definition reply_invalid_command : string := "ERR Invalid Command" +:+ CRLF.

Definition reply_expected_command (tok : GTokenType) : string :=
  "ERR Expected Command Identifier (got token=" +:+ fmt_d (token_code tok) +:+ ")" +:+ CRLF.

Definition reply_unknown_command (cmd : string) : string :=
  "ERR Unknown command: " +:+ cmd +:+ CRLF.

(** ** The handlers *)

Section handlers.
Context `{UdbConfig} `{FloatFormat}.

(** The [switch] on the token of the key that opens each handler: the
    key, or the reply the handler returns at once. *)
Definition key_of_token (tok : GTokenType) : ST udb_state (string + string) :=
  match tok with
  | G_TOKEN_IDENTIFIER =>
      v <- on_scanner scanner_value ;;
      key <- st_lift (v_identifier v) ;;
      st_ret (inl key)
  | G_TOKEN_STRING =>
      v <- on_scanner scanner_value ;;
      key <- st_lift (v_string v) ;;
      st_ret (inl key)
  | _ => st_ret (inr (reply_missing_key tok))
  end.

Definition udb_handle_get : ST udb_state string :=
  varname_token <- on_scanner g_scanner_get_next_token ;;
  k <- key_of_token varname_token ;;
  match k with
  | inr reply => st_ret reply
  | inl key =>
      result <- on_db (db_lookup key) ;;
      match result with
      | None => st_ret reply_null
      | Some result => st_ret (reply_value result)
      end
  end.

(** The [switch] on the token of the value in [udb_handle_set]: the
    string to store ([NULL] is [None]), or the reply returned at once. *)
Definition value_of_token (tB : GTokenType) : ST udb_state (option string + string) :=
  match tB with
  | G_TOKEN_IDENTIFIER =>
      v <- on_scanner scanner_value ;;
      s <- st_lift (v_identifier v) ;;
      st_ret (inl (Some s))
  | G_TOKEN_INT =>
      v <- on_scanner scanner_value ;;
      z <- st_lift (v_int v) ;;
      st_ret (inl (Some (fmt_ld z)))
  | G_TOKEN_FLOAT =>
      v <- on_scanner scanner_value ;;
      x <- st_lift (v_float v) ;;
      st_ret (inl (Some (fmt_g x)))
  | G_TOKEN_STRING =>
      v <- on_scanner scanner_value ;;
      s <- st_lift (v_string v) ;;
      st_ret (inl (Some s))
  | G_TOKEN_EOF => st_ret (inr reply_missing_value)
  | _ => st_ret (inr (reply_malformed_value tB))
  end.

Definition udb_handle_set : ST udb_state string :=
  tA <- on_scanner g_scanner_get_next_token ;;
  k <- key_of_token tA ;;
  match k with
  | inr reply => st_ret reply
  | inl key =>
      if (UDB_MAX_KEY_LENGTH <? strlen key)%nat then st_ret reply_key_too_long
      else
        tB <- on_scanner g_scanner_get_next_token ;;
        v <- value_of_token tB ;;
        match v with
        | inr reply => st_ret reply
        | inl None => st_ret reply_null_value
        | inl (Some value) =>
            on_db (db_insert key value) ;;
            st_ret reply_ok
        end
  end.

Definition udb_handle_del : ST udb_state string :=
  varname_token <- on_scanner g_scanner_get_next_token ;;
  k <- key_of_token varname_token ;;
  match k with
  | inr reply => st_ret reply
  | inl key =>
      on_db (db_remove key) ;;
      st_ret reply_ok
  end.

Definition udb_handle_unknown : ST udb_state string :=
  st_ret reply_invalid_command.

(** ** The table of commands *)

Definition UDB_Handler : Type := ST udb_state string.

Record UDB_CommandEntry : Type := mk_entry {
  name : option string;
  fn : UDB_Handler;
}.

Definition udb_commands : list UDB_CommandEntry := [
  {| name := Some "GET"; fn := udb_handle_get |};
  {| name := Some "SET"; fn := udb_handle_set |};
  {| name := Some "DEL"; fn := udb_handle_del |};
  {| name := None; fn := udb_handle_unknown |}
].

(** The loop of [process_command_line] over the table: the handler of the
    first entry whose name equals [cmd] without regard to case, up to the
    entry without a name.  A table with no such entry is read past its
    end. *)
Fixpoint find_command (cmd : string) (es : list UDB_CommandEntry)
    : outcome (option UDB_Handler) :=
  match es with
  | [] => Fault Undefined
  | e :: es =>
      match name e with
      | None => Ok None
      | Some n =>
          if bool_decide (g_ascii_strcasecmp cmd n = 0) then Ok (Some (fn e))
          else find_command cmd es
      end
  end.

(** ** One request line *)

(** [process_command_line] with the length it passes to
    [g_scanner_input_text] as a parameter. *)
Definition process_command_line_len (text_len : Z) (line : string) : ST udb_state string :=
  on_scanner_lock g_mutex_lock ;;
  on_scanner (g_scanner_input_text line text_len) ;;
  tok <- on_scanner g_scanner_get_next_token ;;
  if bool_decide (tok <> G_TOKEN_IDENTIFIER) then
    let response := reply_expected_command tok in
    on_scanner_lock g_mutex_unlock ;;
    st_ret response
  else
    v <- on_scanner scanner_value ;;
    cmd <- st_lift (v_identifier v) ;;
    found <- st_lift (find_command cmd udb_commands) ;;
    response <- match found with
                | Some handler => handler
                | None => st_ret (reply_unknown_command cmd)
                end ;;
    on_scanner_lock g_mutex_unlock ;;
    st_ret response.

(** The source passes [-1] for the length. *)
Definition process_command_line (line : string) : ST udb_state string :=
  process_command_line_len (-1) line.

(** ** The requests of the protocol *)

(** What a request line asks for: a read, a write, a removal, or nothing
    but a reply. *)
Inductive request : Type :=
| ReqGet (key : string)
| ReqSet (key value : string)
| ReqDel (key : string)
| ReqReply (reply : string).

(** The reply to a request on the table [m], and the table after it. *)
Definition request_reply (r : request) (m : table) : string :=
  match r with
  | ReqGet key => match m !! key with Some v => reply_value v | None => reply_null end
  | ReqSet _ _ | ReqDel _ => reply_ok
  | ReqReply reply => reply
  end.

Definition request_apply (r : request) (m : table) : table :=
  match r with
  | ReqSet key value => <[key:=value]> m
  | ReqDel key => delete key m
  | ReqGet _ | ReqReply _ => m
  end.

(** The key a token stands for, as the handlers read it. *)
Definition token_key (t : GTokenType) (v : GTokenValue) : outcome (string + string) :=
  match t with
  | G_TOKEN_IDENTIFIER | G_TOKEN_STRING => olet key := v_identifier v in Ok (inl key)
  | _ => Ok (inr (reply_missing_key t))
  end.

(** The value a token stands for in SET. *)
Definition token_value (t : GTokenType) (v : GTokenValue) : outcome (string + string) :=
  match t with
  | G_TOKEN_IDENTIFIER | G_TOKEN_STRING => olet s := v_identifier v in Ok (inl s)
  | G_TOKEN_INT => olet z := v_int v in Ok (inl (fmt_ld z))
  | G_TOKEN_FLOAT => olet x := v_float v in Ok (inl (fmt_g x))
  | G_TOKEN_EOF => Ok (inr reply_missing_value)
  | _ => Ok (inr (reply_malformed_value t))
  end.

(** The arguments of a command, read from the scanner. *)
Definition parse_key (mk : string -> request) (sc : GScanner) : outcome (request * GScanner) :=
  olet '(t, sc1) := get_next_token sc in
  olet k := token_key t (sc_value sc1) in
  match k with
  | inl key => Ok (mk key, sc1)
  | inr reply => Ok (ReqReply reply, sc1)
  end.

Definition parse_set (sc : GScanner) : outcome (request * GScanner) :=
  olet '(tA, sc1) := get_next_token sc in
  olet k := token_key tA (sc_value sc1) in
  match k with
  | inr reply => Ok (ReqReply reply, sc1)
  | inl key =>
      if (UDB_MAX_KEY_LENGTH <? strlen key)%nat then Ok (ReqReply reply_key_too_long, sc1)
      else
        olet '(tB, sc2) := get_next_token sc1 in
        olet v := token_value tB (sc_value sc2) in
        match v with
        | inl value => Ok (ReqSet key value, sc2)
        | inr reply => Ok (ReqReply reply, sc2)
        end
  end.

(** The command a name stands for. *)
Inductive command : Type := CmdGet | CmdSet | CmdDel.

Definition command_of (cmd : string) : option command :=
  if bool_decide (g_ascii_strcasecmp cmd "GET" = 0) then Some CmdGet
  else if bool_decide (g_ascii_strcasecmp cmd "SET" = 0) then Some CmdSet
  else if bool_decide (g_ascii_strcasecmp cmd "DEL" = 0) then Some CmdDel
  else None.

(** The request a scanner holds after [g_scanner_input_text]. *)
Definition parse_request (sc : GScanner) : outcome (request * GScanner) :=
  olet '(tok, sc1) := get_next_token sc in
  if bool_decide (tok <> G_TOKEN_IDENTIFIER)
  then Ok (ReqReply (reply_expected_command tok), sc1)
  else
    olet cmd := v_identifier (sc_value sc1) in
    match command_of cmd with
    | Some CmdGet => parse_key ReqGet sc1
    | Some CmdSet => parse_set sc1
    | Some CmdDel => parse_key ReqDel sc1
    | None => Ok (ReqReply (reply_unknown_command cmd), sc1)
    end.

(** The state between two requests: the table [m], the scanner [sc] and
    both locks free. *)
Definition udb_of (m : table) (sc : GScanner) : udb_state :=
  {| udb_db := db_of m; udb_sc := scanner_of sc |}.

(** The invariant between two requests. *)
Definition udb_ok (s : udb_state) : Prop :=
  db_ok (udb_db s) /\ is_Live (udb_scanner (udb_sc s))
  /\ scanner_mutex (udb_sc s) = MUnlocked.

(** The state inside [process_command_line]: the scanner's lock held. *)
Definition udb_locked (m : table) (sc : GScanner) : udb_state :=
  {| udb_db := db_of m;
     udb_sc := {| udb_scanner := Live sc; scanner_mutex := MLocked |} |}.

(** The run a parsed request stands for: its reply, and the state with the
    table after it. *)
Definition respond (mk : table -> GScanner -> udb_state) (m : table)
    (o : outcome (request * GScanner)) : outcome (string * udb_state) :=
  olet '(req, sc) := o in Ok (request_reply req m, mk (request_apply req m) sc).

(** ** Theorems: the handlers by evaluation *)

(** C5. An integer argument of SET is stored as [%ld] prints the
    [gulong] the scanner read: a value of [2^63] or more is stored as a
    negative number. *)
Theorem value_of_token_int_wraps (z : Z) (m : table) (sc : GScanner) :
  (2 ^ 63 <= z < 2 ^ 64)%Z -> sc_value sc = V_int z ->
  value_of_token G_TOKEN_INT (udb_locked m sc)
  = Ok (inl (Some (pretty (z - 2 ^ 64)%Z)), udb_locked m sc).
Proof.
  intros Hz Hv. unfold value_of_token, st_bind. simpl. rewrite Hv. simpl.
  by rewrite fmt_ld_large.
Qed.

(** C6. With [scanner_mutex] held, [process_command_line] blocks for
    ever. *)
Theorem process_command_line_deadlock (line : string) (s : udb_state) :
  scanner_mutex (udb_sc s) = MLocked -> process_command_line line s = Fault Deadlock.
Proof. destruct s as [d [h mu]]. simpl. by intros ->. Qed.

(** Before [udb_scanner_init] there is no scanner: every line gets
    the reply for a missing command with the code of [G_TOKEN_EOF], and
    nothing changes. *)
Lemma process_command_line_no_scanner (line : string) (d : db_state) :
  process_command_line line {| udb_db := d; udb_sc := scanner_static |}
  = Ok (reply_expected_command G_TOKEN_EOF, {| udb_db := d; udb_sc := scanner_static |}).
Proof. reflexivity. Qed.

(** The command is matched without regard to case: upper-casing the
    name read from the line selects the same handler. *)
Lemma find_command_case (cmd : string) :
  find_command (str_map g_ascii_toupper cmd) udb_commands
  = find_command cmd udb_commands.
Proof.
  unfold udb_commands. cbn [find_command name fn].
  by rewrite !(bool_decide_ext _ _ (g_ascii_strcasecmp_toupper_l cmd _)).
Qed.

(** ** Steps of a handler, on the state inside [process_command_line] *)

Lemma next_token_locked m sc :
  on_scanner g_scanner_get_next_token (udb_locked m sc)
  = olet '(t, sc') := get_next_token sc in Ok (t, udb_locked m sc').
Proof.
  unfold on_scanner, on_udb_scanner, zoom. simpl.
  by destruct (get_next_token sc) as [[??]|].
Qed.

Lemma key_of_token_locked m sc t :
  key_of_token t (udb_locked m sc)
  = olet k := token_key t (sc_value sc) in Ok (k, udb_locked m sc).
Proof. destruct t; try done; simpl; unfold st_bind; simpl; by destruct (sc_value sc). Qed.

Lemma value_of_token_locked m sc t :
  value_of_token t (udb_locked m sc)
  = olet v := token_value t (sc_value sc) in
    Ok (match v with inl s => inl (Some s) | inr r => inr r end, udb_locked m sc).
Proof. destruct t; try done; simpl; unfold st_bind; simpl; by destruct (sc_value sc). Qed.

(** ** The handlers compute the request the scanner holds *)

Lemma udb_handle_get_locked m sc :
  udb_handle_get (udb_locked m sc) = respond udb_locked m (parse_key ReqGet sc).
Proof.
  unfold udb_handle_get, parse_key, respond, st_bind. rewrite next_token_locked.
  destruct (get_next_token sc) as [[t sc1]|]; [simpl|done].
  rewrite key_of_token_locked. destruct (token_key t (sc_value sc1)) as [[key|r]|]; try done.
  simpl. by destruct (m !! key).
Qed.

Lemma udb_handle_del_locked m sc :
  udb_handle_del (udb_locked m sc) = respond udb_locked m (parse_key ReqDel sc).
Proof.
  unfold udb_handle_del, parse_key, respond, st_bind. rewrite next_token_locked.
  destruct (get_next_token sc) as [[t sc1]|]; [simpl|done].
  rewrite key_of_token_locked. by destruct (token_key t (sc_value sc1)) as [[key|r]|].
Qed.

Lemma udb_handle_set_locked m sc :
  udb_handle_set (udb_locked m sc) = respond udb_locked m (parse_set sc).
Proof.
  unfold udb_handle_set, parse_set, respond, st_bind. rewrite next_token_locked.
  destruct (get_next_token sc) as [[tA sc1]|]; [simpl|done].
  rewrite key_of_token_locked.
  destruct (token_key tA (sc_value sc1)) as [[key|r]|]; try done. simpl.
  destruct (UDB_MAX_KEY_LENGTH <? strlen key)%nat; [done|].
  rewrite next_token_locked. destruct (get_next_token sc1) as [[tB sc2]|]; [simpl|done].
  rewrite value_of_token_locked.
  by destruct (token_value tB (sc_value sc2)) as [[value|r]|].
Qed.

(** The loop over [udb_commands] finds the handler of the command. *)
Lemma find_command_udb_commands cmd :
  find_command cmd udb_commands
  = Ok (match command_of cmd with
        | Some CmdGet => Some udb_handle_get
        | Some CmdSet => Some udb_handle_set
        | Some CmdDel => Some udb_handle_del
        | None => None
        end).
Proof. unfold command_of. simpl. by repeat case_bool_decide. Qed.

(** ** One request line computes the request of the line *)

Lemma lock_udb_of m sc :
  on_scanner_lock g_mutex_lock (udb_of m sc) = Ok (tt, udb_locked m sc).
Proof. reflexivity. Qed.

Lemma unlock_udb_locked m sc :
  on_scanner_lock g_mutex_unlock (udb_locked m sc) = Ok (tt, udb_of m sc).
Proof. reflexivity. Qed.

Lemma input_text_locked line text_len m sc :
  on_scanner (g_scanner_input_text line text_len) (udb_locked m sc)
  = Ok (tt, udb_locked m (input_text line text_len sc)).
Proof. reflexivity. Qed.

Lemma scanner_value_locked m sc :
  on_scanner scanner_value (udb_locked m sc) = Ok (sc_value sc, udb_locked m sc).
Proof. reflexivity. Qed.

Lemma process_command_line_len_run text_len line m sc :
  process_command_line_len text_len line (udb_of m sc)
  = respond udb_of m (parse_request (input_text line text_len sc)).
Proof.
  unfold process_command_line_len, parse_request.
  rewrite (st_bind_Ok _ _ _ _ _ (lock_udb_of m sc)).
  rewrite (st_bind_Ok _ _ _ _ _ (input_text_locked line text_len m sc)).
  unfold st_bind at 1. rewrite next_token_locked.
  destruct (get_next_token (input_text line text_len sc)) as [[tok sc1]|]; [cbn [o_bind]|done].
  case_bool_decide; [done|].
  rewrite (st_bind_Ok _ _ _ _ _ (scanner_value_locked m sc1)).
  unfold st_bind at 1, st_lift at 1.
  destruct (v_identifier (sc_value sc1)) as [cmd|]; [cbn [o_bind]|done].
  unfold st_bind at 1, st_lift at 1. rewrite find_command_udb_commands.
  unfold st_bind at 1.
  destruct (command_of cmd) as [[]|];
    rewrite ?udb_handle_get_locked, ?udb_handle_set_locked, ?udb_handle_del_locked;
    unfold respond; simpl; try done.
  - by destruct (parse_key ReqGet sc1) as [[??]|].
  - by destruct (parse_set sc1) as [[??]|].
  - by destruct (parse_key ReqDel sc1) as [[??]|].
Qed.

(** ** Replies end the line *)

Definition ends_crlf (s : string) : Prop := g_str_has_suffix s CRLF = true.

Lemma ends_crlf_app s : ends_crlf (s +:+ CRLF).
Proof. apply g_str_has_suffix_spec. eauto. Qed.

Lemma ends_crlf_app3 s1 s2 s3 : ends_crlf (s1 +:+ s2 +:+ s3 +:+ CRLF).
Proof. rewrite <-!str_app_assoc. apply ends_crlf_app. Qed.

(** A request whose reply, when it carries one, ends the line. *)
Definition request_wf (r : request) : Prop :=
  match r with ReqReply reply => ends_crlf reply | _ => True end.

Lemma request_reply_crlf r m : request_wf r -> ends_crlf (request_reply r m).
Proof.
  destruct r; simpl; try done; intros _; [|apply ends_crlf_app..].
  destruct (m !! key); apply ends_crlf_app.
Qed.

Lemma token_key_wf t v k : token_key t v = Ok (inr k) -> ends_crlf k.
Proof.
  destruct t; simpl; try (intros [= <-]; apply ends_crlf_app3);
    by destruct (v_identifier v).
Qed.

Lemma token_value_wf t v k : token_value t v = Ok (inr k) -> ends_crlf k.
Proof.
  destruct t; simpl;
    try (intros [= <-]; first [apply ends_crlf_app3|apply ends_crlf_app]).
  - by destruct (v_int v).
  - by destruct (v_float v).
  - by destruct (v_identifier v).
  - by destruct (v_identifier v).
Qed.

Lemma parse_key_wf mk sc r sc' :
  (forall k, request_wf (mk k)) -> parse_key mk sc = Ok (r, sc') -> request_wf r.
Proof.
  intros Hmk. unfold parse_key.
  destruct (get_next_token sc) as [[t sc1]|]; [simpl|done].
  destruct (token_key t (sc_value sc1)) as [[key|k]|] eqn:E; simpl; try done.
  - by intros [= <- _].
  - intros [= <- _]. by eapply token_key_wf.
Qed.

Lemma parse_set_wf sc r sc' : parse_set sc = Ok (r, sc') -> request_wf r.
Proof.
  unfold parse_set.
  destruct (get_next_token sc) as [[tA sc1]|]; [simpl|done].
  destruct (token_key tA (sc_value sc1)) as [[key|k]|] eqn:E; simpl; try done.
  - destruct (UDB_MAX_KEY_LENGTH <? strlen key)%nat.
    { intros [= <- _]. apply ends_crlf_app. }
    destruct (get_next_token sc1) as [[tB sc2]|]; [simpl|done].
    destruct (token_value tB (sc_value sc2)) as [[value|k]|] eqn:E2; simpl; try done.
    + by intros [= <- _].
    + intros [= <- _]. by eapply token_value_wf.
  - intros [= <- _]. by eapply token_key_wf.
Qed.

Lemma parse_request_wf sc r sc' : parse_request sc = Ok (r, sc') -> request_wf r.
Proof.
  unfold parse_request.
  destruct (get_next_token sc) as [[tok sc1]|]; [simpl|done].
  case_bool_decide.
  { intros [= <- _]. apply ends_crlf_app3. }
  destruct (v_identifier (sc_value sc1)) as [cmd|]; [simpl|done].
  destruct (command_of cmd) as [[]|].
  - by apply parse_key_wf.
  - apply parse_set_wf.
  - by apply parse_key_wf.
  - intros [= <- _]. unfold request_wf, reply_unknown_command.
    rewrite <-str_app_assoc. apply ends_crlf_app.
Qed.

(** ** The invariant between requests *)

Lemma udb_ok_of m sc : udb_ok (udb_of m sc).
Proof. done. Qed.

Lemma udb_ok_inv s : udb_ok s <-> exists m sc, s = udb_of m sc.
Proof.
  split; [|by intros (m & sc & ->)].
  destruct s as [d [[|sc|] mu]]; intros (Hd & Hl & Hm); try done.
  apply db_ok_inv in Hd. simpl in *. subst. rewrite Hd. by eexists _, _.
Qed.

(** ** A text with its true length *)

Lemma input_text_strlen_end line sc :
  sc_end (input_text line (Z.of_nat (strlen (c_str line))) sc) = AtBound.
Proof.
  unfold input_text. simpl. rewrite bool_decide_eq_true_2; [done|].
  unfold to_guint. pose proof (strlen_c_str_le line).
  etrans; [apply Z.mod_le|]; unfold strlen in *; lia.
Qed.

Lemma token_key_values t v : value_of_type t v -> is_Ok (token_key t v).
Proof. destruct t; simpl; try done; by intros [s ->]. Qed.

Lemma token_value_values t v : value_of_type t v -> is_Ok (token_value t v).
Proof. destruct t; simpl; try done; by intros [s ->]. Qed.

(** A parser that returns when the text ends at its bound. *)
Definition parses_at_bound (o : outcome (request * GScanner)) : Prop :=
  exists r sc', o = Ok (r, sc') /\ sc_end sc' = AtBound.

Lemma token_key_Ok t sc sc0 :
  get_next_token sc0 = Ok (t, sc) -> exists k, token_key t (sc_value sc) = Ok k.
Proof.
  intros [_ Hv]%get_next_token_value. apply token_key_values in Hv.
  destruct (token_key t (sc_value sc)); [eauto|done].
Qed.

Lemma token_value_Ok t sc sc0 :
  get_next_token sc0 = Ok (t, sc) -> exists k, token_value t (sc_value sc) = Ok k.
Proof.
  intros [_ Hv]%get_next_token_value. apply token_value_values in Hv.
  destruct (token_value t (sc_value sc)); [eauto|done].
Qed.

Lemma parse_key_total mk sc : sc_end sc = AtBound -> parses_at_bound (parse_key mk sc).
Proof.
  intros He. unfold parse_key, parses_at_bound.
  destruct (get_next_token_total sc He) as (t & sc1 & E & He1 & _). rewrite E. simpl.
  destruct (token_key_Ok _ _ _ E) as [[k|k] ->]; simpl; eauto.
Qed.

Lemma parse_set_total sc : sc_end sc = AtBound -> parses_at_bound (parse_set sc).
Proof.
  intros He. unfold parse_set, parses_at_bound.
  destruct (get_next_token_total sc He) as (tA & sc1 & E & He1 & _). rewrite E. simpl.
  destruct (token_key_Ok _ _ _ E) as [[key|k] ->]; simpl; [|by eauto].
  destruct (UDB_MAX_KEY_LENGTH <? strlen key)%nat; [by eauto|].
  destruct (get_next_token_total sc1 He1) as (tB & sc2 & E2 & He2 & _). rewrite E2. simpl.
  destruct (token_value_Ok _ _ _ E2) as [[v|k] ->]; simpl; eauto.
Qed.

Lemma parse_request_total sc : sc_end sc = AtBound -> parses_at_bound (parse_request sc).
Proof.
  intros He. unfold parse_request.
  destruct (get_next_token_total sc He) as (t & sc1 & E & He1 & _). rewrite E. simpl.
  case_bool_decide as Ht; [unfold parses_at_bound; by eauto|].
  destruct (decide (t = G_TOKEN_IDENTIFIER)) as [->|]; [|done].
  destruct (get_next_token_value _ _ _ E) as [_ [cmd ->]]. simpl.
  destruct (command_of cmd) as [[]|];
    auto using parse_key_total, parse_set_total.
  unfold parses_at_bound; eauto.
Qed.

(** ** The faults of a request *)

Lemma v_member_faults v :
  faults_undefined (v_identifier v) /\ faults_undefined (v_int v)
  /\ faults_undefined (v_float v).
Proof. destruct v; repeat split; intros f; simpl; congruence. Qed.

Lemma token_key_faults t v : faults_undefined (token_key t v).
Proof.
  destruct (v_member_faults v) as (? & ? & ?).
  destruct t; simpl; auto with udb.
Qed.

Lemma token_value_faults t v : faults_undefined (token_value t v).
Proof.
  destruct (v_member_faults v) as (? & ? & ?).
  destruct t; simpl; auto with udb.
Qed.

Lemma parse_key_faults mk sc : faults_undefined (parse_key mk sc).
Proof.
  unfold parse_key. apply faults_undefined_bind; [apply get_next_token_faults|].
  intros [t sc1]. apply faults_undefined_bind; [apply token_key_faults|].
  intros [k|k]; auto with udb.
Qed.

Lemma parse_set_faults sc : faults_undefined (parse_set sc).
Proof.
  unfold parse_set. apply faults_undefined_bind; [apply get_next_token_faults|].
  intros [tA sc1]. apply faults_undefined_bind; [apply token_key_faults|].
  intros [key|k]; auto with udb. case_match; auto with udb.
  apply faults_undefined_bind; [apply get_next_token_faults|].
  intros [tB sc2]. apply faults_undefined_bind; [apply token_value_faults|].
  intros [v|k]; auto with udb.
Qed.

Lemma parse_request_faults sc : faults_undefined (parse_request sc).
Proof.
  unfold parse_request. apply faults_undefined_bind; [apply get_next_token_faults|].
  intros [t sc1]. case_bool_decide; auto with udb.
  apply faults_undefined_bind; [apply v_member_faults|].
  intros cmd. destruct (command_of cmd) as [[]|];
    auto using parse_key_faults, parse_set_faults with udb.
Qed.

(** ** Theorems *)

(** C1. [process_command_line] refines the protocol on a finite map:
    from a state between requests with table [m], the reply is the reply
    to the request read from the line, the table afterwards is the map
    after that request, both locks are free again, and the call faults
    exactly when reading the request does. *)
Theorem process_command_line_refines (line : string) (m : table) (sc : GScanner) :
  process_command_line line (udb_of m sc)
  = olet '(req, sc') := parse_request (input_text line (-1) sc) in
    Ok (request_reply req m, udb_of (request_apply req m) sc').
Proof. apply process_command_line_len_run. Qed.

(** From a state between requests (table live, both locks free), a
    request line either returns a reply that ends in CRLF and leaves the
    state between requests, or the scanner has read past the string it
    was given; it never deadlocks. *)
Lemma process_command_line_ok (line : string) (s : udb_state) :
  udb_ok s ->
  (exists reply s', process_command_line line s = Ok (reply, s')
                    /\ ends_crlf reply /\ udb_ok s')
  \/ process_command_line line s = Fault Undefined.
Proof.
  intros (m & sc & ->)%udb_ok_inv. unfold process_command_line.
  rewrite process_command_line_len_run. unfold respond.
  destruct (parse_request (input_text line (-1) sc)) as [[r sc']|f] eqn:E; simpl.
  - left. eexists _, _. split; [done|]. split; [|apply udb_ok_of].
    apply request_reply_crlf. by eapply parse_request_wf.
  - right. by rewrite (parse_request_faults _ _ E).
Qed.

(** C26. With the length of the line instead of [-1], every request line
    returns: a reply that ends in CRLF, in a state between requests. *)
Theorem process_command_line_len_total (line : string) (s : udb_state) :
  udb_ok s ->
  exists reply s',
    process_command_line_len (Z.of_nat (strlen (c_str line))) line s = Ok (reply, s')
    /\ ends_crlf reply /\ udb_ok s'.
Proof.
  intros (m & sc & ->)%udb_ok_inv. rewrite process_command_line_len_run.
  destruct (parse_request_total _ (input_text_strlen_end line sc)) as (r & sc' & E & _).
  rewrite E. simpl. eexists _, _. split; [done|]. split; [|apply udb_ok_of].
  apply request_reply_crlf. by eapply parse_request_wf.
Qed.

End handlers.

(** ** An environment for the examples *)

(** config.h is not among the sources: the examples take a maximal key
    length of 64.  Floats are printed by [Printf.fmt_g_decimal]. *)
Definition example_config : UdbConfig := {| UDB_MAX_KEY_LENGTH := 64 |}.

Definition decimal_float_format : FloatFormat := {| fmt_g := fmt_g_decimal |}.

(** The state after [db_init] and [udb_scanner_init], with table [m]. *)
Definition example_state (m : table) : udb_state :=
  udb_of m (set_sc_config udb_scanner_config (g_scanner_new g_scanner_config_template)).

Section examples.
#[local] Existing Instance example_config.
#[local] Existing Instance decimal_float_format.

Lemma process_command_line_ok_witness :
  (exists reply s', process_command_line "SET name Alice" (example_state ∅) = Ok (reply, s')
                    /\ ends_crlf reply /\ udb_ok s')
  \/ process_command_line "SET name Alice" (example_state ∅) = Fault Undefined.
Proof. apply process_command_line_ok. apply udb_ok_of. Defined.

Lemma process_command_line_len_total_witness :
  exists reply s',
    process_command_line_len (Z.of_nat (strlen (c_str "GET k"))) "GET k" (example_state ∅)
    = Ok (reply, s')
    /\ ends_crlf reply /\ udb_ok s'.
Proof. apply process_command_line_len_total. apply udb_ok_of. Defined.

Lemma process_command_line_deadlock_witness :
  process_command_line "GET k"
    {| udb_db := db_of ∅;
       udb_sc := {| udb_scanner := Null; scanner_mutex := MLocked |} |}
  = Fault Deadlock.
Proof. apply process_command_line_deadlock. reflexivity. Defined.

(** The scanner after the number in [SET k 18446744073709551615]. *)
Definition example_scanned_int : GScanner :=
  {| sc_config := udb_scanner_config; sc_text := EmptyString; sc_end := AtBound;
     sc_token := G_TOKEN_INT; sc_value := V_int 18446744073709551615 |}.

Lemma value_of_token_int_wraps_witness :
  value_of_token G_TOKEN_INT (udb_locked ∅ example_scanned_int)
  = Ok (inl (Some "-1"), udb_locked ∅ example_scanned_int).
Proof.
  by apply (value_of_token_int_wraps 18446744073709551615 ∅ example_scanned_int).
Defined.

End examples.
