(* ===== verification/Protocol.v ===== *)
(** * Protocol: requests as a client writes them

    The properties of the wire protocol that section 8 of the
    specification lists, on request lines written with every argument
    between double quotes ([Scanner.quote_dq]), so that any key and any
    value can be sent: SET then GET returns the value, DEL then GET
    returns NULL, DEL is idempotent, a key longer than the maximum is
    refused without a change of the table.  The lines go through
    [Handlers.process_command_line] as the source calls it, with [-1] for
    the length of the text. *)

From S2P Require Import Prelude CString Mutex Store Scanner Printf Handlers.

Set Warnings "-clear-no-such-hyp".

Open Scope Z_scope.

(** ** Request lines *)

Definition render_get (key : string) : string := "GET " +:+ quote_dq key.

Definition render_set (key value : string) : string :=
  "SET " +:+ quote_dq key +:+ " " +:+ quote_dq value.

Definition render_del (key : string) : string := "DEL " +:+ quote_dq key.

(** The request a line is written for. *)
Definition render (r : request) : string :=
  match r with
  | ReqGet key => render_get key
  | ReqSet key value => render_set key value
  | ReqDel key => render_del key
  | ReqReply _ => EmptyString
  end.

(** The requests that can be written: keys and values that are C
    strings. *)
Definition writable (r : request) : Prop :=
  match r with
  | ReqGet key | ReqDel key => is_c_str key
  | ReqSet key value => is_c_str key /\ is_c_str value
  | ReqReply _ => False
  end.

#[export] Instance writable_dec r : Decision (writable r).
Proof. destruct r; simpl; apply _. Defined.

(** The lines a text of [2^32 - 1] bytes or more would be cut at. *)
Definition fits_guint (line : string) : Prop := Z.of_nat (strlen line) < 2 ^ 32 - 1.

#[export] Instance fits_guint_dec line : Decision (fits_guint line).
Proof. unfold fits_guint. apply _. Defined.

(** The scanner as [udb_scanner_init] configures it. *)
Definition scanner_ready (sc : GScanner) : Prop := sc_config sc = udb_scanner_config.

(** ** The scanner on a request line *)

Lemma get_next_token_run sc t v text e :
  g_scanner_get_token_i (sc_config sc) (sc_token sc) (sc_text sc) (sc_end sc)
  = Ok (t, v, text, e) ->
  get_next_token sc
  = Ok (t, {| sc_config := sc_config sc; sc_text := text; sc_end := e;
              sc_token := t; sc_value := v |}).
Proof. unfold get_next_token. by intros ->. Qed.

(** [g_scanner_input_text] with [-1] on a line that fits: the whole
    line, and the end of the text far behind its terminator. *)
Lemma input_text_minus_1 line sc :
  fits_guint line ->
  input_text line (-1) sc
  = {| sc_config := sc_config sc; sc_text := line;
       sc_end := AtTerm (2 ^ 32 - 1 - Z.of_nat (strlen line));
       sc_token := G_TOKEN_NONE; sc_value := V_zero |}.
Proof.
  intros Hf. unfold input_text.
  change (to_guint (-1)) with (2 ^ 32 - 1). fold (strlen line).
  by rewrite !bool_decide_eq_false_2 by (unfold fits_guint in Hf; lia).
Qed.

Lemma is_c_str_quote_dq s rest :
  is_c_str s -> is_c_str rest ->
  is_c_str (String char_dq (escape_dq s +:+ String char_dq rest)).
Proof.
  intros Hs Hr. apply is_c_str_cons. split; [done|].
  apply is_c_str_app. split; [by apply is_c_str_escape_dq|].
  by apply is_c_str_cons.
Qed.

Lemma quote_dq_app s rest :
  quote_dq s +:+ rest = String char_dq (escape_dq s +:+ String char_dq rest).
Proof. unfold quote_dq. by rewrite str_app_cons, str_app_assoc. Qed.

Section protocol.
Context `{UdbConfig} `{FloatFormat}.

(** The argument of GET and DEL, and the arguments of SET, between
    double quotes after the command: the scanner [sc] stands after the
    command. *)
Lemma parse_key_quote_dq mk sc key rest :
  scanner_ready sc -> sc_token sc <> G_TOKEN_EOF ->
  sc_text sc = String " " (String char_dq (escape_dq key +:+ String char_dq rest)) ->
  parse_key mk sc
  = Ok (mk (c_str key),
        {| sc_config := udb_scanner_config; sc_text := rest; sc_end := sc_end sc;
           sc_token := G_TOKEN_STRING; sc_value := V_string (c_str key) |}).
Proof.
  intros Hcfg Htok Htext. unfold parse_key.
  erewrite get_next_token_run; last first.
  { rewrite Hcfg, Htext, get_token_i_skip by done. by apply get_token_i_quote_dq. }
  by rewrite Hcfg.
Qed.

Lemma parse_set_quote_dq sc key value rest :
  scanner_ready sc -> sc_token sc <> G_TOKEN_EOF ->
  sc_text sc = String " " (String char_dq (escape_dq key +:+ String char_dq
                 (String " " (String char_dq (escape_dq value +:+ String char_dq rest))))) ->
  (strlen (c_str key) <= UDB_MAX_KEY_LENGTH)%nat ->
  parse_set sc
  = Ok (ReqSet (c_str key) (c_str value),
        {| sc_config := udb_scanner_config; sc_text := rest; sc_end := sc_end sc;
           sc_token := G_TOKEN_STRING; sc_value := V_string (c_str value) |}).
Proof.
  intros Hcfg Htok Htext Hlen. unfold parse_set.
  erewrite get_next_token_run; last first.
  { rewrite Hcfg, Htext, get_token_i_skip by done. by apply get_token_i_quote_dq. }
  cbn [o_bind sc_value token_key v_identifier].
  destruct (Nat.ltb_spec UDB_MAX_KEY_LENGTH (strlen (c_str key))); [lia|].
  erewrite get_next_token_run; last first.
  { cbn [sc_config sc_token sc_text sc_end]. rewrite Hcfg.
    rewrite get_token_i_skip by done. by apply get_token_i_quote_dq. }
  by rewrite Hcfg.
Qed.

(** The command word at the head of a line. *)
Lemma get_token_i_GET rest e :
  g_scanner_get_token_i udb_scanner_config G_TOKEN_NONE ("GET " +:+ rest) e
  = Ok (G_TOKEN_IDENTIFIER, V_string "GET", String " " rest, e).
Proof. reflexivity. Qed.

Lemma get_token_i_SET rest e :
  g_scanner_get_token_i udb_scanner_config G_TOKEN_NONE ("SET " +:+ rest) e
  = Ok (G_TOKEN_IDENTIFIER, V_string "SET", String " " rest, e).
Proof. reflexivity. Qed.

Lemma get_token_i_DEL rest e :
  g_scanner_get_token_i udb_scanner_config G_TOKEN_NONE ("DEL " +:+ rest) e
  = Ok (G_TOKEN_IDENTIFIER, V_string "DEL", String " " rest, e).
Proof. reflexivity. Qed.

Lemma is_c_str_render r : writable r -> is_c_str (render r).
Proof.
  destruct r as [key|key value|key|]; simpl; [|intros [??]| |done]; intros;
    unfold render_get, render_set, render_del;
    repeat (apply is_c_str_app; split); try done;
    by apply (is_c_str_quote_dq _ "").
Qed.

(** The scanner after a request: the text is read to its end, and the
    end of the text is where [g_scanner_input_text] put it. *)
Definition scanner_after (line : string) (v : string) : GScanner :=
  {| sc_config := udb_scanner_config; sc_text := EmptyString;
     sc_end := AtTerm (2 ^ 32 - 1 - Z.of_nat (strlen line));
     sc_token := G_TOKEN_STRING; sc_value := V_string v |}.

(** Rewrite the first token of [parse_request] with the lemma [Hcmd] for
    the command word. *)
Ltac parse_command Hcfg Hcmd :=
  unfold parse_request;
  erewrite get_next_token_run by
    (cbn [sc_config sc_token sc_text sc_end]; rewrite Hcfg; apply Hcmd);
  cbn [o_bind]; rewrite bool_decide_eq_false_2 by (by intros ?);
  cbn [o_bind sc_value v_identifier sc_config]; rewrite Hcfg.

(** A request written with quoted arguments at the head of a text: the
    scanner reads the request and leaves what follows it. *)
Lemma parse_render_get_tail cfg e key tail :
  cfg = udb_scanner_config -> is_c_str key ->
  parse_request {| sc_config := cfg; sc_text := render_get key +:+ tail; sc_end := e;
                   sc_token := G_TOKEN_NONE; sc_value := V_zero |}
  = Ok (ReqGet key, {| sc_config := udb_scanner_config; sc_text := tail; sc_end := e;
                       sc_token := G_TOKEN_STRING; sc_value := V_string key |}).
Proof.
  intros Hcfg Hk. unfold render_get. rewrite str_app_assoc.
  parse_command Hcfg get_token_i_GET.
  change (command_of "GET") with (Some CmdGet). cbn match.
  erewrite parse_key_quote_dq; [by rewrite Hk|done..|by rewrite quote_dq_app].
Qed.

Lemma parse_render_del_tail cfg e key tail :
  cfg = udb_scanner_config -> is_c_str key ->
  parse_request {| sc_config := cfg; sc_text := render_del key +:+ tail; sc_end := e;
                   sc_token := G_TOKEN_NONE; sc_value := V_zero |}
  = Ok (ReqDel key, {| sc_config := udb_scanner_config; sc_text := tail; sc_end := e;
                       sc_token := G_TOKEN_STRING; sc_value := V_string key |}).
Proof.
  intros Hcfg Hk. unfold render_del. rewrite str_app_assoc.
  parse_command Hcfg get_token_i_DEL.
  change (command_of "DEL") with (Some CmdDel). cbn match.
  erewrite parse_key_quote_dq; [by rewrite Hk|done..|by rewrite quote_dq_app].
Qed.

Lemma parse_render_set_tail cfg e key value tail :
  cfg = udb_scanner_config -> is_c_str key -> is_c_str value ->
  parse_request {| sc_config := cfg; sc_text := render_set key value +:+ tail; sc_end := e;
                   sc_token := G_TOKEN_NONE; sc_value := V_zero |}
  = Ok (if (UDB_MAX_KEY_LENGTH <? strlen key)%nat
        then (ReqReply reply_key_too_long,
              {| sc_config := udb_scanner_config;
                 sc_text := String " " (quote_dq value +:+ tail); sc_end := e;
                 sc_token := G_TOKEN_STRING; sc_value := V_string key |})
        else (ReqSet key value,
              {| sc_config := udb_scanner_config; sc_text := tail; sc_end := e;
                 sc_token := G_TOKEN_STRING; sc_value := V_string value |})).
Proof.
  intros Hcfg Hk Hv. unfold render_set. rewrite !str_app_assoc.
  parse_command Hcfg get_token_i_SET.
  change (command_of "SET") with (Some CmdSet). cbn match.
  rewrite (str_app_cons " "), str_app_nil.
  destruct (Nat.ltb_spec UDB_MAX_KEY_LENGTH (strlen key)) as [Hlong|Hlen].
  - unfold parse_set. erewrite get_next_token_run; last first.
    { cbn [sc_config sc_token sc_text sc_end].
      rewrite get_token_i_skip by done. rewrite quote_dq_app.
      by apply get_token_i_quote_dq. }
    cbn [o_bind sc_value token_key v_identifier]. rewrite Hk.
    by destruct (Nat.ltb_spec UDB_MAX_KEY_LENGTH (strlen key)); [|lia].
  - erewrite parse_set_quote_dq; [by rewrite Hk, Hv|done|done|..].
    + cbn [sc_text]. by rewrite !quote_dq_app.
    + by rewrite Hk.
Qed.

Lemma parse_render_get sc key :
  scanner_ready sc -> is_c_str key -> fits_guint (render_get key) ->
  parse_request (input_text (render_get key) (-1) sc)
  = Ok (ReqGet key, scanner_after (render_get key) key).
Proof.
  intros Hcfg Hk Hf. rewrite input_text_minus_1 by done.
  rewrite <- (str_app_nil_r (render_get key)) at 1. by rewrite parse_render_get_tail.
Qed.

Lemma parse_render_del sc key :
  scanner_ready sc -> is_c_str key -> fits_guint (render_del key) ->
  parse_request (input_text (render_del key) (-1) sc)
  = Ok (ReqDel key, scanner_after (render_del key) key).
Proof.
  intros Hcfg Hk Hf. rewrite input_text_minus_1 by done.
  rewrite <- (str_app_nil_r (render_del key)) at 1. by rewrite parse_render_del_tail.
Qed.

Lemma parse_render_set sc key value :
  scanner_ready sc -> is_c_str key -> is_c_str value ->
  fits_guint (render_set key value) ->
  parse_request (input_text (render_set key value) (-1) sc)
  = Ok (if (UDB_MAX_KEY_LENGTH <? strlen key)%nat
        then (ReqReply reply_key_too_long,
              {| sc_config := udb_scanner_config;
                 sc_text := String " " (quote_dq value);
                 sc_end := AtTerm (2 ^ 32 - 1 - Z.of_nat (strlen (render_set key value)));
                 sc_token := G_TOKEN_STRING; sc_value := V_string key |})
        else (ReqSet key value, scanner_after (render_set key value) value)).
Proof.
  intros Hcfg Hk Hv Hf. rewrite input_text_minus_1 by done.
  rewrite <- (str_app_nil_r (render_set key value)) at 1.
  by rewrite parse_render_set_tail, str_app_nil_r.
Qed.

(** The requests the server accepts as written: writable, short enough
    for the length to fit, and with a key within the maximal length. *)
Definition acceptable (r : request) : Prop :=
  writable r /\ fits_guint (render r)
  /\ match r with
     | ReqSet key _ => (strlen key <= UDB_MAX_KEY_LENGTH)%nat
     | _ => True
     end.

Lemma scanner_ready_after line v : scanner_ready (scanner_after line v).
Proof. done. Qed.

(** An acceptable request is served as the finite map says. *)
Lemma request_served r m sc :
  scanner_ready sc -> acceptable r ->
  process_command_line (render r) (udb_of m sc)
  = Ok (request_reply r m,
        udb_of (request_apply r m)
          (scanner_after (render r)
             match r with ReqSet _ v => v | ReqGet k | ReqDel k => k | _ => EmptyString end)).
Proof.
  intros Hsc (Hw & Hf & Hlen). unfold process_command_line.
  rewrite process_command_line_len_run.
  destruct r as [key|key value|key|]; simpl in *; [| |..|done].
  - by rewrite parse_render_get.
  - destruct Hw. rewrite parse_render_set by done.
    by destruct (Nat.ltb_spec UDB_MAX_KEY_LENGTH (strlen key)); [lia|].
  - by rewrite parse_render_del.
Qed.

Lemma str_take_strlen s : str_take (strlen s) s = s.
Proof. pose proof (str_take_app s EmptyString) as Ht. by rewrite str_app_nil_r in Ht. Qed.

(** [g_scanner_input_text] with [-1] on a buffer of at most [2^32 - 1]
    bytes: the scanner reads all of them. *)
Lemma input_text_whole line sc :
  Z.of_nat (strlen line) <= 2 ^ 32 - 1 ->
  exists e, input_text line (-1) sc
            = {| sc_config := sc_config sc; sc_text := line; sc_end := e;
                 sc_token := G_TOKEN_NONE; sc_value := V_zero |}.
Proof.
  intros Hf. unfold input_text. change (to_guint (-1)) with (2 ^ 32 - 1). fold (strlen line).
  case_bool_decide; eexists; [|done].
  replace (Z.to_nat (2 ^ 32 - 1)) with (strlen line) by lia. by rewrite str_take_strlen.
Qed.

(** An acceptable request is served as the finite map says whatever
    the buffer holds behind it: the handlers do not read on. *)
Lemma request_served_tail r tail m sc :
  scanner_ready sc -> acceptable r -> Z.of_nat (strlen (render r +:+ tail)) <= 2 ^ 32 - 1 ->
  exists sc',
    process_command_line (render r +:+ tail) (udb_of m sc)
    = Ok (request_reply r m, udb_of (request_apply r m) sc')
    /\ scanner_ready sc'.
Proof.
  intros Hsc (Hw & _ & Hlen) Hf. unfold process_command_line.
  rewrite process_command_line_len_run.
  destruct (input_text_whole _ sc Hf) as [e ->].
  destruct r as [key|key value|key|]; simpl in *; [| |..|done].
  - rewrite parse_render_get_tail by done. by eexists.
  - destruct Hw. rewrite parse_render_set_tail by done.
    destruct (Nat.ltb_spec UDB_MAX_KEY_LENGTH (strlen key)); [lia|]. by eexists.
  - rewrite parse_render_del_tail by done. by eexists.
Qed.

(** ** Sessions *)

(** The request lines the main loop hands to [process_command_line], one
    after the other, and the replies in the same order. *)
Fixpoint process_lines (lines : list string) : ST udb_state (list string) :=
  match lines with
  | [] => st_ret []
  | line :: lines =>
      reply <- process_command_line line ;;
      replies <- process_lines lines ;;
      st_ret (reply :: replies)
  end.

(** The same requests on the finite map. *)
Fixpoint spec_requests (rs : list request) (m : table) : list string * table :=
  match rs with
  | [] => ([], m)
  | r :: rs =>
      let '(replies, m') := spec_requests rs (request_apply r m) in
      (request_reply r m :: replies, m')
  end.

(** ** Theorems *)

(** C27. A session of acceptable requests, written with quoted
    arguments, is served as the finite map says: every request line
    returns, the replies are those of the map, and the table at the end
    holds the map's final contents with both locks free. *)
Theorem process_lines_refines (rs : list request) (m : table) (sc : GScanner) :
  scanner_ready sc -> Forall acceptable rs ->
  exists sc',
    process_lines (map render rs) (udb_of m sc)
    = Ok ((spec_requests rs m).1, udb_of (spec_requests rs m).2 sc')
    /\ scanner_ready sc'.
Proof.
  intros Hsc Hrs. revert m sc Hsc.
  induction Hrs as [|r rs Hr _ IH]; intros m sc Hsc; [by exists sc|].
  simpl. unfold st_bind. rewrite request_served by done.
  edestruct (IH (request_apply r m)) as (sc' & -> & Hsc');
    [apply scanner_ready_after|].
  exists sc'. by destruct (spec_requests rs (request_apply r m)).
Qed.

(** C28. SET then GET: for every key within the maximal length and every
    value, both C strings, [SET key value] replies OK and the following
    [GET key] replies the value. *)
Theorem set_then_get (key value : string) (m : table) (sc : GScanner) :
  scanner_ready sc -> acceptable (ReqSet key value) -> acceptable (ReqGet key) ->
  result_of ((r1 <- process_command_line (render_set key value) ;;
              r2 <- process_command_line (render_get key) ;;
              st_ret (r1, r2)) (udb_of m sc))
  = Some (reply_ok, reply_value value).
Proof.
  intros Hsc Hset Hget. unfold st_bind.
  rewrite (request_served (ReqSet key value)) by done.
  rewrite (request_served (ReqGet key)) by done.
  simpl. by rewrite lookup_insert_eq.
Qed.

(** DEL then GET: after [DEL key], [GET key] replies NULL. *)
Lemma del_then_get (key : string) (m : table) (sc : GScanner) :
  scanner_ready sc -> acceptable (ReqDel key) -> acceptable (ReqGet key) ->
  result_of ((r1 <- process_command_line (render_del key) ;;
              r2 <- process_command_line (render_get key) ;;
              st_ret (r1, r2)) (udb_of m sc))
  = Some (reply_ok, reply_null).
Proof.
  intros Hsc Hdel Hget. unfold st_bind.
  rewrite (request_served (ReqDel key)) by done.
  rewrite (request_served (ReqGet key)) by done.
  simpl. by rewrite lookup_delete_eq.
Qed.

(** DEL is idempotent: a second [DEL key] replies OK as the first
    does and leaves the table as the first left it. *)
Lemma del_idempotent (key : string) (m : table) (sc : GScanner) :
  scanner_ready sc -> acceptable (ReqDel key) ->
  (r1 <- process_command_line (render_del key) ;;
   r2 <- process_command_line (render_del key) ;;
   st_ret (r1, r2)) (udb_of m sc)
  = Ok ((reply_ok, reply_ok), udb_of (delete key m) (scanner_after (render_del key) key)).
Proof.
  intros Hsc Hdel. unfold st_bind.
  rewrite !(request_served (ReqDel key)) by done.
  simpl. by rewrite delete_delete_eq.
Qed.

(** C29. A key longer than [UDB_MAX_KEY_LENGTH] is refused: the reply is
    the fixed error and the table does not change. *)
Theorem set_key_too_long (key value : string) (m : table) (sc : GScanner) :
  scanner_ready sc -> writable (ReqSet key value) ->
  fits_guint (render_set key value) ->
  (UDB_MAX_KEY_LENGTH < strlen key)%nat ->
  exists sc',
    process_command_line (render_set key value) (udb_of m sc)
    = Ok (reply_key_too_long, udb_of m sc').
Proof.
  intros Hsc [Hk Hv] Hf Hlong. unfold process_command_line.
  rewrite process_command_line_len_run, parse_render_set by done.
  destruct (Nat.ltb_spec UDB_MAX_KEY_LENGTH (strlen key)); [|lia].
  by eexists.
Qed.

(** C30. A key of one letter without quotes at the end of the line:
    the scanner is told the line has [2^32 - 1] bytes, takes the
    terminator for part of the identifier and reads behind it. *)
Theorem get_1char_key_overread (c : ascii) (m : table) (sc : GScanner) :
  scanner_ready sc -> str_mem c udb_cset_identifier_first = true ->
  process_command_line ("GET " +:+ String c EmptyString) (udb_of m sc) = Fault Undefined.
Proof.
  intros Hsc Hc. unfold process_command_line. rewrite process_command_line_len_run.
  rewrite input_text_minus_1 by done.
  parse_command Hsc get_token_i_GET.
  change (command_of "GET") with (Some CmdGet). cbn match.
  unfold parse_key, get_next_token. cbn [sc_config sc_token sc_text sc_end].
  by rewrite get_token_i_skip, get_token_i_1char_overread by (done || lia).
Qed.

End protocol.

(** ** Examples *)

(** A concrete request is acceptable by evaluation. *)
Ltac acceptable_by_computation :=
  unfold acceptable; split_and!; vm_compute; (done || lia).

Section examples.
#[local] Existing Instance example_config.
#[local] Existing Instance decimal_float_format.

(** The scanner of [Handlers.example_state]. *)
Definition example_sc : GScanner :=
  set_sc_config udb_scanner_config (g_scanner_new g_scanner_config_template).

(** A session with a key and a value that need their quotes. *)
Definition example_session : list request :=
  [ReqSet "first name" "Alice \ Bob"; ReqGet "first name"; ReqDel "first name";
   ReqGet "first name"].

Lemma process_lines_refines_witness :
  exists sc',
    process_lines (map render example_session) (udb_of ∅ example_sc)
    = Ok ((spec_requests example_session ∅).1,
          udb_of (spec_requests example_session ∅).2 sc')
    /\ scanner_ready sc'.
Proof.
  apply (process_lines_refines example_session ∅ example_sc); [done|].
  repeat apply Forall_cons_2; [acceptable_by_computation..|done].
Defined.

Lemma set_then_get_witness :
  result_of ((r1 <- process_command_line (render_set "k 1" "v\1") ;;
              r2 <- process_command_line (render_get "k 1") ;;
              st_ret (r1, r2)) (udb_of ∅ example_sc))
  = Some (reply_ok, reply_value "v\1").
Proof.
  apply (set_then_get "k 1" "v\1" ∅ example_sc); [done|..]; acceptable_by_computation.
Defined.

Lemma del_then_get_witness :
  result_of ((r1 <- process_command_line (render_del "k 1") ;;
              r2 <- process_command_line (render_get "k 1") ;;
              st_ret (r1, r2)) (udb_of {["k 1" := "v"]} example_sc))
  = Some (reply_ok, reply_null).
Proof.
  apply (del_then_get "k 1" {["k 1" := "v"]} example_sc); [done|..]; acceptable_by_computation.
Defined.

Lemma del_idempotent_witness :
  (r1 <- process_command_line (render_del "k") ;;
   r2 <- process_command_line (render_del "k") ;;
   st_ret (r1, r2)) (udb_of {["k" := "v"]} example_sc)
  = Ok ((reply_ok, reply_ok),
        udb_of (delete "k" {["k" := "v"]}) (scanner_after (render_del "k") "k")).
Proof.
  apply (del_idempotent "k" {["k" := "v"]} example_sc); [done|].
  acceptable_by_computation.
Defined.

(** A key of 65 characters, one more than the maximum of the examples. *)
Definition example_long_key : string :=
  "kkkkkkkkkkkkkkkkkkkkkkkkkkkkkkkkkkkkkkkkkkkkkkkkkkkkkkkkkkkkkkkkk".

Lemma set_key_too_long_witness :
  exists sc',
    process_command_line (render_set example_long_key "v") (udb_of ∅ example_sc)
    = Ok (reply_key_too_long, udb_of ∅ sc').
Proof.
  apply (set_key_too_long example_long_key "v" ∅ example_sc);
    [done| |by vm_compute|by vm_compute]. by split.
Defined.

Lemma get_1char_key_overread_witness :
  process_command_line "GET a" (udb_of ∅ example_sc) = Fault Undefined.
Proof. by apply (get_1char_key_overread "a" ∅ example_sc). Defined.

(** The session of section 8 of the specification, with keys and
    values of more than one character and no quotes: the replies are the
    ones the specification lists. *)
Example spec_session :
  result_of (process_lines
    ["SET name Alice"; "GET name"; "GET missing"; "DEL name"; "GET name";
     "FOO bar"; "SET"; "set count 42"; "get count"; "42"]
    (udb_of ∅ example_sc))
  = Some ["OK" +:+ CRLF; "Alice" +:+ CRLF; "NULL" +:+ CRLF; "OK" +:+ CRLF;
          "NULL" +:+ CRLF; "ERR Unknown command: FOO" +:+ CRLF;
          "ERR Missing KEY (token=0)" +:+ CRLF; "OK" +:+ CRLF; "42" +:+ CRLF;
          "ERR Expected Command Identifier (got token=261)" +:+ CRLF].
Proof. by vm_compute. Qed.

End examples.
