(* ===== verification/Words.v ===== *)
(** * Words: request lines written without quotes

    The lines clients send, as section 6 of the specification writes
    them: a command and its arguments as identifiers, separated by
    blanks.  This file follows GLib's token reader, with the
    configuration of [udb_scanner_init] (src/udb.c lines 210-243),
    through such a line, and [process_command_line] (lines 384-416) and
    the handlers (lines 245-346) through the tokens. *)

From stdpp Require Import base strings gmap list.
From S2P Require Import Prelude CString Mutex Store Scanner Numbers Printf Handlers Protocol.

Open Scope string_scope.
Open Scope udb_scope.

(** ** Words *)

(** Every character of [s] is in the set [cset]. *)
Fixpoint all_in (cset s : string) : bool :=
  match s with
  | EmptyString => true
  | String c r => str_mem c cset && all_in cset r
  end.

(** A word: what the scanner reads as an identifier. *)
Definition is_word (w : string) : bool :=
  match w with
  | String c r => str_mem c udb_cset_identifier_first && all_in udb_cset_identifier_nth r
  | EmptyString => false
  end.

(** What ends the word [w]: a character that [strchr] does not find
    among those of an identifier (a NUL is found), or the end of the
    line when the word has two characters or more. *)
Definition ends_word (w rest : string) : bool :=
  match rest, w with
  | String c _, _ => negb (strchr udb_cset_identifier_nth c)
  | EmptyString, String _ (String _ _) => true
  | EmptyString, _ => false
  end.

(** Blanks: characters the scanner skips. *)
Definition is_blanks (s : string) : bool := all_in udb_cset_skip_characters s.

(** ** Lemmas: the token reader on words *)

Lemma identifier_loop_word s rest :
  all_in udb_cset_identifier_nth s = true ->
  match rest with String c _ => str_mem c udb_cset_identifier_nth = false | _ => True end ->
  identifier_loop udb_cset_identifier_nth (s +:+ rest) = (s, rest).
Proof.
  intros Hs Hr. induction s as [|c s IH].
  - rewrite str_app_nil. destruct rest as [|c r]; [done|].
    cbn [identifier_loop]. by rewrite Hr.
  - cbn [all_in] in Hs. apply andb_prop in Hs as [Hc Hs].
    rewrite str_app_cons. cbn [identifier_loop]. by rewrite Hc, IH.
Qed.

Lemma all_in_not_NUL cset c :
  str_mem NUL cset = false -> str_mem c cset = true -> c <> NUL.
Proof. by intros Hn Hc ->; rewrite Hc in Hn. Qed.

Lemma strchr_false cset c : strchr cset c = false -> (c ==c NUL) = false /\ str_mem c cset = false.
Proof. apply orb_false_elim. Qed.

Lemma all_in_is_c_str cset s :
  str_mem NUL cset = false -> all_in cset s = true -> is_c_str s.
Proof.
  intros Hn. induction s as [|c s IH]; [done|]. cbn [all_in].
  intros [Hc Hs]%andb_prop. apply is_c_str_cons. eauto using all_in_not_NUL.
Qed.

Lemma is_word_is_c_str w : is_word w = true -> is_c_str w.
Proof.
  destruct w as [|c r]; [done|]. intros [Hc Hs]%andb_prop.
  apply is_c_str_cons. split; [by apply (all_in_not_NUL udb_cset_identifier_first)|].
  by apply (all_in_is_c_str udb_cset_identifier_nth).
Qed.

Lemma is_blanks_is_c_str s : is_blanks s = true -> is_c_str s.
Proof. by apply all_in_is_c_str. Qed.

(** A word is read as an identifier, up to what ends it. *)
Lemma lex_identifier_word c r rest e :
  all_in udb_cset_identifier_nth r = true -> ends_word (String c r) rest = true ->
  peek_at_end e = Ok tt ->
  lex_identifier udb_scanner_config c (r +:+ rest) e
  = Ok (G_TOKEN_IDENTIFIER, V_string (String c r), rest, e).
Proof.
  intros Hn Hr He. unfold lex_identifier.
  change (cset_identifier_nth udb_scanner_config) with udb_cset_identifier_nth.
  destruct r as [|d r].
  - rewrite str_app_nil. destruct rest as [|p rest]; [done|].
    cbn [ends_word] in Hr. apply negb_true_iff, strchr_false in Hr as [Hp Hr].
    by rewrite Hp, Hr.
  - pose proof Hn as [Hd _]%andb_prop.
    rewrite str_app_cons. cbv iota.
    rewrite (proj2 (Ascii.eqb_neq d NUL)) by (by apply (all_in_not_NUL udb_cset_identifier_nth)).
    rewrite Hd, <-str_app_cons, identifier_loop_word; [|done|].
    + destruct rest; [rewrite He|]; done.
    + destruct rest; [done|]. by apply negb_true_iff, strchr_false in Hr as [_ Hr].
Qed.

Lemma get_token_i_word w rest tok e :
  is_word w = true -> ends_word w rest = true -> tok <> G_TOKEN_EOF ->
  peek_at_end e = Ok tt ->
  g_scanner_get_token_i udb_scanner_config tok (w +:+ rest) e
  = Ok (G_TOKEN_IDENTIFIER, V_string w, rest, e).
Proof.
  intros Hw Hr Htok He. destruct w as [|c r]; [done|].
  apply andb_prop in Hw as [Hc Hn].
  assert ((c ==c NUL) = false) as Hnul.
  { apply not_true_is_false. intros ->%Ascii.eqb_eq. by vm_compute in Hc. }
  rewrite str_app_cons. cbn [g_scanner_get_token_i]. unfold g_scanner_get_token_ll.
  rewrite bool_decide_eq_false_2 by done. cbn [at_text_end orb]. rewrite Hnul.
  change (cset_identifier_first udb_scanner_config) with udb_cset_identifier_first.
  rewrite Hc. cbn [scan_identifier udb_scanner_config andb].
  by rewrite lex_identifier_word.
Qed.

(** Blanks before a token are dropped. *)
Lemma get_token_i_blanks b tok text e :
  is_blanks b = true -> tok <> G_TOKEN_EOF ->
  exists tok', tok' <> G_TOKEN_EOF
    /\ g_scanner_get_token_i udb_scanner_config tok (b +:+ text) e
       = g_scanner_get_token_i udb_scanner_config tok' text e.
Proof.
  intros Hb. revert tok. induction b as [|c b IH]; intros tok Htok.
  - exists tok. by rewrite str_app_nil.
  - apply andb_prop in Hb as [Hc Hb]. rewrite str_app_cons, get_token_i_skip by done.
    by apply IH.
Qed.

Lemma get_token_i_blanks_word b w rest tok e :
  is_blanks b = true -> is_word w = true -> ends_word w rest = true -> tok <> G_TOKEN_EOF ->
  peek_at_end e = Ok tt ->
  g_scanner_get_token_i udb_scanner_config tok (b +:+ w +:+ rest) e
  = Ok (G_TOKEN_IDENTIFIER, V_string w, rest, e).
Proof.
  intros Hb Hw Hr Htok He.
  destruct (get_token_i_blanks b tok (w +:+ rest) e) as (tok' & Htok' & ->); [done..|].
  by apply get_token_i_word.
Qed.

Lemma get_token_i_blanks_numeral b (n : N) rest tok e :
  is_blanks b = true -> ends_number rest = true -> tok <> G_TOKEN_EOF ->
  peek_at_end e = Ok tt ->
  g_scanner_get_token_i udb_scanner_config tok (b +:+ pretty n +:+ rest) e
  = Ok (G_TOKEN_INT, V_int (Z.min (Z.of_N n) (2 ^ 64 - 1)), rest, e).
Proof.
  intros Hb Hr Htok He.
  destruct (get_token_i_blanks b tok (pretty n +:+ rest) e) as (tok' & Htok' & ->); [done..|].
  by apply get_token_i_numeral.
Qed.

(** Blanks end a word, and hold no NUL. *)
Lemma blanks_end_word w b s :
  is_blanks b = true -> b <> EmptyString -> ends_word w (b +:+ s) = true.
Proof.
  intros Hb Hne. destruct b as [|c b]; [done|]. rewrite str_app_cons. cbn [ends_word].
  apply andb_prop in Hb as [Hc _]. cbn in Hc. rewrite !orb_true_iff, !Ascii.eqb_eq in Hc.
  by destruct Hc as [->|[->|[->|[->|?]]]].
Qed.

(** A command has three letters: the end of the line ends it. *)
Lemma command_word_strlen cmd name :
  is_c_str cmd -> is_c_str name -> g_ascii_strcasecmp cmd name = 0 -> strlen cmd = strlen name.
Proof.
  intros Hc Hn E%g_ascii_strcasecmp_0; [|done..].
  by rewrite <-(strlen_str_map g_ascii_tolower cmd), E, strlen_str_map.
Qed.

(** At the end of the line, after blanks or not, the scanner reads the
    terminator and returns the end of the text. *)
Lemma get_token_i_end b tok k :
  is_blanks b = true -> tok <> G_TOKEN_EOF ->
  g_scanner_get_token_i udb_scanner_config tok b (AtTerm k)
  = Ok (G_TOKEN_EOF, V_zero, EmptyString, Past (k - 1)).
Proof.
  intros Hb. revert tok. induction b as [|c b IH]; intros tok Htok.
  - cbn [g_scanner_get_token_i]. unfold g_scanner_get_token_ll.
    by rewrite bool_decide_eq_false_2.
  - apply andb_prop in Hb as [Hc Hb]. rewrite get_token_i_skip by done. by apply IH.
Qed.

(** ** Request lines *)

Section words.
Context `{UdbConfig} `{FloatFormat}.

(** The scanner in the line [line], after the token [t] with the string
    [v], before the text [text]. *)
Definition scanner_in (line : string) (t : GTokenType) (v : GTokenValue) (text : string)
    : GScanner :=
  {| sc_config := udb_scanner_config; sc_text := text;
     sc_end := AtTerm (2 ^ 32 - 1 - Z.of_nat (strlen line));
     sc_token := t; sc_value := v |}.

(** The scanner that has read the line to its end. *)
Definition scanner_at_end (line : string) : GScanner :=
  {| sc_config := udb_scanner_config; sc_text := EmptyString;
     sc_end := Past (2 ^ 32 - 1 - Z.of_nat (strlen line) - 1);
     sc_token := G_TOKEN_EOF; sc_value := V_zero |}.

(** The request a command asks for with a key and a value. *)
Definition command_request (c : command) (key value : string) : request :=
  match c with
  | CmdGet => ReqGet key
  | CmdSet => ReqSet key value
  | CmdDel => ReqDel key
  end.

(** The arguments of a command as words, each after blanks; GET and DEL
    have one. *)
Definition word_arguments (c : command) (b1 key b2 value : string) : string :=
  match c with
  | CmdSet => b1 +:+ key +:+ b2 +:+ value
  | CmdGet | CmdDel => b1 +:+ key
  end.

(** The last word of the line. *)
Definition last_argument (c : command) (key value : string) : string :=
  match c with CmdSet => value | CmdGet | CmdDel => key end.

(** Blanks that separate: at least one. *)
Definition separates (b : string) : Prop := is_blanks b = true /\ b <> EmptyString.

(** What the arguments of a command must be to be read as words. *)
Definition word_arguments_ok (c : command) (b1 key b2 value : string) : Prop :=
  separates b1 /\ is_word key = true
  /\ match c with
     | CmdSet => separates b2 /\ is_word value = true
                 /\ (strlen key <= UDB_MAX_KEY_LENGTH)%nat
     | CmdGet | CmdDel => True
     end.

(** What the finite map says to a line: the reply and the table. *)
Definition served (line : string) (m : table) (sc : GScanner) : outcome (string * table) :=
  olet '(reply, s) := process_command_line line (udb_of m sc) in
  Ok (reply, db_contents (udb_db s)).

(** ** Lemmas: the requests *)

Lemma separates_end_word w b s : separates b -> ends_word w (b +:+ s) = true.
Proof. intros [??]. by apply blanks_end_word. Qed.

(** The end of the line, or blanks up to it, end a command. *)
Lemma command_ends_word cmd c b :
  is_word cmd = true -> command_of cmd = Some c -> is_blanks b = true ->
  ends_word cmd b = true.
Proof.
  intros Hw Hc Hb. destruct b as [|a b].
  - assert (strlen cmd = 3%nat) as Hlen; [|by destruct cmd as [|? [|? ?]]].
    unfold command_of in Hc. apply is_word_is_c_str in Hw.
    repeat case_bool_decide; simplify_eq;
      [by apply (command_word_strlen cmd "GET")|by apply (command_word_strlen cmd "SET")
      |by apply (command_word_strlen cmd "DEL")].
  - rewrite <-(str_app_nil_r (String a b)). by apply blanks_end_word.
Qed.

(** The command word at the head of the line. *)
Lemma parse_request_word sc b cmd rest :
  scanner_ready sc -> is_blanks b = true -> is_word cmd = true -> ends_word cmd rest = true ->
  is_c_str rest -> fits_guint (b +:+ cmd +:+ rest) ->
  parse_request (input_text (b +:+ cmd +:+ rest) (-1) sc)
  = let sc1 := scanner_in (b +:+ cmd +:+ rest) G_TOKEN_IDENTIFIER (V_string cmd) rest in
    match command_of cmd with
    | Some CmdGet => parse_key ReqGet sc1
    | Some CmdSet => parse_set sc1
    | Some CmdDel => parse_key ReqDel sc1
    | None => Ok (ReqReply (reply_unknown_command cmd), sc1)
    end.
Proof.
  intros Hcfg Hb Hw Hr Hc Hf.
  rewrite input_text_minus_1
    by (done || (rewrite !is_c_str_app; auto using is_blanks_is_c_str, is_word_is_c_str)).
  unfold parse_request.
  erewrite get_next_token_run by
    (cbn [sc_config sc_token sc_text sc_end]; rewrite Hcfg; by apply get_token_i_blanks_word).
  cbn [o_bind]. rewrite bool_decide_eq_false_2 by (by intros ?).
  cbn [o_bind sc_value v_identifier sc_config]. by rewrite Hcfg.
Qed.

(** A word after blanks, read by the scanner in a line. *)
Lemma get_next_token_word line t v b w rest :
  t <> G_TOKEN_EOF -> separates b -> is_word w = true -> ends_word w rest = true ->
  get_next_token (scanner_in line t v (b +:+ w +:+ rest))
  = Ok (G_TOKEN_IDENTIFIER, scanner_in line G_TOKEN_IDENTIFIER (V_string w) rest).
Proof.
  intros Ht [Hb Hne] Hw Hr. apply get_next_token_run. by apply get_token_i_blanks_word.
Qed.

(** The end of the line where an argument should be. *)
Lemma get_next_token_end line t v b :
  t <> G_TOKEN_EOF -> is_blanks b = true ->
  get_next_token (scanner_in line t v b) = Ok (G_TOKEN_EOF, scanner_at_end line).
Proof. intros Ht Hb. apply get_next_token_run. by apply get_token_i_end. Qed.

(** The argument of GET and DEL. *)
Lemma parse_key_word mk line t v b key rest :
  t <> G_TOKEN_EOF -> separates b -> is_word key = true -> ends_word key rest = true ->
  parse_key mk (scanner_in line t v (b +:+ key +:+ rest))
  = Ok (mk key, scanner_in line G_TOKEN_IDENTIFIER (V_string key) rest).
Proof. intros. unfold parse_key. by rewrite get_next_token_word. Qed.

(** The key of SET, within the maximal length. *)
Lemma parse_set_key line t v b key rest :
  t <> G_TOKEN_EOF -> separates b -> is_word key = true -> ends_word key rest = true ->
  (strlen key <= UDB_MAX_KEY_LENGTH)%nat ->
  parse_set (scanner_in line t v (b +:+ key +:+ rest))
  = olet '(tB, sc2) := get_next_token (scanner_in line G_TOKEN_IDENTIFIER (V_string key) rest) in
    olet v := token_value tB (sc_value sc2) in
    match v with
    | inl value => Ok (ReqSet key value, sc2)
    | inr reply => Ok (ReqReply reply, sc2)
    end.
Proof.
  intros Ht Hb Hk Hr Hlen. unfold parse_set. rewrite get_next_token_word by done.
  cbn [o_bind scanner_in sc_value token_key v_identifier].
  by destruct (Nat.ltb_spec UDB_MAX_KEY_LENGTH (strlen key)); [lia|].
Qed.

(** A numeral after blanks. *)
Lemma get_next_token_numeral line t v b (n : N) rest :
  t <> G_TOKEN_EOF -> is_blanks b = true -> ends_number rest = true ->
  get_next_token (scanner_in line t v (b +:+ pretty n +:+ rest))
  = Ok (G_TOKEN_INT,
        scanner_in line G_TOKEN_INT (V_int (Z.min (Z.of_N n) (2 ^ 64 - 1))) rest).
Proof. intros. apply get_next_token_run. by apply get_token_i_blanks_numeral. Qed.

(** The line of a command with its arguments as words. *)
Lemma words_request b cmd c b1 key b2 value rest sc :
  scanner_ready sc -> is_blanks b = true -> is_word cmd = true -> command_of cmd = Some c ->
  word_arguments_ok c b1 key b2 value -> ends_word (last_argument c key value) rest = true ->
  is_c_str rest -> fits_guint (b +:+ cmd +:+ word_arguments c b1 key b2 value +:+ rest) ->
  parse_request (input_text (b +:+ cmd +:+ word_arguments c b1 key b2 value +:+ rest) (-1) sc)
  = Ok (command_request c key value,
        scanner_in (b +:+ cmd +:+ word_arguments c b1 key b2 value +:+ rest)
          G_TOKEN_IDENTIFIER (V_string (last_argument c key value)) rest).
Proof.
  intros Hsc Hb Hcmd Hc (Hb1 & Hk & Hargs) Hr Hrest Hf.
  assert (is_c_str (word_arguments c b1 key b2 value +:+ rest)) as Hcs.
  { destruct Hb1. destruct c; [|destruct Hargs as ([??] & ? & _)|]; cbn [word_arguments];
      rewrite !is_c_str_app; split_and!; auto using is_blanks_is_c_str, is_word_is_c_str. }
  assert (ends_word cmd (word_arguments c b1 key b2 value +:+ rest) = true) as He.
  { destruct c; cbn [word_arguments]; rewrite !str_app_assoc; by apply separates_end_word. }
  rewrite parse_request_word, Hc by done. cbv zeta.
  destruct c; cbn [word_arguments command_request last_argument] in *; rewrite !str_app_assoc.
  - by apply parse_key_word.
  - destruct Hargs as (Hb2 & Hv & Hlen).
    rewrite parse_set_key by (done || by apply separates_end_word).
    by rewrite get_next_token_word.
  - by apply parse_key_word.
Qed.

(** A line of words through [process_command_line]. *)
Lemma words_run b cmd c b1 key b2 value rest m sc :
  scanner_ready sc -> is_blanks b = true -> is_word cmd = true -> command_of cmd = Some c ->
  word_arguments_ok c b1 key b2 value -> ends_word (last_argument c key value) rest = true ->
  is_c_str rest -> fits_guint (b +:+ cmd +:+ word_arguments c b1 key b2 value +:+ rest) ->
  process_command_line (b +:+ cmd +:+ word_arguments c b1 key b2 value +:+ rest) (udb_of m sc)
  = Ok (request_reply (command_request c key value) m,
        udb_of (request_apply (command_request c key value) m)
          (scanner_in (b +:+ cmd +:+ word_arguments c b1 key b2 value +:+ rest)
             G_TOKEN_IDENTIFIER (V_string (last_argument c key value)) rest)).
Proof.
  intros. unfold process_command_line.
  by rewrite process_command_line_len_run, words_request.
Qed.

(** ** Theorems *)

(** C18. A command with its arguments written as words is served as the
    finite map says, however the command is capitalised, whatever blanks
    separate the words and whatever follows the last argument: GET
    replies the value or NULL, SET and DEL reply OK and change the table,
    and both locks are free again.  A last word of one letter must not
    end the line. *)
Theorem words_served (b cmd : string) (c : command) (b1 key b2 value rest : string)
    (m : table) (sc : GScanner) :
  scanner_ready sc -> is_blanks b = true -> is_word cmd = true -> command_of cmd = Some c ->
  word_arguments_ok c b1 key b2 value -> ends_word (last_argument c key value) rest = true ->
  is_c_str rest -> fits_guint (b +:+ cmd +:+ word_arguments c b1 key b2 value +:+ rest) ->
  process_command_line (b +:+ cmd +:+ word_arguments c b1 key b2 value +:+ rest) (udb_of m sc)
  = Ok (request_reply (command_request c key value) m,
        udb_of (request_apply (command_request c key value) m)
          (scanner_in (b +:+ cmd +:+ word_arguments c b1 key b2 value +:+ rest)
             G_TOKEN_IDENTIFIER (V_string (last_argument c key value)) rest)).
Proof. apply words_run. Qed.

(** C19. A request written with words and the same request written
    between double quotes are served alike: the same reply and the same
    table. *)
Theorem words_quoted_agree (b cmd : string) (c : command) (b1 key b2 value rest : string)
    (m : table) (sc sc' : GScanner) :
  scanner_ready sc -> scanner_ready sc' -> is_blanks b = true -> is_word cmd = true ->
  command_of cmd = Some c -> word_arguments_ok c b1 key b2 value ->
  ends_word (last_argument c key value) rest = true -> is_c_str rest ->
  fits_guint (b +:+ cmd +:+ word_arguments c b1 key b2 value +:+ rest) ->
  fits_guint (render (command_request c key value)) ->
  served (b +:+ cmd +:+ word_arguments c b1 key b2 value +:+ rest) m sc
  = served (render (command_request c key value)) m sc'.
Proof.
  intros Hsc Hsc' Hb Hcmd Hc Hargs Hr Hrest Hf Hq. unfold served.
  rewrite words_run, request_served; [done|done| |done..].
  destruct Hargs as (_ & Hk%is_word_is_c_str & Hargs).
  destruct c; cbn [command_request] in *; [done| |done].
  destruct Hargs as (_ & Hv%is_word_is_c_str & Hlen). by repeat split.
Qed.

(** C21. A word that is not GET, SET or DEL in any capitalisation gets
    the reply for an unknown command with the word in it, whatever
    follows; the table is not touched.  The reply of
    [udb_handle_unknown] is never sent. *)
Theorem unknown_command (b cmd rest : string) (m : table) (sc : GScanner) :
  scanner_ready sc -> is_blanks b = true -> is_word cmd = true -> command_of cmd = None ->
  ends_word cmd rest = true -> is_c_str rest -> fits_guint (b +:+ cmd +:+ rest) ->
  process_command_line (b +:+ cmd +:+ rest) (udb_of m sc)
  = Ok (reply_unknown_command cmd,
        udb_of m (scanner_in (b +:+ cmd +:+ rest) G_TOKEN_IDENTIFIER (V_string cmd) rest)).
Proof.
  intros Hsc Hb Hcmd Hc Hr Hrest Hf. unfold process_command_line.
  by rewrite process_command_line_len_run, parse_request_word, Hc.
Qed.

(** A command that ends the line, after blanks or not, gets the
    reply for a missing key with the code of the end of the text; the
    table is not touched. *)
Lemma missing_key (b0 cmd : string) (c : command) (b : string) (m : table)
    (sc : GScanner) :
  scanner_ready sc -> is_blanks b0 = true -> is_word cmd = true -> command_of cmd = Some c ->
  is_blanks b = true -> fits_guint (b0 +:+ cmd +:+ b) ->
  process_command_line (b0 +:+ cmd +:+ b) (udb_of m sc)
  = Ok (reply_missing_key G_TOKEN_EOF, udb_of m (scanner_at_end (b0 +:+ cmd +:+ b))).
Proof.
  intros Hsc Hb0 Hcmd Hc Hb Hf. unfold process_command_line.
  rewrite process_command_line_len_run, parse_request_word, Hc;
    [|done|done|done|by eapply command_ends_word|by apply is_blanks_is_c_str|done].
  destruct c; unfold parse_set, parse_key; by rewrite get_next_token_end.
Qed.

(** SET with a key and no value gets the reply for a missing
    value; the table is not touched. *)
Lemma missing_value (b cmd b1 key b2 : string) (m : table) (sc : GScanner) :
  scanner_ready sc -> is_blanks b = true -> is_word cmd = true ->
  command_of cmd = Some CmdSet -> separates b1 -> is_word key = true ->
  ends_word key b2 = true -> is_blanks b2 = true ->
  (strlen key <= UDB_MAX_KEY_LENGTH)%nat -> fits_guint (b +:+ cmd +:+ b1 +:+ key +:+ b2) ->
  process_command_line (b +:+ cmd +:+ b1 +:+ key +:+ b2) (udb_of m sc)
  = Ok (reply_missing_value, udb_of m (scanner_at_end (b +:+ cmd +:+ b1 +:+ key +:+ b2))).
Proof.
  intros Hsc Hb Hcmd Hc Hb1 Hk He Hb2 Hlen Hf. unfold process_command_line.
  rewrite process_command_line_len_run, parse_request_word, Hc;
    [|done|done|done|by apply separates_end_word| |done].
  - cbv zeta. by rewrite parse_set_key, get_next_token_end.
  - destruct Hb1. rewrite !is_c_str_app.
    split_and!; auto using is_blanks_is_c_str, is_word_is_c_str.
Qed.

(** A line of blanks, the empty line among them, gets the reply
    for a missing command with the code of the end of the text. *)
Lemma blank_line (b : string) (m : table) (sc : GScanner) :
  scanner_ready sc -> is_blanks b = true -> fits_guint b ->
  process_command_line b (udb_of m sc)
  = Ok (reply_expected_command G_TOKEN_EOF, udb_of m (scanner_at_end b)).
Proof.
  intros Hsc Hb Hf. unfold process_command_line.
  rewrite process_command_line_len_run, input_text_minus_1
    by (done || by apply is_blanks_is_c_str).
  unfold parse_request. erewrite get_next_token_run
    by (cbn [sc_config sc_token sc_text sc_end]; rewrite Hsc; by apply get_token_i_end).
  cbn [o_bind sc_config]. by rewrite Hsc.
Qed.

(** C20. SET with a number written in decimal stores what [%ld] prints
    of the [gulong] the scanner read: the number when it is below
    [2^63], the number less [2^64] up to [2^64 - 1], and -1 for every
    larger number. *)
Theorem set_numeral (b cmd b1 key b2 : string) (n : N) (rest : string) (m : table)
    (sc : GScanner) :
  let line := b +:+ cmd +:+ b1 +:+ key +:+ b2 +:+ pretty n +:+ rest in
  scanner_ready sc -> is_blanks b = true -> is_word cmd = true ->
  command_of cmd = Some CmdSet -> separates b1 -> is_word key = true -> separates b2 ->
  ends_number rest = true -> is_c_str rest -> (strlen key <= UDB_MAX_KEY_LENGTH)%nat ->
  fits_guint line ->
  process_command_line line (udb_of m sc)
  = Ok (reply_ok,
        udb_of (<[key := if bool_decide (Z.of_N n < 2 ^ 63) then pretty (Z.of_N n)
                         else if bool_decide (Z.of_N n < 2 ^ 64)
                              then pretty (Z.of_N n - 2 ^ 64)
                              else "-1"]> m)
          (scanner_in line G_TOKEN_INT (V_int (Z.min (Z.of_N n) (2 ^ 64 - 1))) rest)).
Proof.
  intros line Hsc Hb Hcmd Hc Hb1 Hk Hb2 Hr Hrest Hlen Hf. subst line.
  unfold process_command_line.
  rewrite process_command_line_len_run, parse_request_word, Hc;
    [|done|done|done|by apply separates_end_word| |done].
  - cbv zeta. rewrite parse_set_key by (done || by apply separates_end_word).
    destruct Hb2. rewrite get_next_token_numeral by done.
    cbn [o_bind scanner_in sc_value token_value v_int respond request_reply request_apply].
    by rewrite fmt_ld_numeral.
  - destruct Hb1, Hb2. rewrite !is_c_str_app. split_and!;
      auto using is_blanks_is_c_str, is_word_is_c_str, all_digits_is_c_str, all_digits_pretty.
Qed.

End words.

(** ** Examples *)

Section examples.
#[local] Existing Instance example_config.
#[local] Existing Instance decimal_float_format.

(** Discharge the side conditions of a theorem on a concrete line. *)
Ltac line_conditions :=
  unfold word_arguments_ok, separates; cbv iota; split_and?; vm_compute; (done || lia).

Definition example_names : table := {[ "name" := "Alice" ]}.

Lemma words_served_witness :
  process_command_line
    (" " +:+ "get" +:+ word_arguments CmdGet " " "name" "" "" +:+ " now")
    (udb_of example_names example_sc)
  = Ok (reply_value "Alice",
        udb_of example_names
          (scanner_in " get name now" G_TOKEN_IDENTIFIER (V_string "name") " now")).
Proof.
  apply (words_served " " "get" CmdGet " " "name" "" "" " now" example_names example_sc);
    line_conditions.
Defined.

Lemma words_quoted_agree_witness :
  served ("" +:+ "Set" +:+ word_arguments CmdSet " " "k" "  " "v1" +:+ "") ∅ example_sc
  = served (render (ReqSet "k" "v1")) ∅ example_sc.
Proof.
  apply (words_quoted_agree "" "Set" CmdSet " " "k" "  " "v1" "" ∅ example_sc example_sc);
    line_conditions.
Defined.

Lemma unknown_command_witness :
  process_command_line ("" +:+ "FOO" +:+ " bar") (udb_of example_names example_sc)
  = Ok (reply_unknown_command "FOO",
        udb_of example_names
          (scanner_in "FOO bar" G_TOKEN_IDENTIFIER (V_string "FOO") " bar")).
Proof. apply (unknown_command "" "FOO" " bar" example_names example_sc); line_conditions. Defined.

Lemma missing_key_witness :
  process_command_line ("" +:+ "DEL" +:+ " ") (udb_of example_names example_sc)
  = Ok (reply_missing_key G_TOKEN_EOF, udb_of example_names (scanner_at_end "DEL ")).
Proof. apply (missing_key "" "DEL" CmdDel " " example_names example_sc); line_conditions. Defined.

Lemma missing_value_witness :
  process_command_line ("" +:+ "SET" +:+ " " +:+ "name" +:+ "") (udb_of example_names example_sc)
  = Ok (reply_missing_value, udb_of example_names (scanner_at_end "SET name")).
Proof.
  apply (missing_value "" "SET" " " "name" "" example_names example_sc); line_conditions.
Defined.

Lemma blank_line_witness :
  process_command_line (String "013" EmptyString) (udb_of example_names example_sc)
  = Ok (reply_expected_command G_TOKEN_EOF,
        udb_of example_names (scanner_at_end (String "013" EmptyString))).
Proof. apply (blank_line (String "013" EmptyString) example_names example_sc); line_conditions. Defined.

Lemma set_numeral_witness :
  process_command_line
    ("" +:+ "SET" +:+ " " +:+ "big" +:+ " " +:+ pretty 18446744073709551615%N +:+ "")
    (udb_of ∅ example_sc)
  = Ok (reply_ok,
        udb_of {[ "big" := "-1" ]}
          (scanner_in "SET big 18446744073709551615" G_TOKEN_INT
             (V_int 18446744073709551615) EmptyString)).
Proof.
  apply (set_numeral "" "SET" " " "big" " " 18446744073709551615%N "" ∅ example_sc);
    line_conditions.
Defined.

(** Lines the theorems do not cover, by evaluation: a value between
    single quotes, a hexadecimal and an octal number, a float, a sign,
    and a key of one letter before the end of the line. *)
Example other_lines :
  (result_of (process_lines
     ["SET ab 'x y'"; "GET ab"; "SET ab 0x1F"; "GET ab"; "SET ab 017"; "GET ab";
      "SET ab 1.5"; "GET ab"; "SET ab -5"; "SET ab $"] (udb_of ∅ example_sc)),
   result_of (process_lines ["GET a"] (udb_of ∅ example_sc)))
  = (Some ["OK" +:+ CRLF; "x y" +:+ CRLF; "OK" +:+ CRLF; "31" +:+ CRLF; "OK" +:+ CRLF;
           "15" +:+ CRLF; "OK" +:+ CRLF; "1.5" +:+ CRLF;
           "ERR Malformed Value Argument (token=258)" +:+ CRLF;
           "ERR Malformed Value Argument (token=258)" +:+ CRLF], None).
Proof. by vm_compute. Qed.

End examples.
