(* ===== verification/Connection.v ===== *)
(** * Connection: the callbacks of one client

    src/udb.c lines 366-382 ([on_write_done]), 418-461 ([on_line_read])
    and 463-481 ([on_incoming]).  The main loop calls [on_incoming] when a
    client connects, [on_line_read] when a line, the end of the input or
    a read error is there, and [on_write_done] when a write has finished.
    Every callback runs to its end before the next one starts.

    The line [on_line_read] is given is the buffer GIO allocated: the
    carriage return at its end is overwritten with a NUL ([strip_cr]),
    so the string ends there and the old terminator is the byte behind
    it, inside the buffer.

    A connection is what the callbacks can tell of a
    [GSocketConnection]: its reference count, whether a read is
    outstanding, the bytes handed to the socket, and the state of its
    output stream.  GIO's asynchronous calls are modelled from their
    documentation: a stream takes one operation at a time;
    [g_output_stream_write_async] writes once, as many bytes as the
    socket takes, does not copy the buffer, and reports its result to the
    callback in a later turn of the loop; the stream outlives the
    references of the callbacks ([on_stream]), so a write that finishes
    or resumes after the reader gave up its reference still finds the
    stream.  What the peer and the kernel
    do (a line arrives, the socket takes [n] bytes) comes from outside, in
    the events of [Lifecycle]. *)

From S2P Require Import Prelude CString Mutex Store Scanner Printf KeyFile Handlers Protocol.

Set Warnings "-clear-no-such-hyp".

Open Scope Z_scope.

(** ** What is printed *)

(** The lines written with [g_print], [g_warning] and [g_printerr], and
    the critical message of a [g_return_if_fail] whose condition does
    not hold; the message of a [GError] is not modelled. *)
Inductive log_entry : Type :=
| PrintReceived (line : string)
| PrintDisconnected
| PrintListening (path : string)
| WarnRead (e : GError)
| WarnWrite (e : GError)
| ErrDbSave (e : GError)
| ErrStartup (e : GError)
| Critical (func expr : string).

#[export] Instance log_entry_eq_dec : EqDecision log_entry.
Proof. solve_decision. Defined.

(** ** Connections *)

(** [G_IO_ERROR_PENDING], the error of a stream that has an operation
    outstanding. *)
Definition G_IO_ERROR_PENDING : Z := 20.

Definition io_error (code : Z) : GError :=
  {| error_domain := G_IO_ERROR; error_code := code |}.

(** What [g_output_stream_write_finish] gives the callback. *)
Inductive write_result : Type :=
| Written (n : nat)
| WriteFailed (e : GError).

(** What is waiting for [on_write_done]: the result of an operation of
    the stream, or the refusal of a call made while one was
    outstanding. *)
Inductive write_report : Type :=
| Finished (r : write_result)
| Refused (e : GError).

(** What [g_data_input_stream_read_line_finish] gives the callback: a
    line without its line feed, [NULL] at the end of the input, or an
    error. *)
Inductive read_result : Type :=
| ReadLine (line : string)
| ReadEof
| ReadError (e : GError).

Record connection : Type := mk_connection {
  (** the references to the [GSocketConnection] *)
  conn_refs : nat;
  (** a [g_data_input_stream_read_line_async] is outstanding *)
  conn_reading : bool;
  (** the bytes handed to the socket *)
  conn_sent : string;
  (** the bytes the socket takes without blocking *)
  conn_room : nat;
  (** the output stream has an operation outstanding *)
  conn_busy : bool;
  (** the write that waits for the socket: its buffer *)
  conn_waiting : option (handle string);
  (** the reports that wait for [on_write_done], oldest first *)
  conn_reports : list write_report;
}.

(** The state the callbacks share: the store and the scanner, the
    connections by number, and what was printed, oldest first. *)
Record server_state : Type := mk_server {
  srv_udb : udb_state;
  srv_conns : gmap nat connection;
  srv_log : list log_entry;
}.

Definition set_srv_udb (u : udb_state) (s : server_state) : server_state :=
  {| srv_udb := u; srv_conns := srv_conns s; srv_log := srv_log s |}.

Definition set_srv_conns (cs : gmap nat connection) (s : server_state) : server_state :=
  {| srv_udb := srv_udb s; srv_conns := cs; srv_log := srv_log s |}.

Definition on_udb {A} (c : ST udb_state A) : ST server_state A :=
  zoom srv_udb set_srv_udb c.

(** [g_print] and the like. *)
Definition log (e : log_entry) : ST server_state unit :=
  st_modify (fun s => {| srv_udb := srv_udb s; srv_conns := srv_conns s;
                         srv_log := srv_log s ++ [e] |}).

(** A call on a connection: a connection that is not there, or that has
    no reference left, is a pointer to freed memory. *)
Definition on_conn {A} (c : nat) (f : ST connection A) : ST server_state A :=
  fun s =>
    match srv_conns s !! c with
    | Some conn =>
        if bool_decide (conn_refs conn = 0%nat) then Fault Undefined
        else olet '(a, conn') := f conn in Ok (a, set_srv_conns (<[c:=conn']> (srv_conns s)) s)
    | None => Fault Undefined
    end.

(** A call on the output stream of a connection: the operation that is
    outstanding holds the stream, so the stream outlives the references
    to the connection. *)
Definition on_stream {A} (c : nat) (f : ST connection A) : ST server_state A :=
  fun s =>
    match srv_conns s !! c with
    | Some conn =>
        olet '(a, conn') := f conn in Ok (a, set_srv_conns (<[c:=conn']> (srv_conns s)) s)
    | None => Fault Undefined
    end.

(** ** GIO *)

Definition g_object_ref : ST connection unit :=
  st_modify (fun k => {| conn_refs := S (conn_refs k); conn_reading := conn_reading k;
                         conn_sent := conn_sent k; conn_room := conn_room k;
                         conn_busy := conn_busy k; conn_waiting := conn_waiting k;
                         conn_reports := conn_reports k |}).

(** [g_object_unref]: with the last reference the connection is
    closed. *)
Definition g_object_unref : ST connection unit :=
  st_modify (fun k => {| conn_refs := pred (conn_refs k); conn_reading := conn_reading k;
                         conn_sent := conn_sent k; conn_room := conn_room k;
                         conn_busy := conn_busy k; conn_waiting := conn_waiting k;
                         conn_reports := conn_reports k |}).

(** [g_data_input_stream_read_line_async]: one read at a time. *)
Definition g_data_input_stream_read_line_async : ST connection unit :=
  fun k =>
    if conn_reading k then Fault Undefined
    else Ok (tt, {| conn_refs := conn_refs k; conn_reading := true;
                    conn_sent := conn_sent k; conn_room := conn_room k;
                    conn_busy := conn_busy k; conn_waiting := conn_waiting k;
                    conn_reports := conn_reports k |}).

(** The callback of a read runs: the read is no longer outstanding. *)
Definition read_line_finish : ST connection unit :=
  fun k =>
    if conn_reading k
    then Ok (tt, {| conn_refs := conn_refs k; conn_reading := false;
                    conn_sent := conn_sent k; conn_room := conn_room k;
                    conn_busy := conn_busy k; conn_waiting := conn_waiting k;
                    conn_reports := conn_reports k |})
    else Fault Undefined.

(** [g_output_stream_write_async (out, buffer, count, ...)]: refused
    while the stream is busy; otherwise the stream writes what the
    socket takes now, at most [count] bytes, or waits for the socket
    with the caller's buffer. *)
Definition g_output_stream_write_async (buffer : string) (count : nat) : ST connection unit :=
  fun k =>
    if conn_busy k then
      Ok (tt, {| conn_refs := conn_refs k; conn_reading := conn_reading k;
                 conn_sent := conn_sent k; conn_room := conn_room k;
                 conn_busy := true; conn_waiting := conn_waiting k;
                 conn_reports := conn_reports k ++ [Refused (io_error G_IO_ERROR_PENDING)] |})
    else if bool_decide (conn_room k = 0%nat) then
      Ok (tt, {| conn_refs := conn_refs k; conn_reading := conn_reading k;
                 conn_sent := conn_sent k; conn_room := conn_room k;
                 conn_busy := true; conn_waiting := Some (Live (str_take count buffer));
                 conn_reports := conn_reports k |})
    else
      let n := Nat.min count (conn_room k) in
      Ok (tt, {| conn_refs := conn_refs k; conn_reading := conn_reading k;
                 conn_sent := conn_sent k +:+ str_take n buffer;
                 conn_room := (conn_room k - n)%nat;
                 conn_busy := true; conn_waiting := None;
                 conn_reports := conn_reports k ++ [Finished (Written n)] |}).

(** [g_free] of the buffer given to the last write: a write that still
    waits for the socket is left with a pointer to freed memory. *)
Definition g_free_buffer : ST connection unit :=
  st_modify (fun k => {| conn_refs := conn_refs k; conn_reading := conn_reading k;
                         conn_sent := conn_sent k; conn_room := conn_room k;
                         conn_busy := conn_busy k;
                         conn_waiting := match conn_waiting k with
                                         | Some _ => Some Dangling
                                         | None => None
                                         end;
                         conn_reports := conn_reports k |}).

(** The socket takes [room] more bytes: a write that waited reads its
    buffer and writes what fits. *)
Definition socket_writable (room : nat) : ST connection unit :=
  fun k =>
    match conn_waiting k with
    | None =>
        Ok (tt, {| conn_refs := conn_refs k; conn_reading := conn_reading k;
                   conn_sent := conn_sent k; conn_room := (conn_room k + room)%nat;
                   conn_busy := conn_busy k; conn_waiting := None;
                   conn_reports := conn_reports k |})
    | Some (Live buffer) =>
        let n := Nat.min (strlen buffer) (conn_room k + room) in
        if bool_decide (n = 0%nat) then Ok (tt, k)
        else
          Ok (tt, {| conn_refs := conn_refs k; conn_reading := conn_reading k;
                     conn_sent := conn_sent k +:+ str_take n buffer;
                     conn_room := (conn_room k + room - n)%nat;
                     conn_busy := conn_busy k; conn_waiting := None;
                     conn_reports := conn_reports k ++ [Finished (Written n)] |})
    | Some (Null | Dangling) => if bool_decide (conn_room k + room = 0)%nat then Ok (tt, k)
                                else Fault Undefined
    end.

(** The report that [on_write_done] is called with next; the end of an
    operation frees the stream for the next one. *)
Definition next_report : ST connection (option write_result + GError) :=
  fun k =>
    match conn_reports k with
    | [] => Fault Undefined
    | r :: rs =>
        Ok (match r with Finished w => inl (Some w) | Refused e => inr e end,
            {| conn_refs := conn_refs k; conn_reading := conn_reading k;
               conn_sent := conn_sent k; conn_room := conn_room k;
               conn_busy := match r with Finished _ => false | Refused _ => conn_busy k end;
               conn_waiting := conn_waiting k; conn_reports := rs |})
    end.

(** ** The callbacks *)

Section callbacks.
Context `{UdbConfig} `{FloatFormat}.

(** [on_write_done]: a write that failed is printed. *)
Definition on_write_done (c : nat) : ST server_state unit :=
  r <- on_stream c next_report ;;
  match r with
  | inl (Some (WriteFailed e)) | inr e => log (WarnWrite e)
  | inl _ => st_ret tt
  end.

(** The buffer of the line as [on_line_read] gives it to
    [process_command_line]: when the C string in it ends with a carriage
    return, a NUL is written over that byte, and the bytes behind it,
    the terminator that was there before included, stay where they
    are. *)
Definition strip_cr (line : string) : string :=
  let n := strlen (c_str line) in
  if g_str_has_suffix (c_str line) (String "013" EmptyString)
  then str_take (n - 1) line +:+ String NUL (str_drop n line)
  else line.

(** [on_line_read] *)
Definition on_line_read (c : nat) (res : read_result) : ST server_state unit :=
  on_conn c read_line_finish ;;
  match res with
  | ReadError e =>
      log (WarnRead e) ;;
      on_conn c g_object_unref
  | ReadEof =>
      log PrintDisconnected ;;
      on_conn c g_object_unref
  | ReadLine line =>
      let line := strip_cr line in
      log (PrintReceived (c_str line)) ;;
      response <- on_udb (process_command_line line) ;;
      on_conn c (g_output_stream_write_async response (strlen response)) ;;
      on_conn c g_free_buffer ;;
      on_conn c g_data_input_stream_read_line_async
  end.

(** [on_incoming]: take a reference and wait for the first line. *)
Definition on_incoming (c : nat) : ST server_state bool :=
  on_conn c g_object_ref ;;
  on_conn c g_data_input_stream_read_line_async ;;
  st_ret true.

(** ** The service *)

(** A connection as the service creates it when a client connects: the
    service holds the only reference. *)
Definition new_connection (room : nat) : connection :=
  {| conn_refs := 1; conn_reading := false; conn_sent := EmptyString; conn_room := room;
     conn_busy := false; conn_waiting := None; conn_reports := [] |}.

(** The signal [incoming] of the [GSocketService]: the service creates
    the connection, calls [on_incoming] and drops its reference. *)
Definition incoming (c : nat) (room : nat) : ST server_state unit :=
  s <- st_get ;;
  match srv_conns s !! c with
  | Some _ => st_fault Undefined
  | None =>
      st_put (set_srv_conns (<[c:=new_connection room]> (srv_conns s)) s) ;;
      on_incoming c ;;
      on_conn c g_object_unref
  end.

(** The socket of a connection takes more bytes. *)
Definition socket_ready (c : nat) (room : nat) : ST server_state unit :=
  on_stream c (socket_writable room).

(** ** The server between two callbacks *)

(** The state with table [m], scanner [sc] and both locks free. *)
Definition server_of (m : table) (sc : GScanner) (conns : gmap nat connection)
    (lg : list log_entry) : server_state :=
  {| srv_udb := udb_of m sc; srv_conns := conns; srv_log := lg |}.

(** A connection that waits for a line. *)
Definition conn_open (k : connection) : Prop :=
  conn_refs k <> 0%nat /\ conn_reading k = true.

#[export] Instance conn_open_dec k : Decision (conn_open k).
Proof. unfold conn_open. apply _. Defined.

(** The connection after [on_line_read] wrote [reply]: the write, the
    [g_free] of its buffer and the next read. *)
Definition conn_after_reply (reply : string) (k : connection) : outcome connection :=
  olet '(_, k) := read_line_finish k in
  olet '(_, k) := g_output_stream_write_async reply (strlen reply) k in
  olet '(_, k) := g_free_buffer k in
  olet '(_, k) := g_data_input_stream_read_line_async k in
  Ok k.

(** The connection after a reply that the socket took whole. *)
Definition conn_replied (reply : string) (k : connection) : connection :=
  {| conn_refs := conn_refs k; conn_reading := true;
     conn_sent := conn_sent k +:+ reply;
     conn_room := (conn_room k - strlen reply)%nat;
     conn_busy := true; conn_waiting := None;
     conn_reports := conn_reports k ++ [Finished (Written (strlen reply))] |}.

(** ** The main loop *)

(** What the main loop dispatches to the connections: a client
    connects, a read ends, the report of a write is due, a socket takes
    more bytes.  The callbacks run one after the other, in the order of
    the events. *)
Inductive event :=
  | EvIncoming (c : nat) (room : nat)
  | EvRead (c : nat) (res : read_result)
  | EvWritten (c : nat)
  | EvWritable (c : nat) (room : nat).

Definition dispatch (e : event) : ST server_state unit :=
  match e with
  | EvIncoming c room => incoming c room
  | EvRead c res => on_line_read c res
  | EvWritten c => on_write_done c
  | EvWritable c room => socket_ready c room
  end.

Fixpoint run_events (es : list event) : ST server_state unit :=
  match es with
  | [] => st_ret tt
  | e :: es => dispatch e ;; run_events es
  end.

(** The line the stream reads for a request sent with CR LF, and the
    events of one request: the line is read, the write is reported. *)
Definition client_line (r : request) : string := render r +:+ String "013" EmptyString.

Definition request_events (c : nat) (r : request) : list event :=
  [EvRead c (ReadLine (client_line r)); EvWritten c].

(** A session: requests of several clients in the order in which the
    main loop reads them. *)
Fixpoint session_events (es : list (nat * request)) : list event :=
  match es with
  | [] => []
  | (c, r) :: es => request_events c r ++ session_events es
  end.

(** What the finite map says client [c] is sent during a session, and
    the length of all replies of the session. *)
Fixpoint replies_to (c : nat) (es : list (nat * request)) (m : table) : string :=
  match es with
  | [] => EmptyString
  | (c', r) :: es =>
      if decide (c' = c) then request_reply r m +:+ replies_to c es (request_apply r m)
      else replies_to c es (request_apply r m)
  end.

Fixpoint session_length (es : list (nat * request)) (m : table) : nat :=
  match es with
  | [] => 0
  | (_, r) :: es => strlen (request_reply r m) + session_length es (request_apply r m)
  end.

(** A connection between two requests: it waits for a line and no write
    is outstanding. *)
Definition conn_idle (k : connection) : Prop :=
  conn_open k /\ conn_busy k = false /\ conn_waiting k = None /\ conn_reports k = [].

#[export] Instance conn_idle_dec k : Decision (conn_idle k).
Proof. unfold conn_idle. apply _. Defined.

(** The connection after a reply was written and reported. *)
Definition conn_served (reply : string) (k : connection) : connection :=
  {| conn_refs := conn_refs k; conn_reading := true;
     conn_sent := conn_sent k +:+ reply;
     conn_room := (conn_room k - strlen reply)%nat;
     conn_busy := false; conn_waiting := None; conn_reports := [] |}.

(** The clients of a session are connected and idle, their requests are
    acceptable and their sockets take the replies of the session. *)
Definition session_ready (es : list (nat * request)) (m : table)
    (conns : gmap nat connection) : Prop :=
  Forall (fun e => acceptable e.2 /\ is_Some (conns !! e.1)) es
  /\ map_Forall (fun _ k => conn_idle k /\ (session_length es m <= conn_room k)%nat) conns.

(** The connection after the end of its input or a read error: the
    reference of [on_incoming] is given back. *)
Definition conn_closed (k : connection) : connection :=
  {| conn_refs := pred (conn_refs k); conn_reading := false; conn_sent := conn_sent k;
     conn_room := conn_room k; conn_busy := conn_busy k; conn_waiting := conn_waiting k;
     conn_reports := conn_reports k |}.

(** A computation that leaves the connections other than [c] as they
    are. *)
Definition frames {A} (c : nat) (p : ST server_state A) : Prop :=
  forall s a s', p s = Ok (a, s') ->
    forall c', c' <> c -> srv_conns s' !! c' = srv_conns s !! c'.

(** ** Lemmas *)

Lemma on_conn_Ok {A} c (f : ST connection A) u conns lg k a k' :
  conns !! c = Some k -> conn_refs k <> 0%nat -> f k = Ok (a, k') ->
  on_conn c f {| srv_udb := u; srv_conns := conns; srv_log := lg |}
  = Ok (a, {| srv_udb := u; srv_conns := <[c:=k']> conns; srv_log := lg |}).
Proof.
  intros Hc Hr Hf. unfold on_conn. cbn. rewrite Hc, bool_decide_eq_false_2 by done.
  by rewrite Hf.
Qed.

Lemma on_conn_Fault {A} c (f : ST connection A) u conns lg k e :
  conns !! c = Some k -> conn_refs k <> 0%nat -> f k = Fault e ->
  on_conn c f {| srv_udb := u; srv_conns := conns; srv_log := lg |} = Fault e.
Proof.
  intros Hc Hr Hf. unfold on_conn. cbn. rewrite Hc, bool_decide_eq_false_2 by done.
  by rewrite Hf.
Qed.

Lemma str_take_all s : str_take (strlen s) s = s.
Proof. unfold strlen. induction s as [|c s IH]; [done|]. cbn. by rewrite IH. Qed.

(** A reply that the socket takes whole. *)
Lemma conn_after_reply_room reply k :
  conn_reading k = true -> conn_busy k = false ->
  (strlen reply <= conn_room k)%nat -> reply <> EmptyString ->
  conn_after_reply reply k = Ok (conn_replied reply k).
Proof.
  intros Hr Hb Hroom Hne. unfold conn_after_reply, read_line_finish. rewrite Hr. cbn.
  unfold g_output_stream_write_async. cbn. rewrite Hb.
  rewrite bool_decide_eq_false_2 by (destruct reply; [done|cbn in *; lia]).
  cbn. by rewrite Nat.min_l, str_take_all by done.
Qed.

(** The operations of a stream leave the references as they are. *)
Lemma conn_after_reply_refs reply k k' :
  conn_after_reply reply k = Ok k' -> conn_refs k' = conn_refs k.
Proof.
  unfold conn_after_reply, read_line_finish, g_output_stream_write_async, g_free_buffer,
    g_data_input_stream_read_line_async, st_modify.
  intros Hk. repeat (case_match; simplify_eq/=); done.
Qed.

(** One call on a connection, and what follows it. *)
Lemma on_conn_step {A B} c (f : ST connection A) (rest : A -> ST server_state B)
    u conns lg k :
  conns !! c = Some k -> conn_refs k <> 0%nat ->
  (x <- on_conn c f ;; rest x) {| srv_udb := u; srv_conns := conns; srv_log := lg |}
  = olet '(a, k') := f k in
    rest a {| srv_udb := u; srv_conns := <[c:=k']> conns; srv_log := lg |}.
Proof.
  intros Hc Hr. unfold st_bind, on_conn. cbn. rewrite Hc, bool_decide_eq_false_2 by done.
  by destruct (f k) as [[??]|].
Qed.

Lemma on_stream_step {A B} c (f : ST connection A) (rest : A -> ST server_state B)
    u conns lg k :
  conns !! c = Some k ->
  (x <- on_stream c f ;; rest x) {| srv_udb := u; srv_conns := conns; srv_log := lg |}
  = olet '(a, k') := f k in
    rest a {| srv_udb := u; srv_conns := <[c:=k']> conns; srv_log := lg |}.
Proof.
  intros Hc. unfold st_bind, on_stream. cbn. rewrite Hc. by destruct (f k) as [[??]|].
Qed.

Lemma log_step {B} e (rest : ST server_state B) u conns lg :
  (log e ;; rest) {| srv_udb := u; srv_conns := conns; srv_log := lg |}
  = rest {| srv_udb := u; srv_conns := conns; srv_log := lg ++ [e] |}.
Proof. reflexivity. Qed.

(** [on_line_read] on a line: the reply of [process_command_line] goes
    to the stream of the connection. *)
Lemma on_line_read_line c line u u' reply conns lg k :
  conns !! c = Some k -> conn_refs k <> 0%nat ->
  process_command_line (strip_cr line) u = Ok (reply, u') ->
  on_line_read c (ReadLine line) {| srv_udb := u; srv_conns := conns; srv_log := lg |}
  = olet k' := conn_after_reply reply k in
    Ok (tt, {| srv_udb := u'; srv_conns := <[c:=k']> conns;
               srv_log := lg ++ [PrintReceived (c_str (strip_cr line))] |}).
Proof.
  intros Hc Hr Hp. unfold on_line_read, conn_after_reply.
  rewrite (on_conn_step _ _ _ _ _ _ _ Hc Hr).
  destruct (read_line_finish k) as [[[] k1]|e] eqn:E1; cbn [o_bind]; [|done].
  assert (conn_refs k1 <> 0%nat) as Hr1.
  { unfold read_line_finish in E1. by destruct (conn_reading k); simplify_eq. }
  rewrite log_step. unfold st_bind at 1, on_udb, zoom. cbn [srv_udb]. rewrite Hp.
  cbn [o_bind]. unfold set_srv_udb. cbn [srv_conns srv_log].
  rewrite (on_conn_step _ _ _ _ _ _ k1) by (done || apply lookup_insert_eq).
  destruct (g_output_stream_write_async reply (strlen reply) k1) as [[[] k2]|e] eqn:E2;
    cbn [o_bind]; [|done].
  assert (conn_refs k2 <> 0%nat) as Hr2.
  { unfold g_output_stream_write_async in E2. by repeat case_match; simplify_eq. }
  rewrite (on_conn_step _ _ _ _ _ _ k2) by (done || apply lookup_insert_eq).
  cbn [g_free_buffer st_modify o_bind].
  unfold on_conn. cbn [srv_conns]. rewrite lookup_insert_eq.
  rewrite bool_decide_eq_false_2 by done.
  destruct (g_data_input_stream_read_line_async _) as [[[] k3]|e]; cbn [o_bind]; [|done].
  unfold set_srv_conns. cbn. by rewrite !insert_insert_eq.
Qed.

Lemma ends_crlf_nonempty reply : ends_crlf reply -> reply <> EmptyString.
Proof. by intros Hr ->. Qed.

(** ** Theorems: one line *)

(** A line from a client whose socket takes the reply: the request
    read from the line, without the carriage return at its end, is
    applied to the table, the whole reply is handed to the socket, the
    line is printed and the next read is issued. *)
Lemma on_line_read_served (c : nat) (line : string) (m : table) (sc sc' : GScanner)
    (req : request) (conns : gmap nat connection) (lg : list log_entry) (k : connection) :
  conns !! c = Some k -> conn_open k -> conn_busy k = false ->
  parse_request (input_text (strip_cr line) (-1) sc) = Ok (req, sc') ->
  (strlen (request_reply req m) <= conn_room k)%nat ->
  on_line_read c (ReadLine line) (server_of m sc conns lg)
  = Ok (tt, server_of (request_apply req m) sc'
              (<[c:=conn_replied (request_reply req m) k]> conns)
              (lg ++ [PrintReceived (c_str (strip_cr line))])).
Proof.
  intros Hc [Hr Hrd] Hb Hp Hroom. unfold server_of.
  erewrite on_line_read_line; [|done..|].
  2:{ unfold process_command_line. by rewrite process_command_line_len_run, Hp. }
  rewrite conn_after_reply_room; try done.
  apply ends_crlf_nonempty, request_reply_crlf. by eapply parse_request_wf.
Qed.

(** C34. A reply longer than what the socket takes is cut: the bytes
    that fit are handed over, the operation is reported as finished, and
    nothing is left to write the rest. *)
Theorem on_line_read_short_write (c : nat) (line reply : string) (u u' : udb_state)
    (conns : gmap nat connection) (lg : list log_entry) (k : connection) :
  conns !! c = Some k -> conn_open k -> conn_busy k = false ->
  process_command_line (strip_cr line) u = Ok (reply, u') ->
  (0 < conn_room k < strlen reply)%nat ->
  on_line_read c (ReadLine line) {| srv_udb := u; srv_conns := conns; srv_log := lg |}
  = Ok (tt, {| srv_udb := u';
               srv_conns :=
                 <[c:={| conn_refs := conn_refs k; conn_reading := true;
                         conn_sent := conn_sent k +:+ str_take (conn_room k) reply;
                         conn_room := 0; conn_busy := true; conn_waiting := None;
                         conn_reports :=
                           conn_reports k ++ [Finished (Written (conn_room k))] |}]> conns;
               srv_log := lg ++ [PrintReceived (c_str (strip_cr line))] |}).
Proof.
  intros Hc [Hr Hrd] Hb Hp Hroom. erewrite on_line_read_line by done.
  unfold conn_after_reply, read_line_finish. rewrite Hrd. cbn.
  unfold g_output_stream_write_async. cbn. rewrite Hb.
  rewrite bool_decide_eq_false_2 by lia. cbn.
  by rewrite Nat.min_r, Nat.sub_diag by lia.
Qed.

(** C33. A reply written while the socket takes nothing waits for the
    socket with a buffer that [on_line_read] frees before it returns:
    when the socket takes bytes again, the write reads freed memory. *)
Theorem on_line_read_use_after_free (c : nat) (line reply : string) (u u' : udb_state)
    (conns : gmap nat connection) (lg : list log_entry) (k : connection) (room : nat) :
  conns !! c = Some k -> conn_open k -> conn_busy k = false -> conn_room k = 0%nat ->
  process_command_line (strip_cr line) u = Ok (reply, u') -> (0 < room)%nat ->
  (on_line_read c (ReadLine line) ;; socket_ready c room)
    {| srv_udb := u; srv_conns := conns; srv_log := lg |}
  = Fault Undefined.
Proof.
  intros Hc [Hr Hrd] Hb Hz Hp Hroom. unfold st_bind.
  erewrite on_line_read_line by done.
  unfold conn_after_reply, read_line_finish. rewrite Hrd. cbn.
  unfold g_output_stream_write_async. cbn. rewrite Hb, Hz.
  rewrite (bool_decide_eq_true_2 (0%nat = 0%nat)) by done. cbn.
  unfold socket_ready, on_stream. cbn. rewrite lookup_insert_eq. cbn.
  unfold socket_writable. cbn. by rewrite bool_decide_eq_false_2 by lia.
Qed.

(** C35. A reply written while the stream is busy with the write before
    it is refused: the request is applied to the table and nothing is
    handed to the socket. *)
Theorem on_line_read_refused (c : nat) (line reply : string) (u u' : udb_state)
    (conns : gmap nat connection) (lg : list log_entry) (k : connection) :
  conns !! c = Some k -> conn_open k -> conn_busy k = true ->
  process_command_line (strip_cr line) u = Ok (reply, u') ->
  exists k',
    on_line_read c (ReadLine line) {| srv_udb := u; srv_conns := conns; srv_log := lg |}
    = Ok (tt, {| srv_udb := u'; srv_conns := <[c:=k']> conns;
                 srv_log := lg ++ [PrintReceived (c_str (strip_cr line))] |})
    /\ conn_sent k' = conn_sent k
    /\ conn_reports k' = conn_reports k ++ [Refused (io_error G_IO_ERROR_PENDING)].
Proof.
  intros Hc [Hr Hrd] Hb Hp. erewrite on_line_read_line by done.
  unfold conn_after_reply, read_line_finish. rewrite Hrd. cbn.
  unfold g_output_stream_write_async. cbn. rewrite Hb. cbn. by eexists.
Qed.

Lemma on_line_read_end c res u conns lg k :
  conns !! c = Some k -> conn_open k ->
  match res with ReadLine _ => False | _ => True end ->
  on_line_read c res {| srv_udb := u; srv_conns := conns; srv_log := lg |}
  = Ok (tt, {| srv_udb := u; srv_conns := <[c:=conn_closed k]> conns;
               srv_log := lg ++ [match res with
                                 | ReadError e => WarnRead e
                                 | _ => PrintDisconnected
                                 end] |}).
Proof.
  intros Hc [Hr Hrd] Hres. unfold on_line_read.
  rewrite (on_conn_step _ _ _ _ _ _ _ Hc Hr). unfold read_line_finish. rewrite Hrd.
  destruct res as [line| |e]; [done|..]; cbn [o_bind]; rewrite log_step;
    (erewrite on_conn_Ok; [|apply lookup_insert_eq|done..]); by rewrite insert_insert_eq.
Qed.

(** C36. At the end of the input and on a read error the connection gives
    up its reference and issues no read; the table is not touched and
    what happened is printed. *)
Theorem on_line_read_closes (c : nat) (res : read_result) (u : udb_state)
    (conns : gmap nat connection) (lg : list log_entry) (k : connection) :
  conns !! c = Some k -> conn_open k ->
  match res with ReadLine _ => False | _ => True end ->
  on_line_read c res {| srv_udb := u; srv_conns := conns; srv_log := lg |}
  = Ok (tt, {| srv_udb := u; srv_conns := <[c:=conn_closed k]> conns;
               srv_log := lg ++ [match res with
                                 | ReadError e => WarnRead e
                                 | _ => PrintDisconnected
                                 end] |}).
Proof. apply on_line_read_end. Qed.

(** ** Theorems: the other connections *)

Lemma frames_ret {A} c (a : A) : frames c (st_ret a).
Proof. by intros s a' s' [= _ <-]. Qed.

Lemma frames_bind {A B} c (p : ST server_state A) (q : A -> ST server_state B) :
  frames c p -> (forall a, frames c (q a)) -> frames c (x <- p ;; q x).
Proof.
  intros Hp Hq s b s'. unfold st_bind.
  destruct (p s) as [[a s1]|] eqn:E; [cbn|done]. intros Hb c' Hc'.
  by rewrite (Hq a _ _ _ Hb c' Hc'), (Hp _ _ _ E c' Hc').
Qed.

Lemma frames_on_conn {A} c (f : ST connection A) : frames c (on_conn c f).
Proof.
  intros s a s'. unfold on_conn. destruct (srv_conns s !! c) as [k|]; [|done].
  case_bool_decide; [done|]. destruct (f k) as [[a' k']|]; [cbn|done].
  intros [= _ <-] c' Hc'. cbn. by rewrite lookup_insert_ne.
Qed.

Lemma frames_log c e : frames c (log e).
Proof. by intros s a s' [= _ <-]. Qed.

Lemma frames_on_udb {A} c (p : ST udb_state A) : frames c (on_udb p).
Proof.
  intros s a s'. unfold on_udb, zoom. destruct (p (srv_udb s)) as [[??]|]; [|done].
  by intros [= _ <-].
Qed.

Lemma frames_on_line_read c res : frames c (on_line_read c res).
Proof.
  unfold on_line_read. apply frames_bind; [apply frames_on_conn|]. intros _.
  destruct res; repeat (apply frames_bind; intros);
    auto using frames_on_conn, frames_log, frames_on_udb.
Qed.

(** A callback of a connection leaves the other connections as
    they are: what they were sent, their references and their reads. *)
Lemma on_line_read_frames (c c' : nat) (res : read_result) (s s' : server_state) :
  on_line_read c res s = Ok (tt, s') -> c' <> c ->
  srv_conns s' !! c' = srv_conns s !! c'.
Proof. intros Hs. exact (frames_on_line_read c res s tt s' Hs c'). Qed.

(** ** Lemmas: sessions *)

(** The buffer of a line that is a C string and ends with a carriage
    return: the line, a NUL where the carriage return was, and the
    terminator behind it. *)
Lemma strip_cr_cr line :
  is_c_str line ->
  strip_cr (line +:+ String "013" EmptyString) = line +:+ String NUL EmptyString.
Proof.
  intros Hc. unfold strip_cr.
  assert (is_c_str (line +:+ String "013" EmptyString)) as ->.
  { apply is_c_str_app. by split. }
  rewrite (proj2 (g_str_has_suffix_spec _ _)) by eauto.
  rewrite strlen_app. cbn [strlen String.length]. fold (strlen line).
  replace (strlen line + 1 - 1)%nat with (strlen line) by lia.
  rewrite str_take_app. f_equal. f_equal.
  pose proof (str_drop_app (line +:+ String "013" EmptyString) EmptyString) as Hd.
  by rewrite str_app_nil_r, strlen_app in Hd.
Qed.

Lemma c_str_app_NUL line rest : is_c_str line -> c_str (line +:+ String NUL rest) = line.
Proof.
  intros Hc. induction line as [|c line IH]; [done|].
  apply is_c_str_cons in Hc as [Hn Hc]. rewrite str_app_cons. cbn [c_str].
  by rewrite bool_decide_eq_false_2, IH.
Qed.

Lemma strip_cr_client_line r :
  writable r -> strip_cr (client_line r) = render r +:+ String NUL EmptyString.
Proof. intros Hw. by apply strip_cr_cr, is_c_str_render. Qed.

Lemma on_write_done_finished c w u conns lg k :
  conns !! c = Some k -> conn_reports k = [Finished (Written w)] ->
  on_write_done c {| srv_udb := u; srv_conns := conns; srv_log := lg |}
  = Ok (tt, {| srv_udb := u;
               srv_conns :=
                 <[c:={| conn_refs := conn_refs k; conn_reading := conn_reading k;
                         conn_sent := conn_sent k; conn_room := conn_room k;
                         conn_busy := false; conn_waiting := conn_waiting k;
                         conn_reports := [] |}]> conns;
               srv_log := lg |}).
Proof.
  intros Hc Hrep. unfold on_write_done.
  rewrite (on_stream_step _ _ _ _ _ _ _ Hc). unfold next_report. by rewrite Hrep.
Qed.

Lemma run_events_app es1 es2 s :
  run_events (es1 ++ es2) s = olet '(_, s') := run_events es1 s in run_events es2 s'.
Proof.
  revert s. induction es1 as [|e es1 IH]; intros s; [by destruct (run_events es2 s) as [[[] ?]|]|].
  cbn [app run_events]. unfold st_bind. destruct (dispatch e s) as [[[] s1]|]; [|done].
  apply IH.
Qed.

(** One request of an idle client. *)
Lemma serve_request c r m sc conns lg k :
  scanner_ready sc -> acceptable r -> conns !! c = Some k -> conn_idle k ->
  (strlen (request_reply r m) <= conn_room k)%nat ->
  exists sc',
    run_events (request_events c r) (server_of m sc conns lg)
    = Ok (tt, server_of (request_apply r m) sc'
                (<[c:=conn_served (request_reply r m) k]> conns)
                (lg ++ [PrintReceived (render r)]))
    /\ scanner_ready sc'.
Proof.
  intros Hsc Hr Hc ([Hrefs Hrd] & Hb & Hw & Hrep) Hroom.
  destruct (request_served_tail r (String NUL EmptyString) m sc Hsc Hr) as (sc' & Hp & Hsc').
  { rewrite strlen_app. destruct Hr as (_ & Hf & _). unfold fits_guint in Hf.
    cbn [strlen String.length]. lia. }
  exists sc'. split; [|done].
  cbn [run_events request_events dispatch]. unfold st_bind at 1, server_of.
  erewrite on_line_read_line; [|done..|by rewrite strip_cr_client_line by apply Hr].
  rewrite conn_after_reply_room; [|done..|].
  2:{ apply ends_crlf_nonempty, request_reply_crlf. by destruct r, Hr as ([]&?&?). }
  cbn [o_bind]. unfold st_bind.
  erewrite on_write_done_finished; [|apply lookup_insert_eq|by cbn; rewrite Hrep].
  cbn. rewrite insert_insert_eq, strip_cr_client_line by apply Hr.
  by rewrite c_str_app_NUL by apply is_c_str_render, Hr.
Qed.

Lemma session_ready_step c r es m conns k :
  session_ready ((c, r) :: es) m conns -> conns !! c = Some k ->
  session_ready es (request_apply r m) (<[c:=conn_served (request_reply r m) k]> conns).
Proof.
  intros [Hes Hconns] Hc. pose proof (Hconns _ _ Hc) as [Hk Hroom].
  apply Forall_cons in Hes as [_ Hes]. split.
  - eapply Forall_impl; [done|]. intros [c' r'] [? Hin]. split; [done|].
    cbn. apply lookup_insert_is_Some'. by right.
  - apply map_Forall_insert_2.
    + cbn in *. split; [|lia]. by destruct Hk as ([??]&?&?&?).
    + intros c' k' [? ?]%Hconns. cbn in *. split; [done|lia].
Qed.

(** A session, by the events of its requests. *)
Lemma run_session es m sc conns lg :
  scanner_ready sc -> session_ready es m conns ->
  exists sc' conns',
    run_events (session_events es) (server_of m sc conns lg)
    = Ok (tt, server_of (spec_requests es.*2 m).2 sc' conns'
                (lg ++ map (fun e => PrintReceived (render e.2)) es))
    /\ scanner_ready sc'
    /\ forall c k, conns !! c = Some k ->
         exists k', conns' !! c = Some k' /\ conn_idle k'
                    /\ conn_sent k' = conn_sent k +:+ replies_to c es m.
Proof.
  intros Hsc Hes. revert m sc conns lg Hsc Hes.
  induction es as [|[c r] es IH]; intros m sc conns lg Hsc Hes.
  { exists sc, conns. rewrite app_nil_r. split_and!; [done..|]. intros c k Hc.
    exists k. split_and!; [done| |by rewrite str_app_nil_r]. by apply Hes in Hc as []. }
  pose proof Hes as [[[Hr [k Hc]] _]%Forall_cons Hconns].
  pose proof (Hconns _ _ Hc) as [Hk Hroom]. cbn in Hr, Hc, Hroom.
  destruct (serve_request c r m sc conns lg k) as (sc1 & Hrun & Hsc1); [done..|lia|].
  destruct (IH _ _ _ (lg ++ [PrintReceived (render r)]) Hsc1
              (session_ready_step _ _ _ _ _ _ Hes Hc))
    as (sc' & conns' & Hrest & Hsc' & Hsent).
  exists sc', conns'. split_and!; [|done|].
  - cbn [session_events fmap list_fmap map]. rewrite run_events_app, Hrun. cbn [o_bind].
    rewrite Hrest. cbn [spec_requests]. rewrite <-app_assoc.
    by destruct (spec_requests _ _).
  - intros c0 k0 Hc0. cbn [replies_to]. destruct (decide (c = c0)) as [->|Hne].
    + destruct (Hsent c0 _ (lookup_insert_eq _ _ _)) as (k' & ? & ? & Hs).
      exists k'. rewrite Hc in Hc0. injection Hc0 as ->. split_and!; [done..|].
      rewrite Hs. cbn. by rewrite str_app_assoc.
    + apply Hsent. by rewrite lookup_insert_ne.
Qed.

(** ** Theorems: sessions *)

(** C9. Clients served one line at a time: whatever the order in which
    the main loop reads the requests of the connected clients, the
    table at the end is the one the finite map has after the requests
    in that order, each client was sent exactly the replies to its own
    requests, in order, every line was printed, and every connection
    waits for its next line. *)
Theorem session_refines (es : list (nat * request)) (m : table) (sc : GScanner)
    (conns : gmap nat connection) (lg : list log_entry) :
  scanner_ready sc -> session_ready es m conns ->
  exists sc' conns',
    run_events (session_events es) (server_of m sc conns lg)
    = Ok (tt, server_of (spec_requests es.*2 m).2 sc' conns'
                (lg ++ map (fun e => PrintReceived (render e.2)) es))
    /\ scanner_ready sc'
    /\ forall c k, conns !! c = Some k ->
         exists k', conns' !! c = Some k' /\ conn_idle k'
                    /\ conn_sent k' = conn_sent k +:+ replies_to c es m.
Proof. apply run_session. Qed.

(** Writes to one key, one after the other: the last one stays. *)
Lemma spec_requests_sets key (vs : list string) (v : string) (m : table) :
  (spec_requests (ReqSet key <$> vs ++ [v]) m).2 = <[key:=v]> m.
Proof.
  revert m. induction vs as [|a vs IH]; intros m; [done|].
  cbn [app fmap list_fmap spec_requests request_apply]. specialize (IH (<[key:=a]> m)).
  destruct (spec_requests _ _) as [replies m']. cbn in *. by rewrite IH, insert_insert_eq.
Qed.

(** C17. Writes of several clients to the same key, served in any
    order: every client is answered, and the table holds the key with
    the value of the write that was served last, and nothing else
    changed. *)
Theorem racing_sets (key : string) (cvs : list (nat * string)) (c : nat) (v : string)
    (m : table) (sc : GScanner) (conns : gmap nat connection) (lg : list log_entry) :
  let es := (fun cv => (cv.1, ReqSet key cv.2)) <$> cvs ++ [(c, v)] in
  scanner_ready sc -> session_ready es m conns ->
  exists sc' conns',
    run_events (session_events es) (server_of m sc conns lg)
    = Ok (tt, server_of (<[key:=v]> m) sc' conns'
                (lg ++ map (fun e => PrintReceived (render e.2)) es))
    /\ forall c k, conns !! c = Some k ->
         exists k', conns' !! c = Some k' /\ conn_idle k'
                    /\ conn_sent k' = conn_sent k +:+ replies_to c es m.
Proof.
  intros es Hsc Hes.
  destruct (run_session es m sc conns lg Hsc Hes) as (sc' & conns' & Hrun & _ & Hsent).
  exists sc', conns'. split; [|done]. rewrite Hrun. do 3 f_equal. subst es.
  rewrite <-(spec_requests_sets key cvs.*2 v m). do 2 f_equal.
  replace (cvs.*2 ++ [v]) with ((cvs ++ [(c, v)]).*2) by (by rewrite fmap_app).
  by rewrite <-!list_fmap_compose.
Qed.

(** ** Theorems: the life of a connection *)

(** A client connects: the connection waits for its first line, with
    the reference of [on_incoming]. *)
Lemma incoming_new c room u conns lg :
  conns !! c = None ->
  incoming c room {| srv_udb := u; srv_conns := conns; srv_log := lg |}
  = Ok (tt, {| srv_udb := u;
               srv_conns :=
                 <[c:={| conn_refs := 1; conn_reading := true; conn_sent := EmptyString;
                         conn_room := room; conn_busy := false; conn_waiting := None;
                         conn_reports := [] |}]> conns;
               srv_log := lg |}).
Proof.
  intros Hc. unfold incoming, st_bind at 1. cbn. rewrite Hc. cbn.
  unfold on_incoming, on_conn, st_bind. cbn.
  do 4 (rewrite ?lookup_insert_eq, ?(bool_decide_eq_false_2 (_ = 0%nat)) by done; cbn).
  unfold set_srv_conns. cbn. by rewrite !insert_insert_eq.
Qed.

(** A client that connects and closes without a line: [on_incoming]
    takes a reference and issues the first read, the service drops its
    own, and the end of the input gives the last reference back, so the
    connection is released; the table is not touched. *)
Lemma connection_released (c room : nat) (u : udb_state) (conns : gmap nat connection)
    (lg : list log_entry) :
  conns !! c = None ->
  run_events [EvIncoming c room; EvRead c ReadEof]
    {| srv_udb := u; srv_conns := conns; srv_log := lg |}
  = Ok (tt, {| srv_udb := u;
               srv_conns := <[c:={| conn_refs := 0; conn_reading := false; conn_sent := EmptyString;
                         conn_room := room; conn_busy := false; conn_waiting := None;
                         conn_reports := [] |}]> conns;
               srv_log := lg ++ [PrintDisconnected] |}).
Proof.
  intros Hc. cbn [run_events dispatch]. unfold st_bind. rewrite incoming_new by done.
  erewrite on_line_read_end; [|apply lookup_insert_eq|done..].
  by rewrite insert_insert_eq.
Qed.

End callbacks.

(** ** Examples *)

Section examples.
#[local] Existing Instance example_config.
#[local] Existing Instance decimal_float_format.

(** A connection that waits for a line, with a socket that takes [room]
    bytes. *)
Definition example_conn (room : nat) : connection :=
  {| conn_refs := 1; conn_reading := true; conn_sent := EmptyString; conn_room := room;
     conn_busy := false; conn_waiting := None; conn_reports := [] |}.

(** The scanner after the request of a line that ended with a carriage
    return: the NUL that was written over it is not read. *)
Definition scanner_after_cr (line v : string) : GScanner :=
  {| sc_config := udb_scanner_config; sc_text := String NUL EmptyString;
     sc_end := AtTerm (2 ^ 32 - 1 - Z.of_nat (strlen line) - 1);
     sc_token := G_TOKEN_STRING; sc_value := V_string v |}.

(** Two clients and the table with one key. *)
Definition example_conns : gmap nat connection :=
  {[ 0%nat := example_conn 100; 1%nat := example_conn 100 ]}.

Definition example_server : server_state :=
  server_of {["k" := "value"]} example_sc example_conns [].

Lemma on_line_read_served_witness :
  on_line_read 0 (ReadLine (client_line (ReqGet "k"))) example_server
  = Ok (tt, server_of {["k" := "value"]} (scanner_after_cr (render_get "k") "k")
              (<[0%nat:=conn_replied (reply_value "value") (example_conn 100)]> example_conns)
              [PrintReceived (render_get "k")]).
Proof.
  etrans; [|shelve].
  apply (on_line_read_served 0 (client_line (ReqGet "k")) {["k" := "value"]} example_sc
           (scanner_after_cr (render_get "k") "k") (ReqGet "k") example_conns []
           (example_conn 100)); [done|by split|done|by vm_compute|vm_compute; lia].
  Unshelve. by vm_compute.
Defined.

(** The end of the line decides whether a key of one letter without
    quotes is read: with a carriage return before the line feed, the
    NUL written over it ends the word inside the buffer and the request
    is served; with the line feed alone the scanner reads behind the
    line. *)
Example one_letter_key_line_ends :
  match on_line_read 0 (ReadLine ("GET k" +:+ String "013" EmptyString)) example_server with
  | Ok (_, s') => conn_sent <$> srv_conns s' !! 0%nat = Some (reply_value "value")
  | Fault _ => False
  end
  /\ on_line_read 0 (ReadLine "GET k") example_server = Fault Undefined.
Proof. by vm_compute. Qed.

Lemma on_line_read_short_write_witness :
  on_line_read 0 (ReadLine (client_line (ReqGet "k")))
    (server_of {["k" := "value"]} example_sc {[0%nat := example_conn 3]} [])
  = Ok (tt, {| srv_udb := udb_of {["k" := "value"]} (scanner_after_cr (render_get "k") "k");
               srv_conns :=
                 <[0%nat:={| conn_refs := 1; conn_reading := true; conn_sent := "val";
                             conn_room := 0; conn_busy := true; conn_waiting := None;
                             conn_reports := [Finished (Written 3)] |}]>
                   {[0%nat := example_conn 3]};
               srv_log := [PrintReceived (render_get "k")] |}).
Proof.
  etrans; [|shelve].
  apply (on_line_read_short_write 0 (client_line (ReqGet "k")) (reply_value "value")
           (udb_of {["k" := "value"]} example_sc)
           (udb_of {["k" := "value"]} (scanner_after_cr (render_get "k") "k"))
           {[0%nat := example_conn 3]} []
           (example_conn 3)); [done|by split|done|by vm_compute|vm_compute; lia].
  Unshelve. by vm_compute.
Defined.

Lemma on_line_read_use_after_free_witness :
  (on_line_read 0 (ReadLine (client_line (ReqGet "k"))) ;; socket_ready 0 8)
    (server_of {["k" := "value"]} example_sc {[0%nat := example_conn 0]} [])
  = Fault Undefined.
Proof.
  apply (on_line_read_use_after_free 0 (client_line (ReqGet "k")) (reply_value "value")
           (udb_of {["k" := "value"]} example_sc)
           (udb_of {["k" := "value"]} (scanner_after_cr (render_get "k") "k"))
           {[0%nat := example_conn 0]} [] (example_conn 0) 8);
    [done|by split|done|done|by vm_compute|lia].
Defined.

(** A connection whose write still waits for the socket. *)
Definition example_busy_conn : connection :=
  {| conn_refs := 1; conn_reading := true; conn_sent := EmptyString; conn_room := 0;
     conn_busy := true; conn_waiting := Some Dangling; conn_reports := [] |}.

Lemma on_line_read_refused_witness :
  exists k',
    on_line_read 0 (ReadLine (client_line (ReqDel "k")))
      {| srv_udb := udb_of {["k" := "value"]} example_sc;
         srv_conns := {[0%nat := example_busy_conn]}; srv_log := [] |}
    = Ok (tt, {| srv_udb := udb_of ∅ (scanner_after_cr (render_del "k") "k");
                 srv_conns := <[0%nat:=k']> {[0%nat := example_busy_conn]};
                 srv_log := [] ++ [PrintReceived (c_str (strip_cr (client_line (ReqDel "k"))))] |})
    /\ conn_sent k' = conn_sent example_busy_conn
    /\ conn_reports k'
       = conn_reports example_busy_conn ++ [Refused (io_error G_IO_ERROR_PENDING)].
Proof.
  apply (on_line_read_refused 0 (client_line (ReqDel "k")) reply_ok
           (udb_of {["k" := "value"]} example_sc)
           (udb_of ∅ (scanner_after_cr (render_del "k") "k"))
           {[0%nat := example_busy_conn]} [] example_busy_conn);
    [done|by split|done|by vm_compute].
Defined.

Lemma on_line_read_closes_witness :
  on_line_read 1 ReadEof example_server
  = Ok (tt, {| srv_udb := srv_udb example_server;
               srv_conns := <[1%nat:=conn_closed (example_conn 100)]> example_conns;
               srv_log := [] ++ [PrintDisconnected] |}).
Proof.
  by apply (on_line_read_closes 1 ReadEof (srv_udb example_server) example_conns []
              (example_conn 100)).
Defined.

Lemma on_line_read_frames_witness :
  srv_conns {| srv_udb := srv_udb example_server;
               srv_conns := <[1%nat:=conn_closed (example_conn 100)]> example_conns;
               srv_log := [PrintDisconnected] |} !! 0%nat
  = srv_conns example_server !! 0%nat.
Proof. by apply (on_line_read_frames 1 0 ReadEof example_server); [vm_compute|]. Defined.

(** Two clients that write the same key in turn. *)
Definition example_interleaving : list (nat * request) :=
  [(0%nat, ReqSet "k" "zero"); (1%nat, ReqSet "k" "one"); (0%nat, ReqGet "k");
   (1%nat, ReqDel "k"); (0%nat, ReqGet "k")].

Lemma session_refines_witness :
  exists sc' conns',
    run_events (session_events example_interleaving) example_server
    = Ok (tt, server_of (spec_requests example_interleaving.*2 {["k" := "value"]}).2 sc' conns'
                ([] ++ map (fun e => PrintReceived (render e.2)) example_interleaving))
    /\ scanner_ready sc'
    /\ forall c k, example_conns !! c = Some k ->
         exists k', conns' !! c = Some k' /\ conn_idle k'
                    /\ conn_sent k'
                       = conn_sent k +:+ replies_to c example_interleaving {["k" := "value"]}.
Proof.
  apply (session_refines example_interleaving {["k" := "value"]} example_sc example_conns []);
    [done|]. split.
  - repeat apply Forall_cons_2; [(split; [acceptable_by_computation|vm_compute; by eexists])..|done].
  - apply map_Forall_insert_2; [|apply map_Forall_singleton];
      (split; [by repeat split|vm_compute; lia]).
Defined.

Lemma racing_sets_witness :
  let es := (fun cv : nat * string => (cv.1, ReqSet "k" cv.2))
              <$> [(0%nat, "one")] ++ [(1%nat, "two")] in
  exists sc' conns',
    run_events (session_events es) (server_of ∅ example_sc example_conns [])
    = Ok (tt, server_of (<["k":="two"]> ∅) sc' conns'
                ([] ++ map (fun e => PrintReceived (render e.2)) es))
    /\ forall c k, example_conns !! c = Some k ->
         exists k', conns' !! c = Some k' /\ conn_idle k'
                    /\ conn_sent k' = conn_sent k +:+ replies_to c es ∅.
Proof.
  apply (racing_sets "k" [(0%nat, "one")] 1 "two" ∅ example_sc example_conns []); [done|].
  split.
  - repeat apply Forall_cons_2; [(split; [acceptable_by_computation|vm_compute; by eexists])..|done].
  - apply map_Forall_insert_2; [|apply map_Forall_singleton];
      (split; [by repeat split|vm_compute; lia]).
Defined.

Lemma connection_released_witness :
  run_events [EvIncoming 2 10; EvRead 2 ReadEof] example_server
  = Ok (tt, {| srv_udb := srv_udb example_server;
               srv_conns :=
                 <[2%nat:={| conn_refs := 0; conn_reading := false; conn_sent := EmptyString;
                             conn_room := 10; conn_busy := false; conn_waiting := None;
                             conn_reports := [] |}]> example_conns;
               srv_log := [] ++ [PrintDisconnected] |}).
Proof. by apply (connection_released 2 10 (srv_udb example_server) example_conns []). Defined.

(** Two clients that write the same key in turn: the last write
    read by the main loop is the one the table keeps, and each client is
    sent the replies to its own requests. *)
Example interleaved_session :
  (olet '(_, s) := run_events (session_events example_interleaving) example_server in
   Ok (udb_db (srv_udb s), conn_sent <$> srv_conns s))
  = Ok (db_of ∅,
        {[ 0%nat := "OK" +:+ CRLF +:+ "one" +:+ CRLF +:+ "NULL" +:+ CRLF;
           1%nat := "OK" +:+ CRLF +:+ "OK" +:+ CRLF ]}).
Proof. by vm_compute. Qed.

End examples.
