(* ===== verification/Isolation.v ===== *)
(** * Isolation: what the scanner read before does not matter

    The process has one [GScanner] for the lines of every connection
    (src/udb.c lines 207-208).  [process_command_line] (lines 384-416)
    starts with [g_scanner_input_text], which replaces the text, the
    position and the current token of the scanner: of the scanner it
    was left by the line before, only the configuration is used.  This
    file states that as an equivalence of states ([≡]: equal but for
    what the scanner read last) under which [process_command_line] and
    the callbacks of [Connection] are [Proper]. *)

From stdpp Require Import base strings gmap list.
From S2P Require Import Prelude CString Mutex Store Scanner Printf Handlers Protocol.
From S2P Require Import Connection.

Open Scope string_scope.
Open Scope udb_scope.

(** ** The equivalence *)

(** Scanners with the same configuration. *)
#[export] Instance scanner_equiv : Equiv GScanner :=
  fun sc1 sc2 => sc_config sc1 = sc_config sc2.

(** Pointers of the same kind to equivalent objects. *)
#[export] Instance handle_equiv {A} `{Equiv A} : Equiv (handle A) :=
  fun h1 h2 =>
    match h1, h2 with
    | Live a, Live b => a ≡ b
    | Null, Null | Dangling, Dangling => True
    | _, _ => False
    end.

#[export] Instance scanner_state_equiv : Equiv scanner_state :=
  fun s1 s2 => udb_scanner s1 ≡ udb_scanner s2 /\ scanner_mutex s1 = scanner_mutex s2.

#[export] Instance udb_state_equiv : Equiv udb_state :=
  fun s1 s2 => udb_db s1 = udb_db s2 /\ udb_sc s1 ≡ udb_sc s2.

#[export] Instance server_state_equiv : Equiv server_state :=
  fun s1 s2 => srv_udb s1 ≡ srv_udb s2 /\ srv_conns s1 = srv_conns s2
               /\ srv_log s1 = srv_log s2.

(** Outcomes with the same result, or the same fault, and equivalent
    states. *)
#[export] Instance outcome_equiv {A S} `{Equiv S} : Equiv (outcome (A * S)) :=
  fun o1 o2 =>
    match o1, o2 with
    | Ok (a1, s1), Ok (a2, s2) => a1 = a2 /\ s1 ≡ s2
    | Fault f1, Fault f2 => f1 = f2
    | _, _ => False
    end.

#[export] Instance scanner_equivalence : Equivalence (≡@{GScanner}).
Proof. unfold equiv, scanner_equiv. split; red; congruence. Qed.

#[export] Instance handle_equivalence {A} `{Equiv A} :
  Equivalence (≡@{A}) -> Equivalence (≡@{handle A}).
Proof.
  intros HA. split.
  - intros []; cbn; reflexivity.
  - intros [] []; cbn; try done; by symmetry.
  - intros [] [] []; cbn; try done; by etrans.
Qed.

#[export] Instance scanner_state_equivalence : Equivalence (≡@{scanner_state}).
Proof.
  split.
  - by intros ?.
  - by intros ?? [??].
  - intros ??? [??] [??]. split; by etrans.
Qed.

#[export] Instance udb_state_equivalence : Equivalence (≡@{udb_state}).
Proof.
  split.
  - by intros ?.
  - by intros ?? [??].
  - intros ??? [??] [??]. split; by etrans.
Qed.

#[export] Instance server_state_equivalence : Equivalence (≡@{server_state}).
Proof.
  split.
  - by intros ?.
  - by intros ?? (? & ? & ?).
  - intros ??? (? & ? & ?) (? & ? & ?). split_and!; by etrans.
Qed.

#[export] Instance outcome_equivalence {A S} `{Equiv S} :
  Equivalence (≡@{S}) -> Equivalence (≡@{outcome (A * S)}).
Proof.
  intros HS. split.
  - intros [[??]|]; cbn; [split|]; reflexivity.
  - intros [[??]|] [[??]|]; cbn; try done; by intros [??].
  - intros [[??]|] [[??]|] [[??]|]; cbn; try done; try congruence.
    intros [??] [??]. split; by etrans.
Qed.

(** ** A scanner of its own for every line *)

(** The server with a new scanner for every callback, made with the
    configuration of the one it replaces: what section 9 of the
    specification recommends in place of the shared scanner. *)
Definition renew (h : handle GScanner) : handle GScanner :=
  match h with
  | Live sc => Live (g_scanner_new (sc_config sc))
  | Null | Dangling => h
  end.

Definition renew_scanner : ST server_state unit :=
  st_modify (fun s =>
    set_srv_udb
      (set_udb_sc {| udb_scanner := renew (udb_scanner (udb_sc (srv_udb s)));
                     scanner_mutex := scanner_mutex (udb_sc (srv_udb s)) |}
         (srv_udb s)) s).

Section renewed.
Context `{UdbConfig} `{FloatFormat}.

Fixpoint run_events_renewed (es : list event) : ST server_state unit :=
  match es with
  | [] => st_ret tt
  | e :: es => renew_scanner ;; dispatch e ;; run_events_renewed es
  end.

End renewed.

(** ** Lemmas: computations that respect the equivalence *)

(** The laws of the monad. *)
Lemma st_ret_proper {S A} `{Equiv S} (a : A) : Proper ((≡) ==> (≡)) (st_ret (S:=S) a).
Proof. intros s1 s2 Hs. by split. Qed.

Lemma st_bind_proper {S A B} `{Equiv S} (c : ST S A) (k : A -> ST S B) :
  Proper ((≡) ==> (≡)) c -> (forall a, Proper ((≡) ==> (≡)) (k a)) ->
  Proper ((≡) ==> (≡)) (st_bind c k).
Proof.
  intros Hc Hk s1 s2 Hs. specialize (Hc s1 s2 Hs). unfold st_bind.
  destruct (c s1) as [[a1 t1]|f1], (c s2) as [[a2 t2]|f2]; try done.
  destruct Hc as [-> Ht]. by apply Hk.
Qed.

(** Computations that agree on a prefix agree. *)
Lemma st_bind_prefix {S A B} (c : ST S A) (k : A -> ST S B) s1 s2 :
  c s1 = c s2 -> st_bind c k s1 = st_bind c k s2.
Proof. unfold st_bind. by intros ->. Qed.

(** A computation whose result does not tell equivalent states apart
    respects the equivalence. *)
Lemma eq_proper {S A} `{Equiv S} (c : ST S A) :
  Equivalence (≡@{S}) -> Proper ((≡) ==> (=)) c -> Proper ((≡) ==> (≡)) c.
Proof. intros HS Hc s1 s2 Hs. by rewrite (Hc s1 s2 Hs). Qed.

(** ** Lemmas: one request line *)

#[export] Instance input_text_proper text len : Proper ((≡) ==> (=)) (input_text text len).
Proof. intros sc1 sc2 Hsc. unfold input_text. by rewrite Hsc. Qed.

Section isolation.
Context `{UdbConfig} `{FloatFormat}.

(** After the lock is taken and the line is given to the scanner,
    equivalent states are equal. *)
Lemma input_prefix_equiv line len (s1 s2 : udb_state) :
  s1 ≡ s2 ->
  (on_scanner_lock g_mutex_lock ;; on_scanner (g_scanner_input_text line len)) s1
  = (on_scanner_lock g_mutex_lock ;; on_scanner (g_scanner_input_text line len)) s2.
Proof.
  destruct s1 as [db1 [h1 mu1]], s2 as [db2 [h2 mu2]]. intros [Hdb [Hh Hmu]].
  cbn in Hdb, Hh, Hmu. subst db2 mu2.
  unfold st_bind, on_scanner_lock, on_scanner, on_scanner_mutex, on_udb_scanner, zoom.
  cbn [udb_sc scanner_mutex udb_scanner set_udb_sc set_scanner_mutex set_udb_scanner].
  destruct mu1; cbn [g_mutex_lock]; [|reflexivity..].
  cbn [udb_sc scanner_mutex udb_scanner set_udb_sc set_scanner_mutex set_udb_scanner].
  destruct h1 as [|sc1|], h2 as [|sc2|]; try contradiction; cbn [g_scanner_input_text];
    [reflexivity| |reflexivity].
  by rewrite (input_text_proper line len sc1 sc2 Hh).
Qed.

#[export] Instance process_command_line_len_proper len line :
  Proper ((≡) ==> (=)) (process_command_line_len len line).
Proof.
  intros s1 s2 Hs. unfold process_command_line_len.
  rewrite <-!(st_bind_assoc (on_scanner_lock g_mutex_lock)
                (fun _ => on_scanner (g_scanner_input_text line len))).
  apply st_bind_prefix, input_prefix_equiv, Hs.
Qed.

#[export] Instance process_command_line_proper line :
  Proper ((≡) ==> (=)) (process_command_line line).
Proof. apply process_command_line_len_proper. Qed.

(** ** Lemmas: the callbacks *)

(** What is printed, and a call on a connection or on its stream, do
    not look at the scanner. *)
Lemma log_proper e : Proper ((≡) ==> (≡)) (log e).
Proof. intros s1 s2 (Hu & Hc & Hl). cbn. split; [done|]. split_and!; cbn; congruence. Qed.

Lemma on_conn_proper {A} c (f : ST connection A) : Proper ((≡) ==> (≡)) (on_conn c f).
Proof.
  intros s1 s2 (Hu & Hc & Hl). unfold on_conn. rewrite <-Hc.
  destruct (srv_conns s1 !! c) as [k|]; [|done]. case_bool_decide; [done|].
  destruct (f k) as [[a k']|]; [|done]. cbn. split; [done|]. split_and!; cbn; congruence.
Qed.

Lemma on_stream_proper {A} c (f : ST connection A) : Proper ((≡) ==> (≡)) (on_stream c f).
Proof.
  intros s1 s2 (Hu & Hc & Hl). unfold on_stream. rewrite <-Hc.
  destruct (srv_conns s1 !! c) as [k|]; [|done].
  destruct (f k) as [[a k']|]; [|done]. cbn. split; [done|]. split_and!; cbn; congruence.
Qed.

(** A call into the store and the scanner that does not tell
    equivalent states apart. *)
Lemma on_udb_proper {A} (c : ST udb_state A) :
  Proper ((≡) ==> (=)) c -> Proper ((≡) ==> (≡)) (on_udb c).
Proof.
  intros Hc s1 s2 (Hu & Hk & Hl). unfold on_udb, zoom. rewrite (Hc _ _ Hu).
  destruct (c (srv_udb s2)) as [[a u]|]; [|done]. cbn. split; [done|]. by split_and!.
Qed.

#[export] Instance on_write_done_proper c : Proper ((≡) ==> (≡)) (on_write_done c).
Proof.
  apply st_bind_proper; [apply on_stream_proper|].
  intros [[[]|]|]; (apply log_proper || by apply st_ret_proper).
Qed.

#[export] Instance on_line_read_proper c res : Proper ((≡) ==> (≡)) (on_line_read c res).
Proof.
  apply st_bind_proper; [apply on_conn_proper|]. intros _.
  destruct res; repeat first
    [ apply on_conn_proper | apply log_proper
    | apply on_udb_proper, process_command_line_proper
    | apply st_bind_proper; [|intros ?] ].
Qed.

#[export] Instance on_incoming_proper c : Proper ((≡) ==> (≡)) (on_incoming c).
Proof.
  repeat first [ apply on_conn_proper | by apply st_ret_proper
               | apply st_bind_proper; [|intros ?] ].
Qed.

#[export] Instance incoming_proper c room : Proper ((≡) ==> (≡)) (incoming c room).
Proof.
  intros s1 s2 Hs. pose proof Hs as (Hu & Hc & Hl). unfold incoming.
  rewrite !(st_bind_Ok st_get _ _ _ _ eq_refl), <-Hc.
  destruct (srv_conns s1 !! c); [done|].
  rewrite !(st_bind_Ok (st_put _) _ _ _ _ eq_refl).
  apply (st_bind_proper (on_incoming c) (fun _ => on_conn c g_object_unref));
    [apply on_incoming_proper|intros ?; apply on_conn_proper|].
  unfold set_srv_conns. by split_and!.
Qed.

#[export] Instance dispatch_proper e : Proper ((≡) ==> (≡)) (dispatch e).
Proof. destruct e; cbn [dispatch]; [apply _..|]. apply on_stream_proper. Qed.

#[export] Instance run_events_proper es : Proper ((≡) ==> (≡)) (run_events es).
Proof.
  induction es as [|e es IH]; [by apply st_ret_proper|].
  apply st_bind_proper; [apply _|done].
Qed.

(** A new scanner is equivalent to the one it replaces. *)
Lemma renew_scanner_equiv s : exists s', renew_scanner s = Ok (tt, s') /\ s' ≡ s.
Proof.
  eexists. split; [done|]. split; [|by split]. split; [done|]. split; [|done].
  cbn. destruct (udb_scanner (udb_sc (srv_udb s))); cbn; done.
Qed.

Lemma run_events_renewed_equiv es s1 s2 :
  s1 ≡ s2 -> run_events_renewed es s1 ≡ run_events es s2.
Proof.
  revert s1 s2. induction es as [|e es IH]; intros s1 s2 Hs; [by apply st_ret_proper|].
  cbn [run_events_renewed run_events].
  destruct (renew_scanner_equiv s1) as (s1' & Hr & Hs1). rewrite (st_bind_Ok _ _ _ _ _ Hr).
  assert (dispatch e s1' ≡ dispatch e s2) as Hd by (by rewrite Hs1, Hs).
  unfold st_bind. destruct (dispatch e s1') as [[[] t1]|], (dispatch e s2) as [[[] t2]|];
    try done. by apply IH, Hd.
Qed.

(** ** Theorems *)

(** C15. A request line is served with no regard to what the scanner
    read before: from two states with the same table and locks, whose
    scanners differ only in the text, the position and the token the
    last line left, [process_command_line] gives the same reply and
    the same state, or the same fault. *)
Theorem process_command_line_isolated (line : string) (s1 s2 : udb_state) :
  s1 ≡ s2 -> process_command_line line s1 = process_command_line line s2.
Proof. apply process_command_line_proper. Qed.

(** C16. One scanner for all lines or a new one for each line: the
    server with the shared scanner and the server that makes a scanner
    for every callback print the same, send every client the same
    bytes and leave the same table, whatever the events. *)
Theorem run_events_renewed_agree (es : list event) (s : server_state) :
  run_events_renewed es s ≡ run_events es s.
Proof. by apply run_events_renewed_equiv. Qed.

End isolation.

(** ** Examples *)

Section examples.
#[local] Existing Instance example_config.
#[local] Existing Instance decimal_float_format.

(** The scanner as the line [SET other "x y"] left it. *)
Definition example_used_sc : GScanner :=
  scanner_after (render_set "other" "x y") "x y".

Lemma process_command_line_isolated_witness :
  process_command_line (render_get "k") (udb_of {["k" := "value"]} example_used_sc)
  = process_command_line (render_get "k") (udb_of {["k" := "value"]} example_sc).
Proof.
  apply (process_command_line_isolated (render_get "k")
           (udb_of {["k" := "value"]} example_used_sc) (udb_of {["k" := "value"]} example_sc)).
  by repeat split.
Defined.

(** Two clients, one scanner or a scanner for every line: the same
    replies. *)
Example renewed_session :
  (olet '(_, s) := run_events_renewed (session_events example_interleaving) example_server in
   Ok (conn_sent <$> srv_conns s))
  = (olet '(_, s) := run_events (session_events example_interleaving) example_server in
     Ok (conn_sent <$> srv_conns s)).
Proof. by vm_compute. Qed.

End examples.
