(* ===== verification/Lifecycle.v ===== *)
(** * Lifecycle: start, timers, SIGINT and exit

    src/udb.c lines 11-12 (the paths), 33-34 ([loop], [got_sigint]),
    38-43 ([sigint_handler]), 189-205 ([on_db_save_timeout]), 483-502
    ([on_check_sigint]) and 504-569 ([main]).

    [main] is three parts: [main_startup], every statement up to
    [g_main_loop_run], with the early returns of the command line, the
    listener and the snapshot; [g_main_loop_run], which dispatches the
    events of the loop to the callbacks until [g_main_loop_quit]; and
    [main_teardown].  [main_argv] is [main] on the result of
    [Options.g_option_context_parse] on its argv.  What comes from
    outside is a value: the results of [g_socket_service_new] and of
    [g_socket_listener_add_address] in an [environment], the disk of
    [Snapshot], and the events of the loop
    (a callback of a connection, a tick of the save timer, a turn of the
    idle source, a SIGINT) in a list.  The node of the socket is an
    entry of the disk: [unlink] removes what has its path and the
    listener, when it succeeds, binds the socket there.  The critical
    messages of [Snapshot] are printed to the log of the server. *)

From S2P Require Import Prelude CString Mutex Store Scanner Printf KeyFile Snapshot.
From S2P Require Import Options Handlers Protocol Connection.

Set Warnings "-clear-no-such-hyp".

Open Scope Z_scope.

(** ** Parameters *)

(** config.h is not among the sources: the default of [--socket-path]
    and the seconds between two saves are parameters. *)
Class LifecycleConfig : Type := {
  UDB_SOCKET_PATH_DEFAULT : string;
  UDB_DATABASE_SAVE_INTERVAL_SECS : nat;
}.

(** [EXIT_SUCCESS], and the codes of the errors of the listener that
    the examples use. *)
Definition EXIT_SUCCESS : Z := 0.
Definition G_IO_ERROR_FAILED : Z := 0.
Definition G_IO_ERROR_ADDRESS_IN_USE : Z := 33.

(** ** The process *)

(** [loop]: not created, running, or left by [g_main_loop_quit]. *)
Inductive loop_state : Type :=
| LoopNone
| LoopRunning
| LoopQuit.

#[export] Instance loop_state_eq_dec : EqDecision loop_state.
Proof. solve_decision. Defined.

(** The globals of the program and what [main] installs: the handler of
    SIGINT, the signal [incoming] of the service, the save timer with its
    interval, the idle source of [on_check_sigint]. *)
Record process : Type := mk_process {
  proc_server : server_state;
  socket_path : string;
  proc_db_file : option string;
  proc_disk : disk;
  got_sigint : bool;
  proc_loop : loop_state;
  sigint_installed : bool;
  incoming_connected : bool;
  save_timer : option nat;
  sigint_check : bool;
  service_started : bool;
}.

(** What [main] meets: the options on the command line, or the error of
    [g_option_context_parse]; the service of [g_socket_service_new];
    the error of [g_socket_listener_add_address], if it fails. *)
Record environment : Type := mk_environment {
  env_options : GError + options;
  env_service : handle unit;
  env_listen : option GError;
}.

Definition set_proc_server (v : server_state) (p : process) : process :=
  {| proc_server := v; socket_path := socket_path p; proc_db_file := proc_db_file p;
     proc_disk := proc_disk p; got_sigint := got_sigint p; proc_loop := proc_loop p;
     sigint_installed := sigint_installed p; incoming_connected := incoming_connected p;
     save_timer := save_timer p; sigint_check := sigint_check p;
     service_started := service_started p |}.

Definition set_proc_disk (v : disk) (p : process) : process :=
  {| proc_server := proc_server p; socket_path := socket_path p;
     proc_db_file := proc_db_file p; proc_disk := v; got_sigint := got_sigint p;
     proc_loop := proc_loop p; sigint_installed := sigint_installed p;
     incoming_connected := incoming_connected p; save_timer := save_timer p;
     sigint_check := sigint_check p; service_started := service_started p |}.

Definition set_got_sigint (v : bool) (p : process) : process :=
  {| proc_server := proc_server p; socket_path := socket_path p;
     proc_db_file := proc_db_file p; proc_disk := proc_disk p; got_sigint := v;
     proc_loop := proc_loop p; sigint_installed := sigint_installed p;
     incoming_connected := incoming_connected p; save_timer := save_timer p;
     sigint_check := sigint_check p; service_started := service_started p |}.

Definition set_proc_loop (v : loop_state) (p : process) : process :=
  {| proc_server := proc_server p; socket_path := socket_path p;
     proc_db_file := proc_db_file p; proc_disk := proc_disk p; got_sigint := got_sigint p;
     proc_loop := v; sigint_installed := sigint_installed p;
     incoming_connected := incoming_connected p; save_timer := save_timer p;
     sigint_check := sigint_check p; service_started := service_started p |}.

Definition set_save_timer (v : option nat) (p : process) : process :=
  {| proc_server := proc_server p; socket_path := socket_path p;
     proc_db_file := proc_db_file p; proc_disk := proc_disk p; got_sigint := got_sigint p;
     proc_loop := proc_loop p; sigint_installed := sigint_installed p;
     incoming_connected := incoming_connected p; save_timer := v;
     sigint_check := sigint_check p; service_started := service_started p |}.

Definition set_sigint_check (v : bool) (p : process) : process :=
  {| proc_server := proc_server p; socket_path := socket_path p;
     proc_db_file := proc_db_file p; proc_disk := proc_disk p; got_sigint := got_sigint p;
     proc_loop := proc_loop p; sigint_installed := sigint_installed p;
     incoming_connected := incoming_connected p; save_timer := save_timer p;
     sigint_check := v; service_started := service_started p |}.

(** The options of the command line overwrite the paths they name. *)
Definition set_options (o : options) (p : process) : process :=
  {| proc_server := proc_server p;
     socket_path := default (socket_path p) (opt_socket_path o);
     proc_db_file := match opt_db_file o with Some f => Some f | None => proc_db_file p end;
     proc_disk := proc_disk p; got_sigint := got_sigint p; proc_loop := proc_loop p;
     sigint_installed := sigint_installed p; incoming_connected := incoming_connected p;
     save_timer := save_timer p; sigint_check := sigint_check p;
     service_started := service_started p |}.

(** [signal (SIGINT, sigint_handler)], [g_signal_connect (..., "incoming",
    ...)] and [g_socket_service_start]. *)
Definition install_sigint (p : process) : process :=
  {| proc_server := proc_server p; socket_path := socket_path p;
     proc_db_file := proc_db_file p; proc_disk := proc_disk p; got_sigint := got_sigint p;
     proc_loop := proc_loop p; sigint_installed := true;
     incoming_connected := incoming_connected p; save_timer := save_timer p;
     sigint_check := sigint_check p; service_started := service_started p |}.

Definition connect_incoming (p : process) : process :=
  {| proc_server := proc_server p; socket_path := socket_path p;
     proc_db_file := proc_db_file p; proc_disk := proc_disk p; got_sigint := got_sigint p;
     proc_loop := proc_loop p; sigint_installed := sigint_installed p;
     incoming_connected := true; save_timer := save_timer p;
     sigint_check := sigint_check p; service_started := service_started p |}.

Definition g_socket_service_start (p : process) : process :=
  {| proc_server := proc_server p; socket_path := socket_path p;
     proc_db_file := proc_db_file p; proc_disk := proc_disk p; got_sigint := got_sigint p;
     proc_loop := proc_loop p; sigint_installed := sigint_installed p;
     incoming_connected := incoming_connected p; save_timer := save_timer p;
     sigint_check := sigint_check p; service_started := true |}.

(** ** The parts of the state *)

Definition on_server {A} (c : ST server_state A) : ST process A :=
  zoom proc_server set_proc_server c.

Definition on_disk {A} (c : ST disk A) : ST process A :=
  zoom proc_disk set_proc_disk c.

(** [db_mutex], as the timers lock it. *)
Definition on_db_lock {A} (c : ST GMutex A) : ST process A :=
  on_server (on_udb (on_db (on_db_mutex c))).

(** The critical messages of [g_return_if_fail], in the log of the
    process. *)
Definition print_criticals (cs : list critical) (lg : list log_entry) : list log_entry :=
  foldl (fun lg c => lg ++ [Critical (crit_func c) (crit_expr c)]) lg cs.

(** The table, the path of the snapshot and the disk, as
    [db_save_to_file] and [db_load_from_file] see them; what they print
    goes to the log. *)
Definition snapshot_view (p : process) : snapshot_state :=
  {| sn_db := udb_db (srv_udb (proc_server p)); db_file_path := proc_db_file p;
     sn_disk := proc_disk p; sn_criticals := [] |}.

Definition set_snapshot_view (s : snapshot_state) (p : process) : process :=
  set_proc_disk (sn_disk s)
    (set_proc_server
       {| srv_udb := set_udb_db (sn_db s) (srv_udb (proc_server p));
          srv_conns := srv_conns (proc_server p);
          srv_log := print_criticals (sn_criticals s) (srv_log (proc_server p)) |} p).

Definition on_snapshot {A} (c : ST snapshot_state A) : ST process A :=
  zoom snapshot_view set_snapshot_view c.

(** [unlink]: what has that name, a file or a socket, is gone. *)
Definition unlink (path : string) : ST disk unit :=
  st_modify (fun d => {| disk_files := delete path (disk_files d);
                         disk_read_error := disk_read_error d;
                         disk_write_error := disk_write_error d |}).

(** [g_socket_listener_add_address] when it succeeds: [bind] has created
    the socket at the path of the address. *)
Definition bind_socket (path : string) : ST disk unit :=
  st_modify (fun d => {| disk_files := <[path:=Socket]> (disk_files d);
                         disk_read_error := disk_read_error d;
                         disk_write_error := disk_write_error d |}).

(** [g_main_loop_quit]: without a loop the call returns. *)
Definition g_main_loop_quit : ST process unit :=
  st_modify (fun p => match proc_loop p with
                      | LoopNone => p
                      | LoopRunning | LoopQuit => set_proc_loop LoopQuit p
                      end).

(** ** The handlers *)

Section lifecycle.
Context `{UdbConfig} `{FloatFormat} `{SnapshotConfig} `{HashOrder} `{KeyFileEnv}
  `{LifecycleConfig} `{OptionEnv}.

(** [sigint_handler] *)
Definition sigint_handler : ST process unit :=
  st_modify (set_got_sigint true).

(** The save under the lock of the table and the report of its error,
    as [on_db_save_timeout] and [on_check_sigint] both have it. *)
Definition save_locked : ST process unit :=
  on_db_lock g_mutex_lock ;;
  error <- on_snapshot db_save_to_file ;;
  on_db_lock g_mutex_unlock ;;
  match error with
  | Some e => on_server (log (ErrDbSave e))
  | None => st_ret tt
  end.

(** [on_db_save_timeout]: [G_SOURCE_CONTINUE] is [true]. *)
Definition on_db_save_timeout : ST process bool :=
  save_locked ;;
  st_ret true.

(** [on_check_sigint] *)
Definition on_check_sigint : ST process bool :=
  p <- st_get ;;
  if negb (got_sigint p) then st_ret true
  else
    save_locked ;;
    g_main_loop_quit ;;
    st_ret false.

(** ** [main] *)

(** The statements of [main] up to [g_main_loop_run]: the exit code of an
    early return, or [None] with the loop created. *)
Definition main_startup (env : environment) : ST process (option Z) :=
  match env_options env with
  | inl error =>
      on_server (log (ErrStartup error)) ;;
      st_ret (Some (error_code error))
  | inr opts =>
      st_modify (set_options opts) ;;
      p <- st_get ;;
      on_disk (unlink (socket_path p)) ;;
      st_modify install_sigint ;;
      match env_service env, env_listen env with
      | (Null | Dangling), _ => st_fault Undefined
      | Live _, Some error =>
          on_server (log (ErrStartup error)) ;;
          st_ret (Some (error_code error))
      | Live _, None =>
          on_disk (bind_socket (socket_path p)) ;;
          st_modify connect_incoming ;;
          on_server (on_udb (on_db db_init)) ;;
          on_server (on_udb (zoom udb_sc set_udb_sc udb_scanner_init)) ;;
          failed <-
            match proc_db_file p with
            | Some _ =>
                error <- on_snapshot db_load_from_file ;;
                match error with
                | Some e =>
                    if bool_decide (error_code e <> G_FILE_ERROR_NOENT)
                    then on_server (log (ErrStartup e)) ;; st_ret (Some (error_code e))
                    else st_modify (set_save_timer (Some UDB_DATABASE_SAVE_INTERVAL_SECS)) ;;
                         st_ret None
                | None =>
                    st_modify (set_save_timer (Some UDB_DATABASE_SAVE_INTERVAL_SECS)) ;;
                    st_ret None
                end
            | None => st_ret None
            end ;;
          match failed with
          | Some code => st_ret (Some code)
          | None =>
              st_modify (set_sigint_check true) ;;
              st_modify g_socket_service_start ;;
              on_server (log (PrintListening (socket_path p))) ;;
              st_modify (set_proc_loop LoopRunning) ;;
              st_ret None
          end
      end
  end.

(** What [g_main_loop_run] dispatches. *)
Inductive loop_event : Type :=
| Sigint
| SaveTimer
| Idle
| Conn (e : event).

(** One event: a source that is not installed does not fire, and a
    source whose callback returns [G_SOURCE_REMOVE] is removed. *)
Definition loop_step (e : loop_event) : ST process unit :=
  p <- st_get ;;
  match e with
  | Sigint => if sigint_installed p then sigint_handler else st_fault Undefined
  | SaveTimer =>
      match save_timer p with
      | Some secs =>
          continue <- on_db_save_timeout ;;
          if continue then st_ret tt else st_modify (set_save_timer None)
      | None => st_ret tt
      end
  | Idle =>
      if sigint_check p then
        continue <- on_check_sigint ;;
        if continue then st_ret tt else st_modify (set_sigint_check false)
      else st_ret tt
  | Conn e => if service_started p then on_server (dispatch e) else st_ret tt
  end.

(** [g_main_loop_run]: the events in their order until
    [g_main_loop_quit]; [true] when the loop was left. *)
Fixpoint g_main_loop_run (es : list loop_event) : ST process bool :=
  p <- st_get ;;
  match proc_loop p, es with
  | LoopQuit, _ => st_ret true
  | _, [] => st_ret false
  | _, e :: es => loop_step e ;; g_main_loop_run es
  end.

(** The statements of [main] after [g_main_loop_run]. *)
Definition main_teardown : ST process Z :=
  st_modify (set_proc_loop LoopNone) ;;
  on_db_lock g_mutex_clear ;;
  on_server (on_udb (on_db (on_db_mem g_hash_table_destroy))) ;;
  st_ret EXIT_SUCCESS.

(** [main]: the exit code, or [None] while the loop still runs at the
    end of the events. *)
Definition main (env : environment) (es : list loop_event) : ST process (option Z) :=
  failed <- main_startup env ;;
  match failed with
  | Some code => st_ret (Some code)
  | None =>
      left <- g_main_loop_run es ;;
      if left then code <- main_teardown ;; st_ret (Some code) else st_ret None
  end.

(** [main] on its arguments: [g_option_context_parse] reads them with
    [cmd_entries]; when the help is asked for it is printed and the
    process ends there with [exit (0)]. *)
Definition main_argv (argv : list string) (service : handle unit) (listen : option GError)
    (es : list loop_event) : ST process (option Z) :=
  match g_option_context_parse cmd_entries argv with
  | ParseHelp => st_ret (Some EXIT_SUCCESS)
  | ParseError e =>
      main {| env_options := inl e; env_service := service; env_listen := listen |} es
  | Parsed o =>
      main {| env_options := inr o; env_service := service; env_listen := listen |} es
  end.

(** The process when [main] is entered. *)
Definition process_start (d : disk) : process :=
  {| proc_server := {| srv_udb := {| udb_db := db_static; udb_sc := scanner_static |};
                       srv_conns := ∅; srv_log := [] |};
     socket_path := UDB_SOCKET_PATH_DEFAULT; proc_db_file := None; proc_disk := d;
     got_sigint := false; proc_loop := LoopNone; sigint_installed := false;
     incoming_connected := false; save_timer := None; sigint_check := false;
     service_started := false |}.

(** ** The process between two events *)

(** The scanner [udb_scanner_init] creates. *)
Definition initial_scanner : GScanner :=
  set_sc_config udb_scanner_config (g_scanner_new g_scanner_config_template).

(** The process in the main loop, with both locks free. *)
Definition process_running (m : table) (sc : GScanner) (conns : gmap nat connection)
    (lg : list log_entry) (sock : string) (file : option string) (d : disk)
    (sigint : bool) : process :=
  {| proc_server := server_of m sc conns lg; socket_path := sock; proc_db_file := file;
     proc_disk := d; got_sigint := sigint; proc_loop := LoopRunning;
     sigint_installed := true; incoming_connected := true;
     save_timer := match file with
                   | Some _ => Some UDB_DATABASE_SAVE_INTERVAL_SECS
                   | None => None
                   end;
     sigint_check := true; service_started := true |}.

(** The environment of a start that meets no error. *)
Definition environment_of (sock file : option string) : environment :=
  {| env_options := inr {| opt_socket_path := sock; opt_db_file := file |};
     env_service := Live tt; env_listen := None |}.

(** The disk after [unlink]. *)
Definition disk_without (path : string) (d : disk) : disk :=
  {| disk_files := delete path (disk_files d);
     disk_read_error := disk_read_error d; disk_write_error := disk_write_error d |}.

(** The disk when the service listens: what had the path of the socket
    was removed, and the socket was bound there. *)
Definition disk_listening (path : string) (d : disk) : disk :=
  {| disk_files := <[path:=Socket]> (delete path (disk_files d));
     disk_read_error := disk_read_error d; disk_write_error := disk_write_error d |}.

(** The disk after a save of the table [m]. *)
Definition disk_saved (path : string) (m : table) (d : disk) : disk :=
  disk_written path (snapshot_data m) d.

(** The process after [on_check_sigint] left the loop. *)
Definition process_stopped (m : table) (sc : GScanner) (conns : gmap nat connection)
    (lg : list log_entry) (sock : string) (file : option string) (d : disk) : process :=
  set_sigint_check false
    (set_proc_loop LoopQuit (process_running m sc conns lg sock file d true)).

(** ** Lemmas *)

Lemma on_snapshot_Ok {A} (c : ST snapshot_state A) p a s' :
  c (snapshot_view p) = Ok (a, s') -> on_snapshot c p = Ok (a, set_snapshot_view s' p).
Proof. apply zoom_Ok. Qed.

(** [main_startup] with [--db-file]: what [db_load_from_file] reports
    decides. *)
Lemma main_startup_file sock path d error m' d' :
  db_load_from_file (snapshot_of ∅ (Some path)
                       (disk_listening (default UDB_SOCKET_PATH_DEFAULT sock) d))
  = Ok (error, snapshot_of m' (Some path) d') ->
  main_startup (environment_of sock (Some path)) (process_start d)
  = match error with
    | Some e =>
        if bool_decide (error_code e <> G_FILE_ERROR_NOENT) then
          Ok (Some (error_code e),
              {| proc_server := {| srv_udb := udb_of m' initial_scanner;
                                   srv_conns := ∅; srv_log := [ErrStartup e] |};
                 socket_path := default UDB_SOCKET_PATH_DEFAULT sock;
                 proc_db_file := Some path; proc_disk := d';
                 got_sigint := false; proc_loop := LoopNone; sigint_installed := true;
                 incoming_connected := true; save_timer := None; sigint_check := false;
                 service_started := false |})
        else Ok (None, process_running m' initial_scanner ∅
                         [PrintListening (default UDB_SOCKET_PATH_DEFAULT sock)]
                         (default UDB_SOCKET_PATH_DEFAULT sock) (Some path) d' false)
    | None => Ok (None, process_running m' initial_scanner ∅
                          [PrintListening (default UDB_SOCKET_PATH_DEFAULT sock)]
                          (default UDB_SOCKET_PATH_DEFAULT sock) (Some path) d' false)
    end.
Proof.
  intros Hload. unfold main_startup, environment_of. cbn [env_options env_service env_listen].
  unfold st_bind at 1. cbn [st_modify o_bind]. unfold st_bind at 1. cbn [st_get o_bind].
  do 6 (erewrite st_bind_Ok by reflexivity).
  cbn [set_options proc_db_file opt_db_file].
  rewrite st_bind_assoc. erewrite st_bind_Ok by apply on_snapshot_Ok, Hload.
  destruct error as [e|]; [case_bool_decide|]; reflexivity.
Qed.

(** [db_save_to_file] does not look at the lock. *)
Lemma db_save_to_file_mutex mu m file d :
  db_save_to_file {| sn_db := {| db_mem := Live m; db_mutex := mu |};
                     db_file_path := file; sn_disk := d; sn_criticals := [] |}
  = olet '(e, s') := db_save_to_file (snapshot_of m file d) in
    Ok (e, {| sn_db := {| db_mem := db_mem (sn_db s'); db_mutex := mu |};
              db_file_path := db_file_path s'; sn_disk := sn_disk s';
              sn_criticals := sn_criticals s' |}).
Proof.
  unfold db_save_to_file, st_bind. cbn. destruct file; [|done].
  unfold on_sn_disk, zoom, g_file_set_contents. cbn. by destruct (disk_write_error d).
Qed.

(** The save of the timers: the lock is taken and given back, and an
    error is printed. *)
Lemma save_locked_run m sc conns lg sock file d sigint error d' cs :
  db_save_to_file (snapshot_of m file d) = Ok (error, snapshot_with m file d' cs) ->
  save_locked (process_running m sc conns lg sock file d sigint)
  = Ok (tt, process_running m sc conns
              (print_criticals cs lg
               ++ match error with Some e => [ErrDbSave e] | None => [] end)
              sock file d' sigint).
Proof.
  intros Hsave. unfold save_locked.
  erewrite st_bind_Ok by reflexivity.
  erewrite st_bind_Ok.
  2:{ apply on_snapshot_Ok.
      change (snapshot_view _)
        with {| sn_db := {| db_mem := Live m; db_mutex := MLocked |};
                db_file_path := file; sn_disk := d; sn_criticals := [] |}.
      by rewrite db_save_to_file_mutex, Hsave. }
  erewrite st_bind_Ok by reflexivity.
  destruct error; cbn; by rewrite ?app_nil_r.
Qed.

(** [on_check_sigint] after a SIGINT. *)
Lemma on_check_sigint_run m sc conns lg sock file d error d' cs :
  db_save_to_file (snapshot_of m file d) = Ok (error, snapshot_with m file d' cs) ->
  on_check_sigint (process_running m sc conns lg sock file d true)
  = Ok (false, set_proc_loop LoopQuit
                 (process_running m sc conns
                    (print_criticals cs lg
                     ++ match error with Some e => [ErrDbSave e] | None => [] end)
                    sock file d' true)).
Proof.
  intros Hsave. unfold on_check_sigint. erewrite st_bind_Ok by reflexivity.
  cbn [got_sigint process_running negb].
  by erewrite st_bind_Ok by (by apply save_locked_run).
Qed.

(** The loop dispatches the next event, unless it was left. *)
Lemma g_main_loop_run_cons e es p :
  proc_loop p <> LoopQuit ->
  g_main_loop_run (e :: es) p = (loop_step e ;; g_main_loop_run es) p.
Proof. intros Hp. cbn [g_main_loop_run]. unfold st_bind at 1. cbn. by destruct (proc_loop p). Qed.

Lemma g_main_loop_run_quit es p :
  proc_loop p = LoopQuit -> g_main_loop_run es p = Ok (true, p).
Proof. intros Hp. destruct es; cbn [g_main_loop_run]; unfold st_bind; cbn; by rewrite Hp. Qed.

(** The turn of the idle source after a SIGINT. *)
Lemma loop_step_idle_sigint m sc conns lg sock file d error d' cs :
  db_save_to_file (snapshot_of m file d) = Ok (error, snapshot_with m file d' cs) ->
  loop_step Idle (process_running m sc conns lg sock file d true)
  = Ok (tt, process_stopped m sc conns
              (print_criticals cs lg
               ++ match error with Some e => [ErrDbSave e] | None => [] end)
              sock file d').
Proof.
  intros Hsave. unfold loop_step. erewrite st_bind_Ok by reflexivity.
  cbn [sigint_check process_running].
  by erewrite st_bind_Ok by (by apply on_check_sigint_run).
Qed.

(** A SIGINT and the next turn of the idle source. *)
Lemma sigint_idle_run m sc conns lg sock file d sigint error d' cs es :
  db_save_to_file (snapshot_of m file d) = Ok (error, snapshot_with m file d' cs) ->
  g_main_loop_run (Sigint :: Idle :: es) (process_running m sc conns lg sock file d sigint)
  = Ok (true, process_stopped m sc conns
                (print_criticals cs lg
                 ++ match error with Some e => [ErrDbSave e] | None => [] end)
                sock file d').
Proof.
  intros Hsave. rewrite g_main_loop_run_cons by done.
  erewrite st_bind_Ok by reflexivity. rewrite g_main_loop_run_cons by done.
  erewrite st_bind_Ok by (by apply loop_step_idle_sigint).
  by apply g_main_loop_run_quit.
Qed.

(** ** Theorems: the timers *)

(** A tick of the save timer writes the snapshot of the table to
    the file of [--db-file] under the lock of the table, gives the lock
    back and stays installed. *)
Lemma on_db_save_timeout_saves (m : table) (sc : GScanner) (conns : gmap nat connection)
    (lg : list log_entry) (sock path : string) (d : disk) (sigint : bool) :
  disk_write_error d = None ->
  on_db_save_timeout (process_running m sc conns lg sock (Some path) d sigint)
  = Ok (true, process_running m sc conns lg sock (Some path) (disk_saved path m d) sigint).
Proof.
  intros Hw. unfold on_db_save_timeout.
  erewrite st_bind_Ok
    by (apply save_locked_run with (cs := []); by apply db_save_to_file_run).
  by rewrite app_nil_r.
Qed.

(** A save that fails is printed and nothing else: the table, the
    disk and the timer stay as they are. *)
Lemma on_db_save_timeout_error (m : table) (sc : GScanner) (conns : gmap nat connection)
    (lg : list log_entry) (sock path : string) (d : disk) (sigint : bool) (e : GError) :
  disk_write_error d = Some e ->
  on_db_save_timeout (process_running m sc conns lg sock (Some path) d sigint)
  = Ok (true, process_running m sc conns (lg ++ [ErrDbSave e]) sock (Some path) d sigint).
Proof.
  intros Hw. unfold on_db_save_timeout.
  by erewrite st_bind_Ok
    by (apply save_locked_run with (cs := []); by apply db_save_to_file_write_error).
Qed.

(** Without a SIGINT the idle source does nothing and stays
    installed. *)
Lemma on_check_sigint_no_signal (p : process) :
  got_sigint p = false -> on_check_sigint p = Ok (true, p).
Proof. intros Hs. unfold on_check_sigint, st_bind. cbn. by rewrite Hs. Qed.

(** ** Theorems: the end of the process *)

(** After a SIGINT the next turn of the idle source saves the
    table and leaves the loop; the events that follow are not
    dispatched. *)
Lemma sigint_saves_and_quits (m : table) (sc : GScanner) (conns : gmap nat connection)
    (lg : list log_entry) (sock path : string) (d : disk) (es : list loop_event) :
  disk_write_error d = None ->
  g_main_loop_run (Sigint :: Idle :: es)
    (process_running m sc conns lg sock (Some path) d false)
  = Ok (true, process_stopped m sc conns lg sock (Some path) (disk_saved path m d)).
Proof.
  intros Hw.
  erewrite sigint_idle_run with (cs := []) by (by apply db_save_to_file_run).
  by rewrite app_nil_r.
Qed.

(** Without [--db-file] a SIGINT leaves the loop and nothing is
    written: [on_check_sigint] calls [db_save_to_file] all the same,
    whose [g_return_if_fail] prints its critical message. *)
Lemma sigint_without_db_file (m : table) (sc : GScanner) (conns : gmap nat connection)
    (lg : list log_entry) (sock : string) (d : disk) (es : list loop_event) :
  g_main_loop_run (Sigint :: Idle :: es) (process_running m sc conns lg sock None d false)
  = Ok (true, process_stopped m sc conns
                (lg ++ [Critical "db_save_to_file" "db_file_path != NULL"]) sock None d).
Proof.
  erewrite sigint_idle_run with (cs := [_]) by reflexivity. by rewrite app_nil_r.
Qed.

(** Behind the socket the disk is as it was. *)
Lemma disk_listening_lookup_ne sock path d :
  sock <> path -> disk_files (disk_listening sock d) !! path = disk_files d !! path.
Proof. intros Hne. cbn. by rewrite lookup_insert_ne, lookup_delete_ne. Qed.

Lemma disk_listening_lookup sock d : disk_files (disk_listening sock d) !! sock = Some Socket.
Proof. apply lookup_insert_eq. Qed.

(** A start with the snapshot of a storable table. *)
Lemma main_startup_snapshot m sock path d :
  g_key_file_is_group_name UDB_DB_SECTION = true -> storable_table m ->
  disk_read_error d = None -> disk_files d !! path = Some (Regular (snapshot_data m)) ->
  default UDB_SOCKET_PATH_DEFAULT sock <> path ->
  main_startup (environment_of sock (Some path)) (process_start d)
  = Ok (None, process_running m initial_scanner ∅
                [PrintListening (default UDB_SOCKET_PATH_DEFAULT sock)]
                (default UDB_SOCKET_PATH_DEFAULT sock) (Some path)
                (disk_listening (default UDB_SOCKET_PATH_DEFAULT sock) d) false).
Proof.
  intros Hg Hm Hr Hf Hne. erewrite main_startup_file.
  2:{ apply db_load_from_file_snapshot; [done..|]. by rewrite disk_listening_lookup_ne. }
  by destruct (decide (m = ∅)).
Qed.

(** The callbacks of the connections, as the loop dispatches them. *)
Lemma g_main_loop_run_conns evs rest p s' :
  proc_loop p = LoopRunning -> service_started p = true ->
  run_events evs (proc_server p) = Ok (tt, s') ->
  g_main_loop_run (map Conn evs ++ rest) p = g_main_loop_run rest (set_proc_server s' p).
Proof.
  revert p. induction evs as [|e evs IH]; intros p Hl Hs Hrun.
  { injection Hrun as <-. by destruct p. }
  cbn [run_events] in Hrun. apply st_bind_Ok_inv in Hrun as ([] & s1 & He & Hrun).
  cbn [map app]. rewrite g_main_loop_run_cons by congruence.
  erewrite st_bind_Ok.
  2:{ unfold loop_step. erewrite st_bind_Ok by reflexivity. rewrite Hs.
      by apply zoom_Ok. }
  by rewrite (IH (set_proc_server s1 p)).
Qed.

(** ** Theorems: the start *)

(** C38. A start with the snapshot of a storable table: the table is
    the one that was saved, the save timer and the idle source are
    installed, the service listens and both locks are free.  The
    snapshot of the empty table is the empty file, whose error has the
    code of a missing file. *)
Theorem main_startup_restores (m : table) (sock : option string) (path : string)
    (d : disk) :
  g_key_file_is_group_name UDB_DB_SECTION = true -> storable_table m ->
  disk_read_error d = None -> disk_files d !! path = Some (Regular (snapshot_data m)) ->
  default UDB_SOCKET_PATH_DEFAULT sock <> path ->
  main_startup (environment_of sock (Some path)) (process_start d)
  = Ok (None, process_running m initial_scanner ∅
                [PrintListening (default UDB_SOCKET_PATH_DEFAULT sock)]
                (default UDB_SOCKET_PATH_DEFAULT sock) (Some path)
                (disk_listening (default UDB_SOCKET_PATH_DEFAULT sock) d) false).
Proof. apply main_startup_snapshot. Qed.

(** A start without the file of [--db-file]: the table is empty
    and the save timer is installed, so the file is created by the first
    save. *)
Lemma main_startup_missing_file (sock : option string) (path : string) (d : disk) :
  disk_read_error d = None -> disk_files d !! path = None ->
  default UDB_SOCKET_PATH_DEFAULT sock <> path ->
  main_startup (environment_of sock (Some path)) (process_start d)
  = Ok (None, process_running ∅ initial_scanner ∅
                [PrintListening (default UDB_SOCKET_PATH_DEFAULT sock)]
                (default UDB_SOCKET_PATH_DEFAULT sock) (Some path)
                (disk_listening (default UDB_SOCKET_PATH_DEFAULT sock) d) false).
Proof.
  intros Hr Hf Hne. erewrite main_startup_file.
  2:{ apply (db_load_from_file_refused _ path); [done|].
      rewrite load_from_file_lookup by done. cbn [sn_disk snapshot_of].
      by rewrite disk_listening_lookup_ne, Hf. }
  done.
Qed.

(** C39. A key file of another program, without the group of the
    snapshot, is taken for a missing file: [main] compares the code of
    the error and not its domain, so the server starts with an empty
    table, prints no error, and the first save replaces the file. *)
Theorem main_startup_no_group (sock : option string) (path data : string) (d : disk)
    (keyfile : GKeyFile) :
  disk_read_error d = None -> disk_files d !! path = Some (Regular data) ->
  default UDB_SOCKET_PATH_DEFAULT sock <> path ->
  g_key_file_parse_data data = inr keyfile ->
  g_key_file_lookup_group UDB_DB_SECTION keyfile = None ->
  main_startup (environment_of sock (Some path)) (process_start d)
  = Ok (None, process_running ∅ initial_scanner ∅
                [PrintListening (default UDB_SOCKET_PATH_DEFAULT sock)]
                (default UDB_SOCKET_PATH_DEFAULT sock) (Some path)
                (disk_listening (default UDB_SOCKET_PATH_DEFAULT sock) d) false).
Proof.
  intros Hr Hf Hne Hk Hg. erewrite main_startup_file.
  2:{ eapply db_load_from_file_group_missing; [done| |done..].
      by rewrite disk_listening_lookup_ne. }
  done.
Qed.

(** A file that is not a key file ends [main] with the code of the
    error as the exit code, whatever the code is: the error is printed,
    the service is not started and the loop is not entered. *)
Lemma main_load_error_exit_code (sock : option string) (path data : string) (d : disk)
    (e : GError) (es : list loop_event) :
  disk_read_error d = None -> disk_files d !! path = Some (Regular data) ->
  default UDB_SOCKET_PATH_DEFAULT sock <> path ->
  g_key_file_parse_data data = inl e -> error_code e <> G_FILE_ERROR_NOENT ->
  exists p,
    main (environment_of sock (Some path)) es (process_start d) = Ok (Some (error_code e), p)
    /\ srv_log (proc_server p) = [ErrStartup e]
    /\ service_started p = false /\ proc_loop p = LoopNone.
Proof.
  intros Hr Hf Hne Hk He. eexists. unfold main. erewrite st_bind_Ok.
  2:{ erewrite main_startup_file.
      2:{ apply (db_load_from_file_parse_error _ path data); [done..| |done].
          cbn [sn_disk snapshot_of]. by rewrite disk_listening_lookup_ne. }
      cbv beta iota. rewrite bool_decide_eq_true_2 by done. reflexivity. }
  done.
Qed.

(** An error of the command line ends [main] with the code of the
    error as the exit code before anything is touched. *)
Lemma main_option_error (e : GError) (service : handle unit) (listen : option GError)
    (es : list loop_event) (p : process) :
  main {| env_options := inl e; env_service := service; env_listen := listen |} es p
  = Ok (Some (error_code e),
        set_proc_server {| srv_udb := srv_udb (proc_server p);
                           srv_conns := srv_conns (proc_server p);
                           srv_log := srv_log (proc_server p) ++ [ErrStartup e] |} p).
Proof. reflexivity. Qed.

(** C23. An option that [cmd_entries] does not have ends [main] with
    the exit code of success: [g_option_context_parse] fails with
    [G_OPTION_ERROR_UNKNOWN_OPTION], whose code is 0, and [main] returns
    the code of the error.  The error is printed and nothing else is
    touched. *)
Theorem main_argv_unknown_option (prog name : string) (rest : list string)
    (service : handle unit) (listen : option GError) (es : list loop_event) (p : process) :
  name <> EmptyString -> name <> "help" -> name <> "help-all" ->
  find_long cmd_entries name = None ->
  main_argv (prog :: String "-" (String "-" name) :: rest) service listen es p
  = Ok (Some EXIT_SUCCESS,
        set_proc_server
          {| srv_udb := srv_udb (proc_server p); srv_conns := srv_conns (proc_server p);
             srv_log := srv_log (proc_server p)
                        ++ [ErrStartup (option_error G_OPTION_ERROR_UNKNOWN_OPTION)] |} p).
Proof.
  intros Hn Hh Ha Hf. unfold main_argv, g_option_context_parse. cbn [tail].
  by rewrite parse_args_unknown_long.
Qed.

(** [main_startup] without the service, and with a listener that
    fails: the file at the path of the socket was removed before. *)
Lemma main_startup_no_service opts service listen d :
  ~ is_Live service ->
  main_startup {| env_options := inr opts; env_service := service; env_listen := listen |}
    (process_start d)
  = Fault Undefined.
Proof. intros Hs. destruct service as [|[]|]; [reflexivity| |reflexivity]. by destruct Hs. Qed.

Lemma main_startup_listen_error opts e d :
  exists p,
    main_startup {| env_options := inr opts; env_service := Live tt; env_listen := Some e |}
      (process_start d)
    = Ok (Some (error_code e), p)
    /\ proc_disk p = disk_without (default UDB_SOCKET_PATH_DEFAULT (opt_socket_path opts)) d.
Proof. eexists. split; reflexivity. Qed.

(** A start without [--db-file]. *)
Lemma main_startup_no_file sock d :
  main_startup (environment_of sock None) (process_start d)
  = Ok (None, process_running ∅ initial_scanner ∅
                [PrintListening (default UDB_SOCKET_PATH_DEFAULT sock)]
                (default UDB_SOCKET_PATH_DEFAULT sock) None
                (disk_listening (default UDB_SOCKET_PATH_DEFAULT sock) d) false).
Proof. reflexivity. Qed.

(** With the same path for [--socket-path] and [--db-file] the
    snapshot is removed, the socket is bound in its place, and
    [db_load_from_file] cannot open it: [main] ends with the code of
    [G_FILE_ERROR_NXIO], and what the file held is lost. *)
Lemma main_startup_same_path (path : string) (d : disk) :
  disk_read_error d = None ->
  exists p,
    main_startup (environment_of (Some path) (Some path)) (process_start d)
    = Ok (Some G_FILE_ERROR_NXIO, p)
    /\ proc_disk p = disk_listening path d /\ disk_files (proc_disk p) !! path = Some Socket
    /\ srv_log (proc_server p) = [ErrStartup (file_error G_FILE_ERROR_NXIO)].
Proof.
  intros Hr. eexists. split.
  - erewrite main_startup_file
      by (apply (db_load_from_file_socket _ path); [done..|apply disk_listening_lookup]).
    reflexivity.
  - split_and!; [done|apply disk_listening_lookup|done].
Qed.

(** C37. What [main] does to the disk before the loop: what has the
    path of the socket, a file or a socket, is removed; when the
    listener succeeds the socket is bound there; and nothing else
    changes, whatever the snapshot gives. *)
Theorem main_startup_unlinks (env : environment) (opts : options) (d : disk)
    (r : option Z) (p : process) :
  env_options env = inr opts ->
  main_startup env (process_start d) = Ok (r, p) ->
  proc_disk p
  = match env_listen env with
    | Some _ => disk_without (default UDB_SOCKET_PATH_DEFAULT (opt_socket_path opts)) d
    | None => disk_listening (default UDB_SOCKET_PATH_DEFAULT (opt_socket_path opts)) d
    end.
Proof.
  destruct env as [o service listen]. cbn [env_options env_listen]. intros ->.
  destruct (decide (is_Live service)) as [Hs|Hs];
    [|by rewrite main_startup_no_service]. destruct service as [|[]|]; try by destruct Hs.
  destruct listen as [e|].
  { destruct (main_startup_listen_error opts e d) as (p' & -> & Hp). by intros [= <- <-]. }
  destruct opts as [sock file]. fold (environment_of sock file).
  destruct file as [path|]; [|rewrite main_startup_no_file; by intros [= <- <-]].
  destruct (db_load_from_file_path ∅ path
              (disk_listening (default UDB_SOCKET_PATH_DEFAULT sock) d)) as (error & m & Hl).
  rewrite (main_startup_file _ _ _ _ _ _ Hl).
  destruct error; [case_bool_decide|]; by intros [= <- <-].
Qed.

(** ** Theorems: from one run to the next *)

(** C10. What the clients were served is there after a restart: when
    the requests of a session were served, a SIGINT ends the process
    with [EXIT_SUCCESS], and the next start with the same file has the
    table the finite map has after the requests, as long as its keys and
    values are storable. *)
Theorem served_then_restored (es : list (nat * request)) (m : table) (sc : GScanner)
    (conns : gmap nat connection) (lg : list log_entry) (sock path : string)
    (sock' : option string) (d : disk) :
  g_key_file_is_group_name UDB_DB_SECTION = true ->
  scanner_ready sc -> session_ready es m conns ->
  storable_table (spec_requests es.*2 m).2 ->
  disk_write_error d = None -> disk_read_error d = None ->
  default UDB_SOCKET_PATH_DEFAULT sock' <> path ->
  exists p p',
    (g_main_loop_run (map Conn (session_events es) ++ [Sigint; Idle]) ;; main_teardown)
      (process_running m sc conns lg sock (Some path) d false)
    = Ok (EXIT_SUCCESS, p)
    /\ main_startup (environment_of sock' (Some path)) (process_start (proc_disk p))
       = Ok (None, p')
    /\ udb_db (srv_udb (proc_server p')) = db_of (spec_requests es.*2 m).2.
Proof.
  intros Hg Hsc Hes Hm Hw Hr Hne.
  destruct (run_session es m sc conns lg Hsc Hes) as (sc' & conns' & Hrun & _ & _).
  do 2 eexists. split_and!.
  - erewrite st_bind_Ok; [|erewrite g_main_loop_run_conns by (done || apply Hrun)].
    2:{ apply sigint_idle_run with (cs := []). by apply db_save_to_file_run. }
    reflexivity.
  - apply main_startup_snapshot;
      [done|done|done|by apply lookup_insert_eq|done].
  - done.
Qed.

(** A tick of the save timer in the loop. *)
Lemma loop_step_save_timer m sc conns lg sock path d sigint :
  disk_write_error d = None ->
  loop_step SaveTimer (process_running m sc conns lg sock (Some path) d sigint)
  = Ok (tt, process_running m sc conns lg sock (Some path) (disk_saved path m d) sigint).
Proof.
  intros Hw. unfold loop_step. erewrite st_bind_Ok by reflexivity.
  cbn [save_timer process_running]. unfold on_db_save_timeout. rewrite !st_bind_assoc.
  erewrite st_bind_Ok
    by (apply save_locked_run with (cs := []); by apply db_save_to_file_run).
  by rewrite app_nil_r.
Qed.

(** C25. What a crash loses: after a tick of the save timer, whatever
    the clients are served afterwards, the file holds the table of the
    tick.  A process that ends there without its SIGINT leaves that
    file, and the next start has the table of the tick, not the table
    the clients saw last. *)
Theorem restart_after_crash (evs : list event) (m : table) (sc : GScanner)
    (conns : gmap nat connection) (lg : list log_entry) (sock path : string)
    (sock' : option string) (d : disk) (s' : server_state) :
  g_key_file_is_group_name UDB_DB_SECTION = true -> storable_table m ->
  disk_write_error d = None -> disk_read_error d = None ->
  default UDB_SOCKET_PATH_DEFAULT sock' <> path ->
  run_events evs (server_of m sc conns lg) = Ok (tt, s') ->
  exists p',
    g_main_loop_run (SaveTimer :: map Conn evs)
      (process_running m sc conns lg sock (Some path) d false)
    = Ok (false, set_proc_server s'
                   (process_running m sc conns lg sock (Some path) (disk_saved path m d) false))
    /\ main_startup (environment_of sock' (Some path)) (process_start (disk_saved path m d))
       = Ok (None, p')
    /\ udb_db (srv_udb (proc_server p')) = db_of m.
Proof.
  intros Hg Hm Hw Hr Hne Hrun. eexists. split_and!.
  - rewrite g_main_loop_run_cons by done.
    erewrite st_bind_Ok by (by apply loop_step_save_timer).
    by rewrite <-(app_nil_r (map Conn evs)), (g_main_loop_run_conns evs [] _ s').
  - apply main_startup_snapshot;
      [done|done|done|by apply lookup_insert_eq|done].
  - done.
Qed.

(** C40. A key with a line feed makes the snapshot a file that the
    next start refuses.  For every table of storable entries and one
    more entry whose key holds a line feed after a text that is a key
    (a client writes such a key with the escape of a quoted string), a
    SIGINT saves the table and ends the loop, and [main] on the disk it
    leaves ends with the code of [G_KEY_FILE_ERROR_PARSE]: the error is
    printed and nobody is served, until the file is repaired by hand. *)
Theorem snapshot_refused (m : table) (a b v : string) (sc : GScanner)
    (conns : gmap nat connection) (lg : list log_entry) (sock path : string)
    (sock' : option string) (d : disk) (sigint : bool) (es es' : list loop_event) :
  g_key_file_is_group_name UDB_DB_SECTION = true -> storable_table m ->
  storable_key a = true -> written_entry (a +:+ String kf_nl b, v) ->
  c_entry (a +:+ String kf_nl b, v) ->
  disk_write_error d = None -> disk_read_error d = None ->
  default UDB_SOCKET_PATH_DEFAULT sock' <> path ->
  exists p p',
    g_main_loop_run (Sigint :: Idle :: es)
      (process_running (<[a +:+ String kf_nl b:=v]> m) sc conns lg sock (Some path) d sigint)
    = Ok (true, p)
    /\ main (environment_of sock' (Some path)) es' (process_start (proc_disk p))
       = Ok (Some G_KEY_FILE_ERROR_PARSE, p')
    /\ srv_log (proc_server p') = [ErrStartup (key_file_error G_KEY_FILE_ERROR_PARSE)]
    /\ service_started p' = false.
Proof.
  intros Hg Hm Ha Hk Hc Hw Hr Hne. set (m' := <[a +:+ String kf_nl b:=v]> m).
  edestruct (main_load_error_exit_code sock' path (snapshot_data m') (disk_saved path m' d)
               (key_file_error G_KEY_FILE_ERROR_PARSE) es') as (p' & Hmain & Hlog & Hs & _);
    [done|apply lookup_insert_eq|done|by apply snapshot_data_key_alone|done|].
  exists (process_stopped m' sc conns lg sock (Some path) (disk_saved path m' d)), p'.
  split_and!; [|exact Hmain|done..].
  erewrite sigint_idle_run with (cs := []) by (by apply db_save_to_file_run).
  by rewrite app_nil_r.
Qed.

End lifecycle.

(** ** Examples *)

(** config.h is not among the sources: the examples take /tmp/udb.sock
    for the socket and a minute between two saves. *)
Definition example_lifecycle_config : LifecycleConfig :=
  {| UDB_SOCKET_PATH_DEFAULT := "/tmp/udb.sock"; UDB_DATABASE_SAVE_INTERVAL_SECS := 60 |}.

Section examples.
#[local] Existing Instance example_config.
#[local] Existing Instance decimal_float_format.
#[local] Existing Instance example_snapshot_config.
#[local] Existing Instance example_hash_order.
#[local] Existing Instance example_key_file_env.
#[local] Existing Instance example_lifecycle_config.
#[local] Existing Instance utf8_locale.

(** A server with two clients, the table of [Snapshot.example_table] and
    an empty disk. *)
Definition example_process (d : disk) (sigint : bool) : process :=
  process_running example_table example_sc example_conns [] "/tmp/udb.sock"
    (Some "/tmp/udb.db") d sigint.

(** A disk that refuses every write. *)
Definition example_full_disk : disk :=
  {| disk_files := ∅; disk_read_error := None;
     disk_write_error := Some (file_error G_FILE_ERROR_ACCES) |}.

Lemma on_db_save_timeout_saves_witness :
  on_db_save_timeout (example_process (disk_of ∅) false)
  = Ok (true, example_process (disk_saved "/tmp/udb.db" example_table (disk_of ∅)) false).
Proof.
  by apply (on_db_save_timeout_saves example_table example_sc example_conns []
              "/tmp/udb.sock" "/tmp/udb.db" (disk_of ∅) false).
Defined.

Lemma on_db_save_timeout_error_witness :
  on_db_save_timeout (example_process example_full_disk false)
  = Ok (true, process_running example_table example_sc example_conns
                ([] ++ [ErrDbSave (file_error G_FILE_ERROR_ACCES)]) "/tmp/udb.sock"
                (Some "/tmp/udb.db") example_full_disk false).
Proof.
  by apply (on_db_save_timeout_error example_table example_sc example_conns []
              "/tmp/udb.sock" "/tmp/udb.db" example_full_disk false
              (file_error G_FILE_ERROR_ACCES)).
Defined.

Lemma on_check_sigint_no_signal_witness :
  on_check_sigint (example_process (disk_of ∅) false)
  = Ok (true, example_process (disk_of ∅) false).
Proof. by apply (on_check_sigint_no_signal (example_process (disk_of ∅) false)). Defined.

Lemma sigint_saves_and_quits_witness :
  g_main_loop_run [Sigint; Idle; SaveTimer] (example_process (disk_of ∅) false)
  = Ok (true, process_stopped example_table example_sc example_conns [] "/tmp/udb.sock"
                (Some "/tmp/udb.db") (disk_saved "/tmp/udb.db" example_table (disk_of ∅))).
Proof.
  by apply (sigint_saves_and_quits example_table example_sc example_conns []
              "/tmp/udb.sock" "/tmp/udb.db" (disk_of ∅) [SaveTimer]).
Defined.

(** The disk with the snapshot of [example_table]. *)
Definition example_disk : disk :=
  disk_of {[ "/tmp/udb.db" := snapshot_data example_table ]}.

Lemma main_startup_restores_witness :
  main_startup (environment_of None (Some "/tmp/udb.db")) (process_start example_disk)
  = Ok (None, process_running example_table initial_scanner ∅
                [PrintListening (default UDB_SOCKET_PATH_DEFAULT None)]
                (default UDB_SOCKET_PATH_DEFAULT None) (Some "/tmp/udb.db")
                (disk_listening (default UDB_SOCKET_PATH_DEFAULT None) example_disk) false).
Proof.
  apply (main_startup_restores example_table None "/tmp/udb.db" example_disk);
    [done| |done|done|done].
  apply (bool_decide_eq_true_1 (storable_table example_table)). by vm_compute.
Defined.

Lemma main_startup_missing_file_witness :
  main_startup (environment_of None (Some "/tmp/udb.db")) (process_start (disk_of ∅))
  = Ok (None, process_running ∅ initial_scanner ∅
                [PrintListening (default UDB_SOCKET_PATH_DEFAULT None)]
                (default UDB_SOCKET_PATH_DEFAULT None) (Some "/tmp/udb.db")
                (disk_listening (default UDB_SOCKET_PATH_DEFAULT None) (disk_of ∅)) false).
Proof. by apply (main_startup_missing_file None "/tmp/udb.db" (disk_of ∅)). Defined.

Lemma main_startup_same_path_witness :
  exists p,
    main_startup (environment_of (Some "/tmp/udb.db") (Some "/tmp/udb.db"))
      (process_start example_disk)
    = Ok (Some G_FILE_ERROR_NXIO, p)
    /\ proc_disk p = disk_listening "/tmp/udb.db" example_disk
    /\ disk_files (proc_disk p) !! "/tmp/udb.db" = Some Socket
    /\ srv_log (proc_server p) = [ErrStartup (file_error G_FILE_ERROR_NXIO)].
Proof. by apply (main_startup_same_path "/tmp/udb.db" example_disk). Defined.

(** A write that no save follows: the server after a client replaced
    the value of key1, and the crash that loses it. *)
Definition example_write : list event := request_events 0 (ReqSet "key1" "bye").

Definition example_written : server_state :=
  match run_events example_write (server_of example_table example_sc example_conns []) with
  | Ok (_, s) => s
  | Fault _ => server_of ∅ example_sc ∅ []
  end.

Lemma restart_after_crash_witness :
  exists p',
    g_main_loop_run (SaveTimer :: map Conn example_write)
      (process_running example_table example_sc example_conns [] "/tmp/udb.sock"
         (Some "/tmp/udb.db") (disk_of ∅) false)
    = Ok (false, set_proc_server example_written
                   (process_running example_table example_sc example_conns [] "/tmp/udb.sock"
                      (Some "/tmp/udb.db")
                      (disk_saved "/tmp/udb.db" example_table (disk_of ∅)) false))
    /\ main_startup (environment_of None (Some "/tmp/udb.db"))
         (process_start (disk_saved "/tmp/udb.db" example_table (disk_of ∅)))
       = Ok (None, p')
    /\ udb_db (srv_udb (proc_server p')) = db_of example_table.
Proof.
  apply (restart_after_crash example_write example_table example_sc example_conns []
           "/tmp/udb.sock" "/tmp/udb.db" None (disk_of ∅) example_written);
    [done| |done|done|done|by vm_compute].
  apply (bool_decide_eq_true_1 (storable_table example_table)). by vm_compute.
Defined.

(** The table the clients saw last held the new value. *)
Example crash_loses_write :
  db_contents (udb_db (srv_udb example_written)) !! "key1" = Some "bye"
  /\ example_table !! "key1" = Some "hello".
Proof. by vm_compute. Qed.

Lemma main_startup_unlinks_witness :
  proc_disk (process_running example_table initial_scanner ∅ [PrintListening "/tmp/udb.sock"]
               "/tmp/udb.sock" (Some "/tmp/udb.db")
               (disk_listening "/tmp/udb.sock" example_disk) false)
  = match env_listen (environment_of None (Some "/tmp/udb.db")) with
    | Some _ =>
        disk_without
          (default UDB_SOCKET_PATH_DEFAULT
             (opt_socket_path {| opt_socket_path := None; opt_db_file := Some "/tmp/udb.db" |}))
          example_disk
    | None =>
        disk_listening
          (default UDB_SOCKET_PATH_DEFAULT
             (opt_socket_path {| opt_socket_path := None; opt_db_file := Some "/tmp/udb.db" |}))
          example_disk
    end.
Proof.
  apply (main_startup_unlinks (environment_of None (Some "/tmp/udb.db")) _
           example_disk None); [done|by vm_compute].
Defined.

(** A key file of another program. *)
Definition example_foreign_disk : disk :=
  disk_of {[ "/tmp/udb.db" := "[Desktop Entry]" +:+ String kf_nl "Name=udb" ]}.

Lemma main_startup_no_group_witness :
  main_startup (environment_of None (Some "/tmp/udb.db")) (process_start example_foreign_disk)
  = Ok (None, process_running ∅ initial_scanner ∅
                [PrintListening (default UDB_SOCKET_PATH_DEFAULT None)]
                (default UDB_SOCKET_PATH_DEFAULT None) (Some "/tmp/udb.db")
                (disk_listening (default UDB_SOCKET_PATH_DEFAULT None) example_foreign_disk)
                false).
Proof.
  by eapply (main_startup_no_group None "/tmp/udb.db"
               ("[Desktop Entry]" +:+ String kf_nl "Name=udb") example_foreign_disk);
    [| | |vm_compute; reflexivity|vm_compute].
Defined.

(** A file that is not a key file. *)
Definition example_broken_disk : disk :=
  disk_of {[ "/tmp/udb.db" := "[udb]" +:+ String kf_nl "key1" ]}.

Lemma main_load_error_exit_code_witness :
  exists p,
    main (environment_of None (Some "/tmp/udb.db")) [Sigint; Idle]
      (process_start example_broken_disk)
    = Ok (Some (error_code (key_file_error G_KEY_FILE_ERROR_PARSE)), p)
    /\ srv_log (proc_server p) = [ErrStartup (key_file_error G_KEY_FILE_ERROR_PARSE)]
    /\ service_started p = false /\ proc_loop p = LoopNone.
Proof.
  by apply (main_load_error_exit_code None "/tmp/udb.db"
              ("[udb]" +:+ String kf_nl "key1") example_broken_disk
              (key_file_error G_KEY_FILE_ERROR_PARSE) [Sigint; Idle]);
    [| | |vm_compute|vm_compute].
Defined.

Lemma served_then_restored_witness :
  exists p p',
    (g_main_loop_run (map Conn (session_events example_interleaving) ++ [Sigint; Idle]) ;;
     main_teardown)
      (process_running {["k" := "value"]} example_sc example_conns [] "/tmp/udb.sock"
         (Some "/tmp/udb.db") (disk_of ∅) false)
    = Ok (EXIT_SUCCESS, p)
    /\ main_startup (environment_of None (Some "/tmp/udb.db")) (process_start (proc_disk p))
       = Ok (None, p')
    /\ udb_db (srv_udb (proc_server p'))
       = db_of (spec_requests example_interleaving.*2 {["k" := "value"]}).2.
Proof.
  apply (served_then_restored example_interleaving {["k" := "value"]} example_sc
           example_conns [] "/tmp/udb.sock" "/tmp/udb.db" None (disk_of ∅));
    [done|done| | |done|done|done].
  - split.
    + repeat apply Forall_cons_2;
        [(split; [acceptable_by_computation|vm_compute; by eexists])..|done].
    + apply map_Forall_insert_2; [|apply map_Forall_singleton];
        (split; [by repeat split|vm_compute; lia]).
  - apply (bool_decide_eq_true_1 (storable_table _)). by vm_compute.
Defined.

(** The events of a client that connects, sends one line and waits for
    the reply. *)
Definition one_request (c : nat) (line : string) : list loop_event :=
  [Conn (EvIncoming c 100); Conn (EvRead c (ReadLine line)); Conn (EvWritten c)].

(** What a run of [main] leaves: the exit code, what each client was
    sent, and the files. *)
Definition run_main (argv : list string) (es : list loop_event) (d : disk) :
    outcome (option Z * gmap nat string * gmap string file) :=
  olet '(code, p) := main_argv argv (Live tt) None es (process_start d) in
  Ok (code, conn_sent <$> srv_conns (proc_server p), disk_files (proc_disk p)).

(** The start from a snapshot of the specification: with the file
    that holds [key1=hello] in the group of the snapshot, the first
    client that asks for [key1] is sent [hello], and a SIGINT ends the
    process with [EXIT_SUCCESS] and the same file, beside the socket
    that nothing removes. *)
Example main_serves_snapshot :
  run_main ["udb"; "--db-file"; "/tmp/udb.db"]
    (one_request 0 "GET key1" ++ [Sigint; Idle])
    (disk_of {[ "/tmp/udb.db" := "[udb]" +:+ String kf_nl "key1=hello" ]})
  = Ok (Some EXIT_SUCCESS, {[ 0%nat := "hello" +:+ CRLF ]},
        {[ "/tmp/udb.db"
             := Regular ("[udb]" +:+ String kf_nl ("key1=hello" +:+ String kf_nl EmptyString));
           "/tmp/udb.sock" := Socket ]}).
Proof. by vm_compute. Qed.

(** A request whose key is written with the escape of a line feed. *)
Definition example_poison_line : string :=
  "SET " +:+ String "034" ("a\nb" +:+ String "034" " value").

Lemma snapshot_refused_witness :
  exists p p',
    g_main_loop_run [Sigint; Idle]
      (process_running (<["a" +:+ String kf_nl "b":="value"]> example_table) example_sc
         example_conns [] "/tmp/udb.sock" (Some "/tmp/udb.db") (disk_of ∅) false)
    = Ok (true, p)
    /\ main (environment_of None (Some "/tmp/udb.db")) [] (process_start (proc_disk p))
       = Ok (Some G_KEY_FILE_ERROR_PARSE, p')
    /\ srv_log (proc_server p') = [ErrStartup (key_file_error G_KEY_FILE_ERROR_PARSE)]
    /\ service_started p' = false.
Proof.
  apply (snapshot_refused example_table "a" "b" "value" example_sc example_conns []
           "/tmp/udb.sock" "/tmp/udb.db" None (disk_of ∅) false [] []); try done.
  apply (bool_decide_eq_true_1 (storable_table example_table)). by vm_compute.
Defined.

(** A client writes such a key with the escape of a quoted string: the
    request is served, the SIGINT saves the table, and the next start
    ends with the code of [G_KEY_FILE_ERROR_PARSE].  With the same path
    for the socket and the snapshot the start ends with the code of
    [G_FILE_ERROR_NXIO], the socket where the snapshot was. *)
Example main_poisoned_snapshot :
  (olet '(_, _, files) :=
     run_main ["udb"; "-f"; "/tmp/udb.db"]
       (one_request 0 example_poison_line ++ [Sigint; Idle]) (disk_of ∅) in
   olet '(code, _, _) :=
     run_main ["udb"; "-f"; "/tmp/udb.db"] [] (mk_disk files None None) in
   Ok code)
  = Ok (Some G_KEY_FILE_ERROR_PARSE)
  /\ run_main ["udb"; "-p"; "/tmp/udb.db"; "-f"; "/tmp/udb.db"] [] example_disk
     = Ok (Some G_FILE_ERROR_NXIO, ∅, {[ "/tmp/udb.db" := Socket ]}).
Proof. by vm_compute. Qed.

Lemma main_argv_unknown_option_witness :
  main_argv ["udb"; "--socket"; "/tmp/udb.sock"] (Live tt) None [Sigint; Idle]
    (process_start (disk_of ∅))
  = Ok (Some EXIT_SUCCESS,
        set_proc_server
          {| srv_udb := srv_udb (proc_server (process_start (disk_of ∅)));
             srv_conns := srv_conns (proc_server (process_start (disk_of ∅)));
             srv_log := srv_log (proc_server (process_start (disk_of ∅)))
                        ++ [ErrStartup (option_error G_OPTION_ERROR_UNKNOWN_OPTION)] |}
          (process_start (disk_of ∅))).
Proof.
  by apply (main_argv_unknown_option "udb" "socket" ["/tmp/udb.sock"] (Live tt) None
              [Sigint; Idle] (process_start (disk_of ∅))).
Defined.

(** The command lines that end the process before it serves: the help,
    with the exit code of success; an option without its value; a
    socket path that is not UTF-8. *)
Example main_argv_early_exits :
  run_main ["udb"; "-f"; "/tmp/udb.db"; "--help"] [] (disk_of ∅)
  = Ok (Some EXIT_SUCCESS, ∅, ∅)
  /\ run_main ["udb"; "--socket-path"] [] (disk_of ∅) = Ok (Some G_OPTION_ERROR_BAD_VALUE, ∅, ∅)
  /\ run_main ["udb"; "-p"; String "255" "sock"] [] (disk_of ∅)
     = Ok (Some G_CONVERT_ERROR_ILLEGAL_SEQUENCE, ∅, ∅).
Proof. by vm_compute. Qed.

End examples.
