(* ===== verification/Invariant.v ===== *)
(** * Invariant: what holds between two callbacks

    The main loop of src/udb.c runs one callback at a time.  This file
    states what every callback finds and leaves: the table and the
    scanner are there and both locks are free ([Handlers.udb_ok]); a
    connection holds one reference exactly while its read is outstanding,
    and its output stream is busy exactly while a write waits for the
    socket or a finished write waits for [on_write_done] ([conn_ok]);
    what [main] installed stays installed ([process_ok]).

    The loop is a labelled step relation ([step], [steps]) over the
    events that can happen ([enabled]); it is the relation of the
    executable [Lifecycle.g_main_loop_run].  The invariant is proved
    callback by callback with the rules of [Hoare], and for every state
    the program reaches by induction on the steps.  For [main] as a
    whole the events of a run must be able to happen in their order
    ([admissible]); then [main] returns its exit code, runs out of
    events in the loop, or has read what it must not, and never blocks
    on a lock. *)

From S2P Require Import Prelude Hoare CString Mutex Store Scanner Printf KeyFile Snapshot.
From S2P Require Import Options Handlers Protocol Connection Lifecycle.

Set Warnings "-clear-no-such-hyp".

Open Scope Z_scope.

(** ** Connections *)

Definition is_finished (r : write_report) : bool :=
  match r with Finished _ => true | Refused _ => false end.

(** The writes of a connection that ended and wait for [on_write_done]. *)
Definition finished_reports (k : connection) : nat :=
  length (filter is_finished (conn_reports k)).

(** A connection between two callbacks: the only reference is the one
    of the outstanding read; the stream is busy with exactly one write,
    which waits for the socket or for [on_write_done]; the buffer of a
    write that waits has been freed by [on_line_read]. *)
Definition conn_ok (k : connection) : Prop :=
  conn_refs k = (if conn_reading k then 1 else 0)%nat
  /\ (if conn_busy k then 1 else 0)%nat
     = (match conn_waiting k with Some _ => 1 | None => 0 end + finished_reports k)%nat
  /\ match conn_waiting k with
     | None | Some Dangling => True
     | Some (Live _ | Null) => False
     end.

#[export] Instance conn_ok_dec k : Decision (conn_ok k).
Proof. unfold conn_ok. repeat case_match; apply _. Defined.

(** The state the callbacks share. *)
Definition server_ok (s : server_state) : Prop :=
  udb_ok (srv_udb s) /\ map_Forall (fun _ k => conn_ok k) (srv_conns s).

#[export] Instance udb_ok_dec u : Decision (udb_ok u).
Proof. unfold udb_ok. apply _. Defined.

#[export] Instance server_ok_dec s : Decision (server_ok s).
Proof. unfold server_ok. apply _. Defined.

(** ** Lemmas: one connection *)

Lemma finished_cons r rs :
  length (filter is_finished (r :: rs))
  = ((if is_finished r then 1 else 0) + length (filter is_finished rs))%nat.
Proof. destruct r; [by rewrite filter_cons_True|by rewrite filter_cons_False by auto]. Qed.

Lemma finished_snoc r rs :
  length (filter is_finished (rs ++ [r]))
  = (length (filter is_finished rs) + if is_finished r then 1 else 0)%nat.
Proof. rewrite filter_app, length_app. by destruct r. Qed.

Ltac conn_cases :=
  unfold conn_ok, finished_reports in *; cbn in *;
  repeat (case_match; simplify_eq/=); try (split_and!; (done || lia)).

(** A reply goes to the stream of a connection that waits for a line. *)
Lemma conn_after_reply_ok reply k :
  conn_ok k -> conn_reading k = true ->
  exists k', conn_after_reply reply k = Ok k' /\ conn_ok k'.
Proof.
  intros Hk Hr. destruct k as [refs rd sent room busy waiting reports]. cbn in Hr. subst rd.
  unfold conn_after_reply, read_line_finish, g_output_stream_write_async. cbn.
  destruct busy; [|case_bool_decide]; cbn; eexists; (split; [done|]);
    unfold conn_ok, finished_reports in *; cbn [conn_refs conn_reading conn_busy
      conn_waiting conn_reports] in *;
    rewrite ?finished_snoc; cbn [is_finished]; repeat case_match; simplify_eq/=;
    split_and!; (done || lia).
Qed.

Lemma conn_closed_ok k : conn_ok k -> conn_reading k = true -> conn_ok (conn_closed k).
Proof. intros Hk Hr. destruct k. by conn_cases. Qed.

(** The report of a write is taken. *)
Lemma next_report_ok k :
  conn_ok k -> conn_reports k <> [] ->
  exists r k', next_report k = Ok (r, k') /\ conn_ok k'.
Proof.
  intros Hk Hr. destruct k as [refs rd sent room busy waiting reports]. cbn in Hr.
  destruct reports as [|r rs]; [done|]. unfold next_report. cbn. eexists _, _.
  split; [done|]. unfold conn_ok, finished_reports in *.
  cbn [conn_refs conn_reading conn_busy conn_waiting conn_reports] in *.
  rewrite finished_cons in Hk. destruct r; cbn [is_finished] in *;
    repeat case_match; simplify_eq/=; split_and!; (done || lia).
Qed.

(** The socket takes bytes: the write that waits reads a freed buffer. *)
Lemma socket_writable_ok room k :
  conn_ok k -> wp (socket_writable room) (fun _ k' => conn_ok k') no_deadlock k.
Proof.
  intros Hk. destruct k as [refs rd sent rm busy waiting reports].
  unfold wp, socket_writable. cbn. destruct waiting as [[|buffer|]|]; by conn_cases.
Qed.

(** ** The events that can happen *)

(** The connection of an event. *)
Definition event_conn (e : event) : nat :=
  match e with
  | EvIncoming c _ | EvRead c _ | EvWritten c | EvWritable c _ => c
  end.

(** A client connects under a number that is free; a read ends on a
    connection that has one outstanding; a report is taken where one
    waits; a socket that exists takes bytes. *)
Definition event_enabled (e : event) (s : server_state) : Prop :=
  match e, srv_conns s !! event_conn e with
  | EvIncoming _ _, None => True
  | EvRead _ _, Some k => conn_reading k = true
  | EvWritten _, Some k => conn_reports k <> []
  | EvWritable _ _, Some _ => True
  | _, _ => False
  end.

#[export] Instance event_enabled_dec e s : Decision (event_enabled e s).
Proof. unfold event_enabled. repeat case_match; apply _. Defined.

Section invariant.
Context `{UdbConfig} `{FloatFormat} `{SnapshotConfig} `{HashOrder} `{KeyFileEnv}
  `{LifecycleConfig}.

(** ** The process in the main loop *)

(** What [main] installed is installed, the save timer exactly with
    [--db-file]; the idle source runs until [on_check_sigint] leaves the
    loop, which it does after a SIGINT only. *)
Definition process_ok (p : process) : Prop :=
  server_ok (proc_server p)
  /\ sigint_installed p = true /\ incoming_connected p = true /\ service_started p = true
  /\ save_timer p = match proc_db_file p with
                    | Some _ => Some UDB_DATABASE_SAVE_INTERVAL_SECS
                    | None => None
                    end
  /\ match proc_loop p with
     | LoopRunning => sigint_check p = true
     | LoopQuit => sigint_check p = false /\ got_sigint p = true
     | LoopNone => False
     end.

#[export] Instance process_ok_dec p : Decision (process_ok p).
Proof. unfold process_ok. repeat case_match; apply _. Defined.

(** An event of the loop can happen. *)
Definition enabled (e : loop_event) (p : process) : Prop :=
  match e with
  | Conn e => event_enabled e (proc_server p)
  | Sigint | SaveTimer | Idle => True
  end.

#[export] Instance enabled_dec e p : Decision (enabled e p).
Proof. destruct e; apply _. Defined.

(** One turn of the loop: an event that can happen is dispatched and its
    callback returns. *)
Inductive step : process -> loop_event -> process -> Prop :=
| step_dispatch p e p' :
    proc_loop p = LoopRunning -> enabled e p -> loop_step e p = Ok (tt, p') ->
    step p e p'.

(** The turns of the loop, with the events in their order. *)
Inductive steps : process -> list loop_event -> process -> Prop :=
| steps_nil p : steps p [] p
| steps_cons p e p' es p'' : step p e p' -> steps p' es p'' -> steps p (e :: es) p''.

(** The states the program reaches: [main] started from the static
    state of the process on some disk, and the loop took some turns. *)
Inductive reachable : process -> Prop :=
| reachable_started env d p :
    main_startup env (process_start d) = Ok (None, p) -> reachable p
| reachable_step p e p' : reachable p -> step p e p' -> reachable p'.

(** The events of a run can happen in their order: each one when the
    loop, still running, comes to it. *)
Fixpoint admissible (es : list loop_event) (p : process) : Prop :=
  match es with
  | [] => True
  | e :: es =>
      proc_loop p = LoopRunning ->
      enabled e p /\ match loop_step e p with
                     | Ok (_, p') => admissible es p'
                     | Fault _ => True
                     end
  end.

#[export] Instance admissible_dec es p : Decision (admissible es p).
Proof.
  revert p. induction es as [|e es IH]; intros p; cbn [admissible]; [apply _|].
  destruct (loop_step e p) as [[[] p']|f]; apply _.
Defined.

(** ** Lemmas: the callbacks of a connection *)

Lemma server_ok_insert u conns lg u' lg' c k :
  server_ok {| srv_udb := u; srv_conns := conns; srv_log := lg |} ->
  udb_ok u' -> conn_ok k ->
  server_ok {| srv_udb := u'; srv_conns := <[c:=k]> conns; srv_log := lg' |}.
Proof. intros [_ Hc] Hu Hk. split; [done|]. by apply map_Forall_insert_2. Qed.

(** [process_command_line] between two requests: a reply and the state
    between two requests again, or a read past the line. *)
Lemma process_command_line_wp line u :
  udb_ok u ->
  wp (process_command_line line) (fun reply u' => ends_crlf reply /\ udb_ok u')
    no_deadlock u.
Proof.
  intros (m & sc & ->)%udb_ok_inv. unfold wp, process_command_line.
  rewrite process_command_line_len_run. unfold respond.
  destruct (parse_request (input_text line (-1) sc)) as [[r sc']|f] eqn:E; cbn.
  - split; [|apply udb_ok_of]. apply request_reply_crlf. by eapply parse_request_wf.
  - apply (parse_request_faults _ _ E).
Qed.

(** [on_line_read] when [process_command_line] does not return. *)
Lemma on_line_read_fault c line u conns lg k f :
  conns !! c = Some k -> conn_open k ->
  process_command_line (strip_cr line) u = Fault f ->
  on_line_read c (ReadLine line) {| srv_udb := u; srv_conns := conns; srv_log := lg |}
  = Fault f.
Proof.
  intros Hc [Hr Hrd] Hp. unfold on_line_read.
  rewrite (on_conn_step _ _ _ _ _ _ _ Hc Hr). unfold read_line_finish. rewrite Hrd.
  cbn [o_bind]. rewrite log_step. unfold st_bind at 1, on_udb, zoom. cbn [srv_udb].
  by rewrite Hp.
Qed.

Lemma conn_ok_open k : conn_ok k -> conn_reading k = true -> conn_open k.
Proof. intros (Hr & _) Hrd. rewrite Hrd in Hr. split; [lia|done]. Qed.

Lemma on_line_read_wp c res s :
  server_ok s -> event_enabled (EvRead c res) s ->
  wp (on_line_read c res) (fun _ s' => server_ok s') no_deadlock s.
Proof.
  destruct s as [u conns lg]. intros Hs He. unfold event_enabled in He. cbn in He.
  destruct (conns !! c) as [k|] eqn:Hc; [|done].
  pose proof (proj2 Hs _ _ Hc) as Hk. pose proof (conn_ok_open _ Hk He) as Ho.
  destruct res as [line| |e].
  - pose proof (process_command_line_wp (strip_cr line) u (proj1 Hs)) as Hp.
    unfold wp in Hp |- *.
    destruct (process_command_line (strip_cr line) u) as [[reply u']|f] eqn:E.
    + erewrite on_line_read_line by (done || apply Ho).
      destruct (conn_after_reply_ok reply k Hk He) as (k' & -> & Hk'). cbn.
      by eapply server_ok_insert; [| apply Hp|].
    + by erewrite on_line_read_fault.
  - unfold wp. erewrite on_line_read_end by done.
    eapply server_ok_insert; [done|apply Hs|by apply conn_closed_ok].
  - unfold wp. erewrite on_line_read_end by done.
    eapply server_ok_insert; [done|apply Hs|by apply conn_closed_ok].
Qed.

Lemma on_write_done_wp c s :
  server_ok s -> event_enabled (EvWritten c) s ->
  wp (on_write_done c) (fun _ s' => server_ok s') no_deadlock s.
Proof.
  destruct s as [u conns lg]. intros Hs He. unfold event_enabled in He. cbn in He.
  destruct (conns !! c) as [k|] eqn:Hc; [|done].
  destruct (next_report_ok k (proj2 Hs _ _ Hc) He) as (r & k' & Hr & Hk').
  unfold wp, on_write_done. rewrite (on_stream_step _ _ _ _ _ _ _ Hc), Hr. cbn [o_bind].
  destruct r as [[[n|e]|]|e]; by eapply server_ok_insert; [|apply Hs|].
Qed.

Lemma socket_ready_wp c room s :
  server_ok s -> event_enabled (EvWritable c room) s ->
  wp (socket_ready c room) (fun _ s' => server_ok s') no_deadlock s.
Proof.
  destruct s as [u conns lg]. intros Hs He. unfold event_enabled in He. cbn in He.
  destruct (conns !! c) as [k|] eqn:Hc; [|done].
  pose proof (socket_writable_ok room k (proj2 Hs _ _ Hc)) as Hw.
  unfold wp, socket_ready, on_stream in Hw |- *. cbn. rewrite Hc.
  destruct (socket_writable room k) as [[[] k']|f]; [|done].
  by eapply server_ok_insert; [|apply Hs|].
Qed.

Lemma incoming_wp c room s :
  server_ok s -> event_enabled (EvIncoming c room) s ->
  wp (incoming c room) (fun _ s' => server_ok s') no_deadlock s.
Proof.
  destruct s as [u conns lg]. intros Hs He. unfold event_enabled in He. cbn in He.
  destruct (conns !! c) as [k|] eqn:Hc; [done|].
  unfold wp. rewrite incoming_new by done.
  by eapply server_ok_insert; [|apply Hs|].
Qed.

(** Every callback of a connection leaves the invariant of the server,
    or reads what it must not; none blocks. *)
Lemma dispatch_wp e s :
  server_ok s -> event_enabled e s ->
  wp (dispatch e) (fun _ s' => server_ok s') no_deadlock s.
Proof.
  destruct e; cbn [dispatch];
    auto using incoming_wp, on_line_read_wp, on_write_done_wp, socket_ready_wp.
Qed.

(** ** Lemmas: the process *)

Lemma process_running_ok m sc conns lg sock file d sigint :
  map_Forall (fun _ k => conn_ok k) conns ->
  process_ok (process_running m sc conns lg sock file d sigint).
Proof. intros Hc. split_and!; done. Qed.

Lemma process_stopped_ok m sc conns lg sock file d :
  map_Forall (fun _ k => conn_ok k) conns ->
  process_ok (process_stopped m sc conns lg sock file d).
Proof. intros Hc. split_and!; done. Qed.

(** A process in the loop is [process_running] of its parts. *)
Lemma process_ok_running p :
  process_ok p -> proc_loop p = LoopRunning ->
  exists m sc conns lg sock file d sigint,
    p = process_running m sc conns lg sock file d sigint
    /\ map_Forall (fun _ k => conn_ok k) conns.
Proof.
  destruct p as [[u conns lg] sock file d sg lp si ic st sc ss].
  unfold process_ok, server_ok. cbn.
  intros ([(m & g & ->)%udb_ok_inv Hc] & -> & -> & -> & -> & Hl) ->. cbn in Hl. subst sc.
  by exists m, g, conns, lg, sock, file, d, sg.
Qed.

Lemma on_server_wp {A} (c : ST server_state A) (Q : A -> process -> Prop) F p :
  wp c (fun a s => Q a (set_proc_server s p)) F (proc_server p) -> wp (on_server c) Q F p.
Proof. apply wp_zoom. Qed.

Lemma process_ok_set_server s p :
  process_ok p -> server_ok s -> process_ok (set_proc_server s p).
Proof. intros (_ & ?) Hs. by split. Qed.

(** Every callback of the loop leaves the invariant of the process, or
    reads what it must not; none blocks. *)
Lemma loop_step_wp e p :
  process_ok p -> proc_loop p = LoopRunning -> enabled e p ->
  wp (loop_step e) (fun _ p' => process_ok p') no_deadlock p.
Proof.
  intros Hp Hl He.
  destruct (process_ok_running p Hp Hl) as (m & sc & conns & lg & sock & file & d & sg & -> & Hc).
  destruct (db_save_to_file_total m file d) as (error & d' & cs & Hs).
  destruct e as [| | |e]; unfold wp.
  - by apply process_running_ok.
  - unfold loop_step. cbn. destruct file as [path|]; cbn; [|by apply process_running_ok].
    unfold on_db_save_timeout. rewrite st_bind_assoc.
    erewrite st_bind_Ok by (by apply save_locked_run). by apply process_running_ok.
  - destruct sg.
    + erewrite loop_step_idle_sigint by done. by apply process_stopped_ok.
    + unfold loop_step. erewrite st_bind_Ok by reflexivity.
      cbn [sigint_check process_running].
      erewrite st_bind_Ok by (by apply on_check_sigint_no_signal).
      by apply process_running_ok.
  - apply (on_server_wp (dispatch e)). eapply wp_post; [by apply dispatch_wp|].
    intros [] s' Hs'. by apply process_ok_set_server.
Qed.

(** ** Lemmas: the start *)

(** A start that reaches the loop establishes the invariant. *)
Lemma main_startup_ok env d p :
  main_startup env (process_start d) = Ok (None, p) ->
  process_ok p /\ proc_loop p = LoopRunning.
Proof.
  destruct env as [[e|[sock file]] [|[]|] [e'|]]; try done.
  change {| env_options := inr {| opt_socket_path := sock; opt_db_file := file |};
            env_service := Live (); env_listen := None |}
    with (environment_of sock file).
  destruct file as [path|].
  - destruct (db_load_from_file_path ∅ path
                (disk_listening (default UDB_SOCKET_PATH_DEFAULT sock) d)) as (error & m & Hl).
    rewrite (main_startup_file _ _ _ _ _ _ Hl).
    destruct error as [e|]; [case_bool_decide; [done|]|];
      intros [= <-]; (split; [by apply process_running_ok|done]).
  - rewrite main_startup_no_file. intros [= <-]. split; [by apply process_running_ok|done].
Qed.

(** ** Theorems: the invariant *)

(** C14. What holds between two callbacks holds again after every
    callback that returns, and a callback that does not return has read
    what it must not: no callback of the loop blocks on a lock. *)
Theorem loop_step_preserves (e : loop_event) (p : process) :
  process_ok p -> proc_loop p = LoopRunning -> enabled e p ->
  match loop_step e p with
  | Ok (_, p') => process_ok p'
  | Fault f => f = Undefined
  end.
Proof. apply loop_step_wp. Qed.

Lemma step_ok p e p' : process_ok p -> step p e p' -> process_ok p'.
Proof.
  intros Hp Hstep. destruct Hstep as [p e p' Hl He Hs].
  by eapply (wp_Ok_inv _ _ _ _ _ _ (loop_step_wp _ _ Hp Hl He)).
Qed.

Lemma reachable_process_ok p : reachable p -> process_ok p.
Proof.
  induction 1 as [env d p Hs|p e p' _ IH Hs]; [by eapply main_startup_ok|by eapply step_ok].
Qed.

(** C11. Every state the program reaches satisfies the invariant: the
    table and the scanner are there with both locks free, every
    connection holds one reference exactly while its read is
    outstanding, and a write that waits for its socket has a buffer that
    was freed. *)
Theorem reachable_ok (p : process) : reachable p -> process_ok p.
Proof. apply reachable_process_ok. Qed.

(** C12. The server never deadlocks: in no state the program reaches
    does a callback of the loop block on [db_mutex] or on
    [scanner_mutex]. *)
Theorem reachable_no_deadlock (p : process) (e : loop_event) :
  reachable p -> proc_loop p = LoopRunning -> enabled e p ->
  loop_step e p <> Fault Deadlock.
Proof.
  intros Hp%reachable_process_ok Hl He Hf.
  by pose proof (wp_Fault_inv _ _ _ _ _ (loop_step_wp _ _ Hp Hl He) Hf).
Qed.

(** ** Theorems: the relation and the function *)

(** The turns of the loop are runs of [g_main_loop_run]: when the
    loop takes the turns [es] from [p] to [p'], [g_main_loop_run es]
    returns in [p'], and says that the loop was left exactly when the
    last callback left it. *)
Lemma steps_run (p p' : process) (es : list loop_event) :
  steps p es p' ->
  g_main_loop_run es p = Ok (bool_decide (proc_loop p' = LoopQuit), p').
Proof.
  induction 1 as [p|p e p1 es p2 [p0 e0 p0' Hl He Hs] _ IH].
  - destruct (proc_loop p) eqn:Hl.
    + cbn. unfold st_bind. cbn. by rewrite Hl.
    + cbn. unfold st_bind. cbn. by rewrite Hl.
    + by rewrite g_main_loop_run_quit.
  - rewrite g_main_loop_run_cons by congruence. by rewrite (st_bind_Ok _ _ _ _ _ Hs).
Qed.

(** ** Theorems: the end *)

(** C24. From every state the program reaches in the loop, a SIGINT and
    the next turn of the idle source save the table and leave the loop:
    the state that results satisfies the invariant, the table is the
    one the clients saw last, and with [--db-file] the file holds its
    snapshot, written by this turn.  When the write fails the disk is
    as it was and the error is printed; without [--db-file] nothing is
    written and [db_save_to_file], which is called all the same, prints
    its critical message.  The events that follow are not dispatched. *)
Theorem reachable_sigint_quits (p : process) (es : list loop_event) :
  reachable p -> proc_loop p = LoopRunning ->
  exists p', g_main_loop_run (Sigint :: Idle :: es) p = Ok (true, p')
             /\ process_ok p' /\ proc_loop p' = LoopQuit
             /\ udb_db (srv_udb (proc_server p')) = udb_db (srv_udb (proc_server p))
             /\ (forall path m,
                   proc_db_file p = Some path -> disk_write_error (proc_disk p) = None ->
                   udb_db (srv_udb (proc_server p)) = db_of m ->
                   proc_disk p' = disk_saved path m (proc_disk p)
                   /\ srv_log (proc_server p') = srv_log (proc_server p))
             /\ (forall path e,
                   proc_db_file p = Some path -> disk_write_error (proc_disk p) = Some e ->
                   proc_disk p' = proc_disk p
                   /\ srv_log (proc_server p') = srv_log (proc_server p) ++ [ErrDbSave e])
             /\ (proc_db_file p = None ->
                 proc_disk p' = proc_disk p
                 /\ srv_log (proc_server p')
                    = srv_log (proc_server p)
                      ++ [Critical "db_save_to_file" "db_file_path != NULL"]).
Proof.
  intros Hp%reachable_process_ok Hl.
  destruct (process_ok_running p Hp Hl) as (m & sc & conns & lg & sock & file & d & sg & -> & Hc).
  destruct (db_save_to_file_total m file d) as (error & d' & cs & Hs).
  eexists. split; [by eapply sigint_idle_run|]. split; [by apply process_stopped_ok|].
  split_and!; [done..| | |]; cbn.
  - intros path m' -> Hw [= <-]. rewrite db_save_to_file_run in Hs by done.
    injection Hs as <- <- <-. by rewrite app_nil_r.
  - intros path e -> Hw. rewrite (db_save_to_file_write_error _ _ _ _ Hw) in Hs.
    by injection Hs as <- <- <-.
  - intros ->. injection Hs as <- <- <-. by rewrite app_nil_r.
Qed.

(** ** Lemmas: the whole run *)

(** A start reaches the loop with the invariant, ends [main] with an
    exit code, or dereferences the service that was not created. *)
Lemma main_startup_wp env d :
  wp (main_startup env)
     (fun failed p => failed = None -> process_ok p /\ proc_loop p = LoopRunning)
     no_deadlock (process_start d).
Proof.
  unfold wp. destruct (main_startup env (process_start d)) as [[[code|] p]|f] eqn:E; [done| |].
  - intros _. by eapply main_startup_ok.
  - revert E. destruct env as [[e|[sock file]] [|[]|] [e'|]]; try done;
      try (by intros [= <-]).
    change {| env_options := inr {| opt_socket_path := sock; opt_db_file := file |};
              env_service := Live (); env_listen := None |}
      with (environment_of sock file).
    destruct file as [path|]; [|by rewrite main_startup_no_file].
    destruct (db_load_from_file_path ∅ path
                (disk_listening (default UDB_SOCKET_PATH_DEFAULT sock) d)) as (error & m & Hl).
    rewrite (main_startup_file _ _ _ _ _ _ Hl). by destruct error; [case_bool_decide|].
Qed.

(** The loop over events that can happen keeps the invariant, and
    reports that it was left exactly when it was. *)
Lemma g_main_loop_run_wp es p :
  process_ok p -> admissible es p ->
  wp (g_main_loop_run es)
     (fun left p' => process_ok p' /\ (left = true <-> proc_loop p' = LoopQuit))
     no_deadlock p.
Proof.
  revert p. induction es as [|e es IH]; intros p Hp Ha.
  - unfold wp. destruct (proc_loop p) eqn:Hl; cbn; unfold st_bind; cbn; rewrite Hl;
      (split; [done|by rewrite ?Hl]).
  - destruct (decide (proc_loop p = LoopRunning)) as [Hl|Hl].
    + destruct (Ha Hl) as [He Hes]. pose proof (loop_step_wp e p Hp Hl He) as Hw.
      unfold wp in *. rewrite g_main_loop_run_cons by congruence. unfold st_bind.
      destruct (loop_step e p) as [[[] p']|f]; [by apply IH|done].
    + assert (proc_loop p = LoopQuit) as Hq.
      { destruct Hp as (_ & _ & _ & _ & _ & Hp). by destruct (proc_loop p). }
      unfold wp. by rewrite g_main_loop_run_quit.
Qed.

(** After the loop [main] gives the lock and the table back. *)
Lemma main_teardown_wp p :
  process_ok p ->
  wp main_teardown
     (fun code p' => code = EXIT_SUCCESS /\ proc_loop p' = LoopNone
                     /\ db_mem (udb_db (srv_udb (proc_server p'))) = Dangling)
     no_fault p.
Proof.
  intros ((([Hm Hu] & _) & _) & _).
  destruct p as [[[[mem mu] sc] conns lg] sock file d sg lp si ic st sc' ss].
  cbn in Hm, Hu. subst mu. by destruct mem.
Qed.

(** ** Theorems: the whole run *)

(** C13. [main] never blocks on a lock: whatever the command line
    gave, the disk holds and the loop delivers, as long as every event
    can happen when it is delivered, [main] returns an exit code with
    the table destroyed, or runs out of events in the loop with the
    invariant, or has read what it must not. *)
Theorem main_no_deadlock (env : environment) (es : list loop_event) (d : disk) :
  (forall p, main_startup env (process_start d) = Ok (None, p) -> admissible es p) ->
  match main env es (process_start d) with
  | Ok (Some _, _) => True
  | Ok (None, p) => process_ok p /\ proc_loop p = LoopRunning
  | Fault f => f = Undefined
  end.
Proof.
  intros Ha. pose proof (main_startup_wp env d) as Hs. unfold wp, main, st_bind in *.
  destruct (main_startup env (process_start d)) as [[[code|] p]|f]; [done| |done].
  destruct (Hs eq_refl) as [Hp Hl]. pose proof (g_main_loop_run_wp es p Hp (Ha p eq_refl)) as Hr.
  unfold wp in Hr. destruct (g_main_loop_run es p) as [[left p']|f]; [|done].
  destruct Hr as [Hp' Hq]. destruct left.
  - pose proof (main_teardown_wp p' Hp') as Ht. unfold wp in Ht.
    by destruct (main_teardown p') as [[code p'']|f].
  - cbn. split; [done|]. destruct Hp' as (_ & _ & _ & _ & _ & Hp').
    destruct (proc_loop p'); try done. discriminate (proj2 Hq eq_refl).
Qed.

End invariant.

(** ** Examples *)

Section examples.
#[local] Existing Instance example_config.
#[local] Existing Instance decimal_float_format.
#[local] Existing Instance example_snapshot_config.
#[local] Existing Instance example_hash_order.
#[local] Existing Instance example_key_file_env.
#[local] Existing Instance example_lifecycle_config.

(** The process started on the disk with the snapshot of
    [Snapshot.example_table], and after its first client connected. *)
Definition example_started : process :=
  process_running example_table initial_scanner ∅ [PrintListening "/tmp/udb.sock"]
    "/tmp/udb.sock" (Some "/tmp/udb.db") (disk_listening "/tmp/udb.sock" example_disk) false.

Definition example_connected : process :=
  process_running example_table initial_scanner {[ 0%nat := example_conn 100 ]}
    [PrintListening "/tmp/udb.sock"] "/tmp/udb.sock" (Some "/tmp/udb.db")
    (disk_listening "/tmp/udb.sock" example_disk) false.

Lemma example_start :
  main_startup (environment_of None (Some "/tmp/udb.db")) (process_start example_disk)
  = Ok (None, example_started).
Proof. by vm_compute. Qed.

Lemma example_started_reachable : reachable example_started.
Proof. eapply reachable_started, example_start. Qed.

Lemma example_step : step example_started (Conn (EvIncoming 0 100)) example_connected.
Proof. constructor; by vm_compute. Qed.

Lemma example_connected_reachable : reachable example_connected.
Proof. eapply reachable_step; [apply example_started_reachable|apply example_step]. Qed.

Lemma example_connected_ok : process_ok example_connected.
Proof. apply process_running_ok, map_Forall_singleton. by vm_compute. Qed.

Lemma loop_step_preserves_witness :
  match loop_step (Conn (EvRead 0 (ReadLine "GET key1"))) example_connected with
  | Ok (_, p') => process_ok p'
  | Fault f => f = Undefined
  end.
Proof.
  apply (loop_step_preserves (Conn (EvRead 0 (ReadLine "GET key1"))) example_connected);
    [apply example_connected_ok|done|by vm_compute].
Defined.

Lemma reachable_ok_witness : process_ok example_connected.
Proof. apply (reachable_ok example_connected), example_connected_reachable. Defined.

Lemma reachable_no_deadlock_witness :
  loop_step (Conn (EvRead 0 (ReadLine "GET k"))) example_connected <> Fault Deadlock.
Proof.
  apply (reachable_no_deadlock example_connected (Conn (EvRead 0 (ReadLine "GET k"))));
    [apply example_connected_reachable|done|by vm_compute].
Defined.

Lemma steps_run_witness :
  g_main_loop_run [Conn (EvIncoming 0 100)] example_started
  = Ok (bool_decide (proc_loop example_connected = LoopQuit), example_connected).
Proof.
  apply (steps_run example_started example_connected [Conn (EvIncoming 0 100)]).
  eapply steps_cons; [apply example_step|apply steps_nil].
Defined.

Lemma reachable_sigint_quits_witness :
  exists p', g_main_loop_run (Sigint :: Idle :: [SaveTimer]) example_connected = Ok (true, p')
             /\ process_ok p' /\ proc_loop p' = LoopQuit
             /\ udb_db (srv_udb (proc_server p'))
                = udb_db (srv_udb (proc_server example_connected))
             /\ (forall path m,
                   proc_db_file example_connected = Some path ->
                   disk_write_error (proc_disk example_connected) = None ->
                   udb_db (srv_udb (proc_server example_connected)) = db_of m ->
                   proc_disk p' = disk_saved path m (proc_disk example_connected)
                   /\ srv_log (proc_server p') = srv_log (proc_server example_connected))
             /\ (forall path e,
                   proc_db_file example_connected = Some path ->
                   disk_write_error (proc_disk example_connected) = Some e ->
                   proc_disk p' = proc_disk example_connected
                   /\ srv_log (proc_server p')
                      = srv_log (proc_server example_connected) ++ [ErrDbSave e])
             /\ (proc_db_file example_connected = None ->
                 proc_disk p' = proc_disk example_connected
                 /\ srv_log (proc_server p')
                    = srv_log (proc_server example_connected)
                      ++ [Critical "db_save_to_file" "db_file_path != NULL"]).
Proof.
  apply (reachable_sigint_quits example_connected [SaveTimer]);
    [apply example_connected_reachable|done].
Defined.

(** The disk after that turn holds the snapshot of the table, and the
    socket is still bound. *)
Example sigint_saves_snapshot :
  match g_main_loop_run [Sigint; Idle; SaveTimer] example_connected with
  | Ok (_, p') =>
      disk_files (proc_disk p') !! "/tmp/udb.db" = Some (Regular (snapshot_data example_table))
      /\ disk_files (proc_disk p') !! "/tmp/udb.sock" = Some Socket
  | Fault _ => False
  end.
Proof. by vm_compute. Qed.

Lemma main_no_deadlock_witness :
  match main (environment_of None (Some "/tmp/udb.db"))
          (one_request 0 "GET key1" ++ [Sigint; Idle]) (process_start example_disk) with
  | Ok (Some _, _) => True
  | Ok (None, p) => process_ok p /\ proc_loop p = LoopRunning
  | Fault f => f = Undefined
  end.
Proof.
  apply (main_no_deadlock (environment_of None (Some "/tmp/udb.db"))
           (one_request 0 "GET key1" ++ [Sigint; Idle]) example_disk).
  intros p Hp. rewrite example_start in Hp. injection Hp as <-.
  apply (bool_decide_unpack _). by vm_compute.
Defined.

(** The invariant at work on a client that asks, is answered and
    leaves: after every callback the connection holds the reference of
    its read and nothing else, and at the end it is released. *)
Example connection_references :
  (olet '(_, p) := g_main_loop_run
                     (one_request 0 "GET key1" ++ [Conn (EvRead 0 ReadEof)]) example_started in
   Ok (conn_refs <$> srv_conns (proc_server p), bool_decide (process_ok p)))
  = Ok ({[ 0%nat := 0%nat ]}, true).
Proof. by vm_compute. Qed.

End examples.
